(* ===== verification/_CoqProject ===== *)
-Q . S2P
Prelude.v
Platform.v
GoTime.v
GoSort.v
Digest.v
ApiTypes.v
SyncIntent.v
ResourceScheduler.v
Committer.v
Workqueue.v
NamespaceScheduler.v
Location.v
PlacementScheduler.v
WorkloadPlacement.v
SyncTargets.v
Json.v
JsonValue.v
SyncerShared.v
Dns.v
SpecSync.v
StatusSync.v
DownstreamNamespace.v
Transformer.v
Coordination.v
SyncerViews.v
Upsync.v
Endpoints.v
Mutators.v
ApiResource.v
Negotiation.v
Shards.v
GoPath.v
SyncTargetUrls.v
VirtualServer.v
ApiReconciler.v
ApiExports.v
UpsyncerStorage.v
NsMap.v
ApiImporter.v
WorkspaceControllers.v
CliSync.v
CliWorkload.v
CliBind.v
ControllerManager.v
Tunnels.v
TunnelConns.v
Syncer.v
Lifecycle.v
Server.v
