(* ===== verification/Prelude.v ===== *)
(** * TMC: Transparent Multi-Cluster, a verification library

    TMC schedules the objects of kcp workspaces onto physical clusters. A
    scheduler on the kcp side decides which SyncTargets (clusters) a namespace
    and its objects go to and writes the decision on the objects, as labels,
    annotations and finalizers; a syncer per SyncTarget copies the objects down
    and their status up, and takes part in their removal through its finalizer.
    Each syncer sees the workspaces through a virtual workspace, that gives it its
    own view of an object and keeps the views apart; a coordination controller
    shares a deployment out among the views and sums their status up. Objects made
    downstream (the Endpoints of a Service, the pods) are copied up by the upsyncer.
    A negotiation controller finds the schema of a resource that all the clusters
    can serve. The parts hardly call each other: they communicate through the keys
    on the objects, so the theorems are about what each part reads and writes, and
    several of them put two parts together.

    ** Files

    - [Prelude] (this file): Go's errors, results, panics, maps, sets, map
      iteration order and strings; the effect monad [M] and its logic [guarded];
      the tactics and the hint databases.
    - [Platform]: API machinery data, and a class per library that the code
      calls (errors, label selectors, logical clusters and keys, schemas,
      conditions), with concrete instances.
    - [GoTime], [GoSort], [Digest], [Json]: the standard library the code relies
      on: RFC 3339 times, [sort.SliceStable], SHA-224 with base-62 text, and
      [encoding/json] on bytes.
    - [ApiTypes] (apis/workload, apis/scheduling): the keys, the SyncTarget key
      and the custom resources. [SyncIntent] (apis/workload/helpers): what an
      object asks of each SyncTarget.
    - [Committer] (pkg/reconciler/committer) and [Workqueue]: the patch between
      an object and its changed copy, and the loop that the scheduler's
      controllers share; a controller discharges the committer's contract by
      [one_sided].
    - [ResourceScheduler] (pkg/reconciler/workload/resource),
      [NamespaceScheduler] (.../workload/namespace), [Location] and
      [PlacementScheduler] (pkg/reconciler/scheduling), [WorkloadPlacement]
      (.../workload/placement), [SyncTargets] (.../workload/heartbeat in module
      Heartbeat, .../workload/synctargetexports in module Exports): the
      controllers of the scheduler.
    - [SyncerShared] (pkg/syncer/shared, pkg/syncer/indexers), [Dns]
      (pkg/syncer/spec/dns), [SpecSync] (pkg/syncer/spec), [StatusSync]
      (pkg/syncer/status), [DownstreamNamespace] (pkg/syncer/namespace),
      [Upsync] (pkg/syncer/upsync) and [Endpoints] (pkg/syncer/endpoints): the
      syncer. They share one type of events, one of answers ([World]) and one
      configuration ([SpecSync.Controller]). [Mutators] (pkg/syncer/spec/mutators)
      is what the spec syncer does to pod templates and secrets.
    - [JsonValue]: JSON values, their text and back, on top of [Json].
      [Transformer] (tmc/virtual/syncer/transformations): the syncer's view of an
      object, read ([AfterRead]) and written ([BeforeWrite]). [Coordination]
      (tmc/coordination, pkg/reconciler/coordination/deployment): the two passes
      over a deployment, against an interface ([SyncerViewRetriever])
      that [SyncerViews] implements with [Transformer].
    - [ApiResource] (apis/apiresource/v1alpha1) and [Negotiation]
      (pkg/reconciler/apiresource): conditions, columns and schemas of API
      resources, and the controller that negotiates and publishes them.
      [ApiExports] (pkg/reconciler/workload/apiexport): the schemas that an export
      lists, replaced when the negotiation changes them.
    - [Shards] (pkg/syncer/synctarget): how a syncer follows the shards of its
      SyncTarget: the shard manager as a step relation, tunnels, types to watch.
    - [GoPath]: [path.Clean] and [path.Join]. [SyncTargetUrls]
      (.../workload/synctarget): the URLs that a SyncTarget's status tells its syncer.
      [VirtualServer] (tmc/virtual/syncer/builder, .../schemas/builtin): which
      requests the virtual workspaces accept and for whom. [ApiReconciler]
      (tmc/virtual/syncer/controllers/apireconciler): the definitions that they serve
      per SyncTarget. [UpsyncerStorage] (tmc/virtual/syncer/upsyncer): how upsynced
      objects are transformed and checked when written.
    - [NsMap] (pkg/dns/plugin/nsmap, third_party/coredns): the plugin of the nameserver
      that [Dns] deploys and whose table [DownstreamNamespace] keeps. [ApiImporter]
      (pkg/syncer/apiimporter.go): the imports that [Negotiation] reads.
      [WorkspaceControllers] (.../workload/defaultlocation, replicateclusterrole,
      replicatelogicalcluster): the default location, and what is replicated for the
      authorizer of [VirtualServer].
    - [ControllerManager] (pkg/syncer/controllermanager): the controllers of a syncer
      that wait for types. [Tunnels] (pkg/tunneler, pkg/syncer/tunneler.go): which
      requests on pods the server proxies and the syncer lets through, and the pool of
      tunnels; [TunnelConns] (dialer.go and listener.go, a module each): the two ends of
      a tunnel as step relations.
    - [Syncer] (pkg/syncer/syncer.go, cmd/syncer): the options, the wait for the SyncTarget,
      the types that are watched on each side, and the heartbeat that
      [SyncTargets.Heartbeat] reads.
    - [Lifecycle]: the scheduler, the virtual workspace and the two syncers put together on
      one object. [Server] (tmc/server, config/crds): the definitions of the server's types
      (module Crds) and the hooks of its start (module Hooks).
    - The commands (pkg/cliplugins): [CliSync] (sync), which makes the SyncTarget and
      the permissions of its syncer, [CliWorkload] (cordon, uncordon, drain) and
      [CliBind] (bind compute, and bind apiexport in module Bind).

    ** How the code is read

    A pure function is a Rocq function. A Go function that calls a server, a
    queue or a clock is a computation in [M Ev]: it appends its calls to a
    history and the world answers by the history, so a theorem holds for all
    servers and all interleavings with other clients. [Err] is an error returned,
    [Panic] a run-time panic; [try] gives the pair (value, err) of a call whose
    error is inspected. Listers are functions given to a controller (of the
    history, in the syncer). A [map[string]string] is [gomap], with nil apart
    from empty; ranging over a map goes through [MapOrder], an unspecified
    enumeration. Deep copies are copies; where the code changes a cached object
    in place the history has an event for it. Type assertions on informer
    objects and logging are left out. Several goroutines on one state are a step
    relation, one step per critical section or channel operation: the cleaner of
    [DownstreamNamespace], the managers of [Shards] and [ControllerManager], the
    definitions of [ApiReconciler], the tunnels of [Tunnels] and [TunnelConns], the hooks of
    [Server]. In [Lifecycle] a step is a pass of a part on one object: it runs the part's own
    definition against caches that agree with the state at each of its calls, may
    stop after any of them, and any call may fail with or without having had its effect.

    ** What is shown

    - The life of an object ([Lifecycle]): with all parts at work, a copy on a physical
      cluster always has its upstream object, held by the finalizer of the syncer and
      labelled for its SyncTarget, so that no copy is left behind.
    - Scheduling of objects ([ResourceScheduler], [SyncIntent]): the patch of
      every branch, that applying it again and again reaches what the namespace
      asks for, that an object leaves a SyncTarget only when nobody holds it,
      that a queue key leads back to its object.
    - Scheduling of namespaces and placements ([NamespaceScheduler],
      [PlacementScheduler], [WorkloadPlacement], [Location], [SyncTargets]): the
      functional behaviour of the reconcilers, the phases of a placement, the
      choice of locations and SyncTargets, convergence of the two-phase removal,
      and which passes panic.
    - The syncer: nothing is applied downstream before the upstream object is
      claimed, nor released before the downstream object is gone; what exactly is
      applied; namespaces of others are not touched; locators and names lead back
      to the upstream object; the status syncer writes nothing but status; a
      namespace is deleted only after the delay and only when found empty.
    - The virtual workspace ([Transformer]): a syncer reads back the status it
      wrote, does not disturb the others, writes only what it is assigned, and its
      release of an object reaches the object.
    - Coordination ([Coordination], [SyncerViews]): replicas are shared out in full
      and evenly, the summary does not depend on the order of the views, a second
      pass sends nothing; the views that are summed up are those of the syncers.
    - Upsyncing ([Upsync], [Endpoints]): a mark of a copied version is honest, a pass
      that succeeds has copied everything, a dirty status is not forgotten, orphans
      go; the Endpoints that are labelled are those that are upsynced.
    - Pods ([Mutators]): the environment, the mounts, the secret and the name server
      of a mutated pod; the secret that it mounts is the one that is synced.
    - Negotiation ([Negotiation]): a schema is narrowed until every import that is
      called compatible serves it; definitions made by hand are left alone; exactly
      one version, the latest, is stored.
    - Shards ([Shards]): what the manager runs is what its state says, in all
      interleavings; a SyncTarget that is gone stops everything.
    - The virtual workspace server ([SyncTargetUrls], [VirtualServer],
      [ApiReconciler]): the status has the URLs of all shards in a fixed order; what a
      syncer requests under them is accepted for its SyncTarget and no other; the
      definitions that are served are those of the exports, and live; a second pass
      does nothing.
    - Exports ([ApiExports]): a schema is deleted only when the export lists its
      replacement.
    - Names of workspaces ([NsMap]): a service resolves under its upstream name, in the
      workspace of the syncer and nowhere else.
    - Imports ([ApiImporter]): every type of the cluster is imported, under a name by
      which it is found again, and nothing of another location is touched. [Syncer] shows
      that the informers that a syncer gives it do not have these imports.
    - Controllers that depend on types ([ControllerManager]): what runs is what is
      recorded, and after a pass it is what the informers allow.
    - Tunnels ([Tunnels], [TunnelConns]): what the server proxies goes to the SyncTarget
      of the pod and is let through there, and nothing else is; connections reach the
      syncer they were made by, and are handed out and accepted once; a closed dialer
      leaves nobody waiting; what can crash a listener.
    - Start of a syncer ([Syncer]): it watches what the virtual workspaces serve; its
      heartbeats count for its own SyncTarget, and the heartbeat controller sees them.
    - Start of the server ([Server]): its definitions are established before anything is
      built on them; the controllers run after the informers are in sync; once kcp's own
      server is up every hook returns and everything runs.
    - Commands ([CliSync], [CliWorkload], [CliBind]): the role that sync makes is what
      the virtual workspace asks for and what is replicated; what is asked for in the
      workspace; the names that are accepted; what cordon, uncordon and drain make of a
      SyncTarget as its schedulers see it; that what is missing is bound, and that
      success means ready.
    - Defects that the theorems expose are named by theorems too: lost requeues
      and cleanings, panics, names that do not lead back.

    ** Bounds and fuel

    Machine words are [Z] with their wrap-around written out where they matter
    (SHA-224 words, [time.Duration] saturation). Fuel: [Json.parse] has two units
    per byte and two more and never runs out ([parse_total]); [escape] has one
    per byte ([escape_go_fuel]); [Text62] has one per binary digit
    ([val62_Text62] reads every text back); [SplitN] recurses on its count,
    [Split] on one more than the length, and [path.Clean] folds over the elements; the
    merges of [GoSort] are bounded by the length of the slice and permute it in all
    cases ([SliceStable_perm]). A poll has a number of attempts, a parameter of the
    theorems about the commands, the syncer and the server.

    ** Not modelled

    The creation of clients, informers and options, the manifests of the root workspaces and
    the start of the virtual workspaces (tmc/server, config, cmd), which call libraries and
    keep no state; the registry of the API server library; the HTTP transports and proxies
    of the tunnels; the flags and the printed texts of the commands; generated code
    (clients, informers, listers, deep copies, OpenAPI). The text of a JSON number is kept as it is where Go would go
    through [float64]. Libraries that are parameters have a class with the laws
    that are used: label selectors, clusters and keys, schemas and their
    comparison, JSON patches, nested fields, pod templates, base 36, [sort.Slice]
    and [url.Parse]. *)

From stdpp Require Export prelude gmap strings list fin_maps sorting.
From Stdlib Require Export ZArith Ascii.

(** ** Go values: results of fallible code *)

(** The errors the code builds or inspects.  [ErrLib] is an error made by
    code outside the repository (an API status error, a parse error of a
    library): its reason is what predicates such as [IsNotFound] look at.
    [ErrMsg] is [errors.New] or [fmt.Errorf] without [%w]; [ErrWrap] is
    [fmt.Errorf] with [%w]; [ErrAggregate] is [utilerrors.NewAggregate]. *)
Inductive error :=
  | ErrLib (reason msg : string)
  | ErrMsg (msg : string)
  | ErrWrap (msg : string) (e : error)
  | ErrAggregate (es : list error).

(** What a call of a Go function ends in: a value, a non-nil error, or a
    run-time panic. *)
Inductive res (A : Type) :=
  | Ok (a : A)
  | Err (e : error)
  | Panic (msg : string).
Arguments Ok {_} _.
Arguments Err {_} _.
Arguments Panic {_} _.

#[global] Instance res_ret : MRet res := @Ok.
#[global] Instance res_bind : MBind res := fun A B f m =>
  match m with Ok a => f a | Err e => Err e | Panic s => Panic s end.
#[global] Instance res_fmap : FMap res := fun A B f m =>
  match m with Ok a => Ok (f a) | Err e => Err e | Panic s => Panic s end.

(** A Go pair [(value, err)]: a library call never panics here. *)
Abbreviation result A := (error + A)%type (only parsing).
Definition of_result {A} (r : result A) : res A :=
  match r with inl e => Err e | inr a => Ok a end.

#[global] Instance result_ret : MRet (sum error) := fun A a => inr a.
#[global] Instance result_bind : MBind (sum error) := fun A B f m =>
  match m with inl e => inl e | inr a => f a end.

Definition is_ok {A} (r : res A) : bool :=
  match r with Ok _ => true | _ => false end.
Definition is_panic {A} (r : res A) : bool :=
  match r with Panic _ => true | _ => false end.

(** ** Effects

    A computation that calls the API server, a work queue or a clock appends
    one event per call to a history.  The world that answers is a function of
    the history so far, so that a theorem quantified over it holds for every
    server and every interleaving with other clients. *)

Definition M (Ev A : Type) : Type := list Ev -> list Ev * res A.

#[global] Instance M_ret {Ev} : MRet (M Ev) := fun A a h => (h, Ok a).
#[global] Instance M_bind {Ev} : MBind (M Ev) := fun A B f m h =>
  match m h with
  | (h', Ok a) => f a h'
  | (h', Err e) => (h', Err e)
  | (h', Panic s) => (h', Panic s)
  end.

(** [call e answer]: make the call [e], the world answers the history that
    ends with it. *)
Definition call {Ev A} (e : Ev) (answer : list Ev -> result A) : M Ev A :=
  fun h => (h ++ [e], of_result (answer (h ++ [e]))).
(** A call nobody waits for (a queue operation, a log-like effect). *)
Definition emit {Ev} (e : Ev) : M Ev unit := fun h => (h ++ [e], Ok tt).
Definition lift {Ev A} (r : res A) : M Ev A := fun h => (h, r).
(** A read: no event, the world's answer is fixed. *)
Definition read {Ev A} (r : result A) : M Ev A := lift (of_result r).
Definition fail {Ev A} (e : error) : M Ev A := lift (Err e).
(** [try m]: the Go pair [(value, err)] of a call, for code that inspects
    [err] before deciding. A panic still propagates. *)
Definition try {Ev A} (m : M Ev A) : M Ev (result A) := fun h =>
  match m h with
  | (h', Ok a) => (h', Ok (inr a))
  | (h', Err e) => (h', Ok (inl e))
  | (h', Panic s) => (h', Panic s)
  end.
Definition run {Ev A} (m : M Ev A) : list Ev * res A := m [].
Definition trace {Ev A} (m : M Ev A) : list Ev := (run m).1.
Definition outcome {Ev A} (m : M Ev A) : res A := (run m).2.

(** Loops whose body only has effects. *)
Fixpoint for_each {Ev A} (l : list A) (f : A -> M Ev unit) : M Ev unit :=
  match l with
  | [] => mret tt
  | x :: l => f x;; for_each l f
  end.

(** ** Go maps and sets *)

(** A Go [map[string]string] variable: [None] is the nil map. Reading a nil
    map finds nothing, deleting from it does nothing, writing to it panics. *)
Abbreviation gomap := (option (gmap string string)).

Definition entries (m : gomap) : gmap string string := default ∅ m.
Definition map_get (m : gomap) (k : string) : option string := entries m !! k.
(** [m[k]] as an expression: the zero value when absent. *)
Definition map_index (m : gomap) (k : string) : string := default "" (map_get m k).
Definition map_set (m : gomap) (k v : string) : res gomap :=
  match m with
  | Some m => Ok (Some (<[k := v]> m))
  | None => Panic "assignment to entry in nil map"
  end.
Definition map_delete (m : gomap) (k : string) : gomap := delete k <$> m.

(** The order of [for k, v := range m] is unspecified in Go: it is a
    parameter, some enumeration of the map. *)
Class MapOrder := {
  map_range : forall {A}, gmap string A -> list (string * A);
  map_range_perm : forall A (m : gmap string A), map_range m ≡ₚ map_to_list m;
}.

(** [for k := range s] over a [sets.Set[string]], which is a Go map. *)
Definition set_range `{!MapOrder} (s : gset string) : list string :=
  (map_range (gset_to_gmap tt s)).*1.

(** Two enumerations, to run the definitions on concrete inputs. *)
Definition canonical_order : MapOrder :=
  {| map_range A m := map_to_list m; map_range_perm A m := reflexivity _ |}.
Program Definition reverse_order : MapOrder :=
  {| map_range A m := reverse (map_to_list m) |}.
Next Obligation. intros A m. apply reverse_Permutation. Qed.

(** [sets.List(s)]: the elements in increasing byte order. *)
Definition string_leb (a b : string) : bool :=
  match String.compare a b with Gt => false | _ => true end.
Definition string_le (a b : string) : Prop := string_leb a b = true.
#[global] Instance string_le_dec : RelDecision string_le :=
  fun a b => bool_eq_dec (string_leb a b) true.
Definition set_list (s : gset string) : list string :=
  merge_sort string_le (elements s).

(** ** Strings *)

Fixpoint strip_prefix (p s : string) : option string :=
  match p, s with
  | EmptyString, _ => Some s
  | String a p, String b s => if decide (a = b) then strip_prefix p s else None
  | String _ _, EmptyString => None
  end.
(** [strings.HasPrefix] and [strings.TrimPrefix], with Go's argument order. *)
Definition HasPrefix (s p : string) : bool :=
  if strip_prefix p s is Some _ then true else false.
Definition TrimPrefix (s p : string) : string := default s (strip_prefix p s).

(** [strings.Join]. *)
Fixpoint Join (l : list string) (sep : string) : string :=
  match l with
  | [] => ""
  | [s] => s
  | s :: l => s +:+ sep +:+ Join l sep
  end.

(** [strings.Cut]: around the first occurrence of [sep]. *)
Fixpoint Cut (s sep : string) {struct s} : option (string * string) :=
  match strip_prefix sep s with
  | Some r => Some ("", r)
  | None =>
      match s with
      | EmptyString => None
      | String a s' =>
          match Cut s' sep with
          | Some (x, y) => Some (String a x, y)
          | None => None
          end
      end
  end.
(** [strings.SplitN(s, sep, n)] and [strings.Split(s, sep)] for a non-empty
    separator: a string has at most one more piece than bytes. *)
Fixpoint SplitN (s sep : string) (n : nat) : list string :=
  match n with
  | O => []
  | 1 => [s]
  | S n =>
      match Cut s sep with
      | Some (a, b) => a :: SplitN b sep n
      | None => [s]
      end
  end.
Definition Split (s sep : string) : list string := SplitN s sep (S (String.length s)).

(** [err.Error()]. *)
Fixpoint error_text (e : error) : string :=
  match e with
  | ErrLib _ msg => msg
  | ErrMsg msg => msg
  | ErrWrap msg e => msg +:+ ": " +:+ error_text e
  | ErrAggregate es => "[" +:+ Join (List.map error_text es) ", " +:+ "]"
  end.

(** * Lemmas *)

(** ** Strings *)

Lemma strip_prefix_Some p s r : strip_prefix p s = Some r <-> s = p +:+ r.
Proof.
  revert s; induction p as [|a p IH]; intros s; simpl.
  { split; [by intros [= ->]|by intros ->]. }
  destruct s as [|b s]; simpl; [split; discriminate|].
  case_decide as E; subst.
  - rewrite IH. split; [by intros ->|]. by inversion 1.
  - split; [done|]. intros H; inversion H; congruence.
Qed.

Lemma HasPrefix_spec s p : HasPrefix s p = true <-> exists r, s = p +:+ r.
Proof.
  unfold HasPrefix. destruct (strip_prefix p s) as [r|] eqn:E.
  - apply strip_prefix_Some in E. split; eauto.
  - split; [done|]. intros [r Hr]. apply strip_prefix_Some in Hr. congruence.
Qed.

Lemma HasPrefix_app p r : HasPrefix (p +:+ r) p = true.
Proof. apply HasPrefix_spec; eauto. Qed.

Lemma TrimPrefix_app p r : TrimPrefix (p +:+ r) p = r.
Proof.
  unfold TrimPrefix. by rewrite (proj2 (strip_prefix_Some p (p +:+ r) r)).
Qed.

Lemma HasPrefix_Trim s p : HasPrefix s p = true -> s = p +:+ TrimPrefix s p.
Proof. intros [r ->]%HasPrefix_spec. by rewrite TrimPrefix_app. Qed.

#[global] Instance prefix_inj p : Inj (=) (=) (String.append p).
Proof.
  intros x y H. apply (f_equal (fun s => TrimPrefix s p)) in H.
  by rewrite !TrimPrefix_app in H.
Qed.

Lemma string_app_cons a s t : String a s +:+ t = String a (s +:+ t).
Proof. done. Qed.

Lemma string_app_nil s : s +:+ "" = s.
Proof. induction s as [|a s IH]; [done|]. by rewrite string_app_cons, IH. Qed.

Lemma string_app_assoc a b c : (a +:+ b) +:+ c = a +:+ (b +:+ c).
Proof. induction a as [|x a IH]; [done|]. by rewrite !string_app_cons, IH. Qed.

Lemma string_app_length a b :
  String.length (a +:+ b) = String.length a + String.length b.
Proof.
  induction a as [|x a IH]; [done|]. rewrite string_app_cons. simpl. by rewrite IH.
Qed.

(** A separator is found at its first byte's first occurrence. *)
Lemma Cut_first s c sep r :
  c ∉ String.list_ascii_of_string s ->
  Cut (s +:+ String c sep +:+ r) (String c sep) = Some (s, r).
Proof.
  induction s as [|a s IH]; intros Hc.
  - change ("" +:+ String c sep +:+ r) with (String c sep +:+ r).
    rewrite string_app_cons. simpl.
    rewrite decide_True by done. by rewrite (proj2 (strip_prefix_Some sep _ r)).
  - rewrite string_app_cons. simpl in *. apply not_elem_of_cons in Hc as [Hne Hc].
    rewrite decide_False by done. by rewrite IH.
Qed.

(** A text without the separator's first byte is not cut. *)
Lemma Cut_none s c sep :
  c ∉ String.list_ascii_of_string s -> Cut s (String c sep) = None.
Proof.
  induction s as [|a s IH]; simpl; [done|].
  intros [Hne Hc]%not_elem_of_cons. rewrite decide_False by done. by rewrite IH.
Qed.

(** The byte order on strings is total: sorting does not depend on the order
    in which a map or a set is enumerated. *)
#[global] Instance string_le_total : Total string_le.
Proof.
  intros a b. unfold string_le, string_leb. rewrite (String.compare_antisym a b).
  destruct (String.compare b a); simpl; auto.
Qed.
#[global] Instance string_le_antisymm : AntiSymm (=) string_le.
Proof.
  intros a b. unfold string_le, string_leb. rewrite (String.compare_antisym a b).
  destruct (String.compare b a) eqn:E; simpl; try done.
  intros _ _. symmetry. by apply String.compare_eq_iff.
Qed.
#[global] Instance string_le_trans : Transitive string_le.
Proof.
  intros a. unfold string_le, string_leb.
  induction a as [|x a IH]; intros [|y b] [|z c]; simpl; try done.
  unfold Ascii.compare.
  destruct (N.compare_spec (N_of_ascii x) (N_of_ascii y)),
    (N.compare_spec (N_of_ascii y) (N_of_ascii z)),
    (N.compare_spec (N_of_ascii x) (N_of_ascii z)); try done; try lia; apply IH.
Qed.
Lemma sort_unique l l' : l ≡ₚ l' -> merge_sort string_le l = merge_sort string_le l'.
Proof.
  intros Hp. apply (Sorted_unique string_le); try apply Sorted_merge_sort; try apply _.
  by rewrite !merge_sort_Permutation.
Qed.

(** ** Iteration orders and sets *)

Lemma elem_of_map_range `{!MapOrder} {A} (m : gmap string A) k x :
  (k, x) ∈ map_range m <-> m !! k = Some x.
Proof. rewrite map_range_perm. apply elem_of_map_to_list. Qed.

Lemma NoDup_map_range `{!MapOrder} {A} (m : gmap string A) :
  NoDup (map_range m).*1.
Proof. rewrite map_range_perm. apply NoDup_fst_map_to_list. Qed.

Lemma elem_of_set_range `{!MapOrder} (s : gset string) x :
  x ∈ set_range s <-> x ∈ s.
Proof.
  unfold set_range. rewrite list_elem_of_fmap. split.
  - intros [[k []] [-> Hk]]; simpl.
    by apply elem_of_map_range, lookup_gset_to_gmap_Some in Hk as [Hx _].
  - intros Hx. exists (x, tt). split; [done|].
    apply elem_of_map_range, lookup_gset_to_gmap_Some. done.
Qed.

Lemma NoDup_set_range `{!MapOrder} (s : gset string) : NoDup (set_range s).
Proof. apply NoDup_map_range. Qed.

Lemma elem_of_set_list (s : gset string) x : x ∈ set_list s <-> x ∈ s.
Proof. unfold set_list. by rewrite merge_sort_Permutation, elem_of_elements. Qed.

Lemma NoDup_set_list (s : gset string) : NoDup (set_list s).
Proof. unfold set_list. rewrite merge_sort_Permutation. apply NoDup_elements. Qed.

(** ** Maps *)

Lemma map_get_set m k v m' k' :
  map_set m k v = Ok m' ->
  map_get m' k' = if decide (k = k') then Some v else map_get m k'.
Proof.
  destruct m as [m|]; simpl; [|done]. intros [= <-].
  unfold map_get; simpl. by rewrite lookup_insert.
Qed.

Lemma map_get_delete m k k' :
  map_get (map_delete m k) k' = if decide (k = k') then None else map_get m k'.
Proof.
  destruct m as [m|]; unfold map_get; simpl.
  - by rewrite lookup_delete.
  - by case_decide; rewrite lookup_empty.
Qed.

Lemma map_set_ok m k v : is_Some m -> exists m', map_set m k v = Ok m'.
Proof. intros [m' ->]. simpl. eauto. Qed.

(** Loops that set at most one key per element. *)
Definition insert_all {A} (key : string -> string) (val : string -> option A)
    (p : gmap string A) (l : list string) : gmap string A :=
  foldl (fun p x => match val x with Some v => <[ key x := v ]> p | None => p end) p l.

Lemma insert_all_lookup {A} key `{!Inj (=) (=) key} (val : string -> option A) p l x :
  insert_all key val p l !! key x =
    if decide (x ∈ l) then match val x with Some v => Some v | None => p !! key x end
    else p !! key x.
Proof.
  revert p. unfold insert_all. induction l as [|y l IH]; intros p; simpl.
  { by destruct (decide (x ∈ [])) as [E%elem_of_nil|]. }
  rewrite IH. clear IH. destruct (decide (x = y)) as [->|Hne].
  - rewrite (decide_True (P := y ∈ y :: l)) by apply list_elem_of_here.
    destruct (val y); [rewrite lookup_insert_eq|]; by destruct (decide (y ∈ l)).
  - assert ((match val y with Some v => <[ key y := v ]> p | None => p end) !! key x
      = p !! key x) as ->.
    { destruct (val y); [|done]. rewrite lookup_insert_ne; [done|].
      by intros ?%(inj key). }
    pose proof (elem_of_cons l x y).
    destruct (decide (x ∈ l)), (decide (x ∈ y :: l)); try done; tauto.
Qed.

(** The same over the sorted elements of a set. *)
Lemma insert_all_set_list {A} key `{!Inj (=) (=) key} (val : string -> option A) p s x :
  insert_all key val p (set_list s) !! key x =
    if decide (x ∈ s) then match val x with Some v => Some v | None => p !! key x end
    else p !! key x.
Proof.
  rewrite insert_all_lookup by done. pose proof (elem_of_set_list s x).
  destruct (decide (x ∈ s)), (decide (x ∈ set_list s)); try done; tauto.
Qed.

Lemma insert_all_set_range `{!MapOrder} {A} key `{!Inj (=) (=) key}
    (val : string -> option A) p s x :
  insert_all key val p (set_range s) !! key x =
    if decide (x ∈ s) then match val x with Some v => Some v | None => p !! key x end
    else p !! key x.
Proof.
  rewrite insert_all_lookup by done. pose proof (elem_of_set_range s x).
  destruct (decide (x ∈ s)), (decide (x ∈ set_range s)); try done; tauto.
Qed.

(** A test of one key while ranging over a map. *)
Lemma existsb_map_range `{!MapOrder} {A} (m : gmap string A) (f : string -> A -> bool) k :
  existsb (fun kv => bool_decide (kv.1 = k) && f kv.1 kv.2) (map_range m) =
    match m !! k with Some v => f k v | None => false end.
Proof.
  apply eq_true_iff_eq. rewrite existsb_exists. split.
  - intros ([k' v] & Hin%list_elem_of_In & [E%bool_decide_eq_true Hf]%andb_prop).
    apply elem_of_map_range in Hin. simpl in *. subst. by rewrite Hin.
  - destruct (m !! k) as [v|] eqn:E; [|done]. intros Hf. exists (k, v).
    split; [by apply list_elem_of_In, elem_of_map_range|]. simpl.
    by rewrite bool_decide_true.
Qed.

Lemma insert_all_other {A} key (val : string -> option A) p l k :
  (forall x, k <> key x) -> insert_all key val p l !! k = p !! k.
Proof.
  intros Hk. revert p. unfold insert_all. induction l as [|y l IH]; intros p; simpl; [done|].
  rewrite IH. destruct (val y); [|done]. by rewrite lookup_insert_ne.
Qed.

(** A loop over a pair of accumulators that it updates independently. *)
Lemma foldl_pair {A B X} (f : A -> X -> A) (g : B -> X -> B) l (a : A) (b : B) :
  foldl (fun p x => (f p.1 x, g p.2 x)) (a, b) l = (foldl f a l, foldl g b l).
Proof. revert a b. induction l as [|x l IH]; intros a b; simpl; [done|]. apply IH. Qed.

Lemma foldl_ext {A X} (f g : A -> X -> A) l a :
  (forall a x, f a x = g a x) -> foldl f a l = foldl g a l.
Proof.
  intros E. revert a. induction l as [|x l IH]; intros a; simpl; [done|]. by rewrite E, IH.
Qed.

(** ** Effects *)

Lemma bind_ok {Ev A B} (m : M Ev A) (f : A -> M Ev B) h h' a :
  m h = (h', Ok a) -> (m ≫= f) h = f a h'.
Proof. unfold mbind, M_bind. by intros ->. Qed.

Lemma bind_inv {Ev A B} (m : M Ev A) (f : A -> M Ev B) h h' b :
  (m ≫= f) h = (h', Ok b) -> exists h1 a, m h = (h1, Ok a) /\ f a h1 = (h', Ok b).
Proof. unfold mbind, M_bind. destruct (m h) as [h1 [a|e|s]]; naive_solver. Qed.
Lemma try_inv {Ev A} (m : M Ev A) h h' r :
  try m h = (h', Ok r) -> m h = (h', of_result r).
Proof. unfold try. destruct (m h) as [h1 [a|e|s]]; naive_solver. Qed.

Lemma of_result_inj {A} (a b : result A) : of_result a = of_result b -> a = b.
Proof. destruct a, b; cbn; congruence. Qed.
Lemma call_no_panic {Ev A} (e : Ev) (answer : list Ev -> result A) h :
  is_panic (call e answer h).2 = false.
Proof. unfold call, of_result; simpl. by destruct (answer _). Qed.

(** ** A logic of calls

    [guarded P m h]: from the history [h], every event that [m] makes satisfies
    [P] at the history that precedes it. The rules follow the structure of the
    program; [guarded_bind] hands the continuation the outcome of the first
    part, so that a later call can be justified by an earlier answer. *)

Definition guarded {Ev A} (P : list Ev -> Ev -> Prop) (m : M Ev A) (h : list Ev) : Prop :=
  exists t : list Ev, (m h).1 = h ++ t /\
    forall t1 e t2, t = t1 ++ e :: t2 -> P (h ++ t1) e.

Section guarded.
Context {Ev : Type} (P : list Ev -> Ev -> Prop).

Lemma guarded_quiet {A} (m : M Ev A) h : (m h).1 = h -> guarded P m h.
Proof. intros H. exists []. rewrite app_nil_r. split; [done|]. by intros [] ? ?. Qed.
Lemma guarded_ret {A} (a : A) h : guarded P (mret a) h.
Proof. by apply guarded_quiet. Qed.
Lemma guarded_lift {A} (r : res A) h : guarded P (lift r) h.
Proof. by apply guarded_quiet. Qed.
Lemma guarded_fail {A} (e : error) h : guarded P (fail (A:=A) e) h.
Proof. by apply guarded_quiet. Qed.
Lemma guarded_one {A} (m : M Ev A) h e : (m h).1 = h ++ [e] -> P h e -> guarded P m h.
Proof.
  intros H He. exists [e]. split; [done|]. intros t1 e' t2 E.
  destruct t1 as [|x t1]; simplify_eq/=; [by rewrite app_nil_r|]. by destruct t1.
Qed.
Lemma guarded_call {A} e (answer : list Ev -> result A) h : P h e -> guarded P (call e answer) h.
Proof. by apply guarded_one. Qed.
Lemma guarded_emit e h : P h e -> guarded P (emit e) h.
Proof. by apply guarded_one. Qed.
Lemma guarded_bind {A B} (m : M Ev A) (f : A -> M Ev B) h :
  guarded P m h -> (forall h' a, m h = (h', Ok a) -> guarded P (f a) h') ->
  guarded P (m ≫= f) h.
Proof.
  intros (t & Ht & Hm) Hf. unfold guarded, mbind, M_bind in *.
  destruct (m h) as [h' [a|e|s]]; simpl in *; [|by exists t..]. subst.
  destruct (Hf _ a eq_refl) as (t' & -> & Hf'). exists (t ++ t'). rewrite app_assoc. split; [done|].
  intros t1 e t2 E. apply app_eq_inv in E as [(k & -> & E)|(k & -> & ->)];
    [|rewrite app_assoc; by eapply Hf'].
  - destruct k as [|x k]; simplify_eq/=; [|by eapply Hm].
    specialize (Hf' [] e t2 eq_refl). by rewrite !app_nil_r in Hf'.
Qed.
Lemma guarded_try {A} (m : M Ev A) h : guarded P m h -> guarded P (try m) h.
Proof.
  intros (t & Ht & Hm). exists t. split; [|done]. rewrite <-Ht. unfold try.
  by destruct (m h) as [? []].
Qed.
Lemma guarded_for_each {A} (f : A -> M Ev unit) (l : list A) h :
  (forall a h', a ∈ l -> guarded P (f a) h') -> guarded P (for_each l f) h.
Proof.
  revert h. induction l as [|a l IH]; intros h Hf; [apply guarded_ret|].
  apply guarded_bind; [apply Hf, list_elem_of_here|]. intros h' ? _. apply IH.
  intros b h2 Hb. by apply Hf, list_elem_of_further.
Qed.
(** The same where what is shown depends on what was done before the loop. *)
Lemma guarded_for_each_from {A} (f : A -> M Ev unit) (l : list A) h :
  (forall a h', a ∈ l -> h `prefix_of` h' -> guarded P (f a) h') -> guarded P (for_each l f) h.
Proof.
  assert (H : forall h0, h `prefix_of` h0 ->
    (forall a h', a ∈ l -> h `prefix_of` h' -> guarded P (f a) h') -> guarded P (for_each l f) h0).
  { induction l as [|a l IH]; intros h0 Hh Hf; [apply guarded_ret|].
    pose proof (Hf a h0 (list_elem_of_here _ _) Hh) as Hg. apply guarded_bind; [done|].
    intros h' x Hx. destruct Hg as (t & Ht & _). rewrite Hx in Ht. cbn in Ht. subst h'.
    apply IH; [by apply prefix_app_r|]. intros. apply Hf; [by apply list_elem_of_further|done]. }
  intros Hf. by apply H.
Qed.
Lemma guarded_mono {A} (Q : list Ev -> Ev -> Prop) (m : M Ev A) h :
  guarded Q m h -> (forall h' e, Q h' e -> P h' e) -> guarded P m h.
Proof. intros (t & Ht & Hm) HQ. exists t. split; [done|]. eauto. Qed.
End guarded.

(** A computation that never panics, from any history and whatever the answers. *)
Definition safe {Ev A} (m : M Ev A) : Prop := forall h, is_panic (m h).2 = false.
Section safe.
Context {Ev : Type}.
Lemma safe_ret {A} (a : A) : safe (Ev:=Ev) (mret a).
Proof. done. Qed.
Lemma safe_fail {A} (e : error) : safe (Ev:=Ev) (fail (A:=A) e).
Proof. done. Qed.
Lemma safe_emit (e : Ev) : safe (emit e).
Proof. done. Qed.
Lemma safe_call {A} (e : Ev) (answer : list Ev -> result A) : safe (call e answer).
Proof. intros h. apply call_no_panic. Qed.
Lemma safe_read {A} (r : result A) : safe (Ev:=Ev) (read r).
Proof. intros h. by destruct r. Qed.
Lemma safe_bind {A B} (m : M Ev A) (f : A -> M Ev B) :
  safe m -> (forall a, safe (f a)) -> safe (m ≫= f).
Proof.
  intros Hm Hf h. unfold mbind, M_bind. specialize (Hm h). destruct (m h) as [h' [a|e|s]]; try done.
  apply Hf.
Qed.
Lemma safe_try {A} (m : M Ev A) : safe m -> safe (try m).
Proof. intros Hm h. unfold try. specialize (Hm h). by destruct (m h) as [h' []]. Qed.
Lemma safe_for_each {A} (l : list A) (f : A -> M Ev unit) :
  (forall a, safe (f a)) -> safe (for_each l f).
Proof. intros Hf. induction l as [|a l IH]; [done|]. by apply safe_bind. Qed.
End safe.

(** A loop whose body always succeeds appends the bodies' events in order. *)
Lemma for_each_total {Ev A} (f : A -> M Ev unit) (g : A -> list Ev) l h :
  (forall x h, x ∈ l -> f x h = (h ++ g x, Ok tt)) ->
  for_each l f h = (h ++ concat (g <$> l), Ok tt).
Proof.
  revert h. induction l as [|x l IH]; intros h Hf; simpl; [by rewrite app_nil_r|].
  rewrite (bind_ok _ _ _ _ _ (Hf x h (list_elem_of_here _ _))), IH.
  - by rewrite app_assoc.
  - intros y h' Hy. by apply Hf, list_elem_of_further.
Qed.

Lemma concat_singletons {A B} (f : A -> B) l : concat ((fun x => [f x]) <$> l) = f <$> l.
Proof. induction l as [|x l IH]; [done|]. rewrite !fmap_cons. cbn [concat app]. by rewrite IH. Qed.

Lemma fmap_NoDup_inj {A B} (f : A -> B) (l : list A) x y :
  NoDup (f <$> l) -> x ∈ l -> y ∈ l -> f x = f y -> x = y.
Proof.
  intros Hd [i Hi]%list_elem_of_lookup [j Hj]%list_elem_of_lookup E.
  assert (i = j) as ->; [|congruence].
  eapply (NoDup_lookup (f <$> l)); [done|by rewrite list_lookup_fmap, Hi|]. by rewrite list_lookup_fmap, Hj, E.
Qed.

(** * Automation *)

(** Split the program's branches one at a time, with their equations. *)
Ltac branch :=
  match goal with
  | |- context [match ?x with _ => _ end] => destruct x eqn:?
  | |- context [if ?b then _ else _] => destruct b eqn:?
  end.
Ltac branches := repeat (branch; simplify_eq/=).

(** Run an effectful definition: unfold the monad and compute. *)
Ltac run_M := unfold run, trace, outcome, mbind, M_bind, mret, M_ret,
  call, emit, lift, read, of_result, fail, try, res_bind in *; simpl in *.

Create HintDb go.
Create Rewrite HintDb go.
#[export] Hint Resolve HasPrefix_app : go.
#[export] Hint Rewrite TrimPrefix_app HasPrefix_app @map_get_delete : go.
#[export] Hint Rewrite @elem_of_set_range elem_of_set_list : go.

(** Walk through an effectful definition: bring each call in front, name the
    answers, split the branches. Leaves the events to justify. *)
Ltac guarded_step :=
  match goal with
  | |- guarded _ (mret _) _ => apply guarded_ret
  | |- guarded _ (fail _) _ => apply guarded_fail
  | |- guarded _ (lift _) _ => apply guarded_lift
  | |- guarded _ (call _ _) _ => apply guarded_call
  | |- guarded _ (emit _) _ => apply guarded_emit
  | |- guarded _ (try _) _ => apply guarded_try
  | |- guarded _ (mbind _ _) _ => apply guarded_bind; [|intros ? ? ?]
  | |- guarded _ (match ?x with _ => _ end) _ => destruct x eqn:?
  end.
(** Follow the structure of a program that never panics. *)
Ltac safe_step :=
  match goal with
  | |- safe (mret _) => apply safe_ret
  | |- safe (fail _) => apply safe_fail
  | |- safe (emit _) => apply safe_emit
  | |- safe (call _ _) => apply safe_call
  | |- safe (read _) => apply safe_read
  | |- safe (try _) => apply safe_try
  | |- safe (for_each _ _) => apply safe_for_each; intros ?
  | |- safe (mbind _ _) => apply safe_bind; [|intros ?]
  | |- safe (match ?x with _ => _ end) => destruct x
  end.
(** Take a successful run apart, one bind at a time. *)
Ltac unbind H :=
  let h1 := fresh "h" in let a := fresh "a" in let Hm := fresh "Hm" in
  apply bind_inv in H as (h1 & a & Hm & H).
