(* ===== verification/Platform.v ===== *)
(** * The platform: Kubernetes and kcp code the repository calls

    The data types of the API machinery (plain structs), and one type class
    per library the code relies on: API errors, label selectors, logical
    clusters and cache keys, conditions.  Their operations are parameters of
    the whole development; the class laws state documented behaviour.  The
    instances at the end are small concrete libraries on which the definitions
    can be run. *)

From S2P Require Import Prelude.

(** ** Data of the API machinery *)

(** An instant, in nanoseconds since the Unix epoch. *)
Abbreviation Time := Z (only parsing).
(** [time.Time{}]: January 1, year 1, 00:00:00 UTC. *)
Definition ZeroTime : Time := (-62135596800000000000)%Z.
Definition IsZero (t : Time) : bool := bool_decide (t = ZeroTime).
Definition Second : Z := 1000000000%Z.

(** [metav1.OwnerReference]. *)
Record OwnerReference := {
  or_APIVersion : string;
  or_Kind : string;
  or_Name : string;
  or_UID : string;
  or_Controller : option bool;
  or_BlockOwnerDeletion : option bool;
}.
#[global] Instance OwnerReference_eq_dec : EqDecision OwnerReference.
Proof. solve_decision. Defined.

(** [metav1.ObjectMeta], and the metadata of an [unstructured.Unstructured]:
    the fields the code reads or writes. *)
Record ObjectMeta := {
  Name : string;
  Namespace : string;
  UID : string;
  ResourceVersion : string;
  Labels : gomap;
  Annotations : gomap;
  Finalizers : list string;
  DeletionTimestamp : option Time;
  CreationTimestamp : Time;
  OwnerReferences : list OwnerReference;
}.
#[global] Instance ObjectMeta_eq_dec : EqDecision ObjectMeta.
Proof. solve_decision. Defined.

Definition with_labels (o : ObjectMeta) (l : gomap) : ObjectMeta :=
  {| Name := Name o; Namespace := Namespace o; UID := UID o;
     ResourceVersion := ResourceVersion o; Labels := l;
     Annotations := Annotations o; Finalizers := Finalizers o;
     DeletionTimestamp := DeletionTimestamp o;
     CreationTimestamp := CreationTimestamp o;
     OwnerReferences := OwnerReferences o |}.
Definition with_annotations (o : ObjectMeta) (a : gomap) : ObjectMeta :=
  {| Name := Name o; Namespace := Namespace o; UID := UID o;
     ResourceVersion := ResourceVersion o; Labels := Labels o;
     Annotations := a; Finalizers := Finalizers o;
     DeletionTimestamp := DeletionTimestamp o;
     CreationTimestamp := CreationTimestamp o;
     OwnerReferences := OwnerReferences o |}.
Definition with_finalizers (o : ObjectMeta) (f : list string) : ObjectMeta :=
  {| Name := Name o; Namespace := Namespace o; UID := UID o;
     ResourceVersion := ResourceVersion o; Labels := Labels o;
     Annotations := Annotations o; Finalizers := f;
     DeletionTimestamp := DeletionTimestamp o;
     CreationTimestamp := CreationTimestamp o;
     OwnerReferences := OwnerReferences o |}.
(** An object with only a name and labels, annotations and finalizers. *)
Definition mk_meta (n ns : string) (l a : gomap) (f : list string) : ObjectMeta :=
  {| Name := n; Namespace := ns; UID := ""; ResourceVersion := "";
     Labels := l; Annotations := a; Finalizers := f;
     DeletionTimestamp := None; CreationTimestamp := ZeroTime;
     OwnerReferences := [] |}.

(** [schema.GroupVersionResource] and [schema.GroupResource]. *)
Record GroupVersionResource := {
  gvr_Group : string;
  gvr_Version : string;
  gvr_Resource : string;
}.
#[global] Instance GroupVersionResource_eq_dec : EqDecision GroupVersionResource.
Proof. solve_decision. Defined.
Record GroupResource := { gr_Group : string; gr_Resource : string }.
#[global] Instance GroupResource_eq_dec : EqDecision GroupResource.
Proof. solve_decision. Defined.

#[global] Program Instance GroupVersionResource_countable : Countable GroupVersionResource :=
  inj_countable' (fun g => (gvr_Group g, gvr_Version g, gvr_Resource g))
    (fun p => {| gvr_Group := p.1.1; gvr_Version := p.1.2; gvr_Resource := p.2 |}) _.
Next Obligation. by intros []. Qed.
#[global] Program Instance GroupResource_countable : Countable GroupResource :=
  inj_countable' (fun g => (gr_Group g, gr_Resource g))
    (fun p => {| gr_Group := p.1; gr_Resource := p.2 |}) _.
Next Obligation. by intros []. Qed.

(** [metav1.LabelSelector]. *)
Record LabelSelectorRequirement := {
  req_Key : string;
  req_Operator : string;
  req_Values : list string;
}.
#[global] Instance LabelSelectorRequirement_eq_dec : EqDecision LabelSelectorRequirement.
Proof. solve_decision. Defined.
Record LabelSelector := {
  MatchLabels : gomap;
  MatchExpressions : list LabelSelectorRequirement;
}.
#[global] Instance LabelSelector_eq_dec : EqDecision LabelSelector.
Proof. solve_decision. Defined.

(** [conditionsv1alpha1.Condition]. *)
Inductive ConditionStatus := ConditionTrue | ConditionFalse | ConditionUnknown.
#[global] Instance ConditionStatus_eq_dec : EqDecision ConditionStatus.
Proof. solve_decision. Defined.
Record Condition := {
  c_Type : string;
  c_Status : ConditionStatus;
  c_Severity : string;
  c_LastTransitionTime : Time;
  c_Reason : string;
  c_Message : string;
}.
#[global] Instance Condition_eq_dec : EqDecision Condition.
Proof. solve_decision. Defined.
Abbreviation Conditions := (list Condition) (only parsing).

(** ** Libraries *)

(** [k8s.io/apimachinery/pkg/api/errors] and [.../util/errors]. *)
Class ErrorLib := {
  IsNotFound : error -> bool;
  IsAlreadyExists : error -> bool;
  (** [utilerrors.NewAggregate], nil exactly on the empty list. *)
  NewAggregate : list error -> option error;
  NewAggregate_nil : NewAggregate [] = None;
  NewAggregate_cons e es : is_Some (NewAggregate (e :: es));
}.

(** [wait.PollImmediateInfinite] of the API machinery, with a number of rounds: it tries a
    condition at once, and again until it holds or fails. [S] is what the condition keeps
    in the variables of its caller from one round to the next. *)
Class PollLib := {
  PollImmediateInfinite {Ev S A : Type} (rounds : nat) (condition : S -> M Ev (S * option A)) (s : S)
    : M Ev (S * A);
  PollImmediateInfinite_round {Ev S A : Type} rounds (condition : S -> M Ev (S * option A)) s h :
    PollImmediateInfinite (Datatypes.S rounds) condition s h =
      ('(s, r) ← condition s;
       match r with Some a => mret (s, a) | None => PollImmediateInfinite rounds condition s end) h;
  (** The end of the rounds that are looked at. *)
  still_waiting : error;
  PollImmediateInfinite_none {Ev S A : Type} (condition : S -> M Ev (S * option A)) s h :
    PollImmediateInfinite 0 condition s h = (h, Err still_waiting);
}.

(** For a condition that keeps nothing. *)
Definition poll_infinite `{!PollLib} {Ev A} (rounds : nat) (condition : M Ev (option A)) : M Ev A :=
  '(_, a) ← PollImmediateInfinite rounds (fun u : unit => r ← condition; mret (u, r)) tt;
  mret a.
Lemma poll_infinite_round `{!PollLib} {Ev A} rounds (condition : M Ev (option A)) h :
  poll_infinite (S rounds) condition h =
    (r ← condition; match r with Some a => mret a | None => poll_infinite rounds condition end) h.
Proof.
  unfold poll_infinite, mbind, M_bind. rewrite PollImmediateInfinite_round. unfold mbind, M_bind.
  by destruct (condition h) as [h' [[a|]|e|m]].
Qed.

(** A poll that succeeds does so in its last round, after whatever the rounds before did. *)
Lemma poll_inv {PL : PollLib} {Ev S A} (P : list Ev -> S -> Prop) rounds (condition : S -> M Ev (S * option A)) s h h' s' a :
  (forall s h h' s', P h s -> condition s h = (h', Ok (s', None)) -> P h' s') ->
  P h s -> PollImmediateInfinite rounds condition s h = (h', Ok (s', a)) ->
  exists s1 h1, P h1 s1 /\ condition s1 h1 = (h', Ok (s', Some a)).
Proof.
  intros Hstep. revert s h. induction rounds as [|n IH]; intros s h HP H.
  { rewrite PollImmediateInfinite_none in H. discriminate H. }
  rewrite PollImmediateInfinite_round in H. apply bind_inv in H as (h1 & [s1 [b|]] & Hc & H).
  - injection H as -> -> ->. by exists s, h.
  - eapply IH; [|exact H]. by eapply Hstep.
Qed.
Lemma poll_infinite_inv {PL : PollLib} {Ev A} (P : list Ev -> Prop) rounds (condition : M Ev (option A)) h h' a :
  (forall h h', P h -> condition h = (h', Ok None) -> P h') ->
  P h -> poll_infinite rounds condition h = (h', Ok a) ->
  exists h1, P h1 /\ condition h1 = (h', Ok (Some a)).
Proof.
  intros Hstep HP H. unfold poll_infinite in H. apply bind_inv in H as (h1 & [u b] & H & E).
  injection E as -> ->. apply (poll_inv (fun h _ => P h)) in H as (u1 & h1 & HP1 & H); [| |done].
  - apply bind_inv in H as (h2 & r & Hc & E). injection E as -> -> ->. by exists h1.
  - intros u2 h2 h3 u3 HP2 (h4 & r & Hc & E)%bind_inv. injection E as -> -> ->. by eapply Hstep.
Qed.

Lemma guarded_poll {PL : PollLib} {Ev St A} P (I : St -> Prop) n (condition : St -> M Ev (St * option A)) s h :
  (forall s h, I s -> guarded P (condition s) h) ->
  (forall s h h' s', I s -> condition s h = (h', Ok (s', None)) -> I s') ->
  I s -> guarded P (PollImmediateInfinite n condition s) h.
Proof.
  intros Hc HI. revert s h. induction n as [|n IH]; intros s h Hs.
  - apply guarded_quiet. by rewrite PollImmediateInfinite_none.
  - enough (G : guarded P ('(s, r) ← condition s;
        match r with Some a => mret (s, a) | None => PollImmediateInfinite n condition s end) h)
      by (unfold guarded in *; by rewrite PollImmediateInfinite_round).
    apply guarded_bind; [by apply Hc|]. intros h' [s1 [a|]] H1; [apply guarded_ret|].
    by eapply IH, HI.
Qed.

(** [metav1.LabelSelectorAsSelector], with [Selector.Matches]. *)
Class LabelLib := {
  LabelSelectorAsSelector : option LabelSelector -> result (gmap string string -> bool);
}.

(** [logicalcluster.From], [Name.Path().Join(n).String()] and the
    cluster-aware cache keys. *)
Class ClusterLib := {
  ClusterFrom : ObjectMeta -> string;
  PathJoin : string -> string -> string;
  MetaClusterNamespaceKeyFunc : ObjectMeta -> result string;
  SplitMetaClusterNamespaceKey : string -> result (string * string * string);
}.

(** [k8s.io/apimachinery/pkg/runtime/schema]. [ParseResourceArg] reads
    [resource.version.group], where only the group may hold dots. *)
Class SchemaLib := {
  GVR_String : GroupVersionResource -> string;
  ParseResourceArg : string -> option GroupVersionResource;
  ParseGroupVersion : string -> result (string * string);
  ParseResourceArg_spec r v g :
    "."%char ∉ String.list_ascii_of_string r ->
    "."%char ∉ String.list_ascii_of_string v ->
    ParseResourceArg (r +:+ "." +:+ v +:+ "." +:+ g) =
      Some {| gvr_Group := g; gvr_Version := v; gvr_Resource := r |};
}.

(** The kcp [conditions] package on an object's condition list. *)
Class ConditionLib := {
  GetCondition : Conditions -> string -> option Condition;
  MarkTrue : Conditions -> string -> Conditions;
  MarkFalse : Conditions -> string -> string -> string -> string -> Conditions;
  SetSummary : Conditions -> list string -> Conditions;
  Get_MarkTrue cs t :
    exists c, GetCondition (MarkTrue cs t) t = Some c /\ c_Status c = ConditionTrue;
  Get_MarkTrue_ne cs t t' :
    t <> t' -> GetCondition (MarkTrue cs t) t' = GetCondition cs t';
  Get_MarkFalse cs t r s m :
    exists c, GetCondition (MarkFalse cs t r s m) t = Some c /\
      c_Status c = ConditionFalse /\ c_Reason c = r /\ c_Message c = m;
  Get_MarkFalse_ne cs t t' r s m :
    t <> t' -> GetCondition (MarkFalse cs t r s m) t' = GetCondition cs t';
  (** The summary is the condition Ready. *)
  Get_SetSummary_ne cs ts t :
    t <> "Ready" -> GetCondition (SetSummary cs ts) t = GetCondition cs t;
}.

(** [conditions.IsTrue], [conditions.IsFalse]: false when absent. *)
Definition IsTrue `{!ConditionLib} (cs : Conditions) (t : string) : bool :=
  match GetCondition cs t with
  | Some c => bool_decide (c_Status c = ConditionTrue)
  | None => false
  end.
Definition IsFalse `{!ConditionLib} (cs : Conditions) (t : string) : bool :=
  match GetCondition cs t with
  | Some c => bool_decide (c_Status c = ConditionFalse)
  | None => false
  end.

(** ** A concrete platform *)

Fixpoint poll_rounds {Ev S A : Type} (rounds : nat) (condition : S -> M Ev (S * option A)) (s : S) : M Ev (S * A) :=
  match rounds with
  | O => fail (ErrMsg "still waiting")
  | Datatypes.S rounds =>
      '(s, r) ← condition s;
      match r with Some a => mret (s, a) | None => poll_rounds rounds condition s end
  end.
Definition simple_polls : PollLib := {|
  PollImmediateInfinite := @poll_rounds; PollImmediateInfinite_round _ _ _ _ _ _ _ := eq_refl;
  still_waiting := ErrMsg "still waiting"; PollImmediateInfinite_none _ _ _ _ _ _ := eq_refl |}.

Fixpoint error_reason (e : error) : string :=
  match e with
  | ErrLib r _ => r
  | ErrWrap _ e => error_reason e
  | _ => "Unknown"
  end.
Definition aggregate (es : list error) : option error :=
  match es with [] => None | _ => Some (ErrAggregate es) end.
Program Definition simple_errors : ErrorLib := {|
  IsNotFound e := bool_decide (error_reason e = "NotFound");
  IsAlreadyExists e := bool_decide (error_reason e = "AlreadyExists");
  NewAggregate := aggregate;
|}.
Next Obligation. done. Qed.
Next Obligation. intros e es; simpl. eauto. Qed.

(** Label selectors with match labels only; the nil selector matches nothing. *)
Definition simple_labels : LabelLib := {|
  LabelSelectorAsSelector s :=
    match s with
    | None => inr (fun _ => false)
    | Some s => inr (fun l => bool_decide (entries (MatchLabels s) ⊆ l))
    end |}.

Definition split_key (k : string) : result (string * string * string) :=
  match Split k "|" with
  | [c; r] => match Split r "/" with
              | [ns; n] => inr (c, ns, n)
              | [n] => inr (c, "", n)
              | _ => inl (ErrMsg "unexpected key format")
              end
  | _ => inl (ErrMsg "unexpected key format")
  end.
Definition simple_clusters : ClusterLib := {|
  ClusterFrom o := map_index (Annotations o) "kcp.io/cluster";
  PathJoin c n := if decide (c = "") then n else c +:+ ":" +:+ n;
  MetaClusterNamespaceKeyFunc o := inr (
    map_index (Annotations o) "kcp.io/cluster" +:+ "|" +:+
    (if decide (Namespace o = "") then Name o else Namespace o +:+ "/" +:+ Name o));
  SplitMetaClusterNamespaceKey := split_key;
|}.

Definition find_cond (cs : Conditions) (t : string) : option Condition :=
  snd <$> list_find (fun c => c_Type c = t) cs.
Definition set_cond (cs : Conditions) (c : Condition) : Conditions :=
  c :: filter (fun d => c_Type d <> c_Type c) cs.
Definition mk_cond (t : string) (st : ConditionStatus) (r s m : string) : Condition :=
  {| c_Type := t; c_Status := st; c_Severity := s; c_LastTransitionTime := 0%Z;
     c_Reason := r; c_Message := m |}.

Lemma find_set_eq cs c : find_cond (set_cond cs c) (c_Type c) = Some c.
Proof. unfold find_cond, set_cond; simpl. by rewrite decide_True by done. Qed.

Lemma find_filter_ne cs t t' :
  t <> t' -> find_cond (filter (fun d => c_Type d <> t) cs) t' = find_cond cs t'.
Proof.
  intros Hne. unfold find_cond. induction cs as [|c cs IH]; [done|].
  rewrite filter_cons. case_decide as E; simpl.
  - case_decide as E'; [done|].
    rewrite <-!option_fmap_compose. exact IH.
  - rewrite decide_False by congruence.
    rewrite <-option_fmap_compose. exact IH.
Qed.

Lemma find_set_ne cs c t : c_Type c <> t -> find_cond (set_cond cs c) t = find_cond cs t.
Proof.
  intros Hne. rewrite <-(find_filter_ne cs (c_Type c) t Hne).
  unfold find_cond, set_cond; simpl. rewrite decide_False by done.
  by rewrite <-option_fmap_compose.
Qed.

Program Definition simple_conditions : ConditionLib := {|
  GetCondition := find_cond;
  MarkTrue cs t := set_cond cs (mk_cond t ConditionTrue "" "" "");
  MarkFalse cs t r s m := set_cond cs (mk_cond t ConditionFalse r s m);
  SetSummary cs ts := set_cond cs (mk_cond "Ready"
    (if forallb (fun t => match find_cond cs t with
                          | Some c => bool_decide (c_Status c = ConditionTrue)
                          | None => true end) ts
     then ConditionTrue else ConditionFalse) "" "" "");
|}.
Next Obligation. intros cs t; eexists; split; [apply find_set_eq|done]. Qed.
Next Obligation. intros cs t t' H. by apply find_set_ne. Qed.
Next Obligation.
  intros cs t r s m; eexists; split; [apply find_set_eq|done].
Qed.
Next Obligation. intros cs t t' r s m H. by apply find_set_ne. Qed.
Next Obligation. intros cs ts t H. apply find_set_ne. simpl. congruence. Qed.

Definition parse_arg (s : string) : option GroupVersionResource :=
  match SplitN s "." 3 with
  | [r; v; g] => Some {| gvr_Group := g; gvr_Version := v; gvr_Resource := r |}
  | _ => None
  end.
Definition parse_gv (s : string) : string * string :=
  match SplitN s "/" 2 with [g; v] => (g, v) | _ => ("", s) end.
Program Definition simple_schema : SchemaLib := {|
  GVR_String g := gvr_Group g +:+ "/" +:+ gvr_Version g +:+ ", Resource=" +:+ gvr_Resource g;
  ParseResourceArg := parse_arg;
  ParseGroupVersion s := inr (parse_gv s);
|}.
Next Obligation.
  intros r v g Hr Hv. unfold parse_arg. cbn [SplitN].
  by rewrite (Cut_first r "." "" (v +:+ "." +:+ g) Hr), (Cut_first v "." "" g Hv).
Qed.

(** ** Condition lemmas *)

Section conditions.
Context `{!ConditionLib}.

Lemma IsTrue_MarkTrue cs t : IsTrue (MarkTrue cs t) t = true.
Proof.
  unfold IsTrue. destruct (Get_MarkTrue cs t) as (c & -> & ->). done.
Qed.
Lemma IsFalse_MarkTrue cs t : IsFalse (MarkTrue cs t) t = false.
Proof.
  unfold IsFalse. destruct (Get_MarkTrue cs t) as (c & -> & ->). done.
Qed.
Lemma IsFalse_MarkFalse cs t r s m : IsFalse (MarkFalse cs t r s m) t = true.
Proof.
  unfold IsFalse. destruct (Get_MarkFalse cs t r s m) as (c & -> & -> & _). done.
Qed.
Lemma IsTrue_MarkFalse cs t r s m : IsTrue (MarkFalse cs t r s m) t = false.
Proof.
  unfold IsTrue. destruct (Get_MarkFalse cs t r s m) as (c & -> & -> & _). done.
Qed.
Lemma IsTrue_MarkTrue_ne cs t t' : t <> t' -> IsTrue (MarkTrue cs t) t' = IsTrue cs t'.
Proof. intros. unfold IsTrue. by rewrite Get_MarkTrue_ne. Qed.
Lemma IsTrue_MarkFalse_ne cs t t' r s m :
  t <> t' -> IsTrue (MarkFalse cs t r s m) t' = IsTrue cs t'.
Proof. intros. unfold IsTrue. by rewrite Get_MarkFalse_ne. Qed.
End conditions.

#[export] Hint Rewrite @IsTrue_MarkTrue @IsFalse_MarkTrue @IsFalse_MarkFalse
  @IsTrue_MarkFalse : go.
