(* ===== verification/GoTime.v ===== *)
(** * Go's [time] package: RFC 3339

    The code stores deletion timestamps in annotations as
    [t.Format(time.RFC3339)] and reads them back with
    [time.Parse(time.RFC3339, s)].  Both are modelled on instants in
    nanoseconds ([Platform.Time]) and shown to be inverse, up to the seconds
    the format keeps. *)

From S2P Require Import Prelude Platform.
Local Open Scope Z_scope.

(** ** Civil dates (proleptic Gregorian calendar) *)

Definition is_leap (y : Z) : bool :=
  (y mod 4 =? 0) && (negb (y mod 100 =? 0) || (y mod 400 =? 0)).
(** [daysIn(m, y)]. *)
Definition days_in (m y : Z) : Z :=
  if m =? 2 then (if is_leap y then 29 else 28)
  else if (m =? 4) || (m =? 6) || (m =? 9) || (m =? 11) then 30 else 31.

(** A day of a 400-year era that starts on March 1st: year of the era, and
    day of that year. *)
Definition yoe_of_doe (doe : Z) : Z :=
  (doe - doe / 1460 + doe / 36524 - doe / 146096) / 365.
Definition year_start (yoe : Z) : Z := 365 * yoe + yoe / 4 - yoe / 100.
Definition month_of_doy (doy : Z) : Z :=
  let mp := (5 * doy + 2) / 153 in if mp <? 10 then mp + 3 else mp - 9.
Definition day_of_doy (doy : Z) : Z :=
  let mp := (5 * doy + 2) / 153 in doy - (153 * mp + 2) / 5 + 1.
Definition doy_of_date (m d : Z) : Z :=
  (153 * (if 2 <? m then m - 3 else m + 9) + 2) / 5 + d - 1.

(** Year, month, day of a number of days since January 1, 1970. *)
Definition civil_of_days (z : Z) : Z * Z * Z :=
  let z := z + 719468 in
  let era := z / 146097 in
  let doe := z - era * 146097 in
  let yoe := yoe_of_doe doe in
  let doy := doe - year_start yoe in
  let m := month_of_doy doy in
  (yoe + era * 400 + (if m <=? 2 then 1 else 0), m, day_of_doy doy).

Definition days_of_civil (y m d : Z) : Z :=
  let y := y - (if m <=? 2 then 1 else 0) in
  let era := y / 400 in
  let yoe := y - era * 400 in
  era * 146097 + (year_start yoe + doy_of_date m d) - 719468.

(** ** Printing *)

Definition digit (d : Z) : ascii := ascii_of_nat (48 + Z.to_nat d).
(** [appendInt(x, w)] for [0 <= x < 10^w]. *)
Fixpoint digits (w : nat) (x : Z) (rest : string) : string :=
  match w with
  | O => rest
  | S w => digits w (x / 10) (String (digit (x mod 10)) rest)
  end.

(** The numeric zone: [Z] or a signed [hh:mm]. *)
Definition format_zone (off : Z) : string :=
  if off =? 0 then "Z" else
  let zone := Z.quot off 60 in
  String (if zone <? 0 then "-" else "+")
    (digits 2 (Z.abs zone / 60) (String ":" (digits 2 (Z.abs zone mod 60) ""))).

(** [t.Format(time.RFC3339)] for a time shown in the zone at [off] seconds
    east of UTC, with a year between 0 and 9999. *)
Definition Format_RFC3339 (off : Z) (t : Time) : string :=
  let s := t / Second + off in
  let '(y, m, d) := civil_of_days (s / 86400) in
  let r := s mod 86400 in
  digits 4 y (String "-" (digits 2 m (String "-" (digits 2 d
    (String "T" (digits 2 (r / 3600) (String ":" (digits 2 (r mod 3600 / 60)
      (String ":" (digits 2 (r mod 60) (format_zone off))))))))))).

(** ** Parsing *)

Definition digit_val (c : ascii) : option Z :=
  let n := Z.of_nat (nat_of_ascii c) in
  if (48 <=? n) && (n <=? 57) then Some (n - 48) else None.

(** [getnum(s, fixed)]: one or two digits. *)
Definition getnum (fixed : bool) (s : string) : option (Z * string) :=
  match s with
  | String a s' =>
      match digit_val a with
      | None => None
      | Some x =>
          match s' with
          | String b s'' =>
              match digit_val b with
              | Some y => Some (10 * x + y, s'')
              | None => if fixed then None else Some (x, s')
              end
          | EmptyString => if fixed then None else Some (x, s')
          end
      end
  | EmptyString => None
  end.

(** Exactly four digits. *)
Definition get_year (s : string) : option (Z * string) :=
  '(a, s) ← getnum true s; '(b, s) ← getnum true s; Some (100 * a + b, s).

Definition skip (c : ascii) (s : string) : option string :=
  match s with
  | String a s => if decide (a = c) then Some s else None
  | EmptyString => None
  end.

(** The digits that follow, at most [n] of them counted in the value. *)
Fixpoint take_digits (s : string) : list Z * string :=
  match s with
  | String a s' =>
      match digit_val a with
      | Some x => let '(l, r) := take_digits s' in (x :: l, r)
      | None => ([], s)
      end
  | EmptyString => ([], s)
  end.
Fixpoint nanos (w : nat) (l : list Z) : Z :=
  match w, l with
  | S w, x :: l => x * 10 ^ Z.of_nat w + nanos w l
  | _, _ => 0
  end.
(** A fractional second after the seconds, although the layout has none. *)
Definition get_frac (s : string) : Z * string :=
  match s with
  | String c (String a _ as s') =>
      if bool_decide (c = "."%char) || bool_decide (c = ","%char) then
        match digit_val a with
        | Some _ => let '(l, r) := take_digits s' in (nanos 9 l, r)
        | None => (0, s)
        end
      else (0, s)
  | _ => (0, s)
  end.

(** [Z], or a sign and [hh:mm]: seconds east of UTC. *)
Definition get_zone (s : string) : option (Z * string) :=
  match s with
  | EmptyString => None
  | String c s =>
      if decide (c = "Z"%char) then Some (0, s) else
      '(h, s) ← getnum true s; s ← skip ":" s; '(m, s) ← getnum true s;
      if (24 <? h) || (60 <? m) then None
      else if decide (c = "+"%char) then Some ((h * 60 + m) * 60, s)
      else if decide (c = "-"%char) then Some (- ((h * 60 + m) * 60), s)
      else None
  end.

(** [time.Parse(time.RFC3339, s)]; [None] is a parse error, on which Go
    returns the zero time beside it. *)
Definition Parse_RFC3339 (s : string) : option Time :=
  '(y, s) ← get_year s; s ← skip "-" s;
  '(mo, s) ← getnum true s; s ← skip "-" s;
  '(d, s) ← getnum true s; s ← skip "T" s;
  '(h, s) ← getnum false s; s ← skip ":" s;
  '(mi, s) ← getnum true s; s ← skip ":" s;
  '(se, s) ← getnum true s;
  let '(ns, s) := get_frac s in
  '(off, s) ← get_zone s;
  match s with
  | EmptyString =>
      if (1 <=? mo) && (mo <=? 12) && (1 <=? d) && (d <=? days_in mo y)
         && (h <? 24) && (mi <? 60) && (se <? 60)
      then Some ((days_of_civil y mo d * 86400 + h * 3600 + mi * 60 + se - off)
                 * Second + ns)
      else None
  | String _ _ => None
  end.

(** [removingTime, _ := time.Parse(time.RFC3339, s)]. *)
Definition Parse_or_zero (s : string) : Time := default ZeroTime (Parse_RFC3339 s).

(** Durations are nanoseconds in 64 bits; a difference of times saturates
    ([Time.Sub], [time.Since], [time.Until]). *)
Definition maxDuration : Z := 2 ^ 63 - 1.
Definition Sub (t u : Time) : Z := Z.max (- 2 ^ 63) (Z.min maxDuration (t - u)).

(** [lia] on goals with divisions by constants. *)
Ltac divlia := Z.to_euclidean_division_equations; lia.

(** * The calendar *)

(** Every element of a range, by evaluation. *)
Fixpoint all_below (n : nat) (p : Z -> bool) : bool :=
  match n with
  | O => true
  | S n => p (Z.of_nat n) && all_below n p
  end.

Lemma all_below_spec n p z :
  all_below n p = true -> 0 <= z < Z.of_nat n -> p z = true.
Proof.
  induction n as [|n IH]; simpl; [lia|].
  intros [H1 H2]%andb_prop Hz.
  destruct (decide (z = Z.of_nat n)) as [->|]; [done|]. apply IH; [done|lia].
Qed.

(** The years' first and last days are where they should be. *)
Lemma year_bounds : all_below 400 (fun y =>
  (yoe_of_doe (year_start y) =? y) &&
  ((y =? 399) || (yoe_of_doe (year_start (y + 1) - 1) =? y)) &&
  (365 <=? year_start (y + 1) - year_start y)
  && (year_start (y + 1) - year_start y <=? 366)) = true.
Proof. vm_compute. reflexivity. Qed.

Lemma yoe_mono a b : 0 <= a <= b -> b < 146096 -> yoe_of_doe a <= yoe_of_doe b.
Proof.
  intros Ha Hb. unfold yoe_of_doe. apply Z.div_le_mono; [lia|].
  rewrite (Z.div_small a 146096), (Z.div_small b 146096) by lia.
  pose proof (Z.div_le_mono a b 36524 ltac:(lia) ltac:(lia)).
  assert (b / 1460 - a / 1460 <= b - a); [|lia].
  pose proof (Z.div_mod a 1460 ltac:(lia)); pose proof (Z.div_mod b 1460 ltac:(lia)).
  pose proof (Z.mod_pos_bound a 1460 ltac:(lia));
  pose proof (Z.mod_pos_bound b 1460 ltac:(lia)). lia.
Qed.

Lemma yoe_range doe : 0 <= doe < 146097 -> 0 <= yoe_of_doe doe < 400.
Proof.
  intros H. destruct (decide (doe = 146096)) as [->|]; [by vm_compute|].
  pose proof (yoe_mono 0 doe ltac:(lia) ltac:(lia)) as H0.
  pose proof (yoe_mono doe 146095 ltac:(lia) ltac:(lia)) as H1.
  change (yoe_of_doe 0) with 0 in H0.
  change (yoe_of_doe 146095) with 399 in H1. lia.
Qed.

(** The day of the year found from a day of the era is within the year. *)
Lemma doy_range doe :
  0 <= doe < 146097 ->
  0 <= doe - year_start (yoe_of_doe doe) <
    year_start (yoe_of_doe doe + 1) - year_start (yoe_of_doe doe)
  \/ (doe = 146096 /\ yoe_of_doe doe = 399).
Proof.
  intros H. destruct (decide (doe = 146096)) as [->|Hne]; [by right|left].
  pose proof (yoe_range doe H) as Hy. set (y := yoe_of_doe doe) in *.
  pose proof (all_below_spec _ _ y year_bounds ltac:(lia)) as B.
  rewrite !andb_true_iff, orb_true_iff, !Z.eqb_eq, !Z.leb_le in B.
  destruct B as [[[B1 B2] B3] B4].
  assert (0 <= year_start y) as Hpos.
  { unfold year_start. pose proof (Z.div_le_upper_bound y 100 y ltac:(lia) ltac:(lia)).
    pose proof (Z.div_pos y 4 ltac:(lia) ltac:(lia)). lia. }
  split.
  - destruct (decide (doe < year_start y)) as [Hlt|]; [|lia].
    (* doe lies in an earlier year *)
    destruct (decide (y = 0)) as [E|E]; [rewrite E in Hlt; change (year_start 0) with 0 in Hlt; lia|].
    pose proof (all_below_spec _ _ (y - 1) year_bounds ltac:(lia)) as C.
    rewrite !andb_true_iff, orb_true_iff, !Z.eqb_eq, !Z.leb_le in C.
    destruct C as [[[_ [C|C]] _] _]; [lia|].
    replace (y - 1 + 1) with y in C by lia.
    assert (year_start y - 1 < 146096) as Hb.
    { unfold year_start. pose proof (Z.div_pos y 100 ltac:(lia) ltac:(lia)).
      pose proof (Z.div_lt_upper_bound y 4 100 ltac:(lia) ltac:(lia)). lia. }
    pose proof (yoe_mono doe (year_start y - 1) ltac:(lia) Hb). lia.
  - destruct (decide (year_start (y + 1) <= doe)) as [Hge|]; [|lia].
    destruct (decide (y = 399)) as [E|E].
    { rewrite E in Hge. change (year_start (399 + 1)) with 146096 in Hge. lia. }
    pose proof (all_below_spec _ _ (y + 1) year_bounds ltac:(lia)) as C.
    rewrite !andb_true_iff, orb_true_iff, !Z.eqb_eq, !Z.leb_le in C.
    destruct C as [[[C _] _] _].
    assert (0 <= year_start (y + 1)) by lia.
    pose proof (yoe_mono (year_start (y + 1)) doe ltac:(lia) ltac:(lia)). lia.
Qed.

(** Months and days from a day of the year, by evaluation over the year. *)
Lemma doy_checks : all_below 366 (fun doy =>
  let m := month_of_doy doy in let d := day_of_doy doy in
  (doy_of_date m d =? doy) && (1 <=? m) && (m <=? 12) && (1 <=? d) &&
  (if m =? 2 then d <=? 29 else d <=? days_in m 1) &&
  ((negb ((m =? 2) && (d =? 29))) || (doy =? 365))) = true.
Proof. vm_compute. reflexivity. Qed.

(** A March-based year of 366 days ends in a leap year. *)
Lemma leap_checks : all_below 400 (fun y =>
  (year_start (y + 1) - year_start y =? 365) || (y =? 399) || is_leap (y + 1)) = true.
Proof. vm_compute. reflexivity. Qed.

Lemma is_leap_era y era : is_leap (y + era * 400) = is_leap y.
Proof.
  unfold is_leap.
  replace (y + era * 400) with (y + (era * 100) * 4) at 1 by lia.
  rewrite Z.mod_add by lia.
  replace (y + era * 400) with (y + (era * 4) * 100) at 1 by lia.
  rewrite Z.mod_add by lia. rewrite Z.mod_add by lia. done.
Qed.

(** A day number's date is a date of the calendar, and its day number is
    the one it came from. *)
Lemma civil_of_days_spec z :
  let '(y, m, d) := civil_of_days z in
  1 <= m <= 12 /\ 1 <= d <= days_in m y /\ days_of_civil y m d = z.
Proof.
  unfold civil_of_days. set (era := (z + 719468) / 146097).
  set (doe := z + 719468 - era * 146097).
  assert (0 <= doe < 146097) as Hdoe.
  { unfold doe, era. pose proof (Z.mod_pos_bound (z + 719468) 146097 ltac:(lia)).
    rewrite Z.mod_eq in H by lia. lia. }
  pose proof (yoe_range doe Hdoe) as Hy. set (yoe := yoe_of_doe doe) in *.
  assert (0 <= doe - year_start yoe < 366 /\
    (doe - year_start yoe = 365 -> is_leap (yoe + 1) = true)) as [Hdoy Hleap].
  { destruct (doy_range doe Hdoe) as [Hr|[E1 E2]].
    - fold yoe in Hr. pose proof (all_below_spec _ _ yoe year_bounds ltac:(lia)) as B.
      rewrite !andb_true_iff, orb_true_iff, !Z.eqb_eq, !Z.leb_le in B.
      split; [lia|]. intros E.
      pose proof (all_below_spec _ _ yoe leap_checks ltac:(lia)) as C.
      rewrite !orb_true_iff, !Z.eqb_eq in C.
      destruct C as [[C|C]|C]; [lia| |done]. rewrite C. done.
    - fold yoe in E2. rewrite E1, E2. vm_compute. intuition congruence. }
  set (doy := doe - year_start yoe) in *.
  pose proof (all_below_spec _ _ doy doy_checks ltac:(lia)) as B. cbv zeta in B.
  set (m := month_of_doy doy) in *. set (d := day_of_doy doy) in *.
  rewrite !andb_true_iff, !Z.eqb_eq, !Z.leb_le in B.
  destruct B as [[[[[B1 B2] B3] B4] B5] B6]. fold m d in B1, B2, B3, B4.
  split; [lia|]. split.
  - fold m d in B5, B6. split; [lia|]. unfold days_in.
    destruct (m =? 2) eqn:Em.
    + apply Z.eqb_eq in Em. rewrite Em. simpl.
      replace (yoe + era * 400 + 1) with (yoe + 1 + era * 400) by lia.
      rewrite is_leap_era. simpl in B6. apply Z.leb_le in B5.
      destruct (d =? 29) eqn:Ed; simpl in B6.
      * apply Z.eqb_eq in Ed, B6. rewrite Hleap by done. lia.
      * apply Z.eqb_neq in Ed. destruct (is_leap (yoe + 1)); lia.
    + apply Z.leb_le in B5. unfold days_in in B5. by rewrite Em in B5.
  - unfold days_of_civil.
    replace (yoe + era * 400 + (if m <=? 2 then 1 else 0) - (if m <=? 2 then 1 else 0))
      with (yoe + era * 400) by lia.
    rewrite Z.div_add, (Z.div_small yoe) by lia. rewrite B1.
    replace (yoe + era * 400 - (0 + era) * 400) with yoe by lia. unfold doy, doe. lia.
Qed.

(** * Printing and parsing *)

Lemma digit_val_digit d : 0 <= d < 10 -> digit_val (digit d) = Some d.
Proof.
  intros H. assert (d = 0 \/ d = 1 \/ d = 2 \/ d = 3 \/ d = 4 \/ d = 5 \/ d = 6
    \/ d = 7 \/ d = 8 \/ d = 9) as C by lia.
  destruct_or! C; subst; reflexivity.
Qed.

#[local] Opaque digit digit_val.

Lemma getnum_digits fixed x s :
  0 <= x < 100 -> getnum fixed (digits 2 x s) = Some (x, s).
Proof.
  intros H. cbn [digits getnum].
  rewrite !digit_val_digit; [|apply Z.mod_pos_bound; lia..].
  pose proof (Z.div_mod x 10 ltac:(lia)).
  rewrite (Z.mod_small (x / 10)) by (split; [apply Z.div_pos|apply Z.div_lt_upper_bound]; lia).
  do 2 f_equal. lia.
Qed.

Lemma digits_4 y s :
  0 <= y < 10000 -> digits 4 y s = digits 2 (y / 100) (digits 2 (y mod 100) s).
Proof.
  intros H. cbn [digits].
  assert (y / 10 / 10 = y / 100) as -> by divlia.
  assert (y mod 100 / 10 mod 10 = y / 10 mod 10) as -> by divlia.
  assert (y mod 100 mod 10 = y mod 10) as -> by divlia. done.
Qed.

Lemma get_year_digits y s :
  0 <= y < 10000 -> get_year (digits 4 y s) = Some (y, s).
Proof.
  intros H. rewrite digits_4 by done. unfold get_year.
  assert (0 <= y / 100 < 100).
  { split; [apply Z.div_pos|apply Z.div_lt_upper_bound]; lia. }
  pose proof (Z.mod_pos_bound y 100 ltac:(lia)).
  rewrite getnum_digits by lia. cbn [mbind option_bind].
  rewrite getnum_digits by lia. cbn [mbind option_bind].
  pose proof (Z.div_mod y 100 ltac:(lia)). do 2 f_equal. lia.
Qed.

(** The zones Go knows of are whole minutes within a day of UTC. *)
Definition zone_ok (off : Z) : Prop := off mod 60 = 0 /\ -86400 < off < 86400.

Lemma get_zone_format off : zone_ok off -> get_zone (format_zone off) = Some (off, "").
Proof.
  intros [Hm Hr]. unfold format_zone. destruct (off =? 0) eqn:E.
  { apply Z.eqb_eq in E. by subst. }
  apply Z.eqb_neq in E. apply Z.mod_divide in Hm as [k ->]; [|lia].
  rewrite Z.quot_mul by lia.
  assert (0 <= Z.abs k / 60 < 24).
  { split; [apply Z.div_pos|apply Z.div_lt_upper_bound]; lia. }
  pose proof (Z.mod_pos_bound (Z.abs k) 60 ltac:(lia)).
  pose proof (Z.div_mod (Z.abs k) 60 ltac:(lia)) as HD.
  unfold get_zone.
  destruct (k <? 0) eqn:Ek; rewrite decide_False by done;
    rewrite getnum_digits by lia; cbn [mbind option_bind skip];
    rewrite decide_True by done; cbn [mbind option_bind];
    rewrite getnum_digits by lia; cbn [mbind option_bind];
    replace (24 <? Z.abs k / 60) with false by (symmetry; apply Z.ltb_ge; lia);
    replace (60 <? Z.abs k mod 60) with false by (symmetry; apply Z.ltb_ge; lia);
    cbn [orb].
  - apply Z.ltb_lt in Ek. rewrite decide_False, decide_True by done. do 2 f_equal. lia.
  - apply Z.ltb_ge in Ek. rewrite decide_True by done. do 2 f_equal. lia.
Qed.

Lemma get_frac_zone off : get_frac (format_zone off) = (0, format_zone off).
Proof.
  unfold format_zone. destruct (off =? 0); [done|]. simpl.
  by destruct (Z.quot off 60 <? 0).
Qed.

#[local] Transparent digit digit_val.

(** The local year of an instant. *)
Definition local_year (off : Z) (t : Time) : Z :=
  (civil_of_days ((t / Second + off) / 86400)).1.1.

(** Parsing what [Format] printed gives the instant back, truncated to
    seconds. *)
Lemma Parse_Format off t :
  zone_ok off -> 0 <= local_year off t < 10000 ->
  Parse_RFC3339 (Format_RFC3339 off t) = Some (t / Second * Second).
Proof.
  intros Hoff Hy. unfold Format_RFC3339, local_year in *.
  set (s := t / Second + off) in *.
  pose proof (civil_of_days_spec (s / 86400)) as Hc.
  destruct (civil_of_days (s / 86400)) as [[y m] d]. simpl in Hy.
  destruct Hc as (Hm & Hd & Hz).
  pose proof (Z.mod_pos_bound s 86400 ltac:(lia)) as Hr.
  set (r := s mod 86400) in *.
  assert (0 <= r / 3600 < 24).
  { split; [apply Z.div_pos|apply Z.div_lt_upper_bound]; lia. }
  pose proof (Z.mod_pos_bound r 3600 ltac:(lia)).
  assert (0 <= r mod 3600 / 60 < 60).
  { split; [apply Z.div_pos|apply Z.div_lt_upper_bound]; lia. }
  pose proof (Z.mod_pos_bound r 60 ltac:(lia)).
  assert (days_in m y <= 31).
  { unfold days_in. repeat case_match; lia. }
  unfold Parse_RFC3339.
  assert (forall c s, skip c (String c s) = Some s) as Hskip.
  { intros. simpl. by rewrite decide_True. }
  rewrite get_year_digits by lia. cbn [mbind option_bind].
  rewrite Hskip. cbn [mbind option_bind].
  repeat (rewrite getnum_digits by lia; cbn [mbind option_bind];
          try (rewrite Hskip; cbn [mbind option_bind])).
  rewrite get_frac_zone, get_zone_format by done. cbn [mbind option_bind].
  repeat match goal with
  | |- context [?a <=? ?b] => replace (a <=? b) with true by (symmetry; apply Z.leb_le; lia)
  | |- context [?a <? ?b] => replace (a <? b) with true by (symmetry; apply Z.ltb_lt; lia)
  end.
  cbn [andb]. f_equal. rewrite Hz, Z.add_0_r. f_equal.
  pose proof (Z.div_mod s 86400 ltac:(lia)) as D1. fold r in D1.
  pose proof (Z.div_mod r 3600 ltac:(lia)).
  pose proof (Z.div_mod (r mod 3600) 60 ltac:(lia)).
  assert ((r mod 3600) mod 60 = r mod 60) as HM.
  { apply Z.mod_mod_divide. by exists 60. }
  unfold s in *. lia.
Qed.
