(* ===== verification/GoSort.v ===== *)
(** * Go's stable sort ([sort.SliceStable])

    The standard library's algorithm, with whatever comparison the caller
    gives: insertion sort on blocks of 20, then in-place merges of neighbouring
    blocks (SymMerge). It permutes its input for every comparison; it sorts only
    for strict weak orders, so the algorithm itself is written out here. *)

From S2P Require Import Prelude.

Section sort.
Context {A : Type}.
Variable less : A -> A -> bool.

(** [insertionSort_func]: the sorted prefix is kept reversed. *)
Fixpoint insert_down (x : A) (sorted : list A) : list A :=
  match sorted with
  | [] => [x]
  | y :: sorted' => if less x y then y :: insert_down x sorted' else x :: sorted
  end.
Definition insertionSort (l : list A) : list A :=
  reverse (foldl (fun sorted x => insert_down x sorted) [] l).

(** The smallest index in [lo, hi) where [p] fails to hold any more, by
    bisection, for a fuel of at least the width. *)
Fixpoint bisect (fuel lo hi : nat) (p : nat -> bool) : nat :=
  match fuel with
  | O => lo
  | S fuel =>
      if lo <? hi then
        let h := (lo + hi) / 2 in
        if p h then bisect fuel (S h) hi p else bisect fuel lo h p
      else lo
  end.

Definition less_at (l : list A) (i j : nat) : bool :=
  match l !! i, l !! j with Some x, Some y => less x y | _, _ => false end.

(** [symMerge_func] on two neighbouring segments. *)
Fixpoint symMerge (fuel : nat) (l1 l2 : list A) : list A :=
  match fuel with
  | O => l1 ++ l2
  | S fuel =>
      let l := l1 ++ l2 in
      let m := length l1 in
      let b := length l in
      match l1, l2 with
      | [x], _ =>
          let i := bisect b m b (fun h => less_at l h 0) - m in
          take i l2 ++ x :: drop i l2
      | _, [x] =>
          let i := bisect b 0 m (fun h => negb (less_at l m h)) in
          take i l1 ++ x :: drop i l1
      | _, _ =>
          let mid := b / 2 in
          let n := mid + m in
          let '(start, r) := if mid <? m then (n - b, mid) else (0, m) in
          let start := bisect b start r (fun c => negb (less_at l (n - 1 - c) c)) in
          let end_ := n - start in
          let l := if (start <? m) && (m <? end_)
                   then take start l ++ take (end_ - m) (drop m l) ++
                        take (m - start) (drop start l) ++ drop end_ l
                   else l in
          let left := take mid l in
          let right := drop mid l in
          (if (0 <? start) && (start <? mid)
           then symMerge fuel (take start left) (drop start left) else left) ++
          (if (mid <? end_) && (end_ <? b)
           then symMerge fuel (take (end_ - mid) right) (drop (end_ - mid) right) else right)
      end
  end.

Fixpoint sort_blocks (fuel : nat) (l : list A) : list (list A) :=
  match fuel with
  | O => []
  | S fuel => match l with
              | [] => []
              | _ => insertionSort (take 20 l) :: sort_blocks fuel (drop 20 l)
              end
  end.
Fixpoint merge_pairs (blocks : list (list A)) : list (list A) :=
  match blocks with
  | l1 :: l2 :: blocks => symMerge (length l1 + length l2) l1 l2 :: merge_pairs blocks
  | _ => blocks
  end.
Fixpoint merge_all (fuel : nat) (blocks : list (list A)) : list A :=
  match fuel with
  | O => concat blocks
  | S fuel => match blocks with
              | [] => []
              | [l] => l
              | _ => merge_all fuel (merge_pairs blocks)
              end
  end.
Definition SliceStable (l : list A) : list A :=
  let blocks := sort_blocks (S (length l)) l in
  merge_all (length blocks) blocks.

(** ** It permutes *)

Lemma insert_down_perm x l : insert_down x l ≡ₚ x :: l.
Proof.
  induction l as [|y l IH]; simpl; [done|]. destruct (less x y); [|done].
  rewrite IH. apply perm_swap.
Qed.
Lemma insertionSort_perm l : insertionSort l ≡ₚ l.
Proof.
  unfold insertionSort. rewrite reverse_Permutation.
  assert (forall s, foldl (fun sorted x => insert_down x sorted) s l ≡ₚ s ++ l) as H.
  { induction l as [|x l IH]; intros s; simpl; [by rewrite app_nil_r|].
    rewrite IH, insert_down_perm. apply Permutation_middle. }
  apply H.
Qed.

Lemma insert_at_perm i (x : A) l : take i l ++ x :: drop i l ≡ₚ x :: l.
Proof. by rewrite <-Permutation_middle, take_drop. Qed.
Lemma rotate_perm s m e (l : list A) :
  s < m -> m < e ->
  take s l ++ take (e - m) (drop m l) ++ take (m - s) (drop s l) ++ drop e l ≡ₚ l.
Proof.
  intros H1 H2. rewrite <-(take_drop s l) at 5. apply Permutation_app_head.
  rewrite <-(take_drop (m - s) (drop s l)) at 2. rewrite drop_drop.
  replace (s + (m - s)) with m by lia.
  rewrite <-(take_drop (e - m) (drop m l)) at 2. rewrite drop_drop.
  replace (m + (e - m)) with e by lia. apply Permutation_app_swap_app.
Qed.

Lemma symMerge_perm fuel l1 l2 : symMerge fuel l1 l2 ≡ₚ l1 ++ l2.
Proof.
  revert l1 l2. induction fuel as [|fuel IH]; intros l1 l2; [done|].
  cbn [symMerge]. set (l := l1 ++ l2).
  match goal with |- ?G => assert (forall mid start end_ m,
    let l' := if (start <? m) && (m <? end_)
              then take start l ++ take (end_ - m) (drop m l) ++
                   take (m - start) (drop start l) ++ drop end_ l else l in
    (if (0 <? start) && (start <? mid)
     then symMerge fuel (take start (take mid l')) (drop start (take mid l'))
     else take mid l') ++
    (if (mid <? end_) && (end_ <? length l)
     then symMerge fuel (take (end_ - mid) (drop mid l')) (drop (end_ - mid) (drop mid l'))
     else drop mid l') ≡ₚ l) as Hgen end.
  { intros mid start end_ m. cbv zeta. set (l' := if _ && _ then _ else l).
    assert (l' ≡ₚ l) as Hl.
    { unfold l'. destruct (start <? m) eqn:E1, (m <? end_) eqn:E2; simpl; try done.
      apply Nat.ltb_lt in E1, E2. by apply rotate_perm. }
    clearbody l'. transitivity (take mid l' ++ drop mid l'); [|by rewrite take_drop].
    apply Permutation_app.
    - destruct (_ && _); [|reflexivity]. by rewrite IH, take_drop.
    - destruct (_ && _); [|reflexivity]. by rewrite IH, take_drop. }
  destruct l1 as [|x [|x' l1']].
  - destruct l2 as [|y [|y' l2']]; [apply Hgen| |apply Hgen].
    rewrite insert_at_perm. done.
  - rewrite insert_at_perm. done.
  - destruct l2 as [|y [|y' l2']].
    + destruct (_ <? _); apply Hgen.
    + rewrite insert_at_perm. unfold l. by rewrite Permutation_app_comm.
    + destruct (_ <? _); apply Hgen.
Qed.

Lemma sort_blocks_perm fuel l : length l < fuel -> concat (sort_blocks fuel l) ≡ₚ l.
Proof.
  revert l. induction fuel as [|fuel IH]; intros l Hl; [lia|]. simpl.
  destruct l as [|x l]; [done|]. cbn [concat].
  rewrite insertionSort_perm, IH; [by rewrite take_drop|].
  rewrite length_drop. simpl in *. lia.
Qed.
Lemma merge_pairs_perm bs : concat (merge_pairs bs) ≡ₚ concat bs.
Proof.
  assert (forall n bs, length bs <= n -> concat (merge_pairs bs) ≡ₚ concat bs) as H;
    [|by apply (H (length bs))]. clear bs.
  induction n as [|n IH]; intros [|l1 [|l2 bs]] Hn; simpl in *; try done; try lia.
  rewrite symMerge_perm, IH by lia. by rewrite app_assoc.
Qed.
Lemma merge_all_perm fuel bs : merge_all fuel bs ≡ₚ concat bs.
Proof.
  revert bs. induction fuel as [|fuel IH]; intros bs; [done|].
  cbn [merge_all]. destruct bs as [|l1 [|l2 bs]]; [done|simpl; by rewrite app_nil_r|].
  rewrite IH. apply merge_pairs_perm.
Qed.
Lemma SliceStable_perm l : SliceStable l ≡ₚ l.
Proof. unfold SliceStable. rewrite merge_all_perm. apply sort_blocks_perm. lia. Qed.

End sort.

(** Forty-five numbers, compared by their last digit. *)
Example SliceStable_runs :
  let l := (fun i => i * 7 mod 45) <$> seq 0 45 in
  SliceStable (fun a b => a mod 10 <? b mod 10) l =
    concat ((fun d => filter (fun x => x mod 10 = d) l) <$> seq 0 10).
Proof. vm_compute. reflexivity. Qed.
