(* ===== verification/Digest.v ===== *)
(** * Go's [crypto/sha256] and [math/big]: the hash and the base-62 text

    [ToSyncTargetKey] names a SyncTarget by the base-62 text of the SHA-224
    digest of its path.  The digest is computed as FIPS 180-4 specifies it, on
    32-bit words kept as [Z] modulo [2^32]; the text is [big.Int.Text(62)]. *)

From S2P Require Import Prelude.
Local Open Scope Z_scope.

(** ** SHA-224 *)

Definition w32 (x : Z) : Z := x mod 2 ^ 32.
Definition rotr (n x : Z) : Z :=
  Z.lor (Z.shiftr x n) (w32 (Z.shiftl x (32 - n))).
Definition Ch (x y z : Z) : Z := Z.lxor (Z.land x y) (Z.land (Z.lxor x 4294967295) z).
Definition Maj (x y z : Z) : Z :=
  Z.lxor (Z.lxor (Z.land x y) (Z.land x z)) (Z.land y z).
Definition Sigma0 x := Z.lxor (Z.lxor (rotr 2 x) (rotr 13 x)) (rotr 22 x).
Definition Sigma1 x := Z.lxor (Z.lxor (rotr 6 x) (rotr 11 x)) (rotr 25 x).
Definition sigma0 x := Z.lxor (Z.lxor (rotr 7 x) (rotr 18 x)) (Z.shiftr x 3).
Definition sigma1 x := Z.lxor (Z.lxor (rotr 17 x) (rotr 19 x)) (Z.shiftr x 10).

Definition round_constants : list Z := [
  1116352408; 1899447441; 3049323471; 3921009573; 961987163; 1508970993;
  2453635748; 2870763221; 3624381080; 310598401; 607225278; 1426881987;
  1925078388; 2162078206; 2614888103; 3248222580; 3835390401; 4022224774;
  264347078; 604807628; 770255983; 1249150122; 1555081692; 1996064986;
  2554220882; 2821834349; 2952996808; 3210313671; 3336571891; 3584528711;
  113926993; 338241895; 666307205; 773529912; 1294757372; 1396182291;
  1695183700; 1986661051; 2177026350; 2456956037; 2730485921; 2820302411;
  3259730800; 3345764771; 3516065817; 3600352804; 4094571909; 275423344;
  430227734; 506948616; 659060556; 883997877; 958139571; 1322822218;
  1537002063; 1747873779; 1955562222; 2024104815; 2227730452; 2361852424;
  2428436474; 2756734187; 3204031479; 3329325298].

Definition sha224_init : list Z := [
  3238371032; 914150663; 812702999; 4144912697; 4290775857; 1750603025;
  1694076839; 3204075428].

(** The message schedule: [w] holds the last sixteen words, oldest first. *)
Definition schedule_next (w : list Z) : Z :=
  w32 (sigma1 (nth 14 w 0) + nth 9 w 0 + sigma0 (nth 1 w 0) + nth 0 w 0).

Fixpoint rounds (ks : list Z) (w s : list Z) : list Z :=
  match ks with
  | [] => s
  | k :: ks =>
      match s with
      | [a; b; c; d; e; f; g; h] =>
          let t1 := h + Sigma1 e + Ch e f g + k + nth 0 w 0 in
          let t2 := Sigma0 a + Maj a b c in
          rounds ks (tail w ++ [schedule_next w])
            [w32 (t1 + t2); a; b; c; w32 (d + t1); e; f; g]
      | _ => s
      end
  end.

Definition compress (s block : list Z) : list Z :=
  zip_with (fun a b => w32 (a + b)) s (rounds round_constants block s).

(** Big-endian words of bytes, and bytes of a word. *)
Fixpoint words (l : list Z) : list Z :=
  match l with
  | a :: b :: c :: d :: l => (((a * 256 + b) * 256 + c) * 256 + d) :: words l
  | _ => []
  end.
Definition word_bytes (w : Z) : list Z :=
  [w / 2 ^ 24 mod 256; w / 2 ^ 16 mod 256; w / 2 ^ 8 mod 256; w mod 256].

Fixpoint compress_all (fuel : nat) (s ws : list Z) : list Z :=
  match fuel, ws with
  | _, [] | O, _ => s
  | S fuel, _ => compress_all fuel (compress s (take 16 ws)) (drop 16 ws)
  end.

(** The message, a 1 bit, zeros and the length in bits, in 64-byte blocks. *)
Definition pad_message (m : list Z) : list Z :=
  let n := Z.of_nat (length m) in
  m ++ [128] ++ replicate (Z.to_nat ((55 - n) mod 64)) 0 ++
  word_bytes (8 * n / 2 ^ 32) ++ word_bytes (8 * n).

Definition bytes_of (s : string) : list Z :=
  (fun c => Z.of_nat (nat_of_ascii c)) <$> String.list_ascii_of_string s.

(** [sha256.Sum224]: 28 bytes. *)
Definition Sum224 (m : list Z) : list Z :=
  let ws := words (pad_message m) in
  take 28 (mjoin (word_bytes <$> compress_all (length ws) sha224_init ws)).

(** ** Positional notation *)

(** [new(big.Int).SetBytes(b)]: big-endian. *)
Definition SetBytes (b : list Z) : Z := fold_left (fun acc x => acc * 256 + x) b 0.

(** The digits of [big.Int.Text(62)]: 0-9, a-z, A-Z. *)
Definition digit62 (d : Z) : ascii :=
  ascii_of_nat (Z.to_nat (if d <? 10 then 48 + d else if d <? 36 then 87 + d else 29 + d)).
Definition digit62_val (c : ascii) : option Z :=
  let n := Z.of_nat (nat_of_ascii c) in
  if (48 <=? n) && (n <=? 57) then Some (n - 48)
  else if (97 <=? n) && (n <=? 122) then Some (n - 87)
  else if (65 <=? n) && (n <=? 90) then Some (n - 29)
  else None.

Fixpoint text62_go (fuel : nat) (x : Z) (acc : string) : string :=
  match fuel with
  | O => acc
  | S fuel =>
      let acc := String (digit62 (x mod 62)) acc in
      if x / 62 =? 0 then acc else text62_go fuel (x / 62) acc
  end.
(** [x.Text(62)] for [0 <= x]: at most [log2 x + 1] digits. *)
Definition Text62 (x : Z) : string := text62_go (S (Z.to_nat (Z.log2 x))) x "".

(** Reading the text back. *)
Definition val62 (s : string) : option Z :=
  fold_left (fun acc c => a ← acc; d ← digit62_val c; Some (a * 62 + d))
    (String.list_ascii_of_string s) (Some 0).

(** ** Lemmas *)

Lemma digit62_val_digit d : 0 <= d < 62 -> digit62_val (digit62 d) = Some d.
Proof.
  intros H. unfold digit62_val, digit62.
  destruct (Z.ltb_spec d 10); [|destruct (Z.ltb_spec d 36)];
    rewrite nat_ascii_embedding by lia; rewrite Z2Nat.id by lia;
    repeat match goal with
    | |- context [?a <=? ?b] => destruct (Z.leb_spec a b); try lia; simpl
    end; f_equal; lia.
Qed.

Definition val62_from (a : option Z) (s : string) : option Z :=
  fold_left (fun acc c => a ← acc; d ← digit62_val c; Some (a * 62 + d))
    (String.list_ascii_of_string s) a.

#[local] Opaque digit62 digit62_val.

Lemma val62_text_go fuel x acc a :
  0 <= x < 2 ^ Z.of_nat fuel -> (0 < fuel)%nat ->
  exists k, 0 < k /\
    val62_from (Some a) (text62_go fuel x acc) = val62_from (Some (a * k + x)) acc.
Proof.
  revert x acc a. induction fuel as [|fuel IH]; intros x acc a Hx Hf; [lia|].
  cbn [text62_go].
  pose proof (Z.mod_pos_bound x 62 ltac:(lia)).
  pose proof (Z.div_mod x 62 ltac:(lia)).
  destruct (Z.eqb_spec (x / 62) 0) as [E|E].
  - exists 62. split; [lia|]. unfold val62_from at 1. simpl.
    rewrite digit62_val_digit by lia. unfold val62_from. simpl.
    replace (a * 62 + x mod 62) with (a * 62 + x) by lia. done.
  - assert (x / 62 < 2 ^ Z.of_nat fuel).
    { apply Z.div_lt_upper_bound; [lia|].
      rewrite Nat2Z.inj_succ, Z.pow_succ_r in Hx by lia. lia. }
    assert (0 <= x / 62) by (apply Z.div_pos; lia).
    destruct fuel as [|fuel]; [simpl in *; lia|].
    destruct (IH (x / 62) (String (digit62 (x mod 62)) acc) a ltac:(lia) ltac:(lia))
      as (k & Hk & ->).
    exists (k * 62). split; [lia|]. unfold val62_from at 1. simpl.
    rewrite digit62_val_digit by lia. unfold val62_from. simpl.
    replace ((a * k + x / 62) * 62 + x mod 62) with (a * (k * 62) + x) by lia. done.
Qed.

(** The text determines the number. *)
Lemma val62_Text62 x : 0 <= x -> val62 (Text62 x) = Some x.
Proof.
  intros Hx. unfold Text62.
  assert (0 <= x < 2 ^ Z.of_nat (S (Z.to_nat (Z.log2 x)))) as Hb.
  { rewrite Nat2Z.inj_succ, Z2Nat.id by apply Z.log2_nonneg.
    split; [done|]. destruct (decide (x = 0)) as [->|]; [done|].
    apply Z.log2_spec. lia. }
  destruct (val62_text_go _ x "" 0 Hb ltac:(lia)) as (k & _ & H).
  unfold val62_from in H. unfold val62. rewrite H. simpl. done.
Qed.

Lemma Text62_inj x y : 0 <= x -> 0 <= y -> Text62 x = Text62 y -> x = y.
Proof. intros Hx Hy H. apply (f_equal val62) in H. rewrite !val62_Text62 in H by done. congruence. Qed.

Definition is_bytes (l : list Z) : Prop := Forall (fun b => 0 <= b < 256) l.

Lemma SetBytes_snoc l b : SetBytes (l ++ [b]) = SetBytes l * 256 + b.
Proof. unfold SetBytes. by rewrite fold_left_app. Qed.

Lemma SetBytes_nonneg l : is_bytes l -> 0 <= SetBytes l.
Proof.
  induction l as [|b l IH] using rev_ind; [done|].
  rewrite SetBytes_snoc. intros [Hl Hb]%Forall_app. rewrite Forall_singleton in Hb.
  specialize (IH Hl). cbv beta in *. lia.
Qed.

(** Byte strings of one length are told apart by their number. *)
Lemma SetBytes_inj l l' :
  is_bytes l -> is_bytes l' -> length l = length l' -> SetBytes l = SetBytes l' -> l = l'.
Proof.
  revert l'. induction l as [|b l IH] using rev_ind; intros l' Hl Hl' Hlen.
  { by destruct l'. }
  destruct l' as [|b' l' _] using rev_ind; [rewrite length_app in Hlen; simpl in *; lia|].
  rewrite !SetBytes_snoc. rewrite !length_app in Hlen. simpl in Hlen.
  apply Forall_app in Hl as [Hl Hb]. apply Forall_app in Hl' as [Hl' Hb'].
  rewrite Forall_singleton in Hb, Hb'. intros H.
  cbv beta in *.
  assert (SetBytes l = SetBytes l' /\ b = b') as [E ->] by lia.
  f_equal. apply IH; [done|done|lia|done].
Qed.

Lemma word_bytes_ok w : is_bytes (word_bytes w).
Proof. repeat constructor; apply Z.mod_pos_bound; lia. Qed.

Lemma Sum224_bytes m : is_bytes (Sum224 m).
Proof.
  apply Forall_take. unfold is_bytes. generalize (compress_all
    (length (words (pad_message m))) sha224_init (words (pad_message m))).
  intros l. induction l as [|w l IH]; [constructor|].
  change (Forall (fun b => 0 <= b < 256) (word_bytes w ++ mjoin (word_bytes <$> l))).
  apply Forall_app. split; [apply word_bytes_ok|exact IH].
Qed.

Lemma length_rounds ks w s : length s = 8%nat -> length (rounds ks w s) = 8%nat.
Proof.
  revert w s. induction ks as [|k ks IH]; intros w s Hs; [done|].
  do 9 (destruct s as [|? s]; try done). simpl. by apply IH.
Qed.

Lemma length_compress_all fuel s ws :
  length s = 8%nat -> length (compress_all fuel s ws) = 8%nat.
Proof.
  revert s ws. induction fuel as [|fuel IH]; intros s ws Hs; destruct ws; try done.
  cbn [compress_all]. apply IH. unfold compress.
  rewrite length_zip_with, length_rounds by done. lia.
Qed.

Lemma length_Sum224 m : length (Sum224 m) = 28%nat.
Proof.
  unfold Sum224. rewrite length_take.
  pose proof (length_compress_all (length (words (pad_message m))) sha224_init
    (words (pad_message m)) eq_refl) as H.
  remember (compress_all _ _ _) as l eqn:E. clear E.
  do 8 (destruct l as [|? l]; [done|]). by destruct l.
Qed.
