(* ===== verification/ApiTypes.v ===== *)
(** * The API types ([apis/workload], [apis/scheduling])

    The annotation, label and finalizer keys through which the components
    communicate, the SyncTarget key, and the three custom resources of the
    scheduler: SyncTarget, Location and Placement. *)

From S2P Require Import Prelude Platform Digest.

(** ** Keys on synced resources ([apis/workload/v1alpha1/types.go]) *)

(** [type ResourceState string]: a value of the state label. *)
Abbreviation ResourceState := string (only parsing).
Definition ResourceStatePending : ResourceState := "".
Definition ResourceStateSync : ResourceState := "Sync".
Definition ResourceStateUpsync : ResourceState := "Upsync".

Definition InternalClusterDeletionTimestampAnnotationPrefix : string :=
  "deletion.internal.workload.kcp.io/".
Definition ClusterFinalizerAnnotationPrefix : string := "finalizers.workload.kcp.io/".
Definition ClusterResourceStateLabelPrefix : string := "state.workload.kcp.io/".
Definition InternalSyncerViewAnnotationPrefix : string := "diff.syncer.internal.kcp.io/".
Definition InternalClusterStatusAnnotationPrefix : string :=
  "experimental.status.workload.kcp.io/".
Definition ClusterSpecDiffAnnotationPrefix : string :=
  "experimental.spec-diff.workload.kcp.io/".
Definition ExperimentalSummarizingRulesAnnotation : string :=
  "experimental.summarizing.workload.kcp.io".
Definition InternalDownstreamClusterLabel : string := "internal.workload.kcp.io/cluster".
Definition AnnotationSkipDefaultObjectCreation : string :=
  "workload.kcp.io/skip-default-object-creation".
Definition InternalSyncTargetPlacementAnnotationKey : string :=
  "internal.workload.kcp.io/synctarget".
Definition InternalSyncTargetKeyLabel : string := "internal.workload.kcp.io/key".
Definition ComputeAPIExportAnnotationKey : string :=
  "extra.apis.kcp.io/compute.workload.kcp.io".
Definition ExperimentalUpsyncDerivedResourcesAnnotationKey : string :=
  "experimental.workload.kcp.io/upsync-derived-resources".
Definition InternalWorkspaceURLAnnotationKey : string :=
  "internal.workload.kcp.io/workspace-url".

(** [pkg/syncer/shared/finalizer.go]. *)
Definition SyncerFinalizerNamePrefix : string := "workload.kcp.io/syncer-".

(** The keys of one sync target. *)
Definition state_label (k : string) : string := ClusterResourceStateLabelPrefix +:+ k.
Definition deletion_annotation (k : string) : string :=
  InternalClusterDeletionTimestampAnnotationPrefix +:+ k.
Definition cluster_finalizer_annotation (k : string) : string :=
  ClusterFinalizerAnnotationPrefix +:+ k.
Definition syncer_finalizer (k : string) : string := SyncerFinalizerNamePrefix +:+ k.

(** ** The SyncTarget key ([apis/workload/v1alpha1/helpers.go]) *)

(** [toBase62]: the text of the 28 bytes read as one big-endian number. *)
Definition toBase62 (hash : list Z) : string := Text62 (SetBytes hash).
(** [ToSyncTargetKey(clusterName, syncTargetName)]. *)
Definition ToSyncTargetKey `{!ClusterLib} (clusterName syncTargetName : string) : string :=
  toBase62 (Sum224 (bytes_of (PathJoin clusterName syncTargetName))).

(** ** SyncTarget ([apis/workload/v1alpha1/synctarget_types.go]) *)

Record ResourceToSync := {
  rs_GroupResource : GroupResource;
  rs_Versions : list string;
  rs_IdentityHash : string;
  rs_State : string;
}.
#[global] Instance ResourceToSync_eq_dec : EqDecision ResourceToSync.
Proof. solve_decision. Defined.

Definition ResourceSchemaPendingState : string := "Pending".
Definition ResourceSchemaAcceptedState : string := "Accepted".
Definition ResourceSchemaIncompatibleState : string := "Incompatible".

(** [tenancyv1alpha1.APIExportReference]. *)
Record APIExportReference := { ref_Path : string; ref_Export : string }.
#[global] Instance APIExportReference_eq_dec : EqDecision APIExportReference.
Proof. solve_decision. Defined.

Record VirtualWorkspace := { SyncerURL : string; UpsyncerURL : string }.
#[global] Instance VirtualWorkspace_eq_dec : EqDecision VirtualWorkspace.
Proof. solve_decision. Defined.
(** A [TunnelWorkspace] is its URL. *)
Abbreviation TunnelWorkspace := string (only parsing).

Record SyncTargetSpec := {
  Unschedulable : bool;
  EvictAfter : option Time;
  SupportedAPIExports : list APIExportReference;
  Cells : gomap;
}.
#[global] Instance SyncTargetSpec_eq_dec : EqDecision SyncTargetSpec.
Proof. solve_decision. Defined.

(** [*corev1.ResourceList] is an optional map from resources to quantities. *)
Record SyncTargetStatus := {
  Allocatable : option gomap;
  Capacity : option gomap;
  st_Conditions : Conditions;
  SyncedResources : list ResourceToSync;
  LastSyncerHeartbeatTime : option Time;
  VirtualWorkspaces : list VirtualWorkspace;
  TunnelWorkspaces : list TunnelWorkspace;
}.
#[global] Instance SyncTargetStatus_eq_dec : EqDecision SyncTargetStatus.
Proof. solve_decision. Defined.

Record SyncTarget := {
  st_Meta : ObjectMeta;
  st_Spec : SyncTargetSpec;
  st_Status : SyncTargetStatus;
}.
#[global] Instance SyncTarget_eq_dec : EqDecision SyncTarget.
Proof. solve_decision. Defined.

Definition set_st_conditions (s : SyncTarget) (cs : Conditions) : SyncTarget :=
  {| st_Meta := st_Meta s; st_Spec := st_Spec s;
     st_Status := {| Allocatable := Allocatable (st_Status s);
       Capacity := Capacity (st_Status s); st_Conditions := cs;
       SyncedResources := SyncedResources (st_Status s);
       LastSyncerHeartbeatTime := LastSyncerHeartbeatTime (st_Status s);
       VirtualWorkspaces := VirtualWorkspaces (st_Status s);
       TunnelWorkspaces := TunnelWorkspaces (st_Status s) |} |}.
Definition set_SyncedResources (s : SyncTarget) (l : list ResourceToSync) : SyncTarget :=
  {| st_Meta := st_Meta s; st_Spec := st_Spec s;
     st_Status := {| Allocatable := Allocatable (st_Status s);
       Capacity := Capacity (st_Status s); st_Conditions := st_Conditions (st_Status s);
       SyncedResources := l;
       LastSyncerHeartbeatTime := LastSyncerHeartbeatTime (st_Status s);
       VirtualWorkspaces := VirtualWorkspaces (st_Status s);
       TunnelWorkspaces := TunnelWorkspaces (st_Status s) |} |}.

Definition ImportedAPISExportName : string := "imported-apis".
Definition SyncerReady : string := "SyncerReady".
Definition APIImporterReady : string := "APIImporterReady".
Definition HeartbeatHealthy : string := "HeartbeatHealthy".
Definition SyncerAuthorized : string := "SyncerAuthorized".
Definition ErrorHeartbeatMissedReason : string := "ErrorHeartbeat".

(** [conditionsv1alpha1.ReadyCondition] and the severities. *)
Definition ReadyCondition : string := "Ready".
Definition ConditionSeverityError : string := "Error".
Definition ConditionSeverityWarning : string := "Warning".
Definition ConditionSeverityNone : string := "".

(** ** Location ([apis/scheduling/v1alpha1/types_location.go]) *)

Definition LocationLabelsStringAnnotationKey : string := "scheduling.kcp.io/labels".
Definition PlacementAnnotationKey : string := "scheduling.kcp.io/placement".

Record AvailableSelectorLabel := {
  asl_Key : string;
  asl_Values : list string;
  asl_Description : string;
}.
#[global] Instance AvailableSelectorLabel_eq_dec : EqDecision AvailableSelectorLabel.
Proof. solve_decision. Defined.

Record LocationSpec := {
  l_Resource : GroupVersionResource;
  l_Description : string;
  l_AvailableSelectorLabels : list AvailableSelectorLabel;
  l_InstanceSelector : option LabelSelector;
}.
#[global] Instance LocationSpec_eq_dec : EqDecision LocationSpec.
Proof. solve_decision. Defined.

(** [*uint32] counters: [None] is the nil pointer. *)
Record LocationStatus := { Instances : option Z; AvailableInstances : option Z }.
#[global] Instance LocationStatus_eq_dec : EqDecision LocationStatus.
Proof. solve_decision. Defined.

Record Location := {
  l_Meta : ObjectMeta;
  l_Spec : LocationSpec;
  l_Status : LocationStatus;
}.
#[global] Instance Location_eq_dec : EqDecision Location.
Proof. solve_decision. Defined.

(** ** Placement ([apis/scheduling/v1alpha1/types_placement.go]) *)

(** [type PlacementPhase string] with its three constants. *)
Definition PlacementPending : string := "Pending".
Definition PlacementUnbound : string := "Unbound".
Definition PlacementBound : string := "Bound".

Definition PlacementReady : string := "Ready".
Definition LocationNotFoundReason : string := "LocationNotFound".
Definition LocationInvalidReason : string := "LocationInvalid".
Definition LocationNotMatchReason : string := "LocationNoMatch".
Definition PlacementScheduled : string := "Scheduled".
Definition ScheduleLocationNotFound : string := "ScheduleLocationNotFound".
Definition ScheduleNoValidTargetReason : string := "NoValidTarget".

Record PlacementSpec := {
  LocationSelectors : list LabelSelector;
  LocationResource : GroupVersionResource;
  NamespaceSelector : option LabelSelector;
  LocationWorkspace : string;
}.
#[global] Instance PlacementSpec_eq_dec : EqDecision PlacementSpec.
Proof. solve_decision. Defined.

Record LocationReference := { lr_Path : string; lr_LocationName : string }.
#[global] Instance LocationReference_eq_dec : EqDecision LocationReference.
Proof. solve_decision. Defined.

Record PlacementStatus := {
  p_Phase : string;
  p_SelectedLocation : option LocationReference;
  p_Conditions : Conditions;
}.
#[global] Instance PlacementStatus_eq_dec : EqDecision PlacementStatus.
Proof. solve_decision. Defined.

Record Placement := {
  p_Meta : ObjectMeta;
  p_Spec : PlacementSpec;
  p_Status : PlacementStatus;
}.
#[global] Instance Placement_eq_dec : EqDecision Placement.
Proof. solve_decision. Defined.

Definition set_p_status (p : Placement) (s : PlacementStatus) : Placement :=
  {| p_Meta := p_Meta p; p_Spec := p_Spec p; p_Status := s |}.
Definition set_p_conditions (p : Placement) (cs : Conditions) : Placement :=
  set_p_status p {| p_Phase := p_Phase (p_Status p);
    p_SelectedLocation := p_SelectedLocation (p_Status p); p_Conditions := cs |}.
Definition set_p_phase (p : Placement) (ph : string) : Placement :=
  set_p_status p {| p_Phase := ph;
    p_SelectedLocation := p_SelectedLocation (p_Status p);
    p_Conditions := p_Conditions (p_Status p) |}.
Definition set_p_location (p : Placement) (l : option LocationReference) : Placement :=
  set_p_status p {| p_Phase := p_Phase (p_Status p);
    p_SelectedLocation := l; p_Conditions := p_Conditions (p_Status p) |}.

(** ** Lemmas *)

#[global] Instance state_label_inj : Inj (=) (=) state_label.
Proof. apply prefix_inj. Qed.
#[global] Instance deletion_annotation_inj : Inj (=) (=) deletion_annotation.
Proof. apply prefix_inj. Qed.
#[global] Instance syncer_finalizer_inj : Inj (=) (=) syncer_finalizer.
Proof. apply prefix_inj. Qed.

Lemma HasPrefix_state_label s :
  HasPrefix s ClusterResourceStateLabelPrefix = true <-> exists k, s = state_label k.
Proof. apply HasPrefix_spec. Qed.
Lemma HasPrefix_deletion_annotation s :
  HasPrefix s InternalClusterDeletionTimestampAnnotationPrefix = true <->
  exists k, s = deletion_annotation k.
Proof. apply HasPrefix_spec. Qed.
Lemma HasPrefix_syncer_finalizer s :
  HasPrefix s SyncerFinalizerNamePrefix = true <-> exists k, s = syncer_finalizer k.
Proof. apply HasPrefix_spec. Qed.

(** The key of the repository's tests. *)
Example ToSyncTargetKey_test :
  @ToSyncTargetKey simple_clusters "root:org:ws" "us-west1" =
  "6ohB8yeXhwqTQVuBzJRgqcRJTpRjX7yTZu5g5g".
Proof. vm_compute. reflexivity. Qed.

(** Two SyncTargets get the same key exactly when the SHA-224 digests of
    their paths agree: the base-62 text keeps all 224 bits. *)
Theorem ToSyncTargetKey_digest `{!ClusterLib} c n c' n' :
  ToSyncTargetKey c n = ToSyncTargetKey c' n' <->
  Sum224 (bytes_of (PathJoin c n)) = Sum224 (bytes_of (PathJoin c' n')).
Proof.
  unfold ToSyncTargetKey, toBase62. split; [|by intros ->]. intros E.
  apply Text62_inj in E; [|apply SetBytes_nonneg, Sum224_bytes..].
  apply SetBytes_inj in E; [done|apply Sum224_bytes..|by rewrite !length_Sum224].
Qed.
