(* ===== verification/SyncIntent.v ===== *)
(** * Sync intents ([apis/workload/helpers/syncintent.go])

    What a resource's labels and annotations ask of each SyncTarget. *)

From S2P Require Import Prelude Platform GoTime ApiTypes.

Record SyncIntent := {
  si_ResourceState : ResourceState;
  si_DeletionTimestamp : option Time;
  si_Finalizers : string;
}.
#[global] Instance SyncIntent_eq_dec : EqDecision SyncIntent.
Proof. solve_decision. Defined.

(** [deletionTimestamp.UnmarshalText(annotation)]. *)
Definition UnmarshalText (s : string) : result Time :=
  match Parse_RFC3339 s with
  | Some t => inr t
  | None => inl (ErrLib "ParseError" s)
  end.

(** The body of the loop: the intent for one state label. *)
Definition intent_of (annotations : gomap) (syncTarget labelValue : string) : result SyncIntent :=
  let intent deletion := {|
    si_ResourceState := labelValue;
    si_DeletionTimestamp := deletion;
    si_Finalizers := map_index annotations (cluster_finalizer_annotation syncTarget) |} in
  match map_get annotations (deletion_annotation syncTarget) with
  | Some a =>
      match UnmarshalText a with
      | inr t => inr (intent (Some t))
      | inl e => inl (ErrWrap ("parsing of the deletion annotation for sync target "
                                +:+ syncTarget +:+ " failed") e)
      end
  | None => inr (intent None)
  end.

Fixpoint sync_intents_loop (annotations : gomap) (labels : list (string * string))
    (syncing : gmap string SyncIntent) : result (gmap string SyncIntent) :=
  match labels with
  | [] => inr syncing
  | (labelName, labelValue) :: labels =>
      if HasPrefix labelName ClusterResourceStateLabelPrefix then
        let syncTarget := TrimPrefix labelName ClusterResourceStateLabelPrefix in
        match intent_of annotations syncTarget labelValue with
        | inl e => inl e
        | inr i => sync_intents_loop annotations labels (<[syncTarget := i]> syncing)
        end
      else sync_intents_loop annotations labels syncing
  end.

(** [GetSyncIntents(upstreamResource)]. *)
Definition GetSyncIntents `{!MapOrder} (upstreamResource : ObjectMeta)
    : result (gmap string SyncIntent) :=
  sync_intents_loop (Annotations upstreamResource)
    (map_range (entries (Labels upstreamResource))) ∅.

(** ** Specification *)

(** The intent of one SyncTarget read off the object directly. *)
Definition intent_spec (o : ObjectMeta) (k : string) : option (result SyncIntent) :=
  intent_of (Annotations o) k <$> map_get (Labels o) (state_label k).

(** The deletion annotation of [k], if any, is a timestamp. *)
Definition deletion_parses (a : gomap) (k : string) : Prop :=
  forall v, map_get a (deletion_annotation k) = Some v -> is_Some (Parse_RFC3339 v).

(** ** Lemmas *)

Lemma intent_of_ok a k v :
  deletion_parses a k <-> exists i, intent_of a k v = inr i.
Proof.
  unfold deletion_parses, intent_of, UnmarshalText.
  destruct (map_get a (deletion_annotation k)) as [s|] eqn:E.
  - destruct (Parse_RFC3339 s) as [t|] eqn:P; simpl.
    + split; [eauto|]. intros _ v' [= <-]. by rewrite P.
    + split; [|by intros [i Hi]]. intros H. specialize (H s eq_refl).
      rewrite P in H. by destruct H.
  - split; [eauto|]. done.
Qed.

(** The loop adds the intents of the state labels it goes over. *)
Lemma sync_intents_loop_ok a l m0 m :
  NoDup l.*1 -> sync_intents_loop a l m0 = inr m ->
  (forall k v, (state_label k, v) ∈ l -> exists i, intent_of a k v = inr i /\ m !! k = Some i) /\
  (forall k, state_label k ∉ l.*1 -> m !! k = m0 !! k).
Proof.
  revert m0. induction l as [|[n v] l IH]; intros m0; simpl.
  { intros _ [= ->]. split; [intros ?? []%not_elem_of_nil|done]. }
  intros [Hn Hl]%NoDup_cons. destruct (HasPrefix n _) eqn:P.
  - apply HasPrefix_state_label in P as [k ->].
    change (state_label k) with (ClusterResourceStateLabelPrefix +:+ k).
    rewrite TrimPrefix_app.
    destruct (intent_of a k v) as [e|i] eqn:Ei; simpl; [done|]. intros Hm.
    destruct (IH _ Hl Hm) as [IH1 IH2]. split.
    + intros k' v' [[= E1 ->]|Hin]%elem_of_cons; [|by apply IH1].
      apply (inj (String.append _)) in E1 as ->. exists i. split; [done|].
      rewrite IH2 by exact Hn. apply lookup_insert_eq.
    + intros k' [Hne Hin]%not_elem_of_cons. rewrite IH2 by done.
      apply lookup_insert_ne. intros ->. done.
  - intros Hm. destruct (IH _ Hl Hm) as [IH1 IH2]. split.
    + intros k' v' [[= <- ->]|Hin]%elem_of_cons; [|by apply IH1].
      unfold state_label in P. by rewrite HasPrefix_app in P.
    + intros k' [Hne Hin]%not_elem_of_cons. by apply IH2.
Qed.

Lemma sync_intents_loop_total a l m0 :
  (forall k v, (state_label k, v) ∈ l -> deletion_parses a k) ->
  exists m, sync_intents_loop a l m0 = inr m.
Proof.
  revert m0. induction l as [|[n v] l IH]; intros m0 H; simpl; [eauto|].
  assert (forall m, exists m', sync_intents_loop a l m = inr m') as IH'.
  { intros m. apply IH. intros k v' Hin. apply (H k v'). by apply list_elem_of_further. }
  destruct (HasPrefix n _) eqn:P; [|apply IH'].
  apply HasPrefix_state_label in P as [k ->].
  unfold state_label. rewrite TrimPrefix_app.
  destruct (proj1 (intent_of_ok a k v)) as [i ->]; [|apply IH'].
  apply (H k v), list_elem_of_here.
Qed.

(** The intents' states are the values of the state labels. *)
Lemma intent_of_state a k v i : intent_of a k v = inr i -> si_ResourceState i = v.
Proof. unfold intent_of. repeat case_match; by intros [= <-]. Qed.
Lemma GetSyncIntents_intent `{!MapOrder} (o : ObjectMeta) m k :
  GetSyncIntents o = inr m ->
  match map_get (Labels o) (state_label k) with
  | Some v => exists i, intent_of (Annotations o) k v = inr i /\ m !! k = Some i
  | None => m !! k = None
  end.
Proof.
  intros Hm. unfold map_get.
  destruct (sync_intents_loop_ok _ _ _ _ (NoDup_map_range _) Hm) as [H1 H2].
  destruct (entries (Labels o) !! state_label k) as [v|] eqn:E.
  - by apply H1, elem_of_map_range.
  - rewrite H2; [by rewrite lookup_empty|].
    intros Hin. apply list_elem_of_fmap in Hin as ([k' v'] & Ek & Hin).
    apply elem_of_map_range in Hin. simpl in Ek. subst k'. congruence.
Qed.
Lemma GetSyncIntents_state `{!MapOrder} (o : ObjectMeta) m k :
  GetSyncIntents o = inr m ->
  si_ResourceState <$> m !! k = map_get (Labels o) (state_label k).
Proof.
  intros Hm. pose proof (GetSyncIntents_intent o m k Hm) as Hk.
  destruct (map_get _ _) as [v|]; [|by rewrite Hk].
  destruct Hk as (i & Hi%intent_of_state & ->). simpl. by rewrite Hi.
Qed.
Lemma GetSyncIntents_dom `{!MapOrder} (o : ObjectMeta) m k :
  GetSyncIntents o = inr m ->
  is_Some (m !! k) <-> is_Some (map_get (Labels o) (state_label k)).
Proof. intros Hm. rewrite <-(GetSyncIntents_state o m k Hm). by rewrite fmap_is_Some. Qed.

Section theorems.
Context {MO : MapOrder}.

(** [GetSyncIntents] answers the abstract specification for every order
    in which Go may enumerate the labels: a SyncTarget has an intent exactly
    when the resource has its state label, and the intent is the one of its
    label and annotations. *)
Theorem GetSyncIntents_spec (o : ObjectMeta) m :
  GetSyncIntents o = inr m ->
  forall k, inr <$> (m !! k) = intent_spec o k.
Proof.
  intros Hm k. unfold intent_spec. pose proof (GetSyncIntents_intent o m k Hm) as Hk.
  destruct (map_get _ _) as [v|]; simpl; [|by rewrite Hk]. by destruct Hk as (i & -> & ->).
Qed.

(** [GetSyncIntents] fails exactly when the deletion annotation of some
    assigned SyncTarget is not an RFC 3339 timestamp. *)
Theorem GetSyncIntents_total (o : ObjectMeta) :
  (exists m, GetSyncIntents o = inr m) <->
  (forall k, is_Some (map_get (Labels o) (state_label k)) ->
    deletion_parses (Annotations o) k).
Proof.
  split.
  - intros [m Hm] k [v Hv].
    destruct (sync_intents_loop_ok _ _ _ _ (NoDup_map_range _) Hm) as [H1 _].
    destruct (H1 k v) as (i & Hi & _); [by apply elem_of_map_range|].
    apply (intent_of_ok _ _ v). eauto.
  - intros H. apply sync_intents_loop_total. intros k v Hin.
    apply H. exists v. by apply elem_of_map_range in Hin.
Qed.
End theorems.

(** An object that is synced to [k1] and being deleted from it. *)
Definition deleting_object : ObjectMeta :=
  mk_meta "o" "ns" (Some {[ state_label "k1" := "Sync" ]})
    (Some {[ deletion_annotation "k1" := "1970-01-01T00:00:01Z" ]}) [].
Lemma GetSyncIntents_spec_witness :
  exists m, @GetSyncIntents canonical_order deleting_object = inr m /\
    forall k, inr <$> (m !! k) = intent_spec deleting_object k.
Proof.
  eexists. split; [vm_compute; reflexivity|].
  apply (@GetSyncIntents_spec canonical_order deleting_object). vm_compute. reflexivity.
Defined.
