(* ===== verification/ResourceScheduler.v ===== *)
(** * The resource scheduler ([pkg/reconciler/workload/resource])

    The controller that gives every synced resource the state labels and the
    deletion annotations that its namespace (or, for a cluster-wide resource,
    the placements of its workspace) asks for, and that drops the finalizers of
    syncers whose SyncTarget is gone. *)

From S2P Require Import Prelude Platform GoTime ApiTypes.

(** ** Labels and annotations as sets of locations ([resource_controller.go]) *)

(** [scheduleStateLabels] and [scheduleStateAnnotations]. *)
Definition scheduleStateLabels (ls : gomap) : gmap string string :=
  filter (fun kv => HasPrefix kv.1 ClusterResourceStateLabelPrefix = true) (entries ls).
Definition scheduleStateAnnotations (ls : gomap) : gmap string string :=
  filter (fun kv => HasPrefix kv.1 InternalClusterDeletionTimestampAnnotationPrefix = true)
    (entries ls).

(** The loop body of [getLocations]. *)
Definition add_location (skipPending : bool) (locations : gset string)
    (kv : string * string) : gset string :=
  if HasPrefix kv.1 ClusterResourceStateLabelPrefix
     && (negb skipPending || bool_decide (kv.2 = ResourceStateSync))
  then {[ TrimPrefix kv.1 ClusterResourceStateLabelPrefix ]} ∪ locations
  else locations.
Definition getLocations `{!MapOrder} (labels : gomap) (skipPending : bool) : gset string :=
  foldl (add_location skipPending) ∅ (map_range (entries labels)).

(** The loop body of [getDeletingLocations]. *)
Definition add_deleting (deletingLocations : gmap string string)
    (kv : string * string) : gmap string string :=
  if HasPrefix kv.1 InternalClusterDeletionTimestampAnnotationPrefix
  then <[ TrimPrefix kv.1 InternalClusterDeletionTimestampAnnotationPrefix := kv.2 ]>
         deletingLocations
  else deletingLocations.
Definition getDeletingLocations `{!MapOrder} (annotations : gomap) : gmap string string :=
  foldl add_deleting ∅ (map_range (entries annotations)).

(** ** Computing the patch ([resource_reconcile.go]) *)

(** [time.Now()] in the process's zone. Calls made for different locations
    may see different times. *)
Record Clock := { local_offset : Z; time_Now : string -> Time }.
Definition now_RFC3339 (c : Clock) (site : string) : string :=
  Format_RFC3339 (local_offset c) (time_Now c site).

(** A [map[string]interface{}] patch: [None] as a value is JSON's null, which
    removes the key. *)
Abbreviation patch := (gmap string (option string)) (only parsing).

Section computePlacement.
Context {MO : MapOrder}.
Variable expectedSyncTargetKeys : gset string.
Variable expectedDeletedSynctargetKeys : gmap string string.
Variable clock : Clock.
Variable obj : ObjectMeta.

Definition has_syncer_finalizer (loc : string) : bool :=
  existsb (fun f => bool_decide (f = SyncerFinalizerNamePrefix +:+ loc)) (Finalizers obj).
Definition has_cluster_finalizer (loc : string) : bool :=
  match map_get (Annotations obj) (ClusterFinalizerAnnotationPrefix +:+ loc) with
  | Some val => bool_decide (val <> "")
  | None => false
  end.

(** First loop: unschedule the object from SyncTargets no longer expected. *)
Definition unschedule (p : patch * patch) (loc : string) : patch * patch :=
  let '(annotationPatch, labelPatch) := p in
  let del := InternalClusterDeletionTimestampAnnotationPrefix +:+ loc in
  let found := map_get (Annotations obj) del in
  if has_syncer_finalizer loc || has_cluster_finalizer loc then
    (match found with
     | None => <[ del := Some (now_RFC3339 clock loc) ]> annotationPatch
     | Some _ => annotationPatch
     end, labelPatch)
  else
    (match found with
     | Some _ => <[ del := None ]> annotationPatch
     | None => annotationPatch
     end, <[ ClusterResourceStateLabelPrefix +:+ loc := None ]> labelPatch).

(** Second loop: sync deletion timestamps. *)
Definition sync_deletion (currentDeleting : gmap string string) (p : patch * patch)
    (loc : string) : patch * patch :=
  let '(annotationPatch, labelPatch) := p in
  let del := InternalClusterDeletionTimestampAnnotationPrefix +:+ loc in
  (match expectedDeletedSynctargetKeys !! loc, currentDeleting !! loc with
   | Some expectedTimestamp, None => <[ del := Some expectedTimestamp ]> annotationPatch
   | None, Some _ => <[ del := None ]> annotationPatch
   | _, _ => annotationPatch
   end, labelPatch).

(** Third loop: label the object for new SyncTargets. *)
Definition schedule (resourceState : ResourceState) (p : patch * patch) (loc : string)
    : patch * patch :=
  let '(annotationPatch, labelPatch) := p in
  match expectedDeletedSynctargetKeys !! loc with
  | Some _ => p
  | None => (annotationPatch,
             <[ ClusterResourceStateLabelPrefix +:+ loc := Some resourceState ]> labelPatch)
  end.

Definition nil_if_empty (p : patch) : option patch :=
  if decide (p = ∅) then None else Some p.

(** [computePlacement]; [None] is a nil patch. *)
Definition computePlacement : option patch * option patch :=
  let current := getLocations (Labels obj) false in
  let currentDeleting := getDeletingLocations (Annotations obj) in
  if bool_decide (current = expectedSyncTargetKeys) &&
     bool_decide (currentDeleting = expectedDeletedSynctargetKeys)
  then (None, None)
  else
    let p := foldl unschedule (∅, ∅) (set_list (current ∖ expectedSyncTargetKeys)) in
    let p := foldl (sync_deletion currentDeleting) p
               (set_list (expectedSyncTargetKeys ∩ current)) in
    let resourceState :=
      if decide (Namespace obj = "") then ResourceStatePending else ResourceStateSync in
    let '(annotationPatch, labelPatch) :=
      foldl (schedule resourceState) p (set_list (expectedSyncTargetKeys ∖ current)) in
    (nil_if_empty annotationPatch, nil_if_empty labelPatch).

(** The loop body of [propagateDeletionTimestamp]. *)
Definition propagate (t : Time) (annotationPatch : patch) (location : string) : patch :=
  let del := InternalClusterDeletionTimestampAnnotationPrefix +:+ location in
  match map_get (Annotations obj) del with
  | Some val =>
      if decide (val = "") then
        <[ del := Some (Format_RFC3339 (local_offset clock) t) ]> annotationPatch
      else annotationPatch
  | None => <[ del := Some (Format_RFC3339 (local_offset clock) t) ]> annotationPatch
  end.
Definition propagateDeletionTimestamp (t : Time) : patch :=
  foldl (propagate t) ∅ (set_range (getLocations (Labels obj) false)).

End computePlacement.

(** ** The controller *)

(** What the controller does to the outside. A [ResourcePatch] is the JSON
    merge patch sent: absent fields are [None]. *)
Record ResourcePatch := {
  patch_UID : string;
  patch_ResourceVersion : string;
  patch_labels : option patch;
  patch_annotations : option patch;
  patch_finalizers : option (list string);
}.
Inductive event :=
  | EvDelete (gvr : GroupVersionResource) (cluster ns name : string)
  | EvPatch (gvr : GroupVersionResource) (cluster ns name : string) (p : ResourcePatch)
  | EvAddResource (key : string)
  | EvAddGVR (key : string)
  | EvHandleError (e : error)
  | EvAddRateLimited (key : string)
  | EvForget (key : string)
  | EvDone (key : string).

(** The listers, informers, queues and client the controller is built with
    ([NewController]'s arguments).  An object of a dynamic informer is [None]
    when it is not an [*unstructured.Unstructured]. *)
Record Controller := {
  NamespaceLister_Get : string -> string -> result ObjectMeta;
  PlacementLister_List : string -> result (list Placement);
  SyncTarget_ByIndex : string -> result (list SyncTarget);
  Informers : list GroupVersionResource * list GroupVersionResource;
  ForResource : GroupVersionResource -> result unit;
  HasSynced : GroupVersionResource -> bool;
  ListAll : GroupVersionResource -> result (list ObjectMeta);
  ListNamespace : GroupVersionResource -> string -> string -> result (list (option ObjectMeta));
  ByIndex : GroupVersionResource -> string -> string -> result (list (option ObjectMeta));
  GetObject : GroupVersionResource -> string -> string -> string -> result (option ObjectMeta);
  clock : Clock;
  DoDelete : list event -> result unit;
  DoPatch : list event -> result unit;
}.

Abbreviation RM := (M event) (only parsing).

(** [namespaceBlocklist]; the last element is kcp's
    [apiexport.DefaultIdentitySecretNamespace]. *)
Definition namespaceBlocklist (DefaultIdentitySecretNamespace : string) : gset string :=
  {[ "kube-system"; "kube-public"; "kube-node-lease"; DefaultIdentitySecretNamespace ]}.

Definition persistentvolumes : GroupVersionResource :=
  {| gvr_Group := ""; gvr_Version := "v1"; gvr_Resource := "persistentvolumes" |}.

Section controller.
Context {MO : MapOrder} {EL : ErrorLib} {CL : ClusterLib} {SL : SchemaLib}.
(** Whether [ParseResourceArg]'s and other annotations' keys are kcp's. *)
Variable DefaultIdentitySecretNamespace : string.
Variable KCPOriginalAPIVersionAnnotation : string.
Variable c : Controller.

(** [shared.SyncableClusterScopedResources.Has(gvr.String())]. *)
Definition SyncableClusterScopedResources : gset string := {[ GVR_String persistentvolumes ]}.

(** The closures of [NewController]. *)
Definition add_placement_key (keys : gset string) (p : Placement) : gset string :=
  let val := map_index (Annotations (p_Meta p)) InternalSyncTargetPlacementAnnotationKey in
  if decide (val = "") then keys else {[ val ]} ∪ keys.
Definition getSyncTargetPlacementAnnotations (clusterName : string) : result (gset string) :=
  placements ← PlacementLister_List c clusterName;
  inr (foldl add_placement_key ∅ placements).
Definition getSyncTargetFromKey (syncTargetKey : string) : result (option SyncTarget) :=
  syncTargets ← SyncTarget_ByIndex c syncTargetKey;
  match syncTargets with
  | [] => inr None
  | [st] => inr (Some st)
  | _ => inl (ErrMsg ("possible collision: multiple sync targets found for key "
                       +:+ syncTargetKey))
  end.
Definition indexBySyncTargetKey (syncTarget : SyncTarget) : list string :=
  match map_get (Labels (st_Meta syncTarget)) InternalSyncTargetKeyLabel with
  | Some k => [k]
  | None => []
  end.

(** *** [reconcileResource] *)

(** The first upsync label met when ranging over the labels. *)
Fixpoint upsync_key (labels : list (string * string)) : option string :=
  match labels with
  | [] => None
  | (k, v) :: labels =>
      if HasPrefix k ClusterResourceStateLabelPrefix && bool_decide (v = ResourceStateUpsync)
      then Some (TrimPrefix k ClusterResourceStateLabelPrefix)
      else upsync_key labels
  end.

(** The finalizers kept: a syncer's finalizer is dropped when its SyncTarget is
    not found, and also when looking for it fails. *)
Definition keep_finalizer (f : string) : bool :=
  if HasPrefix f SyncerFinalizerNamePrefix then
    match getSyncTargetFromKey (TrimPrefix f SyncerFinalizerNamePrefix) with
    | inr (Some _) => true
    | inr None => false
    | _ => false
    end
  else true.
Definition filter_finalizers (fs : list string) : list string :=
  filter (fun f => keep_finalizer f = true) fs.

(** The SyncTarget keys a resource should be on, and those it is leaving;
    [None] when the resource is not to be scheduled at all. *)
Definition cluster_wide_deleted (currentLocations expected : gset string)
    : gmap string string :=
  foldl (fun m location => <[ location := now_RFC3339 (clock c) "deletionTimestamp" ]> m) ∅
    (set_list (currentLocations ∖ expected)).
Definition expected_keys (lclusterName : string) (obj : ObjectMeta)
    (gvr : GroupVersionResource) : result (option (gset string * gmap string string)) :=
  let namespaceName := Namespace obj in
  if decide (namespaceName <> "") then
    if decide (namespaceName ∈ namespaceBlocklist DefaultIdentitySecretNamespace) then inr None
    else
      match NamespaceLister_Get c lclusterName namespaceName with
      | inr namespace =>
          inr (Some (getLocations (Labels namespace) false,
                    getDeletingLocations (Annotations namespace)))
      | inl err =>
          if IsNotFound err then inr None
          else inl (ErrWrap "error reconciling resource: error getting namespace" err)
      end
  else
    if decide (GVR_String gvr ∉ SyncableClusterScopedResources) then inr None
    else
      match getSyncTargetPlacementAnnotations (ClusterFrom obj) with
      | inr expected =>
          inr (Some (expected,
                    cluster_wide_deleted (getLocations (Labels obj) false) expected))
      | inl _ => inr None
      end.

Definition len_patch (p : option patch) : nat := default 0 (size <$> p).

(** The patch that is sent, if there is anything to change. *)
Definition resource_patch (obj : ObjectMeta) (annotationPatch labelPatch : option patch)
    (filteredFinalizers : list string) : option ResourcePatch :=
  let same := bool_decide (length filteredFinalizers = length (Finalizers obj)) in
  if bool_decide (len_patch labelPatch = 0) && bool_decide (len_patch annotationPatch = 0)
     && same
  then None
  else Some {|
    patch_UID := UID obj;
    patch_ResourceVersion := ResourceVersion obj;
    patch_labels := if bool_decide (0 < len_patch labelPatch) then labelPatch else None;
    patch_annotations :=
      if bool_decide (0 < len_patch annotationPatch) then annotationPatch else None;
    patch_finalizers := if same then None else Some filteredFinalizers |}.

(** [gvr == namespaceGVR] compares two distinct pointers, so the early return
    for namespaces is never taken: it is [false] here. *)
Definition gvr_is_namespaceGVR : bool := false.

Definition reconcileResource (lclusterName : string) (obj : ObjectMeta)
    (gvr : GroupVersionResource) : RM unit :=
  if gvr_is_namespaceGVR then mret tt else
  match upsync_key (map_range (entries (Labels obj))) with
  | Some syncTargetKey =>
      match getSyncTargetFromKey syncTargetKey with
      | inr None =>
          call (EvDelete gvr (ClusterFrom obj) (Namespace obj) (Name obj)) (DoDelete c)
      | inr (Some _) => mret tt
      | inl err => fail (ErrWrap "error reconciling resource: error getting synctarget" err)
      end
  | None =>
      e ← read (expected_keys lclusterName obj gvr);
      match e with
      | None => mret tt
      | Some (expectedSyncTargetKeys, expectedDeletedSynctargetKeys) =>
          let '(annotationPatch, labelPatch) :=
            match DeletionTimestamp obj with
            | Some t => (Some (propagateDeletionTimestamp (clock c) obj t), None)
            | None => computePlacement expectedSyncTargetKeys
                        expectedDeletedSynctargetKeys (clock c) obj
            end in
          match resource_patch obj annotationPatch labelPatch
                  (filter_finalizers (Finalizers obj)) with
          | None => mret tt
          | Some p => call (EvPatch gvr lclusterName (Namespace obj) (Name obj) p) (DoPatch c)
          end
      end
  end.

(** *** Queue keys *)

Definition gvr_key (gvr : GroupVersionResource) : string :=
  Join [gvr_Resource gvr; gvr_Version gvr; gvr_Group gvr] ".".
Definition enqueueResource (gvr : GroupVersionResource) (obj : ObjectMeta) : RM unit :=
  match MetaClusterNamespaceKeyFunc obj with
  | inr key => emit (EvAddResource (gvr_key gvr +:+ "::" +:+ key))
  | inl err => emit (EvHandleError err)
  end.
Definition enqueueGVR (gvr : GroupVersionResource) : RM unit :=
  emit (EvAddGVR (gvr_key gvr)).

(** [reconcileGVR]: enqueue every object of a synced type. *)
Definition reconcileGVR (gvr : GroupVersionResource) : RM unit :=
  read (ForResource c gvr);;
  if negb (HasSynced c gvr) then
    fail (ErrMsg "informer is not synced; re-enqueueing")
  else
    objs ← read (ListAll c gvr);
    for_each objs (fun obj => enqueueResource gvr obj).

(** [processResource], on keys [gvr::KEY]. *)
Definition processResource (key : string) : RM unit :=
  match SplitN key "::" 2 with
  | [gvrstr; key] =>
      match ParseResourceArg gvrstr with
      | None => mret tt
      | Some gvr =>
          read (ForResource c gvr);;
          match SplitMetaClusterNamespaceKey key with
          | inl _ => mret tt
          | inr (lclusterName, namespace, name) =>
              match GetObject c gvr lclusterName namespace name with
              | inl err => if IsNotFound err then mret tt else fail err
              | inr None => mret tt
              | inr (Some unstr) =>
                  let actualVersion :=
                    map_index (Annotations unstr) KCPOriginalAPIVersionAnnotation in
                  if decide (actualVersion = "") then
                    reconcileResource lclusterName unstr gvr
                  else
                    match ParseGroupVersion actualVersion with
                    | inl _ => mret tt
                    | inr (_, v) =>
                        reconcileResource lclusterName unstr
                          {| gvr_Group := gvr_Group gvr; gvr_Version := v;
                             gvr_Resource := gvr_Resource gvr |}
                    end
              end
          end
      end
  | _ => mret tt
  end.

Definition processGVR (gvrstr : string) : RM unit :=
  match ParseResourceArg gvrstr with
  | None => mret tt
  | Some gvr => reconcileGVR gvr
  end.

(** [processNext] on the key it got from the queue: [Done] is deferred, so it
    is called last, on a panic too. *)
Definition processNext (processFunc : string -> RM unit) (key : string) : RM unit :=
  fun h =>
    let '(h, r) :=
      (r ← try (processFunc key);
       match r with
       | inl err =>
           emit (EvHandleError (ErrWrap "controller failed to sync" err));;
           emit (EvAddRateLimited key)
       | inr _ => emit (EvForget key)
       end) h in
    (h ++ [EvDone key], r).

(** *** Event handlers *)

(** Enqueue the objects of one type of a namespace that are not scheduled as
    the namespace is. *)
Definition enqueue_if_differs (nsLocations : gset string) (nsDeleting : gmap string string)
    (gvr : GroupVersionResource) (obj : option ObjectMeta) : RM unit :=
  match obj with
  | None => lift (Panic "interface conversion")
  | Some u =>
      let objLocations := getLocations (Labels u) false in
      let objDeleting := getDeletingLocations (Annotations u) in
      if negb (bool_decide (objLocations = nsLocations)) || negb (bool_decide (objDeleting = nsDeleting))
      then enqueueResource gvr u
      else mret tt
  end.
Fixpoint enqueue_informers (ns : ObjectMeta) (nsLocations : gset string)
    (nsDeleting : gmap string string) (informers : list GroupVersionResource)
    (errs : list error) : RM (list error) :=
  match informers with
  | [] => mret errs
  | gvr :: informers =>
      match ListNamespace c gvr (ClusterFrom ns) (Name ns) with
      | inl err =>
          enqueue_informers ns nsLocations nsDeleting informers
            (errs ++ [ErrWrap "error listing" err])
      | inr objs =>
          for_each objs (enqueue_if_differs nsLocations nsDeleting gvr);;
          enqueue_informers ns nsLocations nsDeleting informers errs
      end
  end.
Definition enqueueResourcesForNamespace (ns : ObjectMeta) : RM unit :=
  let nsLocations := getLocations (Labels ns) true in
  let nsDeleting := getDeletingLocations (Annotations ns) in
  let '(informers, notSynced) := Informers c in
  errs ← enqueue_informers ns nsLocations nsDeleting informers [];
  for_each notSynced enqueueGVR;;
  match NewAggregate errs with
  | None => mret tt
  | Some err => fail err
  end.

Definition handle_error (r : error + unit) : RM unit :=
  match r with
  | inl err => emit (EvHandleError err)
  | inr _ => mret tt
  end.
Definition enqueueNamespace (obj : ObjectMeta) : RM unit :=
  match MetaClusterNamespaceKeyFunc obj with
  | inl err => emit (EvHandleError err)
  | inr key =>
      match SplitMetaClusterNamespaceKey key with
      | inl err => emit (EvHandleError err)
      | inr (clusterName, _, name) =>
          match NamespaceLister_Get c clusterName name with
          | inl err => if IsNotFound err then mret tt else emit (EvHandleError err)
          | inr ns =>
              r ← try (enqueueResourcesForNamespace ns);
              handle_error r
          end
      end
  end.

(** [filterNamespace] and the [UpdateFunc] behind it. *)
Definition filterNamespace (obj : ObjectMeta) : RM bool :=
  match MetaClusterNamespaceKeyFunc obj with
  | inl err => emit (EvHandleError err);; mret false
  | inr key =>
      match SplitMetaClusterNamespaceKey key with
      | inl err => emit (EvHandleError err);; mret false
      | inr (_, _, name) =>
          mret (negb (bool_decide (name ∈ namespaceBlocklist DefaultIdentitySecretNamespace)))
      end
  end.
Definition namespaceUpdate (oldNS newNS : ObjectMeta) : RM unit :=
  if negb (bool_decide (scheduleStateLabels (Labels oldNS) = scheduleStateLabels (Labels newNS)))
     || negb (bool_decide (scheduleStateAnnotations (Annotations oldNS) =
                      scheduleStateAnnotations (Annotations newNS)))
  then enqueueNamespace newNS
  else mret tt.

(** Objects of both indexes, without repetition of UIDs. *)
Fixpoint dedup_objs (inObjs : gset string) (l : list (option ObjectMeta))
    : RM (list ObjectMeta) :=
  match l with
  | [] => mret []
  | None :: l =>
      emit (EvHandleError (ErrMsg "object is not an *unstructured.Unstructured"));;
      dedup_objs inObjs l
  | Some o :: l =>
      if decide (UID o ∈ inObjs) then dedup_objs inObjs l
      else objs ← dedup_objs ({[ UID o ]} ∪ inObjs) l; mret (o :: objs)
  end.
Definition enqueue_key_of_gvr (syncTargetKey : string) (gvr : GroupVersionResource) : RM unit :=
  match ForResource c gvr with
  | inl err => emit (EvHandleError err)
  | inr _ =>
      match ByIndex c gvr "ByClusterResourceStateLabelKey"
              (ClusterResourceStateLabelPrefix +:+ syncTargetKey) with
      | inl err => emit (EvHandleError err)
      | inr stateLabelObjs =>
          match ByIndex c gvr "bySyncerFinalizerKey"
                  (SyncerFinalizerNamePrefix +:+ syncTargetKey) with
          | inl err => emit (EvHandleError err)
          | inr syncerFinalizerObjs =>
              objs ← dedup_objs ∅ (stateLabelObjs ++ syncerFinalizerObjs);
              for_each objs (fun obj => enqueueResource gvr obj)
          end
      end
  end.
Definition enqueueSyncTargetKey (syncTargetKey : string) : RM unit :=
  for_each (Informers c).1 (enqueue_key_of_gvr syncTargetKey).
Definition enqueueSyncTarget (obj : ObjectMeta) : RM unit :=
  enqueueSyncTargetKey (ToSyncTargetKey (ClusterFrom obj) (Name obj)).
Definition enqueuePlacement (placement : Placement) : RM unit :=
  let syncTargetKey :=
    map_index (Annotations (p_Meta placement)) InternalSyncTargetPlacementAnnotationKey in
  if decide (syncTargetKey = "") then mret tt
  else enqueueSyncTargetKey syncTargetKey.

End controller.

(** * Lemmas *)

Section lemmas.
Context {MO : MapOrder}.

Lemma elem_of_getLocations_loop skip l s x :
  x ∈ foldl (add_location skip) s l <->
  x ∈ s \/ exists v, (state_label x, v) ∈ l /\ (skip = false \/ v = ResourceStateSync).
Proof.
  revert s. induction l as [|[k v] l IH]; intros s; simpl.
  { split; [by left|]. intros [?|(v & []%not_elem_of_nil & _)]; done. }
  rewrite IH. unfold add_location; simpl.
  destruct (HasPrefix k _) eqn:P; simpl.
  - apply HasPrefix_state_label in P as [k' ->].
    change (state_label k') with (ClusterResourceStateLabelPrefix +:+ k').
    rewrite TrimPrefix_app.
    destruct (negb skip || bool_decide (v = ResourceStateSync)) eqn:C.
    + assert (skip = false \/ v = ResourceStateSync) as C'.
      { apply orb_prop in C as [C|C]; [left; by destruct skip|].
        right. by apply bool_decide_eq_true in C. }
      rewrite elem_of_union, elem_of_singleton. split.
      * intros [[->|]|(w & Hw & Hs)]; [right|by left|right; eauto using list_elem_of_further].
        exists v. split; [apply list_elem_of_here|done].
      * intros [|(w & [[= E ->]|Hw]%elem_of_cons & Hs)]; [by left; right| |by right; eauto].
        left; left. by apply (inj (String.append _)) in E.
    + split.
      * intros [|(w & Hw & Hs)]; [by left|right; eauto using list_elem_of_further].
      * intros [|(w & [[= E ->]|Hw]%elem_of_cons & Hs)]; [by left| |by right; eauto].
        destruct Hs as [->| ->]; [by rewrite orb_true_l in C|].
        rewrite bool_decide_eq_true_2, orb_true_r in C; done.
  - split.
    + intros [|(w & Hw & Hs)]; [by left|right; eauto using list_elem_of_further].
    + intros [|(w & [[= E ->]|Hw]%elem_of_cons & Hs)]; [by left| |by right; eauto].
      subst k. unfold state_label in P. by rewrite HasPrefix_app in P.
Qed.

(** The locations are the state labels present, whatever the map order. *)
Lemma elem_of_getLocations ls skip x :
  x ∈ getLocations ls skip <->
  exists v, map_get ls (state_label x) = Some v /\ (skip = false \/ v = ResourceStateSync).
Proof.
  unfold getLocations. rewrite elem_of_getLocations_loop.
  setoid_rewrite elem_of_map_range. set_solver.
Qed.

Lemma elem_of_locations ls x :
  x ∈ getLocations ls false <-> is_Some (map_get ls (state_label x)).
Proof. rewrite elem_of_getLocations. unfold is_Some. naive_solver. Qed.

Lemma lookup_deleting_loop l m x :
  NoDup l.*1 ->
  foldl add_deleting m l !! x =
    match (list_to_map l : gmap string string) !! deletion_annotation x with Some v => Some v | None => m !! x end.
Proof.
  revert m. induction l as [|[k v] l IH]; intros m; simpl; [done|].
  intros [Hk Hl]%NoDup_cons. rewrite IH by done. unfold add_deleting; simpl.
  destruct (HasPrefix k _) eqn:P.
  - apply HasPrefix_deletion_annotation in P as [k' ->].
    change (deletion_annotation k') with
      (InternalClusterDeletionTimestampAnnotationPrefix +:+ k').
    rewrite TrimPrefix_app. change (_ +:+ k') with (deletion_annotation k').
    destruct (decide (k' = x)) as [->|Hne].
    + rewrite lookup_insert_eq, lookup_insert_eq.
      by rewrite (not_elem_of_list_to_map_1 l _ Hk).
    + rewrite !lookup_insert_ne; [done| |done]. by intros ?%(inj deletion_annotation).
  - rewrite lookup_insert_ne; [done|]. intros ->.
    unfold deletion_annotation in P. by rewrite HasPrefix_app in P.
Qed.

(** The locations being deleted are the deletion annotations present. *)
Lemma lookup_getDeletingLocations a x :
  getDeletingLocations a !! x = map_get a (deletion_annotation x).
Proof.
  unfold getDeletingLocations, map_get. rewrite lookup_deleting_loop by apply NoDup_map_range.
  rewrite lookup_empty. rewrite (list_to_map_proper (map_range (entries a)) (map_to_list (entries a))).
  - rewrite list_to_map_to_list. by destruct (entries a !! _).
  - apply NoDup_map_range.
  - apply map_range_perm.
Qed.

End lemmas.

(** ** What [computePlacement] asks for, key by key *)

Section placement_spec.
Context {MO : MapOrder}.
Variable expected : gset string.
Variable deleted : gmap string string.
Variable clk : Clock.
Variable obj : ObjectMeta.

(** What is still to be done at the location by its syncer or its finalizer. *)
Definition still_finalizing (k : string) : bool :=
  has_syncer_finalizer obj k || has_cluster_finalizer obj k.

(** The patch of the deletion annotation and of the state label of [k]:
    [None] leaves the key alone. *)
Definition unschedule_annotation (k : string) : option (option string) :=
  match still_finalizing k, map_get (Annotations obj) (deletion_annotation k) with
  | true, None => Some (Some (now_RFC3339 clk k))
  | false, Some _ => Some None
  | _, _ => None
  end.
Definition unschedule_label (k : string) : option (option string) :=
  if still_finalizing k then None else Some None.
Definition sync_annotation (k : string) : option (option string) :=
  match deleted !! k, map_get (Annotations obj) (deletion_annotation k) with
  | Some t, None => Some (Some t)
  | None, Some _ => Some None
  | _, _ => None
  end.
Definition initial_state : ResourceState :=
  if decide (Namespace obj = "") then ResourceStatePending else ResourceStateSync.
Definition schedule_label (k : string) : option (option string) :=
  match deleted !! k with Some _ => None | None => Some (Some initial_state) end.

Definition annotation_spec (k : string) : option (option string) :=
  match map_get (Labels obj) (state_label k) with
  | Some _ => if decide (k ∈ expected) then sync_annotation k else unschedule_annotation k
  | None => None
  end.
Definition label_spec (k : string) : option (option string) :=
  match map_get (Labels obj) (state_label k) with
  | Some _ => if decide (k ∈ expected) then None else unschedule_label k
  | None => if decide (k ∈ expected) then schedule_label k else None
  end.

Lemma unschedule_loop l a b :
  foldl (unschedule clk obj) (a, b) l =
    (insert_all deletion_annotation unschedule_annotation a l,
     insert_all state_label unschedule_label b l).
Proof.
  unfold insert_all. rewrite <-foldl_pair. apply foldl_ext. intros [a' b'] k.
  unfold unschedule, unschedule_annotation, unschedule_label, still_finalizing,
    deletion_annotation, state_label; simpl.
  by destruct (_ || _), (map_get _ _).
Qed.

Lemma sync_loop l a b :
  foldl (sync_deletion deleted (getDeletingLocations (Annotations obj))) (a, b) l =
    (insert_all deletion_annotation sync_annotation a l, b).
Proof.
  revert a. unfold insert_all. induction l as [|k l IH]; intros a; simpl; [done|].
  unfold sync_annotation. rewrite <-lookup_getDeletingLocations.
  by destruct (deleted !! k), (getDeletingLocations _ !! k); rewrite IH.
Qed.

Lemma schedule_loop l a b :
  foldl (schedule deleted initial_state) (a, b) l =
    (a, insert_all state_label schedule_label b l).
Proof.
  revert b. unfold insert_all. induction l as [|k l IH]; intros b; simpl; [done|].
  unfold schedule_label. by destruct (deleted !! k); rewrite IH.
Qed.

Lemma default_nil_if_empty (p : patch) : default ∅ (nil_if_empty p) = p.
Proof. unfold nil_if_empty. by case_decide; subst. Qed.

(** An empty patch is nil. *)
Lemma computePlacement_nil :
  computePlacement expected deleted clk obj =
    (nil_if_empty (default ∅ (computePlacement expected deleted clk obj).1),
     nil_if_empty (default ∅ (computePlacement expected deleted clk obj).2)).
Proof.
  unfold computePlacement. destruct (_ && _); [done|].
  rewrite unschedule_loop, sync_loop, schedule_loop; simpl. by rewrite !default_nil_if_empty.
Qed.

(** Nothing is to be done when the object is already placed as expected. *)
Lemma placed_specs k :
  getLocations (Labels obj) false = expected ->
  getDeletingLocations (Annotations obj) = deleted ->
  annotation_spec k = None /\ label_spec k = None.
Proof.
  intros E1 E2. unfold annotation_spec, label_spec, sync_annotation.
  rewrite <-lookup_getDeletingLocations, E2.
  pose proof (elem_of_locations (Labels obj) k) as Hk. rewrite E1 in Hk.
  destruct (map_get (Labels obj) _), (decide (k ∈ expected)) as [H|H]; try done.
  - by destruct (deleted !! k).
  - destruct H. by apply Hk.
  - apply Hk in H. by destruct H.
Qed.

Lemma computePlacement_lookup k :
  default ∅ (computePlacement expected deleted clk obj).1 !! deletion_annotation k
    = annotation_spec k /\
  default ∅ (computePlacement expected deleted clk obj).2 !! state_label k = label_spec k.
Proof.
  unfold computePlacement. destruct (_ && _) eqn:E.
  { apply andb_true_iff in E as [E1%bool_decide_eq_true E2%bool_decide_eq_true].
    destruct (placed_specs k E1 E2) as [-> ->]. simpl. by rewrite !lookup_empty. }
  clear E. rewrite unschedule_loop, sync_loop, schedule_loop; simpl.
  rewrite !default_nil_if_empty. rewrite !insert_all_set_list by apply _.
  rewrite !lookup_empty. unfold annotation_spec, label_spec.
  pose proof (elem_of_locations (Labels obj) k) as Hk.
  set (cur := getLocations (Labels obj) false) in *.
  destruct (map_get (Labels obj) _).
  - assert (k ∈ cur) as Hc by by apply Hk.
    destruct (decide (k ∈ expected)); repeat case_decide;
      rewrite ?elem_of_difference, ?elem_of_intersection in *; try (exfalso; tauto);
      split; try done; by destruct (_ k).
  - assert (k ∉ cur) as Hc by (intros Hc; apply Hk in Hc; by destruct Hc).
    destruct (decide (k ∈ expected)); repeat case_decide;
      rewrite ?elem_of_difference, ?elem_of_intersection in *; try (exfalso; tauto);
      split; try done; by destruct (_ k).
Qed.

Lemma computePlacement_other k :
  (forall x, k <> deletion_annotation x) ->
  default ∅ (computePlacement expected deleted clk obj).1 !! k = None.
Proof.
  intros Hk. unfold computePlacement. destruct (_ && _); simpl; [by rewrite lookup_empty|].
  rewrite unschedule_loop, sync_loop, schedule_loop; simpl.
  by rewrite default_nil_if_empty, !insert_all_other by done.
Qed.

Lemma computePlacement_other_label k :
  (forall x, k <> state_label x) ->
  default ∅ (computePlacement expected deleted clk obj).2 !! k = None.
Proof.
  intros Hk. unfold computePlacement. destruct (_ && _); simpl; [by rewrite lookup_empty|].
  rewrite unschedule_loop, sync_loop, schedule_loop; simpl.
  by rewrite default_nil_if_empty, !insert_all_other by done.
Qed.

End placement_spec.

(** ** Applying the patches *)

(** A JSON merge patch (RFC 7386) on a string map. *)
Definition merge_patch (m : gomap) (p : option patch) : gomap :=
  Some (merge (fun v q => match q with Some v' => v' | None => v end)
          (entries m) (default ∅ p)).
Definition apply_patch (o : ObjectMeta) (p : option patch * option patch) : ObjectMeta :=
  with_annotations (with_labels o (merge_patch (Labels o) p.2))
    (merge_patch (Annotations o) p.1).

Lemma map_get_merge_patch m p k :
  map_get (merge_patch m p) k =
    match default ∅ p !! k with Some v => v | None => map_get m k end.
Proof.
  unfold merge_patch, map_get; simpl. rewrite lookup_merge.
  by destruct (entries m !! k), (default ∅ p !! k) as [[]|].
Qed.

Lemma cluster_finalizer_not_deletion x y :
  cluster_finalizer_annotation x <> deletion_annotation y.
Proof. intros E%(f_equal (String.get 0)). vm_compute in E. discriminate. Qed.

Section convergence.
Context {MO : MapOrder}.
Variable expected : gset string.
Variable deleted : gmap string string.

(** One pass of the scheduler whose patch the server applies. *)
Definition scheduling_pass (clk : Clock) (o : ObjectMeta) : ObjectMeta :=
  apply_patch o (computePlacement expected deleted clk o).

Lemma pass_annotation clk o k :
  map_get (Annotations (scheduling_pass clk o)) (deletion_annotation k) =
    match annotation_spec expected deleted clk o k with
    | Some v => v
    | None => map_get (Annotations o) (deletion_annotation k)
    end.
Proof.
  unfold scheduling_pass; simpl. rewrite map_get_merge_patch.
  by rewrite (proj1 (computePlacement_lookup _ _ _ _ _)).
Qed.

Lemma pass_label clk o k :
  map_get (Labels (scheduling_pass clk o)) (state_label k) =
    match label_spec expected deleted o k with
    | Some v => v
    | None => map_get (Labels o) (state_label k)
    end.
Proof.
  unfold scheduling_pass; simpl. rewrite map_get_merge_patch.
  by rewrite (proj2 (computePlacement_lookup _ _ _ _ _)).
Qed.

Lemma pass_finalizing clk o k :
  still_finalizing (scheduling_pass clk o) k = still_finalizing o k.
Proof.
  unfold still_finalizing, has_cluster_finalizer, has_syncer_finalizer, scheduling_pass; simpl.
  rewrite map_get_merge_patch, computePlacement_other; [done|].
  intros x. apply cluster_finalizer_not_deletion.
Qed.

Lemma computePlacement_nothing clk o :
  (forall k, annotation_spec expected deleted clk o k = None) ->
  (forall k, label_spec expected deleted o k = None) ->
  computePlacement expected deleted clk o = (None, None).
Proof.
  intros HA HL.
  pose proof (fun k => computePlacement_lookup expected deleted clk o k) as Hlook.
  pose proof (computePlacement_other expected deleted clk o) as Ho.
  pose proof (computePlacement_other_label expected deleted clk o) as Hol.
  assert (default ∅ (computePlacement expected deleted clk o).1 = ∅) as E1.
  { apply map_eq. intros k. rewrite lookup_empty.
    destruct (HasPrefix k InternalClusterDeletionTimestampAnnotationPrefix) eqn:P.
    - apply HasPrefix_deletion_annotation in P as [x ->]. by rewrite (proj1 (Hlook x)).
    - apply Ho. intros x ->. unfold deletion_annotation in P. by rewrite HasPrefix_app in P. }
  assert (default ∅ (computePlacement expected deleted clk o).2 = ∅) as E2.
  { apply map_eq. intros k. rewrite lookup_empty.
    destruct (HasPrefix k ClusterResourceStateLabelPrefix) eqn:P.
    - apply HasPrefix_state_label in P as [x ->]. by rewrite (proj2 (Hlook x)).
    - apply Hol. intros x ->. unfold state_label in P. by rewrite HasPrefix_app in P. }
  by rewrite computePlacement_nil, E1, E2.
Qed.

(** Two passes settle every key: the state of one location is its label and its
    deletion annotation, and one pass maps it as follows. *)
Lemma settled clk1 clk2 clk3 o k :
  let o2 := scheduling_pass clk2 (scheduling_pass clk1 o) in
  annotation_spec expected deleted clk3 o2 k = None /\
  label_spec expected deleted o2 k = None.
Proof.
  cbv zeta. set (o1 := scheduling_pass clk1 o).
  pose proof (pass_annotation clk1 o k) as A1. pose proof (pass_label clk1 o k) as L1.
  pose proof (pass_finalizing clk1 o k) as F1. fold o1 in A1, L1, F1.
  set (o2 := scheduling_pass clk2 o1).
  pose proof (pass_annotation clk2 o1 k) as A2. pose proof (pass_label clk2 o1 k) as L2.
  pose proof (pass_finalizing clk2 o1 k) as F2. fold o2 in A2, L2, F2.
  unfold annotation_spec, label_spec, sync_annotation,
    unschedule_annotation, unschedule_label, schedule_label in *.
  rewrite F1 in *. rewrite F2. clearbody o1 o2.
  destruct (map_get (Labels o) _), (decide (k ∈ expected)), (still_finalizing o k),
    (deleted !! k), (map_get (Annotations o) _); rewrite L1, A1 in *; rewrite L2, ?A2; auto.
Qed.
End convergence.

(** ** The reconciler's calls *)

Section reconcile_lemmas.
Context {MO : MapOrder} {EL : ErrorLib} {CL : ClusterLib} {SL : SchemaLib}.
Variable secretNS : string.
Variable c : Controller.

Lemma upsync_key_spec l k :
  upsync_key l = Some k -> (state_label k, ResourceStateUpsync) ∈ l.
Proof.
  induction l as [|[n v] l IH]; simpl; [done|].
  destruct (_ && _) eqn:E; [|intros; by apply list_elem_of_further, IH].
  apply andb_true_iff in E as [[x ->]%HasPrefix_state_label ->%bool_decide_eq_true].
  unfold state_label at 1. rewrite TrimPrefix_app. intros [= ->]. apply list_elem_of_here.
Qed.

Lemma upsync_key_None l k :
  upsync_key l = None -> (state_label k, ResourceStateUpsync) ∉ l.
Proof.
  induction l as [|[n v] l IH]; simpl; [intros _; by apply not_elem_of_nil|].
  destruct (_ && _) eqn:E; [done|]. intros Hl [[= <- <-]|Hin]%elem_of_cons; [|by apply IH].
  unfold state_label in E. by rewrite HasPrefix_app in E.
Qed.

(** What a pass that patches the object has computed. *)
Definition pass_patches (obj : ObjectMeta) (e : gset string * gmap string string)
    : option patch * option patch :=
  match DeletionTimestamp obj with
  | Some t => (Some (propagateDeletionTimestamp (clock c) obj t), None)
  | None => computePlacement e.1 e.2 (clock c) obj
  end.

Lemma reconcileResource_cases cl obj gvr :
  (exists k, upsync_key (map_range (entries (Labels obj))) = Some k /\
     (trace (reconcileResource secretNS c cl obj gvr) =
        match getSyncTargetFromKey c k with
        | inr None => [EvDelete gvr (ClusterFrom obj) (Namespace obj) (Name obj)]
        | _ => []
        end)) \/
  (upsync_key (map_range (entries (Labels obj))) = None /\
     trace (reconcileResource secretNS c cl obj gvr) =
       match expected_keys secretNS c cl obj gvr with
       | inr (Some e) =>
           match resource_patch obj (pass_patches obj e).1 (pass_patches obj e).2
                   (filter_finalizers c (Finalizers obj)) with
           | Some p => [EvPatch gvr cl (Namespace obj) (Name obj) p]
           | None => []
           end
       | _ => []
       end).
Proof.
  unfold reconcileResource, pass_patches; simpl.
  destruct (upsync_key _) as [k|]; [left; exists k|right]; (split; [done|]).
  - destruct (getSyncTargetFromKey c k) as [e|[st|]]; done.
  - unfold trace, run, mbind, M_bind, read, lift.
    destruct (expected_keys _ _ _ _ _) as [e|[[ex de]|]]; simpl; try done.
    destruct (DeletionTimestamp obj); [|destruct (computePlacement _ _ _ _)];
      by destruct (resource_patch _ _ _ _).
Qed.

End reconcile_lemmas.

Lemma default_len (p : option patch) :
  default ∅ (if bool_decide (0 < len_patch p) then p else None) = default ∅ p.
Proof.
  unfold len_patch. case_bool_decide as E; [done|]. destruct p as [m|]; simpl in *; [|done].
  symmetry. apply map_size_empty_iff. lia.
Qed.

Lemma resource_patch_fields obj a l f p :
  resource_patch obj a l f = Some p ->
  default ∅ (patch_annotations p) = default ∅ a /\
  default ∅ (patch_labels p) = default ∅ l /\
  patch_UID p = UID obj /\ patch_ResourceVersion p = ResourceVersion obj.
Proof.
  unfold resource_patch. destruct (_ && _); [done|]. intros [= <-]; simpl.
  by rewrite !default_len.
Qed.

Section theorems.
Context {MO : MapOrder} {EL : ErrorLib} {CL : ClusterLib} {SL : SchemaLib}.

(** C2: [computePlacement] implements the per-location specification for every
    enumeration order: each state label and each deletion annotation is set,
    removed or left as [label_spec] and [annotation_spec] say (unscheduling
    waits for finalizers, deletion marks follow the namespace, new locations
    get the initial state), and no other key is ever patched. *)
Theorem computePlacement_spec expected deleted clk obj :
  let '(annotationPatch, labelPatch) := computePlacement expected deleted clk obj in
  (forall k, default ∅ annotationPatch !! deletion_annotation k =
     annotation_spec expected deleted clk obj k) /\
  (forall k, default ∅ labelPatch !! state_label k = label_spec expected deleted obj k) /\
  (forall k v, default ∅ annotationPatch !! k = Some v -> exists x, k = deletion_annotation x) /\
  (forall k v, default ∅ labelPatch !! k = Some v -> exists x, k = state_label x).
Proof.
  pose proof (computePlacement_lookup expected deleted clk obj) as Hk.
  pose proof (computePlacement_other expected deleted clk obj) as Ha.
  pose proof (computePlacement_other_label expected deleted clk obj) as Hl.
  destruct (computePlacement _ _ _ _) as [a l]; simpl in *.
  split; [apply Hk|]. split; [apply Hk|]. split; intros k v Hv.
  - destruct (HasPrefix k InternalClusterDeletionTimestampAnnotationPrefix) eqn:P.
    + by apply HasPrefix_deletion_annotation.
    + rewrite Ha in Hv; [done|]. intros x ->. unfold deletion_annotation in P.
      by rewrite HasPrefix_app in P.
  - destruct (HasPrefix k ClusterResourceStateLabelPrefix) eqn:P.
    + by apply HasPrefix_state_label.
    + rewrite Hl in Hv; [done|]. intros x ->. unfold state_label in P.
      by rewrite HasPrefix_app in P.
Qed.

(** C3: placement converges: whatever the object's labels and annotations,
    after two passes whose patches are applied there is nothing left to patch,
    even though each pass reads a different clock. *)
Theorem computePlacement_converges expected deleted clk1 clk2 clk3 obj :
  computePlacement expected deleted clk3
    (scheduling_pass expected deleted clk2 (scheduling_pass expected deleted clk1 obj))
  = (None, None).
Proof. apply computePlacement_nothing; intros k;
    apply (settled expected deleted clk1 clk2 clk3 obj k). Qed.

Lemma reconcileResource_unschedules secretNS c cl obj gvr p k :
  EvPatch gvr cl (Namespace obj) (Name obj) p
    ∈ trace (reconcileResource secretNS c cl obj gvr) ->
  (default ∅ (patch_labels p) !! state_label k) = Some None ->
  DeletionTimestamp obj = None /\
  (syncer_finalizer k ∉ Finalizers obj) /\
  has_cluster_finalizer obj k = false /\
  exists expected deleted,
    expected_keys secretNS c cl obj gvr = inr (Some (expected, deleted)) /\ k ∉ expected.
Proof.
  intros Hin Hk.
  destruct (reconcileResource_cases secretNS c cl obj gvr) as [(k' & _ & E)|[_ E]];
    rewrite E in Hin; clear E.
  { destruct (getSyncTargetFromKey c k') as [|[]]; set_solver. }
  destruct (expected_keys _ _ _ _ _) as [|[[ex de]|]]; try by apply not_elem_of_nil in Hin.
  destruct (resource_patch _ _ _ _) as [p'|] eqn:E; [|by apply not_elem_of_nil in Hin].
  apply list_elem_of_singleton in Hin as [= <-].
  apply resource_patch_fields in E as (_ & E & _). rewrite E in Hk. clear E.
  unfold pass_patches in Hk.
  destruct (DeletionTimestamp obj); simpl in Hk; [by rewrite lookup_empty in Hk|].
  rewrite (proj2 (computePlacement_lookup ex de (clock c) obj k)) in Hk.
  unfold label_spec, unschedule_label, schedule_label in Hk.
  destruct (map_get (Labels obj) _), (decide (k ∈ ex)) as [|Hex]; try done;
    [|by destruct (de !! k)].
  destruct (still_finalizing obj k) eqn:F; [done|].
  apply orb_false_iff in F as [F1 F2]. split; [done|]. split.
  - intros Hf. unfold has_syncer_finalizer in F1.
    apply not_true_iff_false in F1. apply F1, existsb_exists.
    exists (syncer_finalizer k). split; [by apply list_elem_of_In|].
    by apply bool_decide_eq_true.
  - eauto.
Qed.

(** C4: unscheduling is safe: a pass that removes the state label of a location
    from an object only does so when the location is no longer expected, the
    object is not being deleted, and neither the syncer's finalizer nor a
    coordinator's finalizer for that location remains. *)
Theorem reconcileResource_unschedule_safe secretNS c cl obj gvr p k :
  EvPatch gvr cl (Namespace obj) (Name obj) p
    ∈ trace (reconcileResource secretNS c cl obj gvr) ->
  (default ∅ (patch_labels p) !! state_label k) = Some None ->
  DeletionTimestamp obj = None /\
  (syncer_finalizer k ∉ Finalizers obj) /\
  has_cluster_finalizer obj k = false /\
  exists expected deleted,
    expected_keys secretNS c cl obj gvr = inr (Some (expected, deleted)) /\ k ∉ expected.
Proof. apply reconcileResource_unschedules. Qed.

(** C5: a resource is deleted only if it is upsynced by a SyncTarget that no
    longer exists; and an upsynced resource is never patched. *)
Theorem reconcileResource_delete_safe secretNS c cl obj gvr e :
  e ∈ trace (reconcileResource secretNS c cl obj gvr) ->
  match e with
  | EvDelete gvr' cl' ns n =>
      gvr' = gvr /\ cl' = ClusterFrom obj /\ ns = Namespace obj /\ n = Name obj /\
      exists k, map_get (Labels obj) (state_label k) = Some ResourceStateUpsync /\
        SyncTarget_ByIndex c k = inr []
  | EvPatch gvr' cl' ns n p =>
      gvr' = gvr /\ cl' = cl /\ ns = Namespace obj /\ n = Name obj /\
      patch_UID p = UID obj /\ patch_ResourceVersion p = ResourceVersion obj /\
      forall k, map_get (Labels obj) (state_label k) <> Some ResourceStateUpsync
  | _ => False
  end.
Proof.
  intros Hin.
  destruct (reconcileResource_cases secretNS c cl obj gvr) as [(k & Ek & E)|[Ek E]];
    rewrite E in Hin; clear E.
  - apply upsync_key_spec, elem_of_map_range in Ek.
    destruct (getSyncTargetFromKey c k) as [|[]] eqn:G;
      try by apply not_elem_of_nil in Hin.
    apply list_elem_of_singleton in Hin as ->. repeat (split; [done|]). exists k.
    split; [done|]. unfold getSyncTargetFromKey in G.
    destruct (SyncTarget_ByIndex c k) as [|[|? []]]; simplify_eq/=; done.
  - destruct (expected_keys _ _ _ _ _) as [|[ed|]]; try by apply not_elem_of_nil in Hin.
    destruct (resource_patch _ _ _ _) as [p|] eqn:E; [|by apply not_elem_of_nil in Hin].
    apply list_elem_of_singleton in Hin as ->.
    apply resource_patch_fields in E as (_ & _ & E1 & E2). repeat (split; [done|]).
    intros k Hk. by eapply upsync_key_None, elem_of_map_range.
Qed.

(** When the object is being deleted, every location it is on gets the
    object's deletion time unless it already has a non-empty one, and no other
    annotation is patched; the clock is not read. *)
Theorem propagateDeletionTimestamp_spec clk obj t :
  let p := propagateDeletionTimestamp clk obj t in
  (forall k, p !! deletion_annotation k =
     match map_get (Labels obj) (state_label k) with
     | Some _ =>
         if decide (map_index (Annotations obj) (deletion_annotation k) = "")
         then Some (Some (Format_RFC3339 (local_offset clk) t)) else None
     | None => None
     end) /\
  (forall k, (forall x, k <> deletion_annotation x) -> p !! k = None).
Proof.
  cbv zeta.
  set (val k := if decide (map_index (Annotations obj) (deletion_annotation k) = "")
                then Some (Some (Format_RFC3339 (local_offset clk) t)) else None).
  assert (propagateDeletionTimestamp clk obj t =
    insert_all deletion_annotation val ∅ (set_range (getLocations (Labels obj) false))) as ->.
  { apply foldl_ext. intros a x. unfold propagate, val, map_index.
    change (InternalClusterDeletionTimestampAnnotationPrefix +:+ x) with (deletion_annotation x).
    destruct (map_get _ _) as [v|]; simpl; [|done]. by case_decide. }
  split; intros k.
  - rewrite insert_all_lookup by apply _. rewrite lookup_empty.
    pose proof (elem_of_locations (Labels obj) k) as Hk.
    rewrite <-(elem_of_set_range (getLocations (Labels obj) false)) in Hk.
    unfold val. destruct (decide (k ∈ _)) as [H|H]; destruct (map_get (Labels obj) _);
      simpl; try done; try by case_decide.
    + apply Hk in H. by destruct H.
    + destruct H. by apply Hk.
  - intros H. by rewrite insert_all_other.
Qed.

(** The finalizers a pass keeps: every finalizer that is not a syncer's, and
    a syncer's exactly when its SyncTarget is found.  A lookup that fails (an
    index error, or two SyncTargets under one key) drops the finalizer as well,
    although the SyncTarget may exist. *)
Theorem filter_finalizers_spec c fs f :
  f ∈ filter_finalizers c fs <->
  f ∈ fs /\ forall k, f = syncer_finalizer k ->
    exists st, SyncTarget_ByIndex c k = inr [st].
Proof.
  unfold filter_finalizers. rewrite list_elem_of_filter, (and_comm (_ = true)).
  apply and_iff_compat_l. unfold keep_finalizer.
  destruct (HasPrefix f SyncerFinalizerNamePrefix) eqn:P.
  - apply HasPrefix_syncer_finalizer in P as [k ->]. unfold syncer_finalizer at 1.
    rewrite TrimPrefix_app. unfold getSyncTargetFromKey. split.
    + intros H k' <-%(inj syncer_finalizer).
      destruct (SyncTarget_ByIndex c k) as [|[|? []]]; simplify_eq/=; eauto.
    + intros H. destruct (H k eq_refl) as [st ->]. done.
  - split; [|done]. intros _ k ->. unfold syncer_finalizer in P. by rewrite HasPrefix_app in P.
Qed.

Lemma processResource_key key gvr :
  "."%char ∉ String.list_ascii_of_string (gvr_Resource gvr) ->
  "."%char ∉ String.list_ascii_of_string (gvr_Version gvr) ->
  ":"%char ∉ String.list_ascii_of_string (gvr_key gvr) ->
  SplitN (gvr_key gvr +:+ "::" +:+ key) "::" 2 = [gvr_key gvr; key] /\
  ParseResourceArg (gvr_key gvr) = Some gvr.
Proof.
  intros Hr Hv Hc. split.
  - cbn [SplitN]. by rewrite (Cut_first (gvr_key gvr) ":" ":" key Hc).
  - destruct gvr as [g v r]. by apply ParseResourceArg_spec.
Qed.

(** The type under which the object of a queue key is reconciled. *)
Definition original_gvr (KCPOriginal : string) (gvr : GroupVersionResource) (obj : ObjectMeta)
    : option GroupVersionResource :=
  let v := map_index (Annotations obj) KCPOriginal in
  if decide (v = "") then Some gvr
  else match ParseGroupVersion v with
       | inr (_, v) => Some {| gvr_Group := gvr_Group gvr; gvr_Version := v;
                               gvr_Resource := gvr_Resource gvr |}
       | inl _ => None
       end.

(** Queue round trip: the key [enqueueResource] adds for an object makes
    [processResource] reconcile that very object, under the type of the key
    with the version the object was stored in. *)
Theorem enqueue_process_roundtrip secretNS orig c gvr obj key cl :
  "."%char ∉ String.list_ascii_of_string (gvr_Resource gvr) ->
  "."%char ∉ String.list_ascii_of_string (gvr_Version gvr) ->
  ":"%char ∉ String.list_ascii_of_string (gvr_key gvr) ->
  MetaClusterNamespaceKeyFunc obj = inr key ->
  SplitMetaClusterNamespaceKey key = inr (cl, Namespace obj, Name obj) ->
  ForResource c gvr = inr tt ->
  GetObject c gvr cl (Namespace obj) (Name obj) = inr (Some obj) ->
  exists qkey, trace (enqueueResource gvr obj) = [EvAddResource qkey] /\
    forall h, processResource secretNS orig c qkey h =
      match original_gvr orig gvr obj with
      | Some gvr' => reconcileResource secretNS c cl obj gvr' h
      | None => (h, Ok tt)
      end.
Proof.
  intros Hr Hv Hc Hk Hs Hf Hg.
  destruct (processResource_key key gvr Hr Hv Hc) as [E1 E2].
  exists (gvr_key gvr +:+ "::" +:+ key). unfold enqueueResource. rewrite Hk.
  split; [done|]. intros h. unfold processResource. rewrite E1, E2.
  unfold read, lift, mbind, M_bind. rewrite Hf; simpl. rewrite Hs, Hg.
  unfold original_gvr. case_decide; [done|]. by destruct (ParseGroupVersion _) as [|[]].
Qed.

(** The queue protocol of one key: after a successful pass the key is
    forgotten, after an error it is reported and requeued with back-off, and in
    every case, a panic included, it is marked done last and exactly once. *)
Theorem processNext_protocol (processFunc : string -> M event unit) key h h' r :
  processFunc key h = (h', r) ->
  processNext processFunc key h =
    match r with
    | Ok _ => (h' ++ [EvForget key; EvDone key], Ok tt)
    | Err err => (h' ++ [EvHandleError (ErrWrap "controller failed to sync" err);
                         EvAddRateLimited key; EvDone key], Ok tt)
    | Panic s => (h' ++ [EvDone key], Panic s)
    end.
Proof.
  intros E. unfold processNext, try, mbind, M_bind, emit. rewrite E.
  destruct r; simpl; by rewrite <-?app_assoc.
Qed.

(** ** Fanning out *)

Definition enqueue_event (gvr : GroupVersionResource) (obj : ObjectMeta) : event :=
  match MetaClusterNamespaceKeyFunc obj with
  | inr key => EvAddResource (gvr_key gvr +:+ "::" +:+ key)
  | inl err => EvHandleError err
  end.

Lemma enqueueResource_run gvr obj h :
  enqueueResource gvr obj h = (h ++ [enqueue_event gvr obj], Ok tt).
Proof.
  unfold enqueueResource, enqueue_event. by destruct (MetaClusterNamespaceKeyFunc obj).
Qed.

(** The object is not where its namespace is. *)
Definition misplaced (ns u : ObjectMeta) : bool :=
  negb (bool_decide (getLocations (Labels u) false = getLocations (Labels ns) true)) ||
  negb (bool_decide (getDeletingLocations (Annotations u)
                     = getDeletingLocations (Annotations ns))).

(** All the objects a synced informer lists for the namespace; [None] is a
    listing error. *)
Definition listed (c : Controller) (ns : ObjectMeta) (gvr : GroupVersionResource)
    : option (list (option ObjectMeta)) :=
  match ListNamespace c gvr (ClusterFrom ns) (Name ns) with
  | inr objs => Some objs
  | inl _ => None
  end.
Definition misplaced_events (ns : ObjectMeta) (gvr : GroupVersionResource)
    (o : option ObjectMeta) : list event :=
  match o with
  | Some u => if misplaced ns u then [enqueue_event gvr u] else []
  | None => []
  end.
Definition informer_events (c : Controller) (ns : ObjectMeta) (gvr : GroupVersionResource)
    : list event :=
  concat (misplaced_events ns gvr <$> default [] (listed c ns gvr)).
Definition listing_error (c : Controller) (ns : ObjectMeta) (gvr : GroupVersionResource)
    : list error :=
  match ListNamespace c gvr (ClusterFrom ns) (Name ns) with
  | inr _ => []
  | inl err => [ErrWrap "error listing" err]
  end.

Lemma enqueue_informers_run c ns informers errs h :
  (forall gvr objs, gvr ∈ informers -> listed c ns gvr = Some objs -> None ∉ objs) ->
  enqueue_informers c ns (getLocations (Labels ns) true)
    (getDeletingLocations (Annotations ns)) informers errs h =
  (h ++ concat (informer_events c ns <$> informers),
   Ok (errs ++ concat (listing_error c ns <$> informers))).
Proof.
  revert errs h. induction informers as [|gvr l IH]; intros errs h Hl; simpl.
  { by rewrite !app_nil_r. }
  assert (forall gvr objs, gvr ∈ l -> listed c ns gvr = Some objs -> None ∉ objs) as Hl'.
  { intros g o Hg. apply Hl. by apply list_elem_of_further. }
  specialize (Hl gvr). revert Hl.
  unfold informer_events, listing_error, listed.
  destruct (ListNamespace c gvr _ _) as [err|objs]; intros Hl; simpl.
  { by rewrite IH, <-app_assoc. }
  unfold mbind at 1, M_bind at 1.
  rewrite (for_each_total _ (misplaced_events ns gvr)).
  - by rewrite IH, <-app_assoc.
  - intros [u|] h' Hu; simpl.
    + change (negb _ || negb _) with (misplaced ns u).
      destruct (misplaced ns u); [apply enqueueResource_run|].
      by rewrite app_nil_r.
    + destruct (Hl objs (list_elem_of_here _ _) eq_refl Hu).
Qed.

(** When a namespace is (re)scheduled, every object of every synced type
    whose locations or deletion marks differ from the namespace's is enqueued,
    and so is every type not yet synced; a type that fails to list does not
    stop the others, and the call fails exactly when some type did. *)
Theorem enqueueResourcesForNamespace_complete c ns :
  (forall gvr objs, gvr ∈ (Informers c).1 -> listed c ns gvr = Some objs -> None ∉ objs) ->
  trace (enqueueResourcesForNamespace c ns) =
    concat (informer_events c ns <$> (Informers c).1) ++
    ((fun gvr => EvAddGVR (gvr_key gvr)) <$> (Informers c).2) /\
  (outcome (enqueueResourcesForNamespace c ns) = Ok tt <->
   forall gvr, gvr ∈ (Informers c).1 -> is_Some (listed c ns gvr)).
Proof.
  intros Hl. unfold trace, outcome, run, enqueueResourcesForNamespace.
  destruct (Informers c) as [synced notSynced]; simpl in *.
  unfold mbind at 1 2 3, M_bind at 1 2 3. rewrite enqueue_informers_run by done. simpl.
  unfold mbind, M_bind.
  rewrite (for_each_total _ (fun gvr => [EvAddGVR (gvr_key gvr)])) by done.
  rewrite (concat_singletons (fun gvr => EvAddGVR (gvr_key gvr))).
  set (errs := concat (listing_error c ns <$> synced)).
  assert (errs = [] <-> forall gvr, gvr ∈ synced -> is_Some (listed c ns gvr)) as <-.
  { unfold errs, listing_error, listed. clear.
    induction synced as [|g l IH]; simpl; [set_solver|].
    destruct (ListNamespace c g _ _) eqn:E; simpl.
    - split; [done|]. intros H. specialize (H g (list_elem_of_here _ _)).
      rewrite E in H. by destruct H.
    - rewrite IH. split; [|by intros H g' ?; apply H, list_elem_of_further].
      intros H g' [->|?]%elem_of_cons; [rewrite E; eauto|by apply H]. }
  destruct errs as [|e es].
  - rewrite NewAggregate_nil. done.
  - destruct (NewAggregate_cons e es) as [err ->]. done.
Qed.

(** [enqueueSyncTargetKey]'s object list holds each object of the two
    indexes once: no UID is repeated, none is lost and none is invented. *)
Theorem dedup_objs_spec seen l h :
  exists objs errs, dedup_objs seen l h = (h ++ errs, Ok objs) /\
    NoDup (UID <$> objs) /\
    (forall o, o ∈ objs -> Some o ∈ l /\ UID o ∉ seen) /\
    (forall o, Some o ∈ l -> UID o ∉ seen -> UID o ∈ UID <$> objs).
Proof.
  revert seen h. induction l as [|[o|] l IH]; intros seen h; simpl.
  - exists [], []. rewrite app_nil_r. split_and!; try done; try constructor; set_solver.
  - case_decide as Hs.
    + destruct (IH seen h) as (objs & errs & E & Hn & H1 & H2).
      exists objs, errs. split_and!; try done.
      * intros o' Ho. destruct (H1 o' Ho). split; [by apply list_elem_of_further|done].
      * intros o' [[= ->]|Ho]%elem_of_cons Hn'; [done|by apply H2].
    + destruct (IH ({[UID o]} ∪ seen) h) as (objs & errs & E & Hn & H1 & H2).
      exists (o :: objs), errs. unfold mbind, M_bind. rewrite E. split_and!; try done.
      * rewrite fmap_cons. apply NoDup_cons. split; [|done].
        intros (o' & Eo & Ho)%list_elem_of_fmap. destruct (H1 o' Ho) as [_ Ho'].
        apply Ho'. rewrite Eo. set_solver.
      * intros o' [->|Ho]%elem_of_cons; [split; [apply list_elem_of_here|done]|].
        destruct (H1 o' Ho). split; [by apply list_elem_of_further|set_solver].
      * intros o' [[= ->]|Ho]%elem_of_cons Hn'; rewrite fmap_cons; [apply list_elem_of_here|].
        destruct (decide (UID o' = UID o)) as [->|]; [apply list_elem_of_here|].
        apply list_elem_of_further, H2; [done|set_solver].
  - unfold mbind at 1, M_bind at 1; simpl.
    match goal with |- context [dedup_objs seen l ?h'] => set (h1 := h') end.
    destruct (IH seen h1) as (objs & errs & E & Hn & H1 & H2). exists objs.
    eexists. rewrite E. unfold h1. rewrite <-app_assoc. split_and!; try done.
    + intros o' Ho. destruct (H1 o' Ho). split; [by apply list_elem_of_further|done].
    + intros o' [|Ho]%elem_of_cons Hn'; [done|by apply H2].
Qed.

End theorems.

(** * Concrete instances *)

Module Examples.
#[local] Existing Instance canonical_order.
#[local] Existing Instance simple_errors.
#[local] Existing Instance simple_clusters.
#[local] Existing Instance simple_schema.

Definition clk : Clock := {| local_offset := 0%Z; time_Now _ := 0%Z |}.

(** A server with one namespace scheduled on [k1]; SyncTarget [k1] exists,
    [k2] is a collision and the others are gone. *)
Definition target : SyncTarget := {|
  st_Meta := mk_meta "us-west1" "" None None [];
  st_Spec := {| Unschedulable := false; EvictAfter := None;
                SupportedAPIExports := []; Cells := None |};
  st_Status := {| Allocatable := None; Capacity := None; st_Conditions := [];
    SyncedResources := []; LastSyncerHeartbeatTime := None;
    VirtualWorkspaces := []; TunnelWorkspaces := [] |} |}.
Definition configmaps : GroupVersionResource :=
  {| gvr_Group := ""; gvr_Version := "v1"; gvr_Resource := "configmaps" |}.
Definition labelled (k v : string) : gomap := Some {[ state_label k := v ]}.
Definition test_ns : ObjectMeta := mk_meta "test" "" (labelled "k1" "Sync") None [].
Definition cm (l : gomap) (fs : list string) : ObjectMeta := mk_meta "cm" "test" l None fs.
Definition notfound {A} : result A := inl (ErrLib "NotFound" "").

Definition world (obj : ObjectMeta) : Controller := {|
  NamespaceLister_Get _ n := if decide (n = "test") then inr test_ns else notfound;
  PlacementLister_List _ := inr [];
  SyncTarget_ByIndex k :=
    if decide (k = "k1") then inr [target]
    else if decide (k = "k2") then inr [target; target] else inr [];
  Informers := ([configmaps], []);
  ForResource _ := inr tt;
  HasSynced _ := true;
  ListAll _ := inr [obj];
  ListNamespace _ _ _ := inr [Some obj];
  ByIndex _ _ _ := inr [Some obj];
  GetObject _ _ _ _ := inr (Some obj);
  clock := clk;
  DoDelete _ := inr tt;
  DoPatch _ := inr tt |}.

(** The finalizer of a SyncTarget that exists is dropped when two SyncTargets
    share its key. *)
Example finalizer_dropped_on_collision :
  filter_finalizers (world test_ns) [syncer_finalizer "k1"; syncer_finalizer "k2"; "other"]
  = [syncer_finalizer "k1"; "other"].
Proof. vm_compute. reflexivity. Qed.

(** An object on a location its namespace has left. *)
Definition moving : ObjectMeta := cm (labelled "k3" "Sync") [].
Definition moving_patch : ResourcePatch := {|
  patch_UID := ""; patch_ResourceVersion := "";
  patch_labels := Some {[ state_label "k1" := Some "Sync"; state_label "k3" := None ]};
  patch_annotations := None; patch_finalizers := None |}.

Lemma unschedule_safe_witness : syncer_finalizer "k3" ∉ Finalizers moving.
Proof.
  eapply (reconcileResource_unschedule_safe "secrets" (world moving) "root" moving configmaps
    moving_patch "k3").
  - vm_compute. by apply list_elem_of_here.
  - by vm_compute.
Defined.

Definition upsynced : ObjectMeta := cm (labelled "k4" "Upsync") [].
Lemma delete_safe_witness :
  exists k, map_get (Labels upsynced) (state_label k) = Some ResourceStateUpsync /\
    SyncTarget_ByIndex (world upsynced) k = inr [].
Proof.
  apply (reconcileResource_delete_safe "secrets" (world upsynced) "root" upsynced configmaps
    (EvDelete configmaps "" "test" "cm")).
  vm_compute. by apply list_elem_of_here.
Defined.

Lemma roundtrip_witness :
  exists qkey, trace (enqueueResource configmaps moving) = [EvAddResource qkey] /\
    forall h, processResource "secrets" "kcp.io/original" (world moving) qkey h =
      reconcileResource "secrets" (world moving) "" moving configmaps h.
Proof.
  apply (enqueue_process_roundtrip "secrets" "kcp.io/original" (world moving) configmaps
    moving "|test/cm" ""); try by vm_compute.
  all: refine (bool_decide_unpack _ _); vm_compute; exact I.
Defined.

Lemma processNext_witness :
  processNext (fun _ => fail (ErrMsg "boom")) "key" [] =
    ([EvHandleError (ErrWrap "controller failed to sync" (ErrMsg "boom"));
      EvAddRateLimited "key"; EvDone "key"], Ok tt).
Proof.
  by rewrite (processNext_protocol (fun _ => fail (ErrMsg "boom")) "key" [] []
    (Err (ErrMsg "boom")) eq_refl).
Defined.

Lemma enqueue_complete_witness :
  trace (enqueueResourcesForNamespace (world moving) test_ns) =
    [EvAddResource "configmaps.v1.::|test/cm"].
Proof.
  rewrite (proj1 (enqueueResourcesForNamespace_complete (world moving) test_ns
    ltac:(intros gvr objs _ [= <-]; refine (bool_decide_unpack _ _); vm_compute; exact I))).
  by vm_compute.
Defined.

End Examples.
