(* ===== verification/Committer.v ===== *)
(** * The committer ([pkg/reconciler/committer])

    Every controller works on a copy of an object and hands the original and
    the copy to the committer, which sends the JSON merge patch between them.
    The committer refuses, by a panic, a pass that changed metadata or spec and
    also the status: the controllers' theorems discharge that obligation through
    [one_sided]. *)

From S2P Require Import Prelude Platform.

(** [equality.Semantic.DeepEqual] at one type: a library function, reflexive. *)
Class DeepEq (A : Type) := {
  deep_equal : A -> A -> bool;
  deep_equal_refl a : deep_equal a a = true;
}.

(** On types without maps and times it is equality. *)
Program Definition eq_DeepEq {A} `{!EqDecision A} : DeepEq A :=
  {| deep_equal a b := bool_decide (a = b) |}.
Next Obligation. intros A ? a. by apply bool_decide_true. Qed.

(** On metadata: nil and empty maps are equal. *)
Definition meta_equal (a b : ObjectMeta) : bool :=
  bool_decide (Name a = Name b /\ Namespace a = Namespace b /\ UID a = UID b /\
    ResourceVersion a = ResourceVersion b /\ entries (Labels a) = entries (Labels b) /\
    entries (Annotations a) = entries (Annotations b) /\ Finalizers a = Finalizers b /\
    DeletionTimestamp a = DeletionTimestamp b /\
    CreationTimestamp a = CreationTimestamp b /\ OwnerReferences a = OwnerReferences b).
#[global] Program Instance meta_DeepEqual : DeepEq ObjectMeta := {| deep_equal := meta_equal |}.
Next Obligation. intros m. by apply bool_decide_true. Qed.

(** [type Resource]. *)
Record Resource (Sp St : Type) := mkResource {
  r_Meta : ObjectMeta;
  r_Spec : Sp;
  r_Status : St;
}.
Arguments mkResource {_ _} _ _ _.
Arguments r_Meta {_ _} _.
Arguments r_Spec {_ _} _.
Arguments r_Status {_ _} _.

Definition zero_meta : ObjectMeta := mk_meta "" "" None None [].
Definition SetUIDVersion (o : ObjectMeta) (uid version : string) : ObjectMeta :=
  {| Name := Name o; Namespace := Namespace o; UID := uid;
     ResourceVersion := version; Labels := Labels o;
     Annotations := Annotations o; Finalizers := Finalizers o;
     DeletionTimestamp := DeletionTimestamp o;
     CreationTimestamp := CreationTimestamp o;
     OwnerReferences := OwnerReferences o |}.

Section committer.
Context {Sp St : Type} {EqSp : DeepEq Sp} {EqSt : DeepEq St}.
(** Go's zero values of the two types ([nil] for the pointers used). *)
Variables (zeroSp : Sp) (zeroSt : St).
(** [json.Marshal] and [jsonpatch.CreateMergePatch]. *)
Variable Marshal : Resource Sp St -> result string.
Variable CreateMergePatch : string -> string -> result string.

Definition objectMetaChanged (old obj : Resource Sp St) : bool :=
  negb (deep_equal (r_Meta old) (r_Meta obj)).
Definition specChanged (old obj : Resource Sp St) : bool :=
  negb (deep_equal (r_Spec old) (r_Spec obj)).
Definition statusChanged (old obj : Resource Sp St) : bool :=
  negb (deep_equal (r_Status old) (r_Status obj)).

(** [forPatch]: only the metadata and spec, or only the status. *)
Definition forPatch (specOrObjectMetaChanged : bool) (r : Resource Sp St) : Resource Sp St :=
  if specOrObjectMetaChanged then mkResource (r_Meta r) (r_Spec r) zeroSt
  else mkResource zero_meta zeroSp (r_Status r).
Definition with_preconditions (r : Resource Sp St) (uid version : string) : Resource Sp St :=
  mkResource (SetUIDVersion (r_Meta r) uid version) (r_Spec r) (r_Status r).

Definition wrap {A} (msg : string) (r : result A) : res A :=
  match r with inl e => Err (ErrWrap msg e) | inr a => Ok a end.

(** [generatePatchAndSubResources]; [Ok None] is the nil patch. The list of
    subresources is always nil. *)
Definition generatePatchAndSubResources (old obj : Resource Sp St) : res (option string) :=
  let specOrObjectMetaChanged := specChanged old obj || objectMetaChanged old obj in
  if specOrObjectMetaChanged && statusChanged old obj then
    Panic "programmer error: spec and status changed in same reconcile iteration"
  else if negb specOrObjectMetaChanged && negb (statusChanged old obj) then Ok None
  else
    let oldForPatch := with_preconditions (forPatch specOrObjectMetaChanged old) "" "" in
    oldData ← wrap "failed to Marshal old data" (Marshal oldForPatch);
    let newForPatch := with_preconditions (forPatch specOrObjectMetaChanged obj)
                         (UID (r_Meta old)) (ResourceVersion (r_Meta old)) in
    newData ← wrap "failed to Marshal new data" (Marshal newForPatch);
    patchBytes ← wrap "failed to create patch" (CreateMergePatch oldData newData);
    Ok (Some patchBytes).

(** [withPatchAndSubResources], and the closures of [NewCommitter] and
    [NewCommitterScoped], which only differ in the client [patch] calls. *)
Definition withPatchAndSubResources {Ev} (old obj : Resource Sp St)
    (patch : string -> M Ev unit) : M Ev unit :=
  match generatePatchAndSubResources old obj with
  | Panic s => lift (Panic s)
  | Err e => fail (ErrWrap "failed to create patch" e)
  | Ok None => mret tt
  | Ok (Some patchBytes) =>
      if decide (patchBytes = "") then mret tt
      else
        r ← try (patch patchBytes);
        match r with
        | inl e => fail (ErrWrap "failed to patch" e)
        | inr _ => mret tt
        end
  end.
Definition NewCommitter {Ev}
    (Patch : string -> string -> string -> M Ev unit) (ClusterFrom : ObjectMeta -> string)
    (old obj : Resource Sp St) : M Ev unit :=
  withPatchAndSubResources old obj
    (fun patchBytes => Patch (ClusterFrom (r_Meta old)) (Name (r_Meta obj)) patchBytes).
Definition NewCommitterScoped {Ev} (Patch : string -> string -> M Ev unit)
    (old obj : Resource Sp St) : M Ev unit :=
  withPatchAndSubResources old obj (fun patchBytes => Patch (Name (r_Meta obj)) patchBytes).

(** ** Specification *)

(** What a reconciler owes the committer. *)
Definition one_sided (old obj : Resource Sp St) : Prop :=
  specChanged old obj || objectMetaChanged old obj = false \/ statusChanged old obj = false.

Lemma generatePatch_no_panic old obj :
  one_sided old obj <-> is_panic (generatePatchAndSubResources old obj) = false.
Proof.
  unfold one_sided, generatePatchAndSubResources.
  destruct (specChanged old obj || objectMetaChanged old obj), (statusChanged old obj);
    simpl; unfold mbind, res_bind; split; intros H; try done; auto;
    try (by destruct H).
  all: destruct (Marshal _); [done|]; simpl; destruct (Marshal _); [done|]; simpl.
  all: by destruct (CreateMergePatch _ _).
Qed.

Lemma one_sided_status old obj :
  r_Meta obj = r_Meta old -> r_Spec obj = r_Spec old -> one_sided old obj.
Proof.
  intros E1 E2. left. unfold specChanged, objectMetaChanged.
  by rewrite E1, E2, !deep_equal_refl.
Qed.
Lemma one_sided_meta old obj : r_Status obj = r_Status old -> one_sided old obj.
Proof. intros E. right. unfold statusChanged. by rewrite E, deep_equal_refl. Qed.

(** A commit that is not refused panics only if the patch call does. *)
Lemma commit_no_panic {Ev} (patch : string -> M Ev unit) old obj h :
  one_sided old obj -> (forall b h, is_panic (patch b h).2 = false) ->
  is_panic (withPatchAndSubResources old obj patch h).2 = false.
Proof.
  intros H%generatePatch_no_panic Hp. unfold withPatchAndSubResources.
  destruct (generatePatchAndSubResources old obj) as [[b|]|e|s]; try done.
  case_decide; [done|]. unfold try, mbind, M_bind. specialize (Hp b h).
  by destruct (patch b h) as [h' [[]|e|s]].
Qed.

End committer.

(** ** Status-less objects ([statusless_committer.go]) *)

Section statusless.
Context {R : Type} {EqR : DeepEq R}.
Variable GetMeta : R -> ObjectMeta.
Variable SetMeta : R -> ObjectMeta -> R.
Variable Marshal : R -> result string.
Variable CreateMergePatch : string -> string -> result string.

Definition generateStatusLessPatchAndSubResources (old obj : R) : res (option string) :=
  if deep_equal old obj then Ok None
  else
    let oldForPatch := SetMeta old (SetUIDVersion (GetMeta old) "" "") in
    oldData ← wrap "failed to Marshal old data" (Marshal oldForPatch);
    let newForPatch := SetMeta obj (SetUIDVersion (GetMeta obj)
                         (UID (GetMeta old)) (ResourceVersion (GetMeta old))) in
    newData ← wrap "failed to Marshal new data" (Marshal newForPatch);
    patchBytes ← wrap "failed to create patch" (CreateMergePatch oldData newData);
    Ok (Some patchBytes).
Definition NewStatuslessCommitter {Ev}
    (Patch : string -> string -> string -> M Ev unit) (ClusterFrom : ObjectMeta -> string)
    (old obj : R) : M Ev unit :=
  match generateStatusLessPatchAndSubResources old obj with
  | Panic s => lift (Panic s)
  | Err e => fail (ErrWrap "failed to create patch" e)
  | Ok None => mret tt
  | Ok (Some patchBytes) =>
      if decide (patchBytes = "") then mret tt
      else
        r ← try (Patch (ClusterFrom (GetMeta old)) (Name (GetMeta obj)) patchBytes);
        match r with
        | inl e => fail (ErrWrap "failed to patch" e)
        | inr _ => mret tt
        end
  end.
End statusless.

(** * The committer's contract *)

Section theorems.
Context {Sp St : Type} {EqSp : DeepEq Sp} {EqSt : DeepEq St}.
Variables (zeroSp : Sp) (zeroSt : St).
Variable Marshal : Resource Sp St -> result string.
Variable CreateMergePatch : string -> string -> result string.

(** The committer panics exactly on a pass that changed both the status and
    the metadata or spec; it sends nothing exactly when (semantically) nothing
    changed or an encoding failed; and a patch is computed from the one side
    that changed only, with the UID and resourceVersion of the original as
    preconditions. *)
Theorem generatePatch_spec old obj :
  match generatePatchAndSubResources zeroSp zeroSt Marshal CreateMergePatch old obj with
  | Panic _ => ~ one_sided old obj
  | Ok None =>
      deep_equal (r_Meta old) (r_Meta obj) = true /\
      deep_equal (r_Spec old) (r_Spec obj) = true /\
      deep_equal (r_Status old) (r_Status obj) = true
  | Ok (Some patchBytes) =>
      exists o n oldData newData,
        Marshal o = inr oldData /\ Marshal n = inr newData /\
        CreateMergePatch oldData newData = inr patchBytes /\
        UID (r_Meta n) = UID (r_Meta old) /\
        ResourceVersion (r_Meta n) = ResourceVersion (r_Meta old) /\
        UID (r_Meta o) = "" /\ ResourceVersion (r_Meta o) = "" /\
        ((r_Status n = zeroSt /\ r_Status o = zeroSt /\
          r_Spec n = r_Spec obj /\ statusChanged old obj = false) \/
         (r_Spec n = zeroSp /\ r_Spec o = zeroSp /\
          r_Status n = r_Status obj /\
          specChanged old obj || objectMetaChanged old obj = false))
  | Err _ => one_sided old obj
  end.
Proof.
  unfold generatePatchAndSubResources, one_sided.
  destruct (specChanged old obj || objectMetaChanged old obj) eqn:E1,
    (statusChanged old obj) eqn:E2; simpl.
  - by intros [].
  - unfold mbind, res_bind. destruct (Marshal _) eqn:M1; simpl; [by right|].
    destruct (Marshal (with_preconditions _ (UID _) _)) eqn:M2; simpl; [by right|].
    destruct (CreateMergePatch _ _) eqn:M3; simpl; [by right|].
    eexists _, _, _, _. refine (conj M1 (conj M2 (conj M3 _))). do 4 (split; [done|]).
    by left.
  - unfold mbind, res_bind. destruct (Marshal _) eqn:M1; simpl; [by left|].
    destruct (Marshal (with_preconditions _ (UID _) _)) eqn:M2; simpl; [by left|].
    destruct (CreateMergePatch _ _) eqn:M3; simpl; [by left|].
    eexists _, _, _, _. refine (conj M1 (conj M2 (conj M3 _))). do 4 (split; [done|]).
    by right.
  - unfold specChanged, objectMetaChanged, statusChanged in *.
    apply orb_false_iff in E1 as [E1%negb_false_iff E3%negb_false_iff].
    apply negb_false_iff in E2. done.
Qed.
End theorems.
