(* ===== verification/Workqueue.v ===== *)
(** * Work queues (the controllers' common loop)

    All the controllers have the same loop: take a key, look the object up,
    reconcile a copy, commit the difference, and settle the key with the queue.
    It is written out in each controller's file under [src]; here it is one
    definition, that each controller instantiates with its reconciler. *)

From S2P Require Import Prelude Platform Committer.

(** What a controller does to the outside; [X] are the calls of its own. *)
Inductive event {X : Type} :=
  | EvPatch (cluster name patch : string)
  | EvCall (x : X)
  | EvAdd (key : string)
  | EvAddAfter (key : string) (after : Z)
  | EvHandleError (e : error)
  | EvAddRateLimited (key : string)
  | EvForget (key : string)
  | EvDone (key : string).
Arguments event : clear implicits.

Section loop.
Context {EL : ErrorLib} {CL : ClusterLib}.
Context {X T : Type}.

(** [process]: [reconcile] returns the object as it left it, whether to requeue
    (always false in the controllers that do not) and its aggregated error. The
    commit is tried also after an error. [ignored] are the errors of the lookup
    after which the key is dropped: not found, or any. *)
Definition process (ignored : error -> bool) (get : string -> string -> result T)
    (reconcile : string -> T -> M (event X) (T * bool * option error))
    (commit : T -> T -> M (event X) unit) (key : string) : M (event X) bool :=
  match SplitMetaClusterNamespaceKey key with
  | inl _ => mret false
  | inr (clusterName, _, name) =>
      match get clusterName name with
      | inl err => if ignored err then mret false else fail err
      | inr old =>
          '(obj, requeue, err) ← reconcile key old;
          r ← try (commit old obj);
          let errs := option_list err ++ match r with inl e => [e] | inr _ => [] end in
          match NewAggregate errs with
          | None => mret requeue
          | Some err => fail err
          end
      end
  end.

(** [processNextWorkItem] on the key taken from the queue; [Done] is deferred. *)
Definition processNextWorkItem (process : string -> M (event X) bool) (key : string)
    : M (event X) unit := fun h =>
  let '(h, r) :=
    (r ← try (process key);
     match r with
     | inl err =>
         emit (EvHandleError (ErrWrap "controller failed to sync" err));;
         emit (EvAddRateLimited key)
     | inr true => emit (EvAdd key)
     | inr false => emit (EvForget key)
     end) h in
  (h ++ [EvDone key], r).

(** Handlers: enqueue one object, or all the objects some list returns. On a
    live object [DeletionHandlingMetaClusterNamespaceKeyFunc] is
    [MetaClusterNamespaceKeyFunc]. *)
Definition enqueue (obj : ObjectMeta) : M (event X) unit :=
  match MetaClusterNamespaceKeyFunc obj with
  | inl err => emit (EvHandleError err)
  | inr key => emit (EvAdd key)
  end.
Definition enqueue_all (r : result (list ObjectMeta)) : M (event X) unit :=
  match r with
  | inl err => emit (EvHandleError err)
  | inr objs => for_each objs enqueue
  end.
Definition metas {A} (meta : A -> ObjectMeta) (r : result (list A))
    : result (list ObjectMeta) :=
  match r with inl e => inl e | inr l => inr (List.map meta l) end.
(** Enqueue the objects listed for the logical cluster of [obj]. *)
Definition enqueue_cluster (list_of : string -> result (list ObjectMeta)) (obj : ObjectMeta)
    : M (event X) unit :=
  match MetaClusterNamespaceKeyFunc obj with
  | inl err => emit (EvHandleError err)
  | inr key =>
      match SplitMetaClusterNamespaceKey key with
      | inl err => emit (EvHandleError err)
      | inr (clusterName, _, _) => enqueue_all (list_of clusterName)
      end
  end.

Lemma processNextWorkItem_run (proc : string -> M (event X) bool) key h :
  processNextWorkItem proc key h =
    match proc key h with
    | (h', Ok true) => (h' ++ [EvAdd key; EvDone key], Ok tt)
    | (h', Ok false) => (h' ++ [EvForget key; EvDone key], Ok tt)
    | (h', Err err) => (h' ++ [EvHandleError (ErrWrap "controller failed to sync" err);
                               EvAddRateLimited key; EvDone key], Ok tt)
    | (h', Panic s) => (h' ++ [EvDone key], Panic s)
    end.
Proof.
  unfold processNextWorkItem, try, mbind, M_bind, emit.
  destruct (proc key h) as [h' [[]|e|s]]; simpl; by rewrite <-?app_assoc.
Qed.

(** A pass panics only if the reconciler does, when the commit keeps its
    side of the contract on whatever the reconciler leaves. *)
Lemma process_no_panic ignored get reconcile commit key h :
  (forall old h, is_panic (reconcile key old h).2 = false) ->
  (forall old h h' obj b e h2, reconcile key old h = (h', Ok (obj, b, e)) ->
     is_panic (commit old obj h2).2 = false) ->
  is_panic (process ignored get reconcile commit key h).2 = false.
Proof.
  intros Hr Hc. unfold process. destruct (SplitMetaClusterNamespaceKey key) as [e|[[cl ns] n]];
    [done|]. destruct (get cl n) as [e|old]; [by destruct (ignored e)|].
  unfold mbind, M_bind, try. specialize (Hr old h). specialize (Hc old h).
  destruct (reconcile key old h) as [h' [[[obj b] e]|e|s]]; try done.
  specialize (Hc h' obj b e h' eq_refl).
  destruct (commit old obj h') as [h2 [[]|e'|s]]; try done.
  all: by destruct (NewAggregate _).
Qed.

End loop.
