(* ===== verification/NamespaceScheduler.v ===== *)
(** * The namespace scheduler ([pkg/reconciler/workload/namespace])

    Binds a namespace to the placements that select it, labels it with the
    SyncTargets those placements chose, and removes a SyncTarget in two phases:
    a deletion annotation first, the label after a grace period. *)

From S2P Require Import Prelude Platform GoTime ApiTypes Committer Workqueue.

Local Open Scope Z_scope.

(** ** Data *)

(** [corev1.NamespaceCondition]: a condition without severity. *)
Record NamespaceCondition := {
  nc_Type : string;
  nc_Status : ConditionStatus;
  nc_LastTransitionTime : Time;
  nc_Reason : string;
  nc_Message : string;
}.
#[global] Instance NamespaceCondition_eq_dec : EqDecision NamespaceCondition.
Proof. solve_decision. Defined.

Record NamespaceStatus := { ns_Phase : string; ns_Conditions : list NamespaceCondition }.
#[global] Instance NamespaceStatus_eq_dec : EqDecision NamespaceStatus.
Proof. solve_decision. Defined.

(** [corev1.Namespace] is [Resource] of its spec (the finalizers) and status. *)
Abbreviation NamespaceSpec := (list string) (only parsing).
Abbreviation Namespace := (Resource NamespaceSpec NamespaceStatus) (only parsing).
#[global] Instance NamespaceSpec_DeepEqual : DeepEq NamespaceSpec := eq_DeepEq.
#[global] Instance NamespaceStatus_DeepEqual : DeepEq NamespaceStatus := eq_DeepEq.

Definition with_meta (ns : Namespace) (m : ObjectMeta) : Namespace :=
  mkResource m (r_Spec ns) (r_Status ns).

(** [NamespaceConditionsAdapter]. *)
Definition GetConditions (ns : Namespace) : Conditions :=
  (fun c => {| c_Type := nc_Type c; c_Status := nc_Status c;
     c_Severity := ConditionSeverityNone; c_LastTransitionTime := nc_LastTransitionTime c;
     c_Reason := nc_Reason c; c_Message := nc_Message c |}) <$> ns_Conditions (r_Status ns).
Definition SetConditions (ns : Namespace) (cs : Conditions) : Namespace :=
  mkResource (r_Meta ns) (r_Spec ns) {| ns_Phase := ns_Phase (r_Status ns);
    ns_Conditions := (fun c => {| nc_Type := c_Type c; nc_Status := c_Status c;
      nc_LastTransitionTime := c_LastTransitionTime c;
      nc_Reason := c_Reason c; nc_Message := c_Message c |}) <$> cs |}.

Definition NamespaceScheduled : string := "NamespaceScheduled".
Definition NamespaceReasonUnschedulable : string := "Unschedulable".

Definition removingGracePeriod : Z := 5 * Second.

Record reconcileResult := { stop : bool; requeueAfter : Z }.

(** [namespaceSyncStatus] and [syncStatusFor]. *)
Record namespaceSyncStatus := {
  active : gset string;
  pendingRemoval : gmap string Time;
}.
Definition add_sync_status (annotations : gomap) (status : namespaceSyncStatus)
    (k : string) : namespaceSyncStatus :=
  if HasPrefix k ClusterResourceStateLabelPrefix then
    let syncTarget := TrimPrefix k ClusterResourceStateLabelPrefix in
    match map_get annotations
            (InternalClusterDeletionTimestampAnnotationPrefix +:+ syncTarget) with
    | Some value =>
        {| active := active status;
           pendingRemoval := <[ syncTarget := Parse_or_zero value ]> (pendingRemoval status) |}
    | None =>
        {| active := {[ syncTarget ]} ∪ active status;
           pendingRemoval := pendingRemoval status |}
    end
  else status.

(** The controller makes no calls besides the queue's and the commit's. *)
Abbreviation event := (event Empty_set) (only parsing).
Abbreviation NM := (M event) (only parsing).

(** [controller]. The clock is read once per use: when a target is marked, when
    its grace period is tested and when the remaining time is computed. *)
Record controller := {
  listNamespaces : string -> result (list Namespace);
  getNamespace : string -> string -> result Namespace;
  listPlacements : string -> result (list Placement);
  now_mark : string -> Time;
  now_grace : string -> Time;
  now_until : string -> Time;
  Marshal : Namespace -> result string;
  CreateMergePatch : string -> string -> result string;
  DoPatch : list event -> result unit;
}.

Section controller.
Context {MO : MapOrder} {EL : ErrorLib} {LL : LabelLib} {CL : ClusterLib} {CO : ConditionLib}.
Variable c : controller.

Definition syncStatusFor (ns : Namespace) : namespaceSyncStatus :=
  foldl (add_sync_status (Annotations (r_Meta ns))) {| active := ∅; pendingRemoval := ∅ |}
    (map_range (entries (Labels (r_Meta ns)))).*1.

(** ** [namespace_reconcile_placementbind.go] *)

Definition isPlacementValidForNS (ns : Namespace) (placement : Placement) : bool :=
  match LabelSelectorAsSelector (NamespaceSelector (p_Spec placement)) with
  | inl _ => false
  | inr selector => selector (entries (Labels (r_Meta ns)))
  end.
Definition valid_placement (ns : Namespace) (placement : Placement) : bool :=
  negb (bool_decide (p_Phase (p_Status placement) = PlacementPending)) &&
  negb (IsFalse (p_Conditions (p_Status placement)) PlacementReady) &&
  isPlacementValidForNS ns placement.
Definition filterValidPlacements (ns : Namespace) (placements : list Placement)
    : list Placement :=
  filter (fun p => valid_placement ns p = true) placements.
Definition validPlacements (clusterName : string) (ns : Namespace)
    : result (list Placement) :=
  placements ← listPlacements c clusterName;
  inr (filterValidPlacements ns placements).

(** A reconciler returns the namespace it was given, as it left it. *)
Definition reconcilePlacementBind (ns : Namespace) : res (Namespace * reconcileResult) :=
  valid ← of_result (validPlacements (ClusterFrom (r_Meta ns)) ns);
  let hasPlacement :=
    if map_get (Annotations (r_Meta ns)) PlacementAnnotationKey is Some _ then true else false in
  let shouldHavePlacement := negb (bool_decide (length valid = 0%nat)) in
  match shouldHavePlacement, hasPlacement with
  | true, true | false, false => Ok (ns, {| stop := false; requeueAfter := 0 |})
  | true, false =>
      let annotations := Some (entries (Annotations (r_Meta ns))) in
      annotations ← map_set annotations PlacementAnnotationKey "";
      Ok (with_meta ns (with_annotations (r_Meta ns) annotations),
          {| stop := true; requeueAfter := 0 |})
  | false, true =>
      Ok (with_meta ns (with_annotations (r_Meta ns)
            (map_delete (Annotations (r_Meta ns)) PlacementAnnotationKey)),
          {| stop := true; requeueAfter := 0 |})
  end.

(** ** [namespace_reconcile_scheduling.go] *)

(** 1. *)
Definition add_scheduled (s : gset string) (placement : Placement) : gset string :=
  match map_get (Annotations (p_Meta placement)) InternalSyncTargetPlacementAnnotationKey with
  | Some currentScheduled => {[ currentScheduled ]} ∪ s
  | None => s
  end.
Definition scheduledSyncTargets (ns : Namespace) : result (gset string) :=
  if map_get (Annotations (r_Meta ns)) PlacementAnnotationKey is Some _ then
    placements ← listPlacements c (ClusterFrom (r_Meta ns));
    inr (foldl add_scheduled ∅ (filterValidPlacements ns placements))
  else inr ∅.

(** 3. [annotations] is the namespace's own map: writing to it when it is nil
    panics. *)
Fixpoint mark_removing (scheduled : gset string) (targets : list string)
    (annotations : gomap) (changed : bool) : res (gomap * bool) :=
  match targets with
  | [] => Ok (annotations, changed)
  | syncTarget :: targets =>
      if decide (syncTarget ∈ scheduled) then mark_removing scheduled targets annotations changed
      else
        annotations ← map_set annotations
          (InternalClusterDeletionTimestampAnnotationPrefix +:+ syncTarget)
          (Format_RFC3339 0 (now_mark c syncTarget));
        mark_removing scheduled targets annotations true
  end.

(** 4. *)
Definition remove_expired (p : gomap * gomap * bool * Z) (kv : string * Time)
    : gomap * gomap * bool * Z :=
  let '(labels, annotations, changed, minEnqueueDuration) := p in
  let '(cluster, removingTime) := kv in
  if removingTime + removingGracePeriod <? now_grace c cluster then
    (map_delete labels (ClusterResourceStateLabelPrefix +:+ cluster),
     map_delete annotations (InternalClusterDeletionTimestampAnnotationPrefix +:+ cluster),
     true, minEnqueueDuration)
  else
    let enqueueDuration := Sub (removingTime + removingGracePeriod) (now_until c cluster) in
    (labels, annotations, changed, Z.min enqueueDuration minEnqueueDuration).

(** 5. *)
Definition add_missing (status : namespaceSyncStatus) (p : gomap * bool) (target : string)
    : gomap * bool :=
  let '(labels, changed) := p in
  if decide (target ∈ active status) then p
  else if pendingRemoval status !! target is Some _ then p
  else (Some (<[ ClusterResourceStateLabelPrefix +:+ target := ResourceStateSync ]>
                (entries labels)), true).

Definition reconcileScheduling (ns : Namespace) : res (Namespace * reconcileResult) :=
  scheduled ← of_result (scheduledSyncTargets ns);
  let syncStatus := syncStatusFor ns in
  '(annotations, changed) ←
    mark_removing scheduled (set_range (active syncStatus)) (Annotations (r_Meta ns)) false;
  let '(labels, annotations, changed, minEnqueueDuration) :=
    foldl remove_expired (Labels (r_Meta ns), annotations, changed, removingGracePeriod + 1)
      (map_range (pendingRemoval syncStatus)) in
  let '(labels, changed) :=
    foldl (add_missing syncStatus) (labels, changed) (set_range scheduled) in
  Ok (with_meta ns (with_annotations (with_labels (r_Meta ns) labels) annotations),
      {| stop := changed;
         requeueAfter := if minEnqueueDuration <=? removingGracePeriod
                         then minEnqueueDuration else 0 |}).

(** ** [namespace_reconcile_status.go] *)

Definition reconcileStatus (ns : Namespace) : res (Namespace * reconcileResult) :=
  let no := {| stop := false; requeueAfter := 0 |} in
  let markFalse msg := SetConditions ns (MarkFalse (GetConditions ns) NamespaceScheduled
    NamespaceReasonUnschedulable ConditionSeverityNone msg) in
  match map_get (Annotations (r_Meta ns)) PlacementAnnotationKey with
  | None => Ok (markFalse "No available placements", no)
  | Some _ =>
      if decide (active (syncStatusFor ns) = ∅)
      then Ok (markFalse "No available sync targets", no)
      else Ok (SetConditions ns (MarkTrue (GetConditions ns) NamespaceScheduled), no)
  end.

(** ** [namespace_reconcile.go] *)

(** [reconcile] changes the copy it is given also when it fails: the state is
    returned beside the error. *)
Fixpoint reconcile_loop (key : string)
    (reconcilers : list (Namespace -> res (Namespace * reconcileResult)))
    (ns : Namespace) : NM (Namespace * option error) :=
  match reconcilers with
  | [] => mret (ns, None)
  | r :: reconcilers =>
      match r ns with
      | Panic s => lift (Panic s)
      | Err e => mret (ns, Some e)
      | Ok (ns, result) =>
          if stop result then mret (ns, None)
          else
            (if 0 <? requeueAfter result then emit (EvAddAfter key (requeueAfter result))
             else mret tt);;
            reconcile_loop key reconcilers ns
      end
  end.
Definition reconcile (key : string) (ns : Namespace) : NM (Namespace * option error) :=
  reconcile_loop key [reconcilePlacementBind; reconcileScheduling; reconcileStatus] ns.

(** ** [namespace_controller.go] *)

Definition commit (old obj : Namespace) : NM unit :=
  NewCommitter [] {| ns_Phase := ""; ns_Conditions := [] |} (Marshal c) (CreateMergePatch c)
    (fun cluster name patch => call (EvPatch cluster name patch) (DoPatch c)) ClusterFrom old obj.

Definition process : string -> NM bool :=
  process IsNotFound (getNamespace c)
    (fun key ns => '(ns, err) ← reconcile key ns; mret (ns, false, err)) commit.
Definition processNextWorkItem (key : string) : NM unit := processNextWorkItem process key.

(** The event handlers. *)
Definition enqueueNamespace (obj : ObjectMeta) : NM unit := enqueue obj.
Definition enqueuePlacement (obj : ObjectMeta) : NM unit :=
  enqueue_cluster (fun cluster => metas r_Meta (listNamespaces c cluster)) obj.

End controller.

(** * Lemmas *)

Section lemmas.
Context {MO : MapOrder} {EL : ErrorLib} {LL : LabelLib} {CL : ClusterLib} {CO : ConditionLib}.
Variable c : controller.

(** The scheduling state of one SyncTarget: its label and its annotation. *)
Definition label_of (m : ObjectMeta) (k : string) : option string :=
  map_get (Labels m) (state_label k).
Definition removal_of (m : ObjectMeta) (k : string) : option string :=
  map_get (Annotations m) (deletion_annotation k).

Lemma add_sync_status_label a st x :
  add_sync_status a st (state_label x) =
    match map_get a (deletion_annotation x) with
    | Some v => {| active := active st;
                   pendingRemoval := <[ x := Parse_or_zero v ]> (pendingRemoval st) |}
    | None => {| active := {[ x ]} ∪ active st; pendingRemoval := pendingRemoval st |}
    end.
Proof.
  unfold add_sync_status, state_label. by rewrite HasPrefix_app, TrimPrefix_app.
Qed.

Lemma add_sync_status_other a st n :
  HasPrefix n ClusterResourceStateLabelPrefix = false -> add_sync_status a st n = st.
Proof. unfold add_sync_status. by intros ->. Qed.

Lemma sync_status_loop a l st k :
  NoDup l ->
  (k ∈ active (foldl (add_sync_status a) st l) <->
     k ∈ active st \/ (state_label k ∈ l /\ map_get a (deletion_annotation k) = None)) /\
  pendingRemoval (foldl (add_sync_status a) st l) !! k =
    match decide (state_label k ∈ l), map_get a (deletion_annotation k) with
    | left _, Some v => Some (Parse_or_zero v)
    | _, _ => pendingRemoval st !! k
    end.
Proof.
  revert st. induction l as [|n l IH]; intros st; simpl.
  { intros _. destruct (decide (state_label k ∈ [])) as [E|_]; [by apply elem_of_nil in E|].
    split; [|done]. split; [by left|]. by intros [|[[]%elem_of_nil _]]. }
  intros [Hn Hl]%NoDup_cons. destruct (IH (add_sync_status a st n) Hl) as [-> ->]. clear IH.
  destruct (HasPrefix n ClusterResourceStateLabelPrefix) eqn:P.
  - apply HasPrefix_state_label in P as [x ->]. rewrite add_sync_status_label.
    pose proof (elem_of_cons l (state_label k) (state_label x)) as Hcons.
    destruct (decide (k = x)) as [->|Hne].
    + destruct (decide (state_label x ∈ l)); [done|].
      destruct (decide (state_label x ∈ state_label x :: l)) as [_|Hx];
        [|destruct Hx; apply list_elem_of_here].
      destruct (map_get a (deletion_annotation x)); simpl.
      * rewrite lookup_insert_eq. split; [|done]. naive_solver.
      * split; [|done]. rewrite elem_of_union, elem_of_singleton. naive_solver.
    + assert (state_label k <> state_label x) as Hne' by by intros ?%(inj state_label).
      split.
      * destruct (map_get a (deletion_annotation x)); simpl;
          rewrite ?elem_of_union, ?elem_of_singleton; naive_solver.
      * destruct (decide (state_label k ∈ l)), (decide (state_label k ∈ _ :: l));
          try tauto; destruct (map_get a (deletion_annotation k)),
          (map_get a (deletion_annotation x)); simpl; try done;
          by rewrite lookup_insert_ne.
  - rewrite add_sync_status_other by done. assert (state_label k <> n) as Hne.
    { intros <-. unfold state_label in P. by rewrite HasPrefix_app in P. }
    pose proof (elem_of_cons l (state_label k) n). split; [tauto|].
    destruct (decide (state_label k ∈ l)), (decide (state_label k ∈ n :: l)); try tauto.
Qed.

Lemma elem_of_labels (m : gomap) k :
  state_label k ∈ (map_range (entries m)).*1 <-> is_Some (map_get m (state_label k)).
Proof.
  rewrite list_elem_of_fmap. split.
  - intros [[k' v] [-> Hv]]. apply elem_of_map_range in Hv. eauto.
  - intros [v Hv]. exists (state_label k, v). by rewrite elem_of_map_range.
Qed.

Lemma active_spec ns k :
  k ∈ active (syncStatusFor ns) <->
  is_Some (label_of (r_Meta ns) k) /\ removal_of (r_Meta ns) k = None.
Proof.
  unfold syncStatusFor. rewrite (proj1 (sync_status_loop _ _ _ k (NoDup_map_range _))).
  rewrite elem_of_labels. simpl. set_solver.
Qed.

Lemma pendingRemoval_spec ns k :
  pendingRemoval (syncStatusFor ns) !! k =
    match label_of (r_Meta ns) k with
    | Some _ => Parse_or_zero <$> removal_of (r_Meta ns) k
    | None => None
    end.
Proof.
  unfold syncStatusFor. rewrite (proj2 (sync_status_loop _ _ _ k (NoDup_map_range _))).
  pose proof (elem_of_labels (Labels (r_Meta ns)) k) as Hk.
  unfold label_of, removal_of. destruct (decide _) as [H|H].
  - apply Hk in H as [v ->]. by destruct (map_get (Annotations _) _).
  - destruct (map_get (Labels _) _); [|done]. destruct H. by apply Hk.
Qed.

(** ** The three loops *)

Lemma mark_removing_nil S l b :
  mark_removing c S l None b =
    if forallb (fun k => bool_decide (k ∈ S)) l then Ok (None, b)
    else Panic "assignment to entry in nil map".
Proof.
  revert b. induction l as [|k l IH]; intros b; simpl; [done|].
  case_decide; [by rewrite bool_decide_true|by rewrite bool_decide_false].
Qed.

Lemma mark_removing_some S l m b :
  exists m', mark_removing c S l (Some m) b =
    Ok (Some m', b || existsb (fun k => negb (bool_decide (k ∈ S))) l) /\
    m' = insert_all deletion_annotation
           (fun k => if decide (k ∈ S) then None
                     else Some (Format_RFC3339 0 (now_mark c k))) m l.
Proof.
  revert m b. induction l as [|k l IH]; intros m b; simpl.
  { exists m. by rewrite orb_false_r. }
  unfold insert_all; simpl. case_decide as Hk.
  - rewrite bool_decide_true by done. apply IH.
  - rewrite bool_decide_false by done. simpl. rewrite orb_true_r.
    destruct (IH (<[InternalClusterDeletionTimestampAnnotationPrefix +:+ k :=
      Format_RFC3339 0 (now_mark c k)]> m) true) as (m' & E & Hm). exists m'. rewrite E. split; [done|exact Hm].
Qed.

(** Whether a removal is over its grace period. *)
Definition expired (k : string) (t : Time) : bool :=
  t + removingGracePeriod <? now_grace c k.
Definition delete_all (key : string -> string) (m : gomap) (l : list (string * Time)) : gomap :=
  foldl (fun m kv => if expired kv.1 kv.2 then map_delete m (key kv.1) else m) m l.
(** The time left of the removals that are not over. *)
Definition remaining (kv : string * Time) : option Z :=
  if expired kv.1 kv.2 then None
  else Some (Sub (kv.2 + removingGracePeriod) (now_until c kv.1)).
Definition earliest (d : Z) (l : list (string * Time)) : Z :=
  foldl (fun d kv => match remaining kv with Some e => Z.min e d | None => d end) d l.

Lemma remove_expired_loop l labels annotations b d :
  foldl (remove_expired c) (labels, annotations, b, d) l =
    (delete_all state_label labels l, delete_all deletion_annotation annotations l,
     b || existsb (fun kv => expired kv.1 kv.2) l, earliest d l).
Proof.
  unfold delete_all, earliest.
  revert labels annotations b d. induction l as [|[k t] l IH]; intros la an b d; simpl.
  { by rewrite orb_false_r. }
  unfold remaining; simpl. change (t + _ <? _) with (expired k t).
  destruct (expired k t); rewrite IH; simpl; [|done].
  by rewrite orb_true_r.
Qed.

Lemma delete_all_get key `{!Inj (=) (=) key} m l x :
  map_get (delete_all key m l) (key x) =
    if existsb (fun kv => bool_decide (kv.1 = x) && expired kv.1 kv.2) l then None
    else map_get m (key x).
Proof.
  unfold delete_all. revert m. induction l as [|[k t] l IH]; intros m; simpl; [done|].
  rewrite IH. destruct (existsb _ l); [by rewrite orb_true_r|]. rewrite orb_false_r.
  destruct (expired k t); [|by rewrite andb_false_r].
  rewrite andb_true_r, map_get_delete. destruct (decide (k = x)) as [->|Hne].
  - by rewrite bool_decide_true, decide_True by done.
  - rewrite bool_decide_false, decide_False; try done. by intros ?%(inj key).
Qed.

Lemma delete_all_other key m l x :
  (forall k, x <> key k) -> map_get (delete_all key m l) x = map_get m x.
Proof.
  intros Hx. unfold delete_all. revert m. induction l as [|[k t] l IH]; intros m; simpl; [done|].
  rewrite IH. destruct (expired k t); [|done]. rewrite map_get_delete.
  rewrite decide_False; [done|]. intros E. by apply (Hx k).
Qed.

Lemma delete_all_none key m l :
  existsb (fun kv => expired kv.1 kv.2) l = false -> delete_all key m l = m.
Proof.
  unfold delete_all. revert m. induction l as [|[k t] l IH]; intros m; simpl; [done|].
  intros [-> Hl]%orb_false_iff. by apply IH.
Qed.

(** Whether a SyncTarget still has to be labelled. *)
Definition missing (st : namespaceSyncStatus) (k : string) : bool :=
  negb (bool_decide (k ∈ active st)) &&
  (if pendingRemoval st !! k is Some _ then false else true).

Lemma add_missing_loop st l labels b :
  foldl (add_missing st) (labels, b) l =
    (if existsb (missing st) l
     then Some (insert_all state_label
            (fun k => if missing st k then Some ResourceStateSync else None)
            (entries labels) l)
     else labels, b || existsb (missing st) l).
Proof.
  assert (forall k, missing st k = (if decide (k ∈ active st) then false else
    if pendingRemoval st !! k is Some _ then false else true)) as Hm.
  { intros k. unfold missing. case_bool_decide; simpl; by case_decide. }
  revert labels b. induction l as [|k l IH]; intros labels b; simpl.
  { by rewrite orb_false_r. }
  unfold insert_all in *. simpl. rewrite (Hm k).
  destruct (decide (k ∈ active st)) as [Hk|Hk]; simpl; [apply IH|].
  destruct (pendingRemoval st !! k) eqn:Ek; simpl; [apply IH|].
  rewrite IH, orb_true_r. f_equal.
  destruct (existsb (missing st) l) eqn:E; simpl; [done|].
  f_equal. clear -E. revert E. set (m := <[_ := _]> _). clearbody m. revert m.
  induction l as [|x l IH]; intros m; simpl; [done|].
  intros [-> E]%orb_false_iff. by apply IH.
Qed.

End lemmas.

Section scheduling_lemmas.
Context {MO : MapOrder} {EL : ErrorLib} {LL : LabelLib} {CL : ClusterLib} {CO : ConditionLib}.
Variable c : controller.

Definition unscheduled (S : gset string) (k : string) : bool := negb (bool_decide (k ∈ S)).
Definition mark (S : gset string) (k : string) : option string :=
  if decide (k ∈ S) then None else Some (Format_RFC3339 0 (now_mark c k)).

Lemma mark_removing_spec S l a b a' b' :
  mark_removing c S l a b = Ok (a', b') ->
  b' = b || existsb (unscheduled S) l /\
  entries a' = insert_all deletion_annotation (mark S) (entries a) l /\
  (existsb (unscheduled S) l = false -> a' = a).
Proof.
  destruct a as [m|].
  - destruct (mark_removing_some c S l m b) as (m' & -> & Hm). intros [= <- <-].
    split; [done|]. split; [exact Hm|]. intros E. rewrite Hm. f_equal. clear -E.
    unfold insert_all. revert m. induction l as [|k l IH]; intros m; simpl in *; [done|].
    apply orb_false_iff in E as [Ek E]. rewrite decide_True; [by apply IH|].
    by apply negb_false_iff, bool_decide_eq_true in Ek.
  - rewrite mark_removing_nil. destruct (forallb _ l) eqn:E; [|done]. intros [= <- <-].
    assert (existsb (unscheduled S) l = false) as ->.
    { clear -E. induction l as [|k l IH]; simpl in *; [done|].
      apply andb_prop in E as [Ek E]. unfold unscheduled. rewrite Ek. simpl. by apply IH. }
    rewrite orb_false_r. split; [done|]. split; [|done].
    unfold insert_all, entries; simpl. set (m := ∅). clearbody m.
    revert m. induction l as [|k l IH]; intros m; simpl in *; [done|].
    apply andb_prop in E as [Ek%bool_decide_eq_true E].
    unfold mark at 2. rewrite decide_True by done. by apply IH.
Qed.

(** A pass as one composition of the three loops. *)
Lemma reconcileScheduling_inv ns ns' r :
  reconcileScheduling c ns = Ok (ns', r) ->
  exists S annotations,
    let status := syncStatusFor ns in
    let pending := map_range (pendingRemoval status) in
    let labels := delete_all c state_label (Labels (r_Meta ns)) pending in
    let b1 := existsb (unscheduled S) (set_range (active status)) in
    let b2 := existsb (fun kv => expired c kv.1 kv.2) pending in
    let b3 := existsb (missing status) (set_range S) in
    scheduledSyncTargets c ns = inr S /\
    entries annotations = insert_all deletion_annotation (mark S)
      (entries (Annotations (r_Meta ns))) (set_range (active status)) /\
    (b1 = false -> annotations = Annotations (r_Meta ns)) /\
    ns' = with_meta ns (with_annotations
      (with_labels (r_Meta ns)
        (if b3 then Some (insert_all state_label
             (fun k => if missing status k then Some ResourceStateSync else None)
             (entries labels) (set_range S))
         else labels))
      (delete_all c deletion_annotation annotations pending)) /\
    stop r = b1 || b2 || b3 /\
    requeueAfter r =
      (let d := earliest c (removingGracePeriod + 1) pending in
       if d <=? removingGracePeriod then d else 0).
Proof.
  unfold reconcileScheduling.
  destruct (scheduledSyncTargets c ns) as [e|S]; simpl; [done|].
  destruct (mark_removing _ _ _ _ _) as [[a b]|e|e] eqn:E; simpl; try done.
  apply mark_removing_spec in E as (-> & Ha & Hn).
  rewrite remove_expired_loop, add_missing_loop. intros [= <- <-].
  exists S, a. cbv zeta. by split_and!.
Qed.

(** The state of one SyncTarget after the pass. *)
Definition next_label (S : gset string) (m : ObjectMeta) (k : string) : option string :=
  match label_of m k, removal_of m k with
  | Some v, None => Some v
  | Some v, Some a => if expired c k (Parse_or_zero a) then None else Some v
  | None, _ => if decide (k ∈ S) then Some ResourceStateSync else None
  end.
Definition next_removal (S : gset string) (m : ObjectMeta) (k : string) : option string :=
  match label_of m k, removal_of m k with
  | Some _, None =>
      if decide (k ∈ S) then None else Some (Format_RFC3339 0 (now_mark c k))
  | Some _, Some a => if expired c k (Parse_or_zero a) then None else Some a
  | None, r => r
  end.

Lemma delete_pending key `{!Inj (=) (=) key} m ns k :
  map_get (delete_all c key m (map_range (pendingRemoval (syncStatusFor ns)))) (key k) =
    match label_of (r_Meta ns) k, removal_of (r_Meta ns) k with
    | Some _, Some a => if expired c k (Parse_or_zero a) then None else map_get m (key k)
    | _, _ => map_get m (key k)
    end.
Proof.
  rewrite delete_all_get by done. rewrite existsb_map_range, pendingRemoval_spec.
  by destruct (label_of (r_Meta ns) k), (removal_of (r_Meta ns) k).
Qed.

Lemma missing_spec ns k :
  missing (syncStatusFor ns) k =
    match label_of (r_Meta ns) k with Some _ => false | None => true end.
Proof.
  unfold missing. rewrite pendingRemoval_spec. pose proof (active_spec ns k) as Ha.
  destruct (label_of (r_Meta ns) k), (removal_of (r_Meta ns) k); simpl;
    case_bool_decide as E; try done; exfalso;
    (apply Ha in E as [[? ?] ?]; done) || (destruct E; apply Ha; eauto).
Qed.

Lemma pass_lookup ns ns' r S :
  reconcileScheduling c ns = Ok (ns', r) -> scheduledSyncTargets c ns = inr S ->
  forall k, label_of (r_Meta ns') k = next_label S (r_Meta ns) k /\
    removal_of (r_Meta ns') k = next_removal S (r_Meta ns) k.
Proof.
  intros H HS k. apply reconcileScheduling_inv in H as (S' & a & HS' & Ha & _ & -> & _).
  rewrite HS in HS'. injection HS' as <-. split.
  - unfold label_of at 1, next_label; simpl.
    set (b := existsb (missing (syncStatusFor ns)) (set_range S)).
    assert (forall l : gomap, map_get (if b then Some (insert_all state_label
      (fun k => if missing (syncStatusFor ns) k then Some ResourceStateSync else None)
      (entries l) (set_range S)) else l) (state_label k) =
      if decide (k ∈ S) then if missing (syncStatusFor ns) k then Some ResourceStateSync
        else map_get l (state_label k) else map_get l (state_label k)) as ->.
    { intros l. destruct b eqn:Eb; unfold map_get; simpl.
      - rewrite insert_all_set_range by apply _. case_decide; [|done].
        by destruct (missing _ _).
      - case_decide as Hk; [|done]. destruct (missing (syncStatusFor ns) k) eqn:Em; [|done].
        assert (b = true) as Et; [|by rewrite Et in Eb].
        apply existsb_exists. exists k. split; [|done].
        by apply list_elem_of_In, elem_of_set_range. }
    rewrite delete_pending by apply _. rewrite missing_spec.
    change (map_get (Labels (r_Meta ns)) (state_label k)) with (label_of (r_Meta ns) k).
    destruct (label_of (r_Meta ns) k), (removal_of (r_Meta ns) k); by case_decide.
  - unfold removal_of at 1, next_removal; simpl. rewrite delete_pending by apply _.
    unfold map_get. rewrite Ha, insert_all_set_range by apply _.
    pose proof (active_spec ns k) as Hk. unfold mark.
    change (entries (Annotations (r_Meta ns)) !! deletion_annotation k)
      with (removal_of (r_Meta ns) k).
    destruct (label_of (r_Meta ns) k), (removal_of (r_Meta ns) k), (decide (k ∈ active _)) as [E|E]; try done;
      try (apply Hk in E as [[? ?] ?]; done).
    + by case_decide.
    + destruct E. apply Hk. eauto.
Qed.

Lemma pass_other ns ns' r k :
  reconcileScheduling c ns = Ok (ns', r) ->
  ((forall x, k <> state_label x) ->
     map_get (Labels (r_Meta ns')) k = map_get (Labels (r_Meta ns)) k) /\
  ((forall x, k <> deletion_annotation x) ->
     map_get (Annotations (r_Meta ns')) k = map_get (Annotations (r_Meta ns)) k).
Proof.
  intros H. apply reconcileScheduling_inv in H as (S & a & _ & Ha & _ & -> & _).
  split; intros Hk; simpl.
  - destruct (existsb _ (set_range S)); [|by apply delete_all_other].
    unfold map_get; simpl. rewrite insert_all_other by done. by apply delete_all_other.
  - rewrite delete_all_other by done. unfold map_get.
    by rewrite Ha, insert_all_other.
Qed.

Lemma pass_quiet ns ns' r :
  reconcileScheduling c ns = Ok (ns', r) ->
  r_Spec ns' = r_Spec ns /\ r_Status ns' = r_Status ns /\ (stop r = false -> ns' = ns).
Proof.
  intros H. apply reconcileScheduling_inv in H as (S & a & _ & Ha & Hn & -> & -> & _).
  split; [done|]. split; [done|].
  intros [[E1 E2]%orb_false_iff E3]%orb_false_iff. rewrite E3.
  rewrite (Hn E1), !delete_all_none by done. by destruct ns as [[] ? ?].
Qed.

End scheduling_lemmas.

(** * The scheduler's theorems *)

Section theorems.
Context {MO : MapOrder} {EL : ErrorLib} {LL : LabelLib} {CL : ClusterLib} {CO : ConditionLib}.

(** One scheduling pass over a namespace: each SyncTarget's state label and
    deletion annotation evolve as [next_label] and [next_removal] say (mark
    what is no longer scheduled, drop what is marked for longer than the grace
    period, label what is missing), nothing else of the object changes, and the
    pass stops the chain exactly when it changed some SyncTarget's state. *)
Theorem reconcileScheduling_spec c ns ns' r S :
  reconcileScheduling c ns = Ok (ns', r) ->
  scheduledSyncTargets c ns = inr S ->
  (forall k, label_of (r_Meta ns') k = next_label c S (r_Meta ns) k /\
             removal_of (r_Meta ns') k = next_removal c S (r_Meta ns) k) /\
  (forall k, (forall x, k <> state_label x) ->
     map_get (Labels (r_Meta ns')) k = map_get (Labels (r_Meta ns)) k) /\
  (forall k, (forall x, k <> deletion_annotation x) ->
     map_get (Annotations (r_Meta ns')) k = map_get (Annotations (r_Meta ns)) k) /\
  r_Spec ns' = r_Spec ns /\ r_Status ns' = r_Status ns /\
  (stop r = true <-> exists k,
     label_of (r_Meta ns') k <> label_of (r_Meta ns) k \/
     removal_of (r_Meta ns') k <> removal_of (r_Meta ns) k).
Proof.
  intros H HS. pose proof (pass_lookup c ns ns' r S H HS) as Hk.
  destruct (pass_quiet c ns ns' r H) as (Hsp & Hst & Hq).
  split; [exact Hk|]. split; [intros k; apply (pass_other c _ _ _ k H)|].
  split; [intros k; apply (pass_other c _ _ _ k H)|]. split; [done|]. split; [done|].
  split.
  - apply reconcileScheduling_inv in H as (S' & a & HS' & _ & _ & _ & -> & _).
    rewrite HS in HS'. injection HS' as <-. intros [[E|E]%orb_prop|E]%orb_prop;
      apply existsb_exists in E as (x & Hin%list_elem_of_In & Hx).
    + apply elem_of_set_range, active_spec in Hin as [[v Hv] Hr]. exists x. right.
      rewrite (proj2 (Hk x)). unfold next_removal. rewrite Hv, Hr.
      unfold unscheduled in Hx. apply negb_true_iff, bool_decide_eq_false in Hx.
      by rewrite decide_False.
    + destruct x as [x t]. apply elem_of_map_range in Hin. rewrite pendingRemoval_spec in Hin.
      exists x. left. rewrite (proj1 (Hk x)). unfold next_label.
      destruct (label_of (r_Meta ns) x), (removal_of (r_Meta ns) x); simplify_eq/=.
      by rewrite Hx.
    + apply elem_of_set_range in Hin. rewrite missing_spec in Hx. exists x. left.
      rewrite (proj1 (Hk x)). unfold next_label. destruct (label_of (r_Meta ns) x); [done|].
      by rewrite decide_True.
  - intros [k Hne]. destruct (stop r) eqn:E; [done|]. rewrite Hq in Hne by done. by destruct Hne.
Qed.

(** A pass over a namespace panics exactly when its annotations are nil and
    it carries a state label: the deletion mark is then written to a nil map. *)
Theorem reconcileScheduling_panics c ns :
  is_panic (reconcileScheduling c ns) = true <->
  Annotations (r_Meta ns) = None /\ exists k, is_Some (label_of (r_Meta ns) k).
Proof.
  unfold reconcileScheduling, scheduledSyncTargets.
  destruct (Annotations (r_Meta ns)) as [m|] eqn:A.
  - split; [|by intros []]. intros H. exfalso. revert H.
    destruct (map_get (Some m) _) as [p|]; [destruct (listPlacements c _) as [e|ps]|]; simpl;
      try done;
      match goal with |- context [mark_removing c ?S ?l (Some m) false] =>
        destruct (mark_removing_some c S l m false) as (m' & -> & _) end; simpl;
      by rewrite remove_expired_loop, add_missing_loop.
  - assert (map_get None PlacementAnnotationKey = None) as -> by apply lookup_empty.
    simpl. rewrite mark_removing_nil. split.
    + destruct (forallb _ _) eqn:E; simpl.
      { by rewrite remove_expired_loop, add_missing_loop. }
      intros _. split; [done|]. apply not_true_iff_false in E.
      destruct (set_range (active (syncStatusFor ns))) as [|k l] eqn:L; [done|].
      exists k. apply (active_spec ns). apply elem_of_set_range. rewrite L.
      apply list_elem_of_here.
    + intros [_ [k Hk]]. assert (k ∈ set_range (active (syncStatusFor ns))) as Hin.
      { apply elem_of_set_range, active_spec. split; [done|].
        unfold removal_of. rewrite A. apply lookup_empty. }
      destruct (forallb _ _) eqn:E; [|done]. rewrite forallb_forall in E.
      specialize (E k (proj1 (list_elem_of_In _ _) Hin)).
      by apply bool_decide_eq_true, not_elem_of_empty in E.
Qed.

Lemma earliest_le c d l :
  earliest c d l <= d /\ forall kv e, kv ∈ l -> remaining c kv = Some e -> earliest c d l <= e.
Proof.
  unfold earliest. revert d. induction l as [|kv l IH]; intros d; simpl.
  { split; [lia|]. intros ?? []%not_elem_of_nil. }
  destruct (IH (match remaining c kv with Some e => Z.min e d | None => d end)) as [H1 H2].
  split; [destruct (remaining c kv); lia|]. intros kv' e [->|Hin]%elem_of_cons He; [|eauto].
  rewrite He in *. lia.
Qed.

Lemma earliest_in c d l :
  earliest c d l = d \/ exists kv, kv ∈ l /\ remaining c kv = Some (earliest c d l).
Proof.
  unfold earliest. revert d. induction l as [|kv l IH]; intros d; simpl; [by left|].
  destruct (IH (match remaining c kv with Some e => Z.min e d | None => d end))
    as [E|(kv' & Hin & E)]; [|right; exists kv'; split; [by apply list_elem_of_further|done]].
  rewrite E. destruct (remaining c kv) as [e|] eqn:R; [|by left].
  destruct (Z.min_spec e d) as [[? ->]|[? ->]]; [|by left].
  right. exists kv. split; [apply list_elem_of_here|done].
Qed.

(** Waking up for a removal: when each time left is positive, the pass asks
    to be called again no later than the earliest removal falls due; but a
    removal whose time left is read as zero or less, although it was not yet
    over when tested, cancels the request (and the removal then waits for an
    unrelated event). *)
Theorem reconcileScheduling_requeue c ns ns' r k a d :
  reconcileScheduling c ns = Ok (ns', r) ->
  is_Some (label_of (r_Meta ns) k) -> removal_of (r_Meta ns) k = Some a ->
  remaining c (k, Parse_or_zero a) = Some d ->
  ((forall k' a' d', is_Some (label_of (r_Meta ns) k') ->
      removal_of (r_Meta ns) k' = Some a' ->
      remaining c (k', Parse_or_zero a') = Some d' -> 0 < d') ->
   d <= removingGracePeriod ->
     0 < requeueAfter r <= d) /\
  (d <= 0 -> requeueAfter r <= 0).
Proof.
  intros H [v Hv] Ha Hd.
  apply reconcileScheduling_inv in H as (S & an & _ & _ & _ & _ & _ & ->). cbv zeta.
  set (l := map_range (pendingRemoval (syncStatusFor ns))).
  assert ((k, Parse_or_zero a) ∈ l) as Hin.
  { apply elem_of_map_range. by rewrite pendingRemoval_spec, Hv, Ha. }
  destruct (earliest_le c (removingGracePeriod + 1) l) as [_ Hle].
  specialize (Hle _ _ Hin Hd).
  pose proof (earliest_in c (removingGracePeriod + 1) l) as Hor.
  set (e := earliest c (removingGracePeriod + 1) l) in *. clearbody e.
  split.
  - intros Hpos Hg. rewrite (proj2 (Z.leb_le e removingGracePeriod)) by lia.
    split; [|lia]. destruct Hor as [->|([k' t'] & Hk' & Hkv)]; [unfold removingGracePeriod, Second; lia|].
    apply elem_of_map_range in Hk'. rewrite pendingRemoval_spec in Hk'.
    destruct (label_of (r_Meta ns) k') eqn:El, (removal_of (r_Meta ns) k') as [a'|] eqn:Er;
      simplify_eq/=.
    apply (Hpos k' a'); eauto.
  - intros Hd0. destruct (e <=? removingGracePeriod); lia.
Qed.

(** C31: two-phase removal converges.  With the same scheduled SyncTargets [S],
    once the marks already present are over the grace period and the marks of
    the first pass are too at the second, three passes leave exactly the
    SyncTargets of [S] labelled, none of them marked for removal. *)
Theorem scheduling_converges c1 c2 c3 S ns ns1 ns2 ns3 r1 r2 r3 :
  reconcileScheduling c1 ns = Ok (ns1, r1) -> scheduledSyncTargets c1 ns = inr S ->
  reconcileScheduling c2 ns1 = Ok (ns2, r2) -> scheduledSyncTargets c2 ns1 = inr S ->
  reconcileScheduling c3 ns2 = Ok (ns3, r3) -> scheduledSyncTargets c3 ns2 = inr S ->
  (forall k a, removal_of (r_Meta ns) k = Some a ->
     expired c1 k (Parse_or_zero a) = true /\ expired c2 k (Parse_or_zero a) = true) ->
  (forall k, 0 <= local_year 0 (now_mark c1 k) < 10000 /\
     now_mark c1 k + removingGracePeriod < now_grace c2 k) ->
  forall k, (is_Some (label_of (r_Meta ns3) k) <-> k ∈ S) /\
    (k ∈ S -> removal_of (r_Meta ns3) k = None).
Proof.
  intros H1 S1 H2 S2 H3 S3 Hold Hnew k.
  destruct (pass_lookup _ _ _ _ _ H1 S1 k) as [L1 R1].
  destruct (pass_lookup _ _ _ _ _ H2 S2 k) as [L2 R2].
  destruct (pass_lookup _ _ _ _ _ H3 S3 k) as [L3 R3].
  assert (expired c2 k (Parse_or_zero (Format_RFC3339 0 (now_mark c1 k))) = true) as Hm.
  { destruct (Hnew k) as [Hy Hlt]. unfold Parse_or_zero.
    rewrite Parse_Format by (done || (split; [done|lia])). simpl.
    unfold expired. apply Z.ltb_lt. unfold Second. divlia. }
  specialize (Hold k). unfold next_label, next_removal in *.
  destruct (label_of (r_Meta ns) k), (removal_of (r_Meta ns) k) as [a|];
    try (destruct (Hold a eq_refl) as [E1 E2]); try rewrite E1 in L1, R1;
    destruct (decide (k ∈ S)); rewrite L1 in L2, R2;
    try rewrite R1 in L2; try rewrite R1 in R2;
    try rewrite E2 in L2, R2; try rewrite Hm in L2, R2; rewrite L2 in L3, R3;
    try rewrite R2 in L3; try rewrite R2 in R3;
    rewrite L3, R3; split; try done; split; try done; eauto; by intros [? ?].
Qed.

Lemma reconcilePlacementBind_inv c ns ns' r :
  reconcilePlacementBind c ns = Ok (ns', r) ->
  r_Status ns' = r_Status ns /\ (stop r = false -> ns' = ns).
Proof.
  unfold reconcilePlacementBind. destruct (validPlacements _ _ _) as [e|v]; simpl; [done|].
  destruct (negb _), (map_get _ _); simpl; by intros [= <- <-].
Qed.

Definition requeue_events (key : string) (r : reconcileResult) : list event :=
  if 0 <? requeueAfter r then [EvAddAfter key (requeueAfter r)] else [].
Lemma reconcile_loop_cons key r rs ns h :
  reconcile_loop key (r :: rs) ns h =
    match r ns with
    | Panic s => (h, Panic s)
    | Err e => (h, Ok (ns, Some e))
    | Ok (ns1, res) =>
        if stop res then (h, Ok (ns1, None))
        else reconcile_loop key rs ns1 (h ++ requeue_events key res)
    end.
Proof.
  simpl. destruct (r ns) as [[ns1 res]|e|s]; [|done|done].
  destruct (stop res); [done|]. unfold requeue_events.
  destruct (0 <? requeueAfter res); unfold mbind, M_bind; simpl; [done|].
  by rewrite app_nil_r.
Qed.

(** The chain of reconcilers keeps the committer's contract: whatever the
    placements, one pass over a namespace never changes both its status and its
    labels or annotations, so that committing it cannot panic. *)
Theorem reconcile_one_sided c key ns h h' ns' err :
  reconcile c key ns h = (h', Ok (ns', err)) -> one_sided ns ns'.
Proof.
  unfold reconcile. rewrite reconcile_loop_cons.
  destruct (reconcilePlacementBind c ns) as [[ns1 r1]|e|s] eqn:E1;
    [|intros [= _ <- _]; by apply one_sided_meta|done].
  apply reconcilePlacementBind_inv in E1 as [Es1 Eq1].
  destruct (stop r1); [intros [= _ <- _]; by apply one_sided_meta|].
  rewrite Eq1 by done. rewrite reconcile_loop_cons.
  destruct (reconcileScheduling c ns) as [[ns2 r2]|e|s] eqn:E2;
    [|intros [= _ <- _]; by apply one_sided_meta|done].
  apply pass_quiet in E2 as (_ & Es2 & Eq2).
  destruct (stop r2); [intros [= _ <- _]; by apply one_sided_meta|].
  rewrite Eq2 by done. rewrite reconcile_loop_cons.
  unfold reconcileStatus. destruct (map_get _ _) as [p|]; [case_decide|]; simpl;
    intros [= _ <- _]; by apply one_sided_status.
Qed.

End theorems.

(** * Concrete instances *)

Module Examples.
#[local] Existing Instance canonical_order.
#[local] Existing Instance simple_errors.
#[local] Existing Instance simple_labels.
#[local] Existing Instance simple_clusters.
#[local] Existing Instance simple_conditions.

(** One bound placement that selects every namespace and chose [k2]. *)
Definition placement : Placement := {|
  p_Meta := mk_meta "p" "" None (Some {[ InternalSyncTargetPlacementAnnotationKey := "k2" ]}) [];
  p_Spec := {| LocationSelectors := [];
    LocationResource := {| gvr_Group := ""; gvr_Version := ""; gvr_Resource := "" |};
    NamespaceSelector := Some {| MatchLabels := None; MatchExpressions := [] |};
    LocationWorkspace := "" |};
  p_Status := {| p_Phase := PlacementBound; p_SelectedLocation := None; p_Conditions := [] |} |}.

Definition at_time (ps : list Placement) (t : Time) : controller := {|
  listNamespaces _ := inr [];
  getNamespace _ _ := inl (ErrLib "NotFound" "");
  listPlacements _ := inr ps;
  now_mark _ := t; now_grace _ := t; now_until _ := t;
  Marshal _ := inr ""; CreateMergePatch _ _ := inr "patch";
  DoPatch _ := inr tt |}.
Definition c1 := at_time [placement] (1000 * Second).
Definition c2 := at_time [placement] (1010 * Second).
Definition c3 := at_time [placement] (1020 * Second).

Definition namespace (l a : gomap) : Namespace :=
  mkResource (mk_meta "ns" "" l a []) [] {| ns_Phase := "Active"; ns_Conditions := [] |}.
(** On [k1], which no placement chooses any more. *)
Definition ns0 : Namespace :=
  namespace (Some {[ state_label "k1" := "Sync" ]}) (Some {[ PlacementAnnotationKey := "" ]}).
Definition pass (c : controller) (ns : Namespace) : Namespace :=
  match reconcileScheduling c ns with Ok (ns', _) => ns' | _ => ns end.

Lemma scheduling_spec_witness :
  removal_of (r_Meta (pass c1 ns0)) "k1" = Some "1970-01-01T00:16:40Z".
Proof.
  eassert (reconcileScheduling c1 ns0 = Ok (pass c1 ns0, _)) as H
    by (vm_compute; reflexivity).
  eassert (scheduledSyncTargets c1 ns0 = inr _) as HS by (vm_compute; reflexivity).
  rewrite (proj2 (proj1 (reconcileScheduling_spec c1 ns0 _ _ _ H HS) "k1")).
  by vm_compute.
Defined.

Lemma converges_witness :
  (is_Some (label_of (r_Meta (pass c3 (pass c2 (pass c1 ns0)))) "k2")) /\
  ~ is_Some (label_of (r_Meta (pass c3 (pass c2 (pass c1 ns0)))) "k1").
Proof.
  assert (forall k, (is_Some (label_of (r_Meta (pass c3 (pass c2 (pass c1 ns0)))) k) <->
      k ∈ ({["k2"]} : gset string)) /\
    (k ∈ ({["k2"]} : gset string) ->
      removal_of (r_Meta (pass c3 (pass c2 (pass c1 ns0)))) k = None)) as H.
  { refine (scheduling_converges c1 c2 c3 {["k2"]} ns0 (pass c1 ns0) (pass c2 (pass c1 ns0))
      (pass c3 (pass c2 (pass c1 ns0))) {| stop := true; requeueAfter := 0 |}
      {| stop := true; requeueAfter := 0 |} {| stop := false; requeueAfter := 0 |}
      _ _ _ _ _ _ _ _).
    1-6: vm_compute; reflexivity.
    - intros k a Ha. exfalso. revert Ha. unfold removal_of, map_get; simpl.
      rewrite lookup_singleton_ne; [done|].
      intros E%(f_equal (String.get 0)). vm_compute in E. discriminate.
    - intros k. split; [vm_compute; split; [discriminate|reflexivity]|vm_compute; reflexivity]. }
  split.
  - apply (H "k2"). by apply elem_of_singleton.
  - intros E. apply (H "k1"), elem_of_singleton in E. done.
Defined.

(** Marked at second 996: four seconds are left at most. *)
Definition marked : Namespace :=
  namespace (Some {[ state_label "k1" := "Sync" ]})
    (Some {[ deletion_annotation "k1" := "1970-01-01T00:16:37Z" ]}).
Lemma requeue_witness :
  exists ns' r, reconcileScheduling c1 marked = Ok (ns', r) /\
    0 < requeueAfter r <= 2 * Second.
Proof.
  eexists _, _. assert (reconcileScheduling c1 marked = Ok (pass c1 marked,
    {| stop := false; requeueAfter := 2 * Second |})) as H by (vm_compute; reflexivity).
  split; [exact H|].
  destruct (reconcileScheduling_requeue c1 marked _ _ "k1" "1970-01-01T00:16:37Z" (2 * Second) H)
    as [Hpos _]; try (vm_compute; eauto; fail).
  apply Hpos; [|vm_compute; discriminate]. intros k' a' d' _ Ha' Hd'.
  unfold removal_of, map_get in Ha'. simpl in Ha'.
  apply lookup_singleton_Some in Ha' as [E <-].
  apply (inj deletion_annotation) in E as <-. vm_compute in Hd'. by injection Hd' as <-.
Defined.

Lemma one_sided_witness :
  exists h' ns', reconcile c1 "key" ns0 [] = (h', Ok (ns', None)) /\ one_sided ns0 ns'.
Proof.
  eexists [], _. assert (reconcile c1 "key" ns0 [] = ([], Ok (pass c1 ns0, None))) as H
    by (vm_compute; reflexivity).
  split; [exact H|]. exact (reconcile_one_sided c1 "key" ns0 [] [] _ None H).
Defined.

(** A namespace without annotations that lost its placement stops the controller. *)
Example reconcile_nil_annotations :
  is_panic (outcome (reconcile (at_time [] 0) "key"
    (namespace (Some {[ state_label "k1" := "Sync" ]}) None))) = true.
Proof. vm_compute. reflexivity. Qed.
End Examples.
