(* ===== verification/Location.v ===== *)
(** * The location controller ([pkg/reconciler/scheduling/location])

    Keeps a Location's label string annotation and counts its SyncTargets; the
    selection and filtering helpers are also used by the workload placement
    controller. *)

From S2P Require Import Prelude Platform ApiTypes Committer Workqueue.

(** ** [workloadcluster_helpers.go] *)

Section helpers.
Context {LL : LabelLib} {CO : ConditionLib}.

Definition LocationSyncTargets (syncTargets : list SyncTarget) (location : Location)
    : result (list SyncTarget) :=
  match LabelSelectorAsSelector (l_InstanceSelector (l_Spec location)) with
  | inl err => inl (ErrWrap "failed to parse label selector" err)
  | inr sel =>
      inr (filter (fun wc => sel (entries (Labels (st_Meta wc))) = true) syncTargets)
  end.

Definition is_ready (wc : SyncTarget) : bool :=
  IsTrue (st_Conditions (st_Status wc)) ReadyCondition && negb (Unschedulable (st_Spec wc)).
Definition FilterReady (syncTargets : list SyncTarget) : list SyncTarget :=
  filter (fun wc => is_ready wc = true) syncTargets.

(** [now] is read once. *)
Definition not_evicting (now : Time) (wc : SyncTarget) : bool :=
  match EvictAfter (st_Spec wc) with None => true | Some t => (now <? t)%Z end.
Definition FilterNonEvicting (now : Time) (syncTargets : list SyncTarget) : list SyncTarget :=
  filter (fun wc => not_evicting now wc = true) syncTargets.
End helpers.

(** ** [location_reconcile.go] *)

Inductive reconcileStatus := reconcileStatusStop | reconcileStatusContinue.

Inductive location_call := UpdateLocation (cluster : string) (location : Location).
Abbreviation event := (event location_call) (only parsing).
Abbreviation LM := (M event) (only parsing).

Record controller := {
  listSyncTargets : string -> result (list SyncTarget);
  listLocations : string -> result (list Location);
  getLocation : string -> string -> result Location;
  DoUpdate : list event -> result Location;
  Marshal : Resource LocationSpec LocationStatus -> result string;
  CreateMergePatch : string -> string -> result string;
  DoPatch : list event -> result unit;
}.

Definition set_l_meta (l : Location) (m : ObjectMeta) : Location :=
  {| l_Meta := m; l_Spec := l_Spec l; l_Status := l_Status l |}.
Definition set_l_status (l : Location) (s : LocationStatus) : Location :=
  {| l_Meta := l_Meta l; l_Spec := l_Spec l; l_Status := s |}.

(** [uint32(n)] of an [int]. *)
Definition uint32 (n : nat) : Z := Z.of_nat n mod 2 ^ 32.

Section reconcile.
Context {MO : MapOrder} {EL : ErrorLib} {LL : LabelLib} {CL : ClusterLib} {CO : ConditionLib}.
Context {EqSp : DeepEq LocationSpec} {EqSt : DeepEq LocationStatus}.
Context {EqT : DeepEq SyncTarget}.
Variable c : controller.

(** The string of all labels, sorted by key. *)
Fixpoint label_string_loop (labels : gomap) (first : bool) (sorted : list string) : string :=
  match sorted with
  | [] => ""
  | k :: sorted =>
      (if first then "" else " ") +:+ k +:+ "=" +:+ map_index labels k +:+
      label_string_loop labels false sorted
  end.
Definition labelString (labels : gomap) : string :=
  label_string_loop labels true (merge_sort string_le (map_range (entries labels)).*1).

(** [statusReconciler.reconcile] returns the object it was given as it left it.
    After an update the parameter [location] is rebound to the object the server
    returned, so the counters are then written to that one, which is dropped. *)
Definition count_instances (syncTargets : list SyncTarget) (location : Location)
    : result Location :=
  locationClusters ← LocationSyncTargets syncTargets location;
  inr (set_l_status location
    {| Instances := Some (uint32 (length locationClusters));
       AvailableInstances := Some (uint32 (length (FilterReady locationClusters))) |}).
Definition reconcile_status (location : Location)
    : LM (Location * reconcileStatus * option error) :=
  let clusterName := ClusterFrom (l_Meta location) in
  match listSyncTargets c clusterName with
  | inl err => mret (location, reconcileStatusStop, Some err)
  | inr syncTargets =>
      let s := labelString (Labels (l_Meta location)) in
      if decide (s = map_index (Annotations (l_Meta location)) LocationLabelsStringAnnotationKey)
      then
        match count_instances syncTargets location with
        | inl err => mret (location, reconcileStatusStop, Some err)
        | inr location => mret (location, reconcileStatusContinue, None)
        end
      else
        let annotations := Some (<[ LocationLabelsStringAnnotationKey := s ]>
                                   (entries (Annotations (l_Meta location)))) in
        let location := set_l_meta location (with_annotations (l_Meta location) annotations) in
        r ← try (call (EvCall (UpdateLocation clusterName location)) (DoUpdate c));
        match r with
        | inl err => mret (location, reconcileStatusStop, Some err)
        | inr updated =>
            match count_instances syncTargets updated with
            | inl err => mret (location, reconcileStatusStop, Some err)
            | inr _ => mret (location, reconcileStatusContinue, None)
            end
        end
  end.

(** [controller.reconcile]: one reconciler. *)
Definition reconcile (location : Location) : LM (Location * option error) :=
  '(location, _, err) ← reconcile_status location;
  mret (location, NewAggregate (option_list err)).

(** ** [location_controller.go] *)

Definition resource_of (l : Location) : Resource LocationSpec LocationStatus :=
  mkResource (l_Meta l) (l_Spec l) (l_Status l).
Variables (zeroSpec : LocationSpec) (zeroStatus : LocationStatus).
Definition commit (old obj : Location) : LM unit :=
  NewCommitter zeroSpec zeroStatus (Marshal c) (CreateMergePatch c)
    (fun cluster name patch => call (EvPatch cluster name patch) (DoPatch c)) ClusterFrom
    (resource_of old) (resource_of obj).
Definition process : string -> LM bool :=
  process IsNotFound (getLocation c)
    (fun _ location => '(location, err) ← reconcile location; mret (location, false, err))
    commit.
Definition processNextWorkItem (key : string) : LM unit := processNextWorkItem process key.

Definition enqueueLocation (obj : ObjectMeta) : LM unit := enqueue obj.
(** A key that cannot be made ends the loop here. *)
Fixpoint enqueue_domains (domains : list Location) : LM unit :=
  match domains with
  | [] => mret tt
  | domain :: domains =>
      match MetaClusterNamespaceKeyFunc (l_Meta domain) with
      | inl err => emit (EvHandleError err)
      | inr key => emit (EvAdd key);; enqueue_domains domains
      end
  end.
Definition enqueueSyncTarget (obj : ObjectMeta) : LM unit :=
  match MetaClusterNamespaceKeyFunc obj with
  | inl err => emit (EvHandleError err)
  | inr key =>
      match SplitMetaClusterNamespaceKey key with
      | inl err => emit (EvHandleError err)
      | inr (lcluster, _, _) =>
          match listLocations c lcluster with
          | inl err => emit (EvHandleError err)
          | inr domains => enqueue_domains domains
          end
      end
  end.
(** The SyncTarget [UpdateFunc]: only spec, metadata and conditions count. *)
Definition ignore_heartbeat (old obj : SyncTarget) : SyncTarget :=
  {| st_Meta := st_Meta old; st_Spec := st_Spec old;
     st_Status := {| Allocatable := Allocatable (st_Status obj);
       Capacity := Capacity (st_Status obj);
       st_Conditions := st_Conditions (st_Status old);
       SyncedResources := SyncedResources (st_Status old);
       LastSyncerHeartbeatTime := LastSyncerHeartbeatTime (st_Status obj);
       VirtualWorkspaces := VirtualWorkspaces (st_Status old);
       TunnelWorkspaces := TunnelWorkspaces (st_Status old) |} |}.
Definition syncTargetUpdate (old obj : SyncTarget) : LM unit :=
  if deep_equal (ignore_heartbeat old obj) obj then mret tt
  else enqueueSyncTarget (st_Meta obj).

End reconcile.

(** * Lemmas *)

Section filters.
Context {LL : LabelLib} {CO : ConditionLib}.

Lemma elem_of_FilterReady l wc : wc ∈ FilterReady l <-> wc ∈ l /\ is_ready wc = true.
Proof. unfold FilterReady. rewrite list_elem_of_filter. tauto. Qed.
Lemma elem_of_FilterNonEvicting now l wc :
  wc ∈ FilterNonEvicting now l <-> wc ∈ l /\ not_evicting now wc = true.
Proof. unfold FilterNonEvicting. rewrite list_elem_of_filter. tauto. Qed.
Lemma length_FilterReady l : (length (FilterReady l) <= length l)%nat.
Proof. apply length_filter. Qed.
End filters.

(** The label string is the same for every enumeration of the labels. *)
Lemma labelString_order (MO MO' : MapOrder) labels :
  @labelString MO labels = @labelString MO' labels.
Proof.
  unfold labelString. f_equal. apply sort_unique, fmap_Permutation.
  by rewrite (@map_range_perm MO), (@map_range_perm MO').
Qed.

Section theorems.
Context {MO : MapOrder} {EL : ErrorLib} {LL : LabelLib} {CL : ClusterLib} {CO : ConditionLib}.
Context {EqSp : DeepEq LocationSpec} {EqSt : DeepEq LocationStatus}.
Variables (zeroSpec : LocationSpec) (zeroStatus : LocationStatus).

(** The instances of a location and the available ones. *)
Definition instances (sel : gmap string string -> bool) (targets : list SyncTarget)
    : list SyncTarget :=
  filter (fun wc => sel (entries (Labels (st_Meta wc))) = true) targets.

Lemma location_reconcile_run c l h :
  exists h' l' e, reconcile c l h = (h', Ok (l', e)) /\
    l_Spec l' = l_Spec l /\ (l_Meta l' = l_Meta l \/ l_Status l' = l_Status l).
Proof.
  unfold reconcile, reconcile_status, try, call, mbind, M_bind, mret, M_ret.
  destruct (listSyncTargets c _) as [err|ts]; [eauto 10|].
  case_decide.
  - unfold count_instances. destruct (LocationSyncTargets ts l) as [err|lc]; simpl; eauto 10.
  - destruct (DoUpdate c _) as [err|u]; simpl; [eauto 10|].
    unfold count_instances. destruct (LocationSyncTargets ts u) as [err|lc]; simpl; eauto 10.
Qed.

(** One pass over a Location whose label annotation is current sends nothing
    and sets the counters: the SyncTargets of its workspace that its selector
    matches, and those of them that are ready and schedulable (modulo 2^32, so
    that without wrap-around the available ones never exceed the others). When
    the annotation is not current, the pass sends one update carrying it and
    leaves the counters as they were. *)
Theorem location_reconcile_spec c l ts sel :
  listSyncTargets c (ClusterFrom (l_Meta l)) = inr ts ->
  LabelSelectorAsSelector (l_InstanceSelector (l_Spec l)) = inr sel ->
  let s := labelString (Labels (l_Meta l)) in
  (s = map_index (Annotations (l_Meta l)) LocationLabelsStringAnnotationKey ->
     trace (reconcile c l) = [] /\
     outcome (reconcile c l) = Ok (set_l_status l
       {| Instances := Some (uint32 (length (instances sel ts)));
          AvailableInstances :=
            Some (uint32 (length (List.filter is_ready (instances sel ts)))) |}, None) /\
     (Z.of_nat (length (instances sel ts)) < 2 ^ 32 ->
      uint32 (length (List.filter is_ready (instances sel ts)))
        <= uint32 (length (instances sel ts)))%Z) /\
  (s <> map_index (Annotations (l_Meta l)) LocationLabelsStringAnnotationKey ->
     exists l' e, outcome (reconcile c l) = Ok (l', e) /\
       trace (reconcile c l) = [EvCall (UpdateLocation (ClusterFrom (l_Meta l)) l')] /\
       map_get (Annotations (l_Meta l')) LocationLabelsStringAnnotationKey = Some s /\
       l_Status l' = l_Status l).
Proof.
  intros Hts Hsel s.
  assert (forall xs, FilterReady xs = List.filter is_ready xs) as HF.
  { intros xs. unfold FilterReady. induction xs as [|x xs IH]; [done|]. simpl.
    rewrite filter_cons, IH. case_decide as E; by destruct (is_ready x). }
  unfold trace, outcome, run, reconcile, reconcile_status. rewrite Hts.
  unfold try, call, mbind, M_bind, mret, M_ret. fold s. split.
  - intros Hs. rewrite decide_True by done. unfold count_instances, LocationSyncTargets.
    rewrite Hsel. simpl. rewrite HF, NewAggregate_nil. split; [done|]. split; [done|].
    intros Hlt. rewrite <-HF. pose proof (length_FilterReady (instances sel ts)).
    unfold uint32. rewrite !Z.mod_small; lia.
  - intros Hs. rewrite decide_False by done.
    set (l' := set_l_meta l _).
    assert (map_get (Annotations (l_Meta l')) LocationLabelsStringAnnotationKey = Some s) as Ha.
    { unfold map_get; simpl. by rewrite lookup_insert_eq. }
    destruct (DoUpdate c _) as [err|u]; simpl; [eauto 10|].
    unfold count_instances. destruct (LocationSyncTargets ts u); simpl; eauto 10.
Qed.

(** Processing a Location never panics, whatever the API server answers and
    in whatever state the object is: no pass changes both its metadata and its
    status. *)
Theorem location_process_never_panics c key h :
  is_panic (process c zeroSpec zeroStatus key h).2 = false.
Proof.
  unfold process. apply process_no_panic.
  - intros old h0. destruct (location_reconcile_run c old h0) as (h' & l' & e & E & _).
    unfold mbind, M_bind. by rewrite E.
  - intros old h0 h' obj b e h2. unfold mbind at 1, M_bind at 1.
    destruct (location_reconcile_run c old h0) as (h1 & l' & e' & -> & Hs & Hor).
    intros [= _ <- _ _]. unfold commit, NewCommitter. apply commit_no_panic.
    + destruct Hor; [by apply one_sided_status|by apply one_sided_meta].
    + intros bs h3. apply call_no_panic.
Qed.

End theorems.

(** * A concrete instance *)

Module Examples.
#[local] Existing Instance canonical_order.
#[local] Existing Instance simple_errors.
#[local] Existing Instance simple_labels.
#[local] Existing Instance simple_clusters.
#[local] Existing Instance simple_conditions.
#[local] Instance spec_eq : DeepEq LocationSpec := eq_DeepEq.
#[local] Instance status_eq : DeepEq LocationStatus := eq_DeepEq.

Definition sync_target (n : string) (ready : bool) : SyncTarget := {|
  st_Meta := mk_meta n "" (Some {[ "region" := "eu" ]}) None [];
  st_Spec := {| Unschedulable := false; EvictAfter := None;
                SupportedAPIExports := []; Cells := None |};
  st_Status := {| Allocatable := None; Capacity := None;
    st_Conditions := if ready then MarkTrue [] ReadyCondition else [];
    SyncedResources := []; LastSyncerHeartbeatTime := None;
    VirtualWorkspaces := []; TunnelWorkspaces := [] |} |}.
Definition location (a : gomap) : Location := {|
  l_Meta := mk_meta "eu" "" (Some {[ "b" := "2"; "a" := "1" ]}) a [];
  l_Spec := {| l_Resource := {| gvr_Group := ""; gvr_Version := ""; gvr_Resource := "" |};
    l_Description := ""; l_AvailableSelectorLabels := [];
    l_InstanceSelector := Some {| MatchLabels := None; MatchExpressions := [] |} |};
  l_Status := {| Instances := None; AvailableInstances := None |} |}.
Definition current : Location :=
  location (Some {[ LocationLabelsStringAnnotationKey := "a=1 b=2" ]}).
Definition targets : list SyncTarget := [sync_target "t1" true; sync_target "t2" false].
Definition world : controller := {|
  listSyncTargets _ := inr targets;
  listLocations _ := inr [current];
  getLocation _ _ := inr (location None);
  DoUpdate _ := inr current;
  Marshal _ := inr "{}"; CreateMergePatch _ _ := inr "patch"; DoPatch _ := inr tt |}.

Lemma location_reconcile_witness :
  outcome (reconcile world current) = Ok (set_l_status current
    {| Instances := Some 2%Z; AvailableInstances := Some 1%Z |}, None).
Proof.
  assert (LabelSelectorAsSelector (l_InstanceSelector (l_Spec current)) =
    inr (fun l => bool_decide (∅ ⊆ l))) as Hsel by reflexivity.
  destruct (location_reconcile_spec world current targets _ eq_refl Hsel) as [H _].
  destruct (H ltac:(vm_compute; reflexivity)) as (_ & E & _). rewrite E.
  reflexivity.
Defined.

(** After the update the commit still sends a patch, made against the version of
    the object from before the update. *)
Example location_update_then_patch :
  trace (process world (l_Spec current) (l_Status current) "root|eu") =
    [EvCall (UpdateLocation "" current); EvPatch "" "eu" "patch"].
Proof. vm_compute. reflexivity. Qed.
End Examples.
