(* ===== verification/PlacementScheduler.v ===== *)
(** * The placement controller ([pkg/reconciler/scheduling/placement])

    Selects a location for a placement and moves it between the phases Pending,
    Unbound and Bound. *)

From S2P Require Import Prelude Platform ApiTypes Committer Workqueue.

Abbreviation event := (event Empty_set) (only parsing).
Abbreviation PM := (M event) (only parsing).

(** [rand.Intn(n)] answers the [rand] of the pass, below [n]. *)
Record controller := {
  listLocationsByPath : string -> result (list Location);
  listNamespaces : string -> result (list ObjectMeta);
  listPlacements : string -> result (list Placement);
  placementsByLocationWorkspace : string -> result (list Placement);
  getPlacement : string -> string -> result Placement;
  rand_Intn : nat -> nat;
  Marshal : Resource PlacementSpec PlacementStatus -> result string;
  CreateMergePatch : string -> string -> result string;
  DoPatch : list event -> result unit;
}.

Section reconcile.
Context {MO : MapOrder} {EL : ErrorLib} {LL : LabelLib} {CL : ClusterLib} {CO : ConditionLib}.
Context {EqSp : DeepEq PlacementSpec} {EqSt : DeepEq PlacementStatus}.
Variable c : controller.

(** ** [placement_reconcile_scheduling.go] *)

(** The inner loop of [validLocationNames]: selectors that do not parse are
    skipped. *)
Definition add_if_selected (loc : Location) (selected : gset string) (s : LabelSelector)
    : gset string :=
  match LabelSelectorAsSelector (Some s) with
  | inl _ => selected
  | inr selector =>
      if selector (entries (Labels (l_Meta loc))) then {[ Name (l_Meta loc) ]} ∪ selected
      else selected
  end.
Definition add_location (placement : Placement) (p : string * gset string) (loc : Location)
    : string * gset string :=
  if decide (l_Resource (l_Spec loc) <> LocationResource (p_Spec placement)) then p
  else (ClusterFrom (l_Meta loc),
        foldl (add_if_selected loc) p.2 (LocationSelectors (p_Spec placement))).
Definition validLocationNames (placement : Placement) (locationWorkspace : string)
    : result (string * gset string) :=
  locations ← listLocationsByPath c locationWorkspace;
  inr (foldl (add_location placement) ("", ∅) locations).

Definition isValidLocationSelected (placement : Placement) (cluster : string)
    (names : gset string) : bool :=
  match p_SelectedLocation (p_Status placement) with
  | None => false
  | Some l => bool_decide (lr_Path l = cluster) && bool_decide (lr_LocationName l ∈ names)
  end.

Definition mark_ready (p : Placement) : Placement :=
  set_p_conditions p (MarkTrue (p_Conditions (p_Status p)) PlacementReady).
Definition mark_not_ready (p : Placement) (reason message : string) : Placement :=
  set_p_conditions p (MarkFalse (p_Conditions (p_Status p)) PlacementReady reason
    ConditionSeverityError message).

(** The (re)selection at the end of [placementReconciler.reconcile]. *)
Definition select_location (placement : Placement) (locationWorkspace : string)
    (names : gset string) : res Placement :=
  if decide (size names = 0) then
    let placement := set_p_phase placement PlacementPending in
    let placement := set_p_location placement None in
    Ok (mark_not_ready placement LocationNotMatchReason "No valid location is found")
  else
    let candidates := set_range names in
    match candidates !! rand_Intn c (length candidates) with
    | None => Panic "index out of range"
    | Some chosenLocation =>
        let placement := set_p_location placement
          (Some {| lr_Path := locationWorkspace; lr_LocationName := chosenLocation |}) in
        let placement := set_p_phase placement PlacementUnbound in
        Ok (mark_ready placement)
    end.

(** [placementReconciler.reconcile]: it always continues. *)
Definition placementReconciler (placement : Placement) : res (Placement * option error) :=
  match validLocationNames placement (ClusterFrom (p_Meta placement)) with
  | inl err => Ok (mark_not_ready placement LocationNotFoundReason (error_text err), Some err)
  | inr (locationWorkspace, names) =>
      let valid := isValidLocationSelected placement locationWorkspace names in
      if decide (p_Phase (p_Status placement) = PlacementBound) then
        if valid then Ok (mark_ready placement, None)
        else Ok (mark_not_ready placement LocationInvalidReason
                   "Selected location is invalid for current placement", None)
      else if bool_decide (p_Phase (p_Status placement) = PlacementUnbound) && valid then
        Ok (mark_ready placement, None)
      else
        placement ← select_location placement locationWorkspace names;
        Ok (placement, None)
  end.

(** ** [placement_reconcile_namespace.go] *)

Definition listNamespacesWithAnnotation (clusterName : string) : result (list ObjectMeta) :=
  items ← listNamespaces c clusterName;
  inr (filter (fun ns => is_Some (map_get (Annotations ns) PlacementAnnotationKey)) items).
Definition selectNamespaces (placement : Placement) : result (list ObjectMeta) :=
  nss ← listNamespacesWithAnnotation (ClusterFrom (p_Meta placement));
  selector ← LabelSelectorAsSelector (NamespaceSelector (p_Spec placement));
  inr (filter (fun ns => selector (entries (Labels ns)) = true) nss).
Definition placementNamespaceReconciler (placement : Placement)
    : Placement * option error :=
  if decide (p_Phase (p_Status placement) = PlacementPending) then (placement, None)
  else
    match p_SelectedLocation (p_Status placement) with
    | None => (set_p_phase placement PlacementPending, None)
    | Some _ =>
        match selectNamespaces placement with
        | inl err => (placement, Some err)
        | inr nss =>
            (set_p_phase placement
               (if decide (0 < length nss) then PlacementBound else PlacementUnbound), None)
        end
    end.

(** ** [placement_reconcile.go] *)

(** Both reconcilers continue, also after an error. *)
Definition reconcile (placement : Placement) : res (Placement * option error) :=
  '(placement, err1) ← placementReconciler placement;
  let '(placement, err2) := placementNamespaceReconciler placement in
  Ok (placement, NewAggregate (option_list err1 ++ option_list err2)).

(** ** [placement_controller.go] *)

Definition resource_of (p : Placement) : Resource PlacementSpec PlacementStatus :=
  mkResource (p_Meta p) (p_Spec p) (p_Status p).
Variables (zeroSpec : PlacementSpec) (zeroStatus : PlacementStatus).
Definition commit (old obj : Placement) : PM unit :=
  NewCommitter zeroSpec zeroStatus (Marshal c) (CreateMergePatch c)
    (fun cluster name patch => call (EvPatch cluster name patch) (DoPatch c)) ClusterFrom
    (resource_of old) (resource_of obj).
Definition process : string -> PM bool :=
  process IsNotFound (getPlacement c)
    (fun _ p => '(p, err) ← lift (reconcile p); mret (p, false, err)) commit.
Definition processNextWorkItem (key : string) : PM unit := processNextWorkItem process key.

Definition enqueuePlacement (obj : ObjectMeta) : PM unit := enqueue obj.
Definition enqueueNamespace (obj : ObjectMeta) : PM unit :=
  enqueue_cluster (fun cluster => metas p_Meta (listPlacements c cluster)) obj.
(** [core.LogicalClusterPathAnnotationKey] is kcp's. *)
Definition enqueueLocation (LogicalClusterPathAnnotationKey : string) (location : ObjectMeta)
    : PM unit :=
  match placementsByLocationWorkspace c (ClusterFrom location) with
  | inl err => emit (EvHandleError err)
  | inr placements =>
      let path := map_index (Annotations location) LogicalClusterPathAnnotationKey in
      if decide (path = "") then for_each (List.map p_Meta placements) enqueue
      else
        match placementsByLocationWorkspace c path with
        | inl err => emit (EvHandleError err)
        | inr placementsByPath =>
            for_each (List.map p_Meta (placements ++ placementsByPath)) enqueue
        end
  end.

(** [placement_indexes.go]: the key under which a placement is found. *)
Definition indexByLocationWorkspace (placement : Placement) : list string :=
  if decide (LocationWorkspace (p_Spec placement) = "")
  then [ClusterFrom (p_Meta placement)] else [LocationWorkspace (p_Spec placement)].

(** The [UpdateFunc]s of namespaces and locations ([reflect.DeepEqual] tells a
    nil map from an empty one). *)
Definition namespaceUpdate (oldNs newNs : ObjectMeta) : PM unit :=
  if decide (Annotations oldNs = Annotations newNs) then mret tt else enqueueNamespace newNs.
Definition locationUpdate (key : string) (oldLoc newLoc : Location) : PM unit :=
  if decide (l_Spec oldLoc = l_Spec newLoc /\ Labels (l_Meta oldLoc) = Labels (l_Meta newLoc))
  then mret tt else enqueueLocation key (l_Meta newLoc).

End reconcile.

(** * Lemmas *)

Section lemmas.
Context {MO : MapOrder} {EL : ErrorLib} {LL : LabelLib} {CL : ClusterLib} {CO : ConditionLib}.
Variable c : controller.

(** [rand.Intn(n)] is below [n] for a positive [n]. *)
Definition rand_ok : Prop := forall n, 0 < n -> rand_Intn c n < n.

Lemma size_set_range (s : gset string) : size s <> 0 -> 0 < length (set_range s).
Proof.
  intros Hs. destruct (set_range s) as [|x l] eqn:E; [|simpl; lia].
  destruct Hs. apply size_empty_iff. intros x.
  rewrite <-elem_of_set_range, E. set_solver.
Qed.

(** What a selection leaves. *)
Lemma select_location_spec p w names :
  rand_ok ->
  exists p', select_location c p w names = Ok p' /\
    p_Meta p' = p_Meta p /\ p_Spec p' = p_Spec p /\
    IsTrue (p_Conditions (p_Status p')) PlacementReady = isValidLocationSelected p' w names /\
    ((p_Phase (p_Status p') = PlacementPending /\ p_SelectedLocation (p_Status p') = None /\
      names = ∅) \/
     (p_Phase (p_Status p') = PlacementUnbound /\
      exists n, n ∈ names /\ p_SelectedLocation (p_Status p') =
        Some {| lr_Path := w; lr_LocationName := n |})).
Proof.
  intros Hr. unfold select_location. case_decide as Hs.
  - eexists; split; [done|]. simpl. rewrite IsTrue_MarkFalse. split_and!; try done.
    left. split_and!; try done. apply leibniz_equiv. by apply size_empty_iff.
  - apply size_set_range in Hs. apply Hr in Hs as Hn.
    destruct (set_range names !! rand_Intn c (length (set_range names))) as [n|] eqn:E;
      [|apply lookup_ge_None in E; lia].
    apply list_elem_of_lookup_2, elem_of_set_range in E.
    eexists; split; [done|]. simpl. rewrite IsTrue_MarkTrue. split_and!; try done.
    + unfold isValidLocationSelected; simpl. by rewrite !bool_decide_true.
    + right. eauto.
Qed.

(** The placements the two reconcilers leave well-formed: a location is
    selected exactly in the phases that need one. *)
Definition wf (p : Placement) : Prop :=
  (p_Phase (p_Status p) = PlacementUnbound \/ p_Phase (p_Status p) = PlacementBound ->
     is_Some (p_SelectedLocation (p_Status p))) /\
  (p_Phase (p_Status p) = PlacementPending -> p_SelectedLocation (p_Status p) = None).

(** The location selected before the pass is kept. *)
Definition keeps_location (p : Placement) : bool :=
  bool_decide (p_Phase (p_Status p) = PlacementBound) ||
  (bool_decide (p_Phase (p_Status p) = PlacementUnbound) &&
   match validLocationNames c p (ClusterFrom (p_Meta p)) with
   | inr (w, names) => isValidLocationSelected p w names
   | inl _ => false
   end).

Lemma placementReconciler_spec p :
  rand_ok ->
  exists p' e, placementReconciler c p = Ok (p', e) /\
    p_Meta p' = p_Meta p /\ p_Spec p' = p_Spec p /\
    match validLocationNames c p (ClusterFrom (p_Meta p)) with
    | inl err => e = Some err /\
        IsTrue (p_Conditions (p_Status p')) PlacementReady = false /\
        p_Phase (p_Status p') = p_Phase (p_Status p) /\
        p_SelectedLocation (p_Status p') = p_SelectedLocation (p_Status p)
    | inr (w, names) => e = None /\
        IsTrue (p_Conditions (p_Status p')) PlacementReady = isValidLocationSelected p' w names /\
        if keeps_location p then
          p_Phase (p_Status p') = p_Phase (p_Status p) /\
          p_SelectedLocation (p_Status p') = p_SelectedLocation (p_Status p)
        else
          (p_Phase (p_Status p') = PlacementPending /\
           p_SelectedLocation (p_Status p') = None /\ names = ∅) \/
          (p_Phase (p_Status p') = PlacementUnbound /\
           exists n, n ∈ names /\ p_SelectedLocation (p_Status p') =
             Some {| lr_Path := w; lr_LocationName := n |})
    end.
Proof.
  intros Hr. unfold placementReconciler, keeps_location.
  destruct (validLocationNames c p _) as [err|[w names]] eqn:E.
  { eexists _, _. split; [done|]. simpl. by rewrite IsTrue_MarkFalse. }
  assert (forall q, isValidLocationSelected (mark_ready q) w names
    = isValidLocationSelected q w names) as Hm by done.
  assert (forall q r s, isValidLocationSelected (mark_not_ready q r s) w names
    = isValidLocationSelected q w names) as Hn by done.
  destruct (decide (p_Phase (p_Status p) = PlacementBound)) as [Hb|Hb].
  - rewrite (bool_decide_true _ Hb); simpl.
    destruct (isValidLocationSelected p w names) eqn:V; (eexists _, _; split; [done|]); simpl;
      rewrite ?Hm, ?Hn, ?IsTrue_MarkTrue, ?IsTrue_MarkFalse, ?V; done.
  - rewrite (bool_decide_false _ Hb); simpl. case_bool_decide as Hu; simpl;
      destruct (isValidLocationSelected p w names) eqn:V; simpl;
      try (destruct (select_location_spec p w names Hr) as (p' & -> & H1 & H2 & H3 & H4);
           eexists _, _; split; [done|]; done).
    eexists _, _. split; [done|]. simpl. rewrite Hm, V, IsTrue_MarkTrue. done.
Qed.

(** [validLocationNames] reads the placement's spec and cluster only. *)
Lemma validLocationNames_ext p p' w :
  p_Spec p' = p_Spec p -> validLocationNames c p' w = validLocationNames c p w.
Proof. intros E. unfold validLocationNames, add_location. by rewrite E. Qed.

Lemma namespaceReconciler_spec p :
  let '(p', e) := placementNamespaceReconciler c p in
  p_Meta p' = p_Meta p /\ p_Spec p' = p_Spec p /\
  p_Conditions (p_Status p') = p_Conditions (p_Status p) /\
  p_SelectedLocation (p_Status p') = p_SelectedLocation (p_Status p) /\
  (p_Phase (p_Status p') =
    if decide (p_Phase (p_Status p) = PlacementPending) then PlacementPending
    else if p_SelectedLocation (p_Status p) is None then PlacementPending
    else match selectNamespaces c p with
         | inl _ => p_Phase (p_Status p)
         | inr [] => PlacementUnbound
         | inr _ => PlacementBound
         end).
Proof.
  unfold placementNamespaceReconciler. case_decide as E; [by rewrite E|].
  destruct (p_SelectedLocation (p_Status p)) eqn:S; simpl; [|done].
  destruct (selectNamespaces c p) as [|[|x xs]]; simpl; done.
Qed.

End lemmas.

Section theorems.
Context {MO : MapOrder} {EL : ErrorLib} {LL : LabelLib} {CL : ClusterLib} {CO : ConditionLib}.
Context {EqSp : DeepEq PlacementSpec} {EqSt : DeepEq PlacementStatus}.

Lemma placement_reconcile_inv c p :
  rand_ok c ->
  exists p1 e1, placementReconciler c p = Ok (p1, e1) /\
  exists p' e2, placementNamespaceReconciler c p1 = (p', e2) /\
    reconcile c p = Ok (p', NewAggregate (option_list e1 ++ option_list e2)).
Proof.
  intros Hr. destruct (placementReconciler_spec c p Hr) as (p1 & e1 & E1 & _).
  exists p1, e1. split; [done|]. destruct (placementNamespaceReconciler c p1) as [p' e2] eqn:E2.
  exists p', e2. split; [done|]. unfold reconcile. rewrite E1. simpl. by rewrite E2.
Qed.

(** The condition Ready tells the truth: after a pass in which the locations
    could be listed, it is true exactly when the selected location is one of
    the locations of the placement's workspace, of the wanted resource, that
    one of its selectors matches; when they could not be listed it is false and
    the pass reports the error. *)
Theorem placement_ready_correct c p p' e :
  rand_ok c -> reconcile c p = Ok (p', e) ->
  match validLocationNames c p (ClusterFrom (p_Meta p)) with
  | inr (w, names) =>
      IsTrue (p_Conditions (p_Status p')) PlacementReady = isValidLocationSelected p' w names
  | inl _ =>
      IsTrue (p_Conditions (p_Status p')) PlacementReady = false /\ is_Some e
  end.
Proof.
  intros Hr H. destruct (placement_reconcile_inv c p Hr) as (p1 & e1 & E1 & p2 & e2 & E2 & E).
  rewrite E in H. injection H as <- <-.
  destruct (placementReconciler_spec c p Hr) as (p1' & e1' & E1' & _ & _ & H1).
  rewrite E1 in E1'. injection E1' as <- <-.
  pose proof (namespaceReconciler_spec c p1) as H2. rewrite E2 in H2.
  destruct H2 as (_ & _ & Hc & Hl & _). rewrite Hc.
  destruct (validLocationNames c p _) as [err|[w names]].
  - destruct H1 as (-> & -> & _). split; [done|]. apply NewAggregate_cons.
  - destruct H1 as (_ & -> & _). unfold isValidLocationSelected. by rewrite Hl.
Qed.

(** C35: the placement state machine: a pass keeps the placement well-formed (a
    location is selected exactly outside the phase Pending) and never touches
    its metadata or spec; a bound placement never changes its location and does
    not become pending; and whenever the namespaces can be listed, a placement
    that is not pending is bound exactly when one of its namespaces is. *)
Theorem placement_state_machine c p p' e :
  rand_ok c -> wf p -> reconcile c p = Ok (p', e) ->
  wf p' /\ p_Meta p' = p_Meta p /\ p_Spec p' = p_Spec p /\
  (p_Phase (p_Status p) = PlacementBound ->
     p_SelectedLocation (p_Status p') = p_SelectedLocation (p_Status p) /\
     p_Phase (p_Status p') <> PlacementPending) /\
  (forall nss, selectNamespaces c p = inr nss -> p_Phase (p_Status p') <> PlacementPending ->
     p_Phase (p_Status p') = if decide (nss = []) then PlacementUnbound else PlacementBound).
Proof.
  intros Hr [Hw1 Hw2] H.
  destruct (placement_reconcile_inv c p Hr) as (p1 & e1 & E1 & p2 & e2 & E2 & E).
  rewrite E in H. injection H as <- <-.
  destruct (placementReconciler_spec c p Hr) as (p1' & e1' & E1' & Hm & Hs & H1).
  rewrite E1 in E1'. injection E1' as <- <-.
  pose proof (namespaceReconciler_spec c p1) as H2. rewrite E2 in H2.
  destruct H2 as (Hm2 & Hs2 & _ & Hl & Hp).
  assert (selectNamespaces c p1 = selectNamespaces c p) as Hn
    by (unfold selectNamespaces; by rewrite Hm, Hs).
  rewrite Hn in Hp. rewrite Hm2, Hs2, Hm, Hs.
  (* the phase and location after the first reconciler *)
  assert (wf p1 /\ (p_Phase (p_Status p) = PlacementBound ->
    p_SelectedLocation (p_Status p1) = p_SelectedLocation (p_Status p) /\
    p_Phase (p_Status p1) = PlacementBound)) as [[Hw1' Hw2'] Hb].
  { unfold wf. destruct (validLocationNames c p _) as [err|[w names]].
    - destruct H1 as (_ & _ & -> & ->). done.
    - destruct H1 as (_ & _ & H1). destruct (keeps_location c p) eqn:K.
      + destruct H1 as [-> ->]. done.
      + unfold keeps_location in K. apply orb_false_iff in K as [K _].
        apply bool_decide_eq_false in K. split; [|by intros].
        destruct H1 as [(-> & -> & _)|(-> & n & _ & ->)]; split; try done; eauto.
        by intros [].  }
  split_and!; try done.
  - split; rewrite Hl, Hp; clear Hp.
    + intros Hph. case_decide; [by destruct Hph|].
      destruct (p_SelectedLocation (p_Status p1)); [eauto|by destruct Hph].
    + case_decide as Hd; [by intros _; apply Hw2'|].
      destruct (p_SelectedLocation (p_Status p1)) eqn:S; [|by intros _].
      destruct (selectNamespaces c p) as [|[|x xs]]; intros Hph; done.
  - intros Hph. destruct (Hb Hph) as [S P]. rewrite Hl. split; [done|].
    rewrite Hp, P. rewrite decide_False by (unfold PlacementBound; discriminate).
    destruct (Hw1 (or_intror Hph)) as [loc Hloc]. rewrite S, Hloc.
    by destruct (selectNamespaces c p) as [|[|x xs]].
  - intros nss Hnss. rewrite Hp, Hnss. case_decide; [done|].
    destruct (p_SelectedLocation (p_Status p1)); [|done]. intros _.
    by destruct nss; case_decide.
Qed.

(** Processing a placement never panics. *)
Theorem placement_process_never_panics c zeroSpec zeroStatus key h :
  rand_ok c -> is_panic (process c zeroSpec zeroStatus key h).2 = false.
Proof.
  intros Hr. unfold process. apply process_no_panic.
  - intros old h0. destruct (placement_reconcile_inv c old Hr) as (p1 & e1 & _ & p' & e2 & _ & E).
    unfold mbind, M_bind, lift. by rewrite E.
  - intros old h0 h' obj b e h2. unfold mbind at 1, M_bind at 1, lift.
    destruct (placement_reconcile_inv c old Hr) as (p1 & e1 & E1 & p' & e2 & E2 & E). rewrite E.
    intros [= _ <- _ _]. unfold commit, NewCommitter. apply commit_no_panic.
    + destruct (placementReconciler_spec c old Hr) as (p1' & e1' & E1' & Hm & Hs & _).
      rewrite E1 in E1'. injection E1' as <- <-.
      pose proof (namespaceReconciler_spec c p1) as H2. rewrite E2 in H2.
      destruct H2 as (Hm2 & Hs2 & _). apply one_sided_status; simpl; congruence.
    + intros bs h3. apply call_no_panic.
Qed.
End theorems.

(** * A concrete instance *)

Module Examples.
#[local] Existing Instance canonical_order.
#[local] Existing Instance simple_errors.
#[local] Existing Instance simple_labels.
#[local] Existing Instance simple_clusters.
#[local] Existing Instance simple_conditions.
#[local] Instance spec_eq : DeepEq PlacementSpec := eq_DeepEq.
#[local] Instance status_eq : DeepEq PlacementStatus := eq_DeepEq.

Definition any : LabelSelector := {| MatchLabels := None; MatchExpressions := [] |}.
Definition gvr : GroupVersionResource :=
  {| gvr_Group := "workload.kcp.io"; gvr_Version := "v1alpha1"; gvr_Resource := "synctargets" |}.
Definition placement (phase : string) (l : option LocationReference) : Placement := {|
  p_Meta := mk_meta "p" "" None None [];
  p_Spec := {| LocationSelectors := [any]; LocationResource := gvr;
    NamespaceSelector := Some any; LocationWorkspace := "" |};
  p_Status := {| p_Phase := phase; p_SelectedLocation := l; p_Conditions := [] |} |}.
Definition eu : LocationReference := {| lr_Path := ""; lr_LocationName := "eu" |}.
Definition location (n : string) : Location := {|
  l_Meta := mk_meta n "" None None [];
  l_Spec := {| l_Resource := gvr; l_Description := ""; l_AvailableSelectorLabels := [];
    l_InstanceSelector := None |};
  l_Status := {| Instances := None; AvailableInstances := None |} |}.
Definition world (locations : list Location) : controller := {|
  listLocationsByPath _ := inr locations;
  listNamespaces _ := inr [mk_meta "ns" "" None (Some {[ PlacementAnnotationKey := "" ]}) []];
  listPlacements _ := inr [];
  placementsByLocationWorkspace _ := inr [];
  getPlacement _ _ := inr (placement PlacementPending None);
  rand_Intn _ := 0;
  Marshal _ := inr "{}"; CreateMergePatch _ _ := inr "patch"; DoPatch _ := inr tt |}.
Definition after (c : controller) (p : Placement) : Placement :=
  match reconcile c p with Ok (p', _) => p' | _ => p end.

(** A pending placement selects the only location and is bound at once. *)
Lemma ready_witness :
  IsTrue (p_Conditions (p_Status (after (world [location "eu"])
    (placement PlacementPending None)))) PlacementReady = true.
Proof.
  set (c := world [location "eu"]). set (p := placement PlacementPending None).
  assert (rand_ok c) as Hr by (intros n Hn; exact Hn).
  assert (reconcile c p = Ok (after c p, None)) as E by (vm_compute; reflexivity).
  pose proof (placement_ready_correct c p (after c p) None Hr E) as H.
  assert (validLocationNames c p (ClusterFrom (p_Meta p)) = inr ("", {[ "eu" ]})) as V
    by (vm_compute; reflexivity).
  rewrite V in H. rewrite H. vm_compute. reflexivity.
Defined.

(** A bound placement whose location is gone keeps it. *)
Lemma state_machine_witness :
  p_SelectedLocation (p_Status (after (world []) (placement PlacementBound (Some eu))))
    = Some eu.
Proof.
  set (c := world []). set (p := placement PlacementBound (Some eu)).
  assert (rand_ok c) as Hr by (intros n Hn; exact Hn).
  assert (wf p) as Hw.
  { split; simpl; [eauto|]. unfold PlacementBound, PlacementPending. discriminate. }
  assert (reconcile c p = Ok (after c p, None)) as E by (vm_compute; reflexivity).
  destruct (placement_state_machine c p (after c p) None Hr Hw E) as (_ & _ & _ & H & _).
  by apply H.
Defined.

Lemma never_panics_witness :
  is_panic (outcome (process (world []) (p_Spec (placement "" None))
    (p_Status (placement "" None)) "root|p")) = false.
Proof. apply placement_process_never_panics. intros n Hn; exact Hn. Defined.
End Examples.
