(* ===== verification/WorkloadPlacement.v ===== *)
(** * The workload placement controller ([pkg/reconciler/workload/placement])

    Chooses a SyncTarget of a placement's selected location and records its key
    in an annotation of the placement, from where the namespace and the resource
    schedulers take it. *)

From S2P Require Import Prelude Platform ApiTypes Committer Workqueue Location.

(** ** Data *)

(** The parts of kcp's [APIBinding] that are read. *)
Record BoundAPIResource := { br_GroupResource : GroupResource; br_IdentityHash : string }.
Record APIBinding := { ab_Meta : ObjectMeta; BoundResources : list BoundAPIResource }.

(** A merge patch of annotations; [None] removes the key. *)
Abbreviation annotation_patch := (gmap string (option string)) (only parsing).
Inductive placement_call :=
  | PatchPlacement (cluster name : string) (annotations : annotation_patch).
Abbreviation event := (Workqueue.event placement_call) (only parsing).
Abbreviation WM := (M event) (only parsing).

Record controller := {
  listSyncTargets : string -> result (list SyncTarget);
  listLocations : string -> result (list Location);
  getLocation : string -> string -> result Location;
  apiBindings : string -> result (list APIBinding);
  listPlacements : string -> result (list Placement);
  placementsBySelectedLocationPath : string -> result (list Placement);
  getPlacement : string -> string -> result Placement;
  now : Time;
  rand_Intn : nat -> nat;
  DoPatchPlacement : list event -> result Placement;
  Marshal : Resource PlacementSpec PlacementStatus -> result string;
  CreateMergePatch : string -> string -> result string;
  DoPatch : list event -> result unit;
}.

Section reconcile.
Context {EL : ErrorLib} {LL : LabelLib} {CL : ClusterLib} {CO : ConditionLib}.
Context {EqSp : DeepEq PlacementSpec} {EqSt : DeepEq PlacementStatus}.
Variable c : controller.

(** ** [placement_reconcile.go] *)

Definition listWorkloadAPIBindings (clusterName : string) : result (list APIBinding) :=
  bindings ← apiBindings c clusterName;
  inr (filter (fun b =>
    is_Some (map_get (Annotations (ab_Meta b)) ComputeAPIExportAnnotationKey)) bindings).

(** ** [placement_reconcile_scheduling.go] *)

(** [supportedAPIMap]: the accepted types of a SyncTarget, the last one wins. *)
Definition add_supported (m : gmap GroupResource ResourceToSync) (r : ResourceToSync)
    : gmap GroupResource ResourceToSync :=
  if decide (rs_State r = ResourceSchemaAcceptedState) then <[ rs_GroupResource r := r ]> m
  else m.
Definition supportedAPIMap (st : SyncTarget) : gmap GroupResource ResourceToSync :=
  foldl add_supported ∅ (SyncedResources (st_Status st)).
Definition supports (m : gmap GroupResource ResourceToSync) (desired : BoundAPIResource)
    : bool :=
  match m !! br_GroupResource desired with
  | Some r => bool_decide (rs_IdentityHash r = br_IdentityHash desired)
  | None => false
  end.
(** The loop over the bindings: one message per binding that is not supported. *)
Definition unsupported_messages (st : SyncTarget) (bindings : list APIBinding) : list string :=
  let m := supportedAPIMap st in
  flat_map (fun b =>
    if forallb (supports m) (BoundResources b) then []
    else ["SyncTarget " +:+ Name (st_Meta st) +:+ " does not support APIBinding "
          +:+ Name (ab_Meta b)]) bindings.
Definition add_compatible (bindings : list APIBinding)
    (p : list SyncTarget * list string) (st : SyncTarget) : list SyncTarget * list string :=
  match unsupported_messages st bindings with
  | [] => (p.1 ++ [st], p.2)
  | ms => (p.1, p.2 ++ ms)
  end.
Definition filterAPICompatible (placement : Placement) (syncTargets : list SyncTarget)
    : result (list SyncTarget * string) :=
  bindings ← listWorkloadAPIBindings (ClusterFrom (p_Meta placement));
  let '(filtered, messages) := foldl (add_compatible bindings) ([], []) syncTargets in
  inr (filtered, Join messages ", ").

(** The valid SyncTargets with a reason and a message when there is none. *)
Definition getAllValidSyncTargetsForPlacement (placement : Placement)
    : result (list SyncTarget * string * string) :=
  match p_SelectedLocation (p_Status placement) with
  | None => inr ([], ScheduleLocationNotFound, "No selected location is scheduled")
  | Some selected =>
      if decide (p_Phase (p_Status placement) = PlacementPending) then
        inr ([], ScheduleLocationNotFound, "No selected location is scheduled")
      else
        match getLocation c (lr_Path selected) (lr_LocationName selected) with
        | inl err =>
            if IsNotFound err then
              inr ([], ScheduleLocationNotFound, "Selected location is not found")
            else inl err
        | inr location =>
            syncTargets ← listSyncTargets c (ClusterFrom (l_Meta location));
            locationSyncTargets ← LocationSyncTargets syncTargets location;
            if decide (locationSyncTargets = []) then
              inr ([], ScheduleNoValidTargetReason, "No SyncTarget in the selected Location")
            else
              '(valid, message) ← filterAPICompatible placement locationSyncTargets;
              if decide (valid = []) then inr ([], ScheduleNoValidTargetReason, message)
              else
                let valid := FilterNonEvicting (now c) (FilterReady valid) in
                if decide (valid = []) then
                  inr (valid, ScheduleNoValidTargetReason,
                       "No SyncTarget is ready or non evicting")
                else inr (valid, "", "")
        end
  end.

Definition key_of (st : SyncTarget) : string :=
  ToSyncTargetKey (ClusterFrom (st_Meta st)) (Name (st_Meta st)).
(** [patchPlacementAnnotation]: the updated object is not used by the caller. *)
Definition patchPlacementAnnotation (placement : Placement) (annotations : annotation_patch)
    : WM Placement :=
  call (EvCall (PatchPlacement (ClusterFrom (p_Meta placement)) (Name (p_Meta placement))
    annotations)) (DoPatchPlacement c).

Definition mark_scheduled (p : Placement) : Placement :=
  set_p_conditions p (MarkTrue (p_Conditions (p_Status p)) PlacementScheduled).
Definition mark_not_scheduled (p : Placement) (reason message : string) : Placement :=
  set_p_conditions p (MarkFalse (p_Conditions (p_Status p)) PlacementScheduled reason
    ConditionSeverityWarning message).

(** [reconcile] of the one reconciler and of the controller: the placement it
    was given as it left it, whether to requeue, and the error. *)
Definition reconcile (placement : Placement) : WM (Placement * bool * option error) :=
  let key := InternalSyncTargetPlacementAnnotationKey in
  let found := map_get (Annotations (p_Meta placement)) key in
  match getAllValidSyncTargetsForPlacement placement with
  | inl err => mret (placement, true, NewAggregate [err])
  | inr ([], reason, message) =>
      match found with
      | Some _ =>
          r ← try (patchPlacementAnnotation placement {[ key := None ]});
          mret (placement, false,
                match r with inl err => NewAggregate [err] | inr _ => NewAggregate [] end)
      | None => mret (mark_not_scheduled placement reason message, false, NewAggregate [])
      end
  | inr (valid, _, _) =>
      if existsb (fun st => bool_decide (found = Some (key_of st))) valid
      then mret (mark_scheduled placement, false, NewAggregate [])
      else
        match valid !! rand_Intn c (length valid) with
        | None => lift (Panic "index out of range")
        | Some scheduledSyncTarget =>
            r ← try (patchPlacementAnnotation placement
                       {[ key := Some (key_of scheduledSyncTarget) ]});
            mret (placement, true,
                  match r with inl err => NewAggregate [err] | inr _ => NewAggregate [] end)
        end
  end.

(** ** [placement_controller.go] *)

Definition resource_of (p : Placement) : Resource PlacementSpec PlacementStatus :=
  mkResource (p_Meta p) (p_Spec p) (p_Status p).
Variables (zeroSpec : PlacementSpec) (zeroStatus : PlacementStatus).
Definition commit (old obj : Placement) : WM unit :=
  NewCommitter zeroSpec zeroStatus (Marshal c) (CreateMergePatch c)
    (fun cluster name patch => call (EvPatch cluster name patch) (DoPatch c)) ClusterFrom
    (resource_of old) (resource_of obj).
(** An invalid key is reported here, and forgotten. *)
Definition process (key : string) : WM bool :=
  match SplitMetaClusterNamespaceKey key with
  | inl err => emit (EvHandleError err);; mret false
  | inr _ => Workqueue.process IsNotFound (getPlacement c) (fun _ p => reconcile p) commit key
  end.
Definition processNextWorkItem (key : string) : WM unit :=
  Workqueue.processNextWorkItem process key.

Definition enqueuePlacement (obj : ObjectMeta) : WM unit := enqueue obj.
Definition enqueueLocation (LogicalClusterPathAnnotationKey : string) (location : ObjectMeta)
    : WM unit :=
  match placementsBySelectedLocationPath c (ClusterFrom location) with
  | inl err => emit (EvHandleError err)
  | inr placements =>
      let path := map_index (Annotations location) LogicalClusterPathAnnotationKey in
      if decide (path = "") then for_each (List.map p_Meta placements) enqueuePlacement
      else
        match placementsBySelectedLocationPath c path with
        | inl err => emit (EvHandleError err)
        | inr placementsByPath =>
            for_each (List.map p_Meta (placements ++ placementsByPath)) enqueuePlacement
        end
  end.
Definition enqueueAPIBinding (obj : ObjectMeta) : WM unit :=
  enqueue_cluster (fun cluster => metas p_Meta (listPlacements c cluster)) obj.
Definition enqueueSyncTarget (key : string) (syncTarget : ObjectMeta) : WM unit :=
  match listLocations c (ClusterFrom syncTarget) with
  | inl err => emit (EvHandleError err)
  | inr locations => for_each locations (fun l => enqueueLocation key (l_Meta l))
  end.

End reconcile.

(** * Lemmas *)

Section lemmas.
Context {EL : ErrorLib} {LL : LabelLib} {CL : ClusterLib} {CO : ConditionLib}.
Context {EqSp : DeepEq PlacementSpec} {EqSt : DeepEq PlacementStatus}.
Variable c : controller.

(** A SyncTarget supports a binding when it has accepted, last under that name,
    each of its types with the same identity. *)
Definition compatible (bindings : list APIBinding) (st : SyncTarget) : Prop :=
  forall b r, b ∈ bindings -> r ∈ BoundResources b ->
    exists s, supportedAPIMap st !! br_GroupResource r = Some s /\
      rs_IdentityHash s = br_IdentityHash r.

Lemma unsupported_nil st bindings :
  unsupported_messages st bindings = [] <-> compatible bindings st.
Proof.
  unfold unsupported_messages, compatible. induction bindings as [|b l IH]; simpl.
  { split; [|done]. intros _ b r Hb. by apply not_elem_of_nil in Hb. }
  assert (forallb (supports (supportedAPIMap st)) (BoundResources b) = true <->
    forall r, r ∈ BoundResources b -> exists s,
      supportedAPIMap st !! br_GroupResource r = Some s /\
      rs_IdentityHash s = br_IdentityHash r) as Hb.
  { rewrite forallb_forall. setoid_rewrite <-list_elem_of_In. unfold supports.
    split; intros H r Hr; specialize (H r Hr).
    - destruct (_ !! _) as [s|]; [|done]. exists s. split; [done|].
      by apply bool_decide_eq_true in H.
    - destruct H as (s & -> & ->). by apply bool_decide_true. }
  destruct (forallb _ _).
  - simpl. rewrite IH. split.
    + intros H b' r [->|Hin]%elem_of_cons Hr; [by apply Hb|by eapply H].
    + intros H b' r Hin Hr. apply (H b' r); [by apply list_elem_of_further|done].
  - split; [done|]. intros H. assert (false = true); [|done]. apply Hb.
    intros r Hr. apply (H b r); [apply list_elem_of_here|done].
Qed.

Lemma compatible_loop bindings l a ms st :
  st ∈ (foldl (add_compatible bindings) (a, ms) l).1 <->
  st ∈ a \/ (st ∈ l /\ compatible bindings st).
Proof.
  revert a ms. induction l as [|x l IH]; intros a ms; simpl.
  { split; [by left|]. by intros [|[[]%elem_of_nil _]]. }
  pose proof (unsupported_nil x bindings) as Hx. unfold add_compatible at 2.
  destruct (unsupported_messages x bindings) as [|m ms'].
  - assert (compatible bindings x) by by apply Hx.
    rewrite IH. simpl. rewrite elem_of_app, list_elem_of_singleton, elem_of_cons.
    split; [intros [[?| ->]|[? ?]]; eauto|intros [?|[[->|?] ?]]; eauto].
  - assert (~ compatible bindings x) by (intros ?%Hx; done).
    rewrite IH. simpl. rewrite elem_of_cons.
    split; [intros [?|[? ?]]; eauto|intros [?|[[->|?] ?]]; eauto; done].
Qed.

(** The SyncTargets a placement may be put on. *)
Definition valid_target (placement : Placement) (st : SyncTarget) : Prop :=
  exists selected location syncTargets sel bindings,
    p_SelectedLocation (p_Status placement) = Some selected /\
    p_Phase (p_Status placement) <> PlacementPending /\
    getLocation c (lr_Path selected) (lr_LocationName selected) = inr location /\
    listSyncTargets c (ClusterFrom (l_Meta location)) = inr syncTargets /\
    LabelSelectorAsSelector (l_InstanceSelector (l_Spec location)) = inr sel /\
    listWorkloadAPIBindings c (ClusterFrom (p_Meta placement)) = inr bindings /\
    st ∈ syncTargets /\ sel (entries (Labels (st_Meta st))) = true /\
    compatible bindings st /\ is_ready st = true /\ not_evicting (now c) st = true.

Lemma valid_targets_sound placement ts r m st :
  getAllValidSyncTargetsForPlacement c placement = inr (ts, r, m) ->
  st ∈ ts -> valid_target placement st.
Proof.
  unfold getAllValidSyncTargetsForPlacement, valid_target.
  destruct (p_SelectedLocation _) as [sl|]; [|intros [= <- _ _] []%elem_of_nil].
  case_decide; [intros [= <- _ _] []%elem_of_nil|].
  destruct (getLocation c _ _) as [err|loc] eqn:L.
  { destruct (IsNotFound err); [intros [= <- _ _] []%elem_of_nil|done]. }
  destruct (listSyncTargets c _) as [err|sts] eqn:E1; simpl; [done|].
  destruct (LocationSyncTargets sts loc) as [err|lst] eqn:E2; simpl; [done|].
  case_decide; [intros [= <- _ _] []%elem_of_nil|].
  unfold filterAPICompatible.
  destruct (listWorkloadAPIBindings c _) as [err|bs] eqn:E3; simpl; [done|].
  destruct (foldl _ _ _) as [valid msg] eqn:E4; simpl.
  case_decide; [intros [= <- _ _] []%elem_of_nil|].
  intros Hts Hst. assert (st ∈ FilterNonEvicting (now c) (FilterReady valid)) as Hin.
  { case_decide; injection Hts as <- _ _; done. }
  apply elem_of_FilterNonEvicting in Hin as [[Hin Hr]%elem_of_FilterReady He].
  assert (st ∈ (foldl (add_compatible bs) ([], []) lst).1) as Hc by by rewrite E4.
  apply compatible_loop in Hc as [[]%elem_of_nil|[Hl Hc]].
  unfold LocationSyncTargets in E2.
  destruct (LabelSelectorAsSelector _) as [e|sel] eqn:E5; [done|]. injection E2 as <-.
  apply list_elem_of_filter in Hl as [Hsel Hl].
  exists sl, loc, sts, sel, bs. split_and!; done.
Qed.

Lemma valid_targets_complete placement ts r m st :
  getAllValidSyncTargetsForPlacement c placement = inr (ts, r, m) ->
  valid_target placement st -> st ∈ ts.
Proof.
  intros H (sl & loc & sts & sel & bs & E1 & E2 & E3 & E4 & E5 & E6 & Hin & Hsel & Hc & Hr & He).
  revert H. unfold getAllValidSyncTargetsForPlacement. rewrite E1, decide_False by done.
  rewrite E3, E4. simpl. unfold LocationSyncTargets. rewrite E5. simpl.
  set (lst := filter _ sts).
  assert (st ∈ lst) as Hl by by apply list_elem_of_filter.
  case_decide as D; [rewrite D in Hl; by apply elem_of_nil in Hl|].
  unfold filterAPICompatible. rewrite E6. simpl.
  destruct (foldl _ _ _) as [valid msg] eqn:E7; simpl.
  assert (st ∈ valid) as Hv.
  { change valid with (valid, msg).1. rewrite <-E7. apply compatible_loop. by right. }
  case_decide as D'; [rewrite D' in Hv; by apply elem_of_nil in Hv|].
  assert (st ∈ FilterNonEvicting (now c) (FilterReady valid)) as Hf.
  { apply elem_of_FilterNonEvicting. split; [|done]. by apply elem_of_FilterReady. }
  case_decide; by intros [= <- _ _].
Qed.

Definition rand_ok : Prop := forall n, 0 < n -> rand_Intn c n < n.

(** The calls of one pass. *)
Lemma workload_reconcile_run p h :
  rand_ok ->
  exists p' b e es, reconcile c p h = (h ++ es, Ok (p', b, e)) /\
    p_Meta p' = p_Meta p /\ p_Spec p' = p_Spec p /\
    match getAllValidSyncTargetsForPlacement c p with
    | inl err => p' = p /\ b = true /\ es = [] /\ e = NewAggregate [err]
    | inr (ts, reason, message) =>
        let key := InternalSyncTargetPlacementAnnotationKey in
        let found := map_get (Annotations (p_Meta p)) key in
        let patch v := [EvCall (PatchPlacement (ClusterFrom (p_Meta p)) (Name (p_Meta p))
                          {[ key := v ]})] in
        (ts = [] /\ found = None /\ es = [] /\ p' = mark_not_scheduled p reason message) \/
        (ts = [] /\ is_Some found /\ es = patch None /\ p' = p) \/
        ((exists st, st ∈ ts /\ found = Some (key_of st)) /\ es = [] /\
           p' = mark_scheduled p /\ b = false) \/
        ((forall st, st ∈ ts -> found <> Some (key_of st)) /\ p' = p /\ b = true /\
           exists st, st ∈ ts /\ es = patch (Some (key_of st)))
    end.
Proof.
  intros Hr. unfold reconcile, patchPlacementAnnotation, try, call, mbind, M_bind.
  destruct (getAllValidSyncTargetsForPlacement c p) as [err|[[ts reason] message]].
  { eexists _, _, _, []. rewrite app_nil_r. split; [done|]. done. }
  destruct ts as [|t ts].
  - destruct (map_get _ _) as [v|] eqn:F.
    + destruct (DoPatchPlacement c _); simpl; (eexists _, _, _, _; split; [done|]);
        (split; [done|]); (split; [done|]); right; left; eauto.
    + eexists _, _, _, []. rewrite app_nil_r. split; [done|].
      split; [done|]. split; [done|]. by left.
  - destruct (existsb _ _) eqn:X.
    + apply existsb_exists in X as (st & Hin%list_elem_of_In & Hk%bool_decide_eq_true).
      eexists _, _, _, []. rewrite app_nil_r. split; [done|].
      split; [done|]. split; [done|]. right; right; left. split; [eauto|done].
    + assert (rand_Intn c (length (t :: ts)) < length (t :: ts)) as Hlt
        by (apply Hr; simpl; lia).
      destruct ((t :: ts) !! rand_Intn c (length (t :: ts))) as [st|] eqn:L;
        [|apply lookup_ge_None in L; lia].
      apply list_elem_of_lookup_2 in L.
      assert (forall st, st ∈ t :: ts ->
        map_get (Annotations (p_Meta p)) InternalSyncTargetPlacementAnnotationKey
          <> Some (key_of st)) as Hne.
      { intros st' Hin E. apply not_true_iff_false in X. apply X, existsb_exists.
        exists st'. split; [by apply list_elem_of_In|]. by apply bool_decide_true. }
      destruct (DoPatchPlacement c _); simpl; (eexists _, _, _, _; split; [done|]);
        (split; [done|]); (split; [done|]); right; right; right; eauto 10.
Qed.

End lemmas.

Section theorems.
Context {EL : ErrorLib} {LL : LabelLib} {CL : ClusterLib} {CO : ConditionLib}.
Context {EqSp : DeepEq PlacementSpec} {EqSt : DeepEq PlacementStatus}.

Lemma getAll_valid c p ts r m :
  getAllValidSyncTargetsForPlacement c p = inr (ts, r, m) ->
  forall st, st ∈ ts <-> valid_target c p st.
Proof.
  intros H st. split; [by apply (valid_targets_sound c p ts r m)|].
  by apply (valid_targets_complete c p ts r m).
Qed.


(** A SyncTarget that is marked unschedulable loses the placements that are
    already on it: the annotation of the current key is replaced or removed, as
    if it were being evicted. *)
Theorem unschedulable_evicts c p ts r m current :
  rand_ok c -> getAllValidSyncTargetsForPlacement c p = inr (ts, r, m) ->
  map_get (Annotations (p_Meta p)) InternalSyncTargetPlacementAnnotationKey = Some current ->
  (forall cluster sts st, listSyncTargets c cluster = inr sts -> st ∈ sts ->
     key_of st = current -> Unschedulable (st_Spec st) = true) ->
  exists v, trace (reconcile c p) = [EvCall (PatchPlacement (ClusterFrom (p_Meta p))
      (Name (p_Meta p)) {[ InternalSyncTargetPlacementAnnotationKey := v ]})] /\
    v <> Some current.
Proof.
  intros Hr HA Hcur Hun. pose proof (getAll_valid c p ts r m HA) as Hts.
  assert (forall st, st ∈ ts -> key_of st <> current) as Hno.
  { intros st Hst Hk. apply Hts in Hst as (? & ? & ? & ? & ? & Hv).
    destruct Hv as (_ & _ & _ & Hl & _ & _ & Hin & _ & _ & Hready & _).
    unfold is_ready in Hready. rewrite (Hun _ _ st Hl Hin Hk) in Hready.
    by rewrite andb_false_r in Hready. }
  destruct (workload_reconcile_run c p [] Hr) as (p' & b & e & es & E & _ & _ & Hc).
  rewrite HA in Hc. cbv zeta in Hc. rewrite Hcur in Hc. unfold trace, run. rewrite E. simpl.
  destruct Hc as [(_ & ? & _)|[(_ & _ & -> & _)|[((st & Hst & [= Hk]) & _)|
      (Hne & _ & _ & st & Hst & ->)]]]; try done.
  - by exists None.
  - by destruct (Hno st Hst).
  - exists (Some (key_of st)). split; [done|]. intros [= Hk]. by apply (Hno st Hst).
Qed.

(** Processing a placement never panics: the annotation is changed by a call
    of its own and only conditions are committed. *)
Theorem workload_process_never_panics c zeroSpec zeroStatus key h :
  rand_ok c -> is_panic (process c zeroSpec zeroStatus key h).2 = false.
Proof.
  intros Hr. unfold process. destruct (SplitMetaClusterNamespaceKey key); [done|].
  apply process_no_panic.
  - intros old h0. by destruct (workload_reconcile_run c old h0 Hr)
      as (p' & b & e & es & -> & _).
  - intros old h0 h' obj b e h2.
    destruct (workload_reconcile_run c old h0 Hr) as (p' & b' & e' & es & -> & Hm & Hs & _).
    intros [= _ <- _ _]. unfold commit, NewCommitter. apply commit_no_panic.
    + by apply one_sided_status.
    + intros bs h3. apply call_no_panic.
Qed.
End theorems.

(** * A concrete instance *)

Module Examples.
#[local] Existing Instance simple_errors.
#[local] Existing Instance simple_labels.
#[local] Existing Instance simple_clusters.
#[local] Existing Instance simple_conditions.
#[local] Instance spec_eq : DeepEq PlacementSpec := eq_DeepEq.
#[local] Instance status_eq : DeepEq PlacementStatus := eq_DeepEq.

Definition any : LabelSelector := {| MatchLabels := None; MatchExpressions := [] |}.
Definition gvr : GroupVersionResource :=
  {| gvr_Group := "workload.kcp.io"; gvr_Version := "v1alpha1"; gvr_Resource := "synctargets" |}.
Definition placement (a : gomap) : Placement := {|
  p_Meta := mk_meta "p" "" None a [];
  p_Spec := {| LocationSelectors := [any]; LocationResource := gvr;
    NamespaceSelector := Some any; LocationWorkspace := "" |};
  p_Status := {| p_Phase := PlacementBound;
    p_SelectedLocation := Some {| lr_Path := ""; lr_LocationName := "eu" |};
    p_Conditions := [] |} |}.
Definition location : Location := {|
  l_Meta := mk_meta "eu" "" None None [];
  l_Spec := {| l_Resource := gvr; l_Description := ""; l_AvailableSelectorLabels := [];
    l_InstanceSelector := Some any |};
  l_Status := {| Instances := None; AvailableInstances := None |} |}.
Definition deployments : GroupResource := {| gr_Group := "apps"; gr_Resource := "deployments" |}.
Definition target (n : string) (unschedulable : bool) : SyncTarget := {|
  st_Meta := mk_meta n "" None None [];
  st_Spec := {| Unschedulable := unschedulable; EvictAfter := None;
                SupportedAPIExports := []; Cells := None |};
  st_Status := {| Allocatable := None; Capacity := None;
    st_Conditions := MarkTrue [] ReadyCondition;
    SyncedResources := [{| rs_GroupResource := deployments; rs_Versions := ["v1"];
      rs_IdentityHash := "h"; rs_State := ResourceSchemaAcceptedState |}];
    LastSyncerHeartbeatTime := None; VirtualWorkspaces := []; TunnelWorkspaces := [] |} |}.
Definition binding : APIBinding := {|
  ab_Meta := mk_meta "kubernetes" "" None (Some {[ ComputeAPIExportAnnotationKey := "true" ]}) [];
  BoundResources := [{| br_GroupResource := deployments; br_IdentityHash := "h" |}] |}.
Definition world (targets : list SyncTarget) : controller := {|
  listSyncTargets _ := inr targets;
  listLocations _ := inr [location];
  getLocation _ _ := inr location;
  apiBindings _ := inr [binding];
  listPlacements _ := inr [];
  placementsBySelectedLocationPath _ := inr [];
  getPlacement _ _ := inr (placement None);
  now := 0%Z;
  rand_Intn _ := 0;
  DoPatchPlacement _ := inr (placement None);
  Marshal _ := inr "{}"; CreateMergePatch _ _ := inr "patch"; DoPatch _ := inr tt |}.
Definition on (st : SyncTarget) : Placement :=
  placement (Some {[ InternalSyncTargetPlacementAnnotationKey := key_of st ]}).
Definition two : controller := world [target "a" false; target "b" false].

Lemma rand_zero ts : rand_ok (world ts).
Proof. intros n Hn. exact Hn. Qed.


(** The only SyncTarget becomes unschedulable: the placement loses it. *)
Lemma unschedulable_witness :
  exists v, trace (reconcile (world [target "a" true]) (on (target "a" true))) =
    [EvCall (PatchPlacement "" "p" {[ InternalSyncTargetPlacementAnnotationKey := v ]})] /\
    v <> Some (key_of (target "a" true)).
Proof.
  assert (getAllValidSyncTargetsForPlacement (world [target "a" true]) (on (target "a" true)) =
    inr ([], ScheduleNoValidTargetReason, "No SyncTarget is ready or non evicting")) as HA
    by (vm_compute; reflexivity).
  apply (unschedulable_evicts (world [target "a" true]) (on (target "a" true)) _ _ _
    (key_of (target "a" true)) (rand_zero _) HA).
  - vm_compute. reflexivity.
  - intros cl sts st [= <-] ->%list_elem_of_singleton _. reflexivity.
Defined.


Lemma workload_never_panics_witness :
  is_panic (outcome (process (world []) (p_Spec (placement None))
    (p_Status (placement None)) "root|p")) = false.
Proof. apply workload_process_never_panics, rand_zero. Defined.
End Examples.
