(* ===== verification/SyncTargets.v ===== *)
(** * The SyncTarget controllers ([pkg/reconciler/workload/heartbeat] and
      [pkg/reconciler/workload/synctargetexports])

    [Heartbeat] marks a SyncTarget unhealthy when its syncer stops reporting;
    [Exports] computes the types a SyncTarget has to sync from the API exports it
    supports and decides, per type, whether the physical cluster's schema is
    compatible. *)

From S2P Require Import Prelude Platform GoTime GoSort ApiTypes Committer Workqueue.

Abbreviation event := (event Empty_set) (only parsing).
Abbreviation SM := (M event) (only parsing).

Definition resource_of (s : SyncTarget) : Resource SyncTargetSpec SyncTargetStatus :=
  mkResource (st_Meta s) (st_Spec s) (st_Status s).

Module Heartbeat.

Record Controller := {
  heartbeatThreshold : Z;
  getSyncTarget : string -> string -> result SyncTarget;
  (** [time.Since] and [time.Until] read the clock separately. *)
  now_since : Time;
  now_until : Time;
  (** [fmt] rendering of a [time.Time]. *)
  Time_String : Time -> string;
  Marshal : Resource SyncTargetSpec SyncTargetStatus -> result string;
  CreateMergePatch : string -> string -> result string;
  DoPatch : list event -> result unit;
}.

Section controller.
Context {EL : ErrorLib} {CL : ClusterLib} {CO : ConditionLib}.
Context {EqSp : DeepEq SyncTargetSpec} {EqSt : DeepEq SyncTargetStatus}.
Variable c : Controller.

Definition latestHeartbeat (cluster : SyncTarget) : Time :=
  default ZeroTime (LastSyncerHeartbeatTime (st_Status cluster)).
Definition mark_missed (cluster : SyncTarget) (msg : string) : SyncTarget :=
  set_st_conditions cluster (MarkFalse (st_Conditions (st_Status cluster)) HeartbeatHealthy
    ErrorHeartbeatMissedReason ConditionSeverityWarning msg).
(** The deferred [conditions.SetSummary]. *)
Definition summarize (cluster : SyncTarget) : SyncTarget :=
  set_st_conditions cluster (SetSummary (st_Conditions (st_Status cluster))
    [SyncerReady; APIImporterReady; HeartbeatHealthy]).

Definition reconcile (key : string) (cluster : SyncTarget) : SM SyncTarget :=
  let latest := latestHeartbeat cluster in
  cluster ←
    (if IsZero latest then mret (mark_missed cluster "No heartbeat yet seen")
     else if decide (heartbeatThreshold c < Sub (now_since c) latest)%Z then
       mret (mark_missed cluster ("No heartbeat since " +:+ Time_String c latest))
     else
       emit (EvAddAfter key (Sub (latest + heartbeatThreshold c) (now_until c)));;
       mret (set_st_conditions cluster
               (MarkTrue (st_Conditions (st_Status cluster)) HeartbeatHealthy)));
  mret (summarize cluster).

Variables (zeroSpec : SyncTargetSpec) (zeroStatus : SyncTargetStatus).
Definition commit (old obj : SyncTarget) : SM unit :=
  NewCommitter zeroSpec zeroStatus (Marshal c) (CreateMergePatch c)
    (fun cluster name patch => call (EvPatch cluster name patch) (DoPatch c)) ClusterFrom
    (resource_of old) (resource_of obj).
(** A SyncTarget that cannot be read is dropped whatever the error. *)
Definition process : string -> SM bool :=
  process (fun _ => true) (getSyncTarget c)
    (fun key st => st ← reconcile key st; mret (st, false, None)) commit.
Definition processNextWorkItem (key : string) : SM unit := processNextWorkItem process key.
Definition enqueue (obj : ObjectMeta) : SM unit := enqueue obj.

End controller.

(** ** Theorems *)

Section theorems.
Context {EL : ErrorLib} {CL : ClusterLib} {CO : ConditionLib}.
Context {EqSp : DeepEq SyncTargetSpec} {EqSt : DeepEq SyncTargetStatus}.

(** A heartbeat was seen and is not older than the threshold. *)
Definition alive (c : Controller) (cluster : SyncTarget) : Prop :=
  latestHeartbeat cluster <> ZeroTime /\
  (Sub (now_since c) (latestHeartbeat cluster) <= heartbeatThreshold c)%Z.

(** The heartbeat: after a pass HeartbeatHealthy is true exactly when a
    heartbeat was seen within the threshold (false, not unknown, otherwise),
    the other conditions but Ready are untouched, and exactly a healthy
    SyncTarget is scheduled for another look when its heartbeat would expire. *)
Theorem heartbeat_spec c key cluster :
  exists cluster',
    outcome (reconcile c key cluster) = Ok cluster' /\
    (alive c cluster ->
       IsTrue (st_Conditions (st_Status cluster')) HeartbeatHealthy = true /\
       trace (reconcile c key cluster) =
         [EvAddAfter key (Sub (latestHeartbeat cluster + heartbeatThreshold c) (now_until c))]) /\
    (~ alive c cluster ->
       IsFalse (st_Conditions (st_Status cluster')) HeartbeatHealthy = true /\
       trace (reconcile c key cluster) = []) /\
    (forall t, t <> HeartbeatHealthy -> t <> ReadyCondition ->
       GetCondition (st_Conditions (st_Status cluster')) t =
         GetCondition (st_Conditions (st_Status cluster)) t) /\
    st_Meta cluster' = st_Meta cluster /\ st_Spec cluster' = st_Spec cluster.
Proof.
  assert (HeartbeatHealthy <> "Ready") as Hne by (unfold HeartbeatHealthy; discriminate).
  unfold alive, outcome, trace, run, reconcile, summarize, mark_missed, IsZero,
    emit, mbind, M_bind, mret, M_ret.
  case_bool_decide as Z; [|destruct (decide (_ < _)%Z) as [L|L]]; simpl;
    (eexists; split; [done|]); simpl; unfold IsTrue, IsFalse;
    rewrite ?(Get_SetSummary_ne _ _ _ Hne).
  - split; [by intros []|]. split.
    { intros _. destruct (Get_MarkFalse (st_Conditions (st_Status cluster)) HeartbeatHealthy
        ErrorHeartbeatMissedReason ConditionSeverityWarning "No heartbeat yet seen")
        as (cd & -> & -> & _). done. }
    split; [|done]. intros t Ht Hr. rewrite Get_SetSummary_ne by done.
    by apply Get_MarkFalse_ne.
  - split; [intros []; lia|]. split.
    { intros _. edestruct (Get_MarkFalse (st_Conditions (st_Status cluster)) HeartbeatHealthy)
        as (cd & -> & -> & _). done. }
    split; [|done]. intros t Ht Hr. rewrite Get_SetSummary_ne by done.
    by apply Get_MarkFalse_ne.
  - split.
    { intros _. destruct (Get_MarkTrue (st_Conditions (st_Status cluster)) HeartbeatHealthy)
        as (cd & -> & ->). done. }
    split; [intros []; split; [done|lia]|].
    split; [|done]. intros t Ht Hr. rewrite Get_SetSummary_ne by done.
    by apply Get_MarkTrue_ne.
Qed.

(** Processing a SyncTarget never panics. *)
Lemma heartbeat_never_panics c zeroSpec zeroStatus key h :
  is_panic (process c zeroSpec zeroStatus key h).2 = false.
Proof.
  assert (forall key st h, exists h' st', reconcile c key st h = (h', Ok st') /\
    st_Meta st' = st_Meta st /\ st_Spec st' = st_Spec st) as Hr.
  { intros k st h0. unfold reconcile, emit, mbind, M_bind, mret, M_ret.
    destruct (IsZero _); [by eexists _, _|]. case_decide; by eexists _, _. }
  unfold process. apply process_no_panic.
  - intros old h0. unfold mbind, M_bind. by destruct (Hr key old h0) as (h' & st' & -> & _).
  - intros old h0 h' obj b e h2. unfold mbind at 1, M_bind at 1.
    destruct (Hr key old h0) as (h1 & st' & -> & Hm & Hs). intros [= _ <- _ _].
    unfold commit, NewCommitter. apply commit_no_panic; [by apply one_sided_status|].
    intros bs h3. apply call_no_panic.
Qed.
End theorems.
End Heartbeat.

Module Exports.

Section exports.
Context {MO : MapOrder} {EL : ErrorLib} {CL : ClusterLib} {SL : SchemaLib}.
Context {EqSp : DeepEq SyncTargetSpec} {EqSt : DeepEq SyncTargetStatus}.
(** A JSON schema, and kcp's check that the downstream schema can serve the
    upstream one. *)
Context {JSONSchema : Type}.
Variable EnsureStructuralSchemaCompatibility :
  string -> JSONSchema -> JSONSchema -> result JSONSchema.

(** The parts of kcp's APIExport and APIResourceSchema, and of the repository's
    APIResourceImport, that are read. [GetSchema] may fail to parse. *)
Record APIExport := {
  ae_Meta : ObjectMeta;
  LatestResourceSchemas : list string;
  ae_IdentityHash : string;
}.
Record APIResourceVersion := {
  arv_Name : string;
  arv_Served : bool;
  arv_GetSchema : result JSONSchema;
}.
Record APIResourceSchema := {
  ars_Group : string;
  ars_Plural : string;
  ars_Versions : list APIResourceVersion;
}.
Record APIResourceImport := {
  ari_Meta : ObjectMeta;
  ari_Location : string;
  ari_GVR : GroupVersionResource;
  ari_GetSchema : result JSONSchema;
}.

Record Controller := {
  getAPIExport : string -> string -> result APIExport;
  getAPIResourceSchema : string -> string -> result APIResourceSchema;
  listAPIResourceImports : string -> result (list APIResourceImport);
  getSyncTarget : string -> string -> result SyncTarget;
  syncTargetKeysByExport : string -> result (list string);
  GetByKey : string -> result ObjectMeta;
  exportsBySchema : string -> result (list ObjectMeta);
  Marshal : Resource SyncTargetSpec SyncTargetStatus -> result string;
  CreateMergePatch : string -> string -> result string;
  DoPatch : list event -> result unit;
}.
Variable c : Controller.

(** The workspace of an export reference: the SyncTarget's own by default. *)
Definition export_path (syncTarget : SyncTarget) (ref : APIExportReference) : string :=
  if decide (ref_Path ref = "") then ClusterFrom (st_Meta syncTarget) else ref_Path ref.

(** ** [synctargetexports_reconcile.go] *)

Definition convertSchemaToSyncedResource (clusterName schemaName identityHash : string)
    : result ResourceToSync :=
  schema ← getAPIResourceSchema c clusterName schemaName;
  inr {| rs_GroupResource := {| gr_Group := ars_Group schema; gr_Resource := ars_Plural schema |};
         rs_Versions := merge_sort string_le
           (arv_Name <$> filter (fun v => arv_Served v = true) (ars_Versions schema));
         rs_IdentityHash := identityHash;
         rs_State := "" |}.

(** The schemas of one export; one that cannot be read is skipped. *)
Definition export_resources (export : APIExport) : list ResourceToSync :=
  omap (fun schema =>
    match convertSchemaToSyncedResource (ClusterFrom (ae_Meta export)) schema
            (ae_IdentityHash export) with
    | inr r => Some r
    | inl _ => None
    end) (LatestResourceSchemas export).
(** The loop over the supported exports. *)
Definition add_export (syncTarget : SyncTarget) (p : list ResourceToSync * list error)
    (ref : APIExportReference) : list ResourceToSync * list error :=
  match getAPIExport c (export_path syncTarget ref) (ref_Export ref) with
  | inl err => if IsNotFound err then p else (p.1, p.2 ++ [err])
  | inr export => (p.1 ++ export_resources export, p.2)
  end.

(** The comparison given to [sort.SliceStable]. *)
Definition string_gt (a b : string) : bool :=
  match String.compare a b with Gt => true | _ => false end.
Definition resource_less (a b : ResourceToSync) : bool :=
  if string_gt (gr_Group (rs_GroupResource a)) (gr_Group (rs_GroupResource b)) then true
  else if string_gt (gr_Resource (rs_GroupResource a)) (gr_Resource (rs_GroupResource b))
  then true else false.

Definition set_state (r : ResourceToSync) (state : string) : ResourceToSync :=
  {| rs_GroupResource := rs_GroupResource r; rs_Versions := rs_Versions r;
     rs_IdentityHash := rs_IdentityHash r; rs_State := state |}.
Definition same_resource (a b : ResourceToSync) : bool :=
  bool_decide (rs_GroupResource a = rs_GroupResource b) &&
  bool_decide (rs_IdentityHash a = rs_IdentityHash b).
(** The state of an existing type goes to the first synced one it denotes. *)
Fixpoint merge_state (synced : list ResourceToSync) (existing : ResourceToSync)
    : list ResourceToSync :=
  match synced with
  | [] => []
  | r :: synced =>
      if same_resource r existing then set_state r (rs_State existing) :: synced
      else r :: merge_state synced existing
  end.

Definition reconcile_exports (syncTarget : SyncTarget) : SyncTarget * option error :=
  let '(synced, errs) :=
    foldl (add_export syncTarget) ([], []) (SupportedAPIExports (st_Spec syncTarget)) in
  let synced := SliceStable resource_less synced in
  let synced := foldl merge_state synced (SyncedResources (st_Status syncTarget)) in
  (set_SyncedResources syncTarget synced, NewAggregate errs).

(** ** [synctargetcompatible_reconcile.go] *)

Abbreviation schema_map := (gmap GroupVersionResource JSONSchema) (only parsing).

Definition add_schema_version (schema : APIResourceSchema) (p : schema_map * list error)
    (v : APIResourceVersion) : schema_map * list error :=
  match arv_GetSchema v with
  | inl err => (p.1, p.2 ++ [err])
  | inr jsonSchema =>
      (<[ {| gvr_Group := ars_Group schema; gvr_Version := arv_Name v;
             gvr_Resource := ars_Plural schema |} := jsonSchema ]> p.1, p.2)
  end.
(** The schemas of one export. An error other than not found is recorded, but
    the loop goes on to read the nil schema. *)
Fixpoint add_export_schemas (clusterName : string) (names : list string)
    (p : schema_map * list error) : res (schema_map * list error) :=
  match names with
  | [] => Ok p
  | schemaName :: names =>
      match getAPIResourceSchema c clusterName schemaName with
      | inl err =>
          if IsNotFound err then add_export_schemas clusterName names p
          else Panic "invalid memory address or nil pointer dereference"
      | inr schema =>
          add_export_schemas clusterName names
            (foldl (add_schema_version schema) p (ars_Versions schema))
      end
  end.
Fixpoint upstream_schemas (syncTarget : SyncTarget) (refs : list APIExportReference)
    (p : schema_map * list error) : res (schema_map * list error) :=
  match refs with
  | [] => Ok p
  | ref :: refs =>
      match getAPIExport c (export_path syncTarget ref) (ref_Export ref) with
      | inl err =>
          upstream_schemas syncTarget refs
            (if IsNotFound err then p else (p.1, p.2 ++ [err]))
      | inr export =>
          p ← add_export_schemas (ClusterFrom (ae_Meta export)) (LatestResourceSchemas export) p;
          upstream_schemas syncTarget refs p
      end
  end.
Definition add_import (p : schema_map * list error) (i : APIResourceImport)
    : schema_map * list error :=
  match ari_GetSchema i with
  | inl err => (p.1, p.2 ++ [err])
  | inr jsonSchema => (<[ ari_GVR i := jsonSchema ]> p.1, p.2)
  end.

Definition version_gvr (r : ResourceToSync) (v : string) : GroupVersionResource :=
  {| gvr_Group := gr_Group (rs_GroupResource r); gvr_Version := v;
     gvr_Resource := gr_Resource (rs_GroupResource r) |}.
(** The loop over the versions of one type: it stops at the first compatible
    one, the state of the last one looked at remains otherwise. *)
Fixpoint resource_state (schemaMap apiImportMap : schema_map) (r : ResourceToSync)
    (versions : list string) (state : string) : string :=
  match versions with
  | [] => state
  | v :: versions =>
      let gvr := version_gvr r v in
      match schemaMap !! gvr with
      | None => resource_state schemaMap apiImportMap r versions ResourceSchemaPendingState
      | Some upstreamSchema =>
          match apiImportMap !! gvr with
          | None =>
              resource_state schemaMap apiImportMap r versions ResourceSchemaIncompatibleState
          | Some downStreamSchema =>
              match EnsureStructuralSchemaCompatibility (GVR_String gvr) upstreamSchema
                      downStreamSchema with
              | inl _ =>
                  resource_state schemaMap apiImportMap r versions
                    ResourceSchemaIncompatibleState
              | inr _ => ResourceSchemaAcceptedState
              end
          end
      end
  end.

(** The reconciler keeps the SyncTarget when the imports cannot be listed. *)
Definition reconcile_compatible (syncTarget : SyncTarget) : res (SyncTarget * option error) :=
  '(schemaMap, errs) ← upstream_schemas syncTarget (SupportedAPIExports (st_Spec syncTarget))
                         (∅, []);
  match listAPIResourceImports c (ClusterFrom (st_Meta syncTarget)) with
  | inl err => Ok (syncTarget, Some err)
  | inr apiImports =>
      let '(apiImportMap, errs) := foldl add_import (∅, errs) apiImports in
      Ok (set_SyncedResources syncTarget
            ((fun r => set_state r
                (resource_state schemaMap apiImportMap r (rs_Versions r) (rs_State r)))
             <$> SyncedResources (st_Status syncTarget)),
          NewAggregate errs)
  end.

(** ** [synctargetexports_controller.go] *)

Definition reconcile (syncTarget : SyncTarget) : res (SyncTarget * option error) :=
  let '(syncTarget, err1) := reconcile_exports syncTarget in
  '(syncTarget, err2) ← reconcile_compatible syncTarget;
  Ok (syncTarget, NewAggregate (option_list err1 ++ option_list err2)).

Variables (zeroSpec : SyncTargetSpec) (zeroStatus : SyncTargetStatus).
Definition commit (old obj : SyncTarget) : SM unit :=
  NewCommitter zeroSpec zeroStatus (Marshal c) (CreateMergePatch c)
    (fun cluster name patch => call (EvPatch cluster name patch) (DoPatch c)) ClusterFrom
    (resource_of old) (resource_of obj).
(** An invalid key is reported; a SyncTarget that cannot be read is dropped. *)
Definition process (key : string) : SM bool :=
  match SplitMetaClusterNamespaceKey key with
  | inl err => emit (EvHandleError err);; mret false
  | inr _ =>
      Workqueue.process (fun _ => true) (getSyncTarget c)
        (fun _ st => '(st, err) ← lift (reconcile st); mret (st, false, err)) commit key
  end.
Definition processNextWorkItem (key : string) : SM unit :=
  Workqueue.processNextWorkItem process key.

Definition enqueueSyncTarget (obj : ObjectMeta) : SM unit := enqueue obj.
(** [kcpcache.ToClusterAwareKey] is kcp's. *)
Definition enqueueAPIResourceImport (ToClusterAwareKey : string -> string -> string -> string)
    (apiImport : APIResourceImport) : SM unit :=
  emit (EvAdd (ToClusterAwareKey (ClusterFrom (ari_Meta apiImport)) "" (ari_Location apiImport))).
Definition enqueue_key (key : string) : SM unit :=
  match GetByKey c key with
  | inl err => emit (EvHandleError err)
  | inr st => enqueueSyncTarget st
  end.
Definition enqueueAPIExport (LogicalClusterPathAnnotationKey : string) (export : ObjectMeta)
    : SM unit :=
  let path := map_index (Annotations export) LogicalClusterPathAnnotationKey in
  match (if decide (path = "") then inr []
         else syncTargetKeysByExport c (PathJoin path (Name export))) with
  | inl err => emit (EvHandleError err)
  | inr pathKeys =>
      match syncTargetKeysByExport c (PathJoin (ClusterFrom export) (Name export)) with
      | inl err => emit (EvHandleError err)
      | inr clusterKeys =>
          for_each (set_list (list_to_set (pathKeys ++ clusterKeys))) enqueue_key
      end
  end.
Definition enqueueAPIResourceSchema (LogicalClusterPathAnnotationKey : string)
    (schema : ObjectMeta) : SM unit :=
  match MetaClusterNamespaceKeyFunc schema with
  | inl err => emit (EvHandleError err)
  | inr key =>
      match exportsBySchema c key with
      | inl err => emit (EvHandleError err)
      | inr apiExports => for_each apiExports (enqueueAPIExport LogicalClusterPathAnnotationKey)
      end
  end.
Definition indexSyncTargetsByExports (synctarget : SyncTarget) : list string :=
  (fun export => PathJoin (if decide (ref_Path export = "")
                           then ClusterFrom (st_Meta synctarget) else ref_Path export)
                          (ref_Export export)) <$> SupportedAPIExports (st_Spec synctarget).
Definition indexAPIExportsByAPIResourceSchemas
    (ToClusterAwareKey : string -> string -> string -> string) (apiExport : APIExport)
    : list string :=
  (fun schema => ToClusterAwareKey (ClusterFrom (ae_Meta apiExport)) "" schema)
    <$> LatestResourceSchemas apiExport.
(** The SyncTarget [UpdateFunc]. *)
Definition syncTargetUpdate (old obj : SyncTarget) : SM unit :=
  if bool_decide (SupportedAPIExports (st_Spec old) = SupportedAPIExports (st_Spec obj)) &&
     bool_decide (SyncedResources (st_Status old) = SyncedResources (st_Status obj))
  then mret tt else enqueueSyncTarget (st_Meta obj).

End exports.

(** ** Theorems *)

Section theorems.
Context {MO : MapOrder} {EL : ErrorLib} {CL : ClusterLib} {SL : SchemaLib}.
Context {JSONSchema : Type}.
Variable Compat : string -> JSONSchema -> JSONSchema -> result JSONSchema.
Abbreviation Ctl := (@Controller JSONSchema) (only parsing).

(** The types the supported exports ask for, in the order they are listed. *)
Definition desired_resources (c : Ctl) (st : SyncTarget) : list ResourceToSync :=
  flat_map (fun ref =>
    match getAPIExport c (export_path st ref) (ref_Export ref) with
    | inr export => export_resources c export
    | inl _ => []
    end) (SupportedAPIExports (st_Spec st)).
Definition export_errors (c : Ctl) (st : SyncTarget)
    : list error :=
  flat_map (fun ref =>
    match getAPIExport c (export_path st ref) (ref_Export ref) with
    | inl err => if IsNotFound err then [] else [err]
    | inr _ => []
    end) (SupportedAPIExports (st_Spec st)).

Lemma add_export_loop (c : Ctl) st l rs es :
  foldl (add_export c st) (rs, es) l =
    (rs ++ flat_map (fun ref =>
       match getAPIExport c (export_path st ref) (ref_Export ref) with
       | inr export => export_resources c export
       | inl _ => []
       end) l,
     es ++ flat_map (fun ref =>
       match getAPIExport c (export_path st ref) (ref_Export ref) with
       | inl err => if IsNotFound err then [] else [err]
       | inr _ => []
       end) l).
Proof.
  revert rs es. induction l as [|ref l IH]; intros rs es; simpl; [by rewrite !app_nil_r|].
  unfold add_export at 2. destruct (getAPIExport c _ _) as [err|e]; simpl.
  - destruct (IsNotFound err); rewrite IH; simpl; [done|by rewrite <-app_assoc].
  - by rewrite IH, <-app_assoc.
Qed.

Lemma merge_state_erase rs x :
  (fun r => set_state r "") <$> merge_state rs x = (fun r => set_state r "") <$> rs.
Proof.
  induction rs as [|r rs IH]; simpl; [done|].
  destruct (same_resource r x); simpl; [done|]. f_equal. exact IH.
Qed.
Lemma merge_state_from rs x r :
  r ∈ merge_state rs x -> r ∈ rs \/ (same_resource r x = true /\ rs_State r = rs_State x).
Proof.
  induction rs as [|y rs IH]; simpl; [by left|].
  destruct (same_resource y x) eqn:S; intros [->|Hin]%elem_of_cons.
  - by right.
  - left. by apply list_elem_of_further.
  - left. apply list_elem_of_here.
  - destruct (IH Hin); [left; by apply list_elem_of_further|by right].
Qed.

Lemma export_resources_fresh (c : Ctl) e r :
  r ∈ export_resources c e -> rs_State r = "".
Proof.
  unfold export_resources. rewrite list_elem_of_omap. intros (s & _ & Hs). revert Hs.
  unfold convertSchemaToSyncedResource.
  by destruct (getAPIResourceSchema c _ s); simpl; [|intros [= <-]].
Qed.

(** The types to sync: up to their order, the synced resources after a pass
    are the types of all the schemas that could be read of all the supported
    exports that exist, each with the identity of its export; a state is
    carried over only from an existing entry of the same type and identity,
    and the pass reports exactly the exports that could not be read. *)
Theorem exports_spec (c : Ctl) st :
  let '(st', err) := reconcile_exports c st in
  ((fun r => set_state r "") <$> SyncedResources (st_Status st')) ≡ₚ desired_resources c st /\
  (forall r, r ∈ SyncedResources (st_Status st') -> rs_State r = "" \/
     exists x, x ∈ SyncedResources (st_Status st) /\ same_resource r x = true /\
       rs_State r = rs_State x) /\
  err = NewAggregate (export_errors c st) /\
  st_Meta st' = st_Meta st /\ st_Spec st' = st_Spec st.
Proof.
  unfold reconcile_exports. rewrite add_export_loop. simpl.
  fold (desired_resources c st) (export_errors c st).
  set (d := desired_resources c st).
  assert (forall r, r ∈ d -> rs_State r = "") as Hfresh.
  { unfold d, desired_resources. intros r (ref & _ & Hr)%list_elem_of_In%in_flat_map.
    apply list_elem_of_In in Hr. destruct (getAPIExport c _ _) as [|e];
      [by apply elem_of_nil in Hr|by eapply export_resources_fresh]. }
  split; [|split; [|done]].
  - assert (forall xs rs, (fun r => set_state r "") <$> foldl merge_state rs xs =
      (fun r => set_state r "") <$> rs) as ->.
    { induction xs as [|x xs IH]; intros rs; [done|]. simpl.
      by rewrite IH, merge_state_erase. }
    rewrite SliceStable_perm. clear -Hfresh. induction d as [|r d IH]; [done|].
    rewrite fmap_cons, IH; [|intros r' Hr'; by apply Hfresh, list_elem_of_further].
    assert (set_state r "" = r) as ->; [|done].
    specialize (Hfresh r (list_elem_of_here _ _)). by destruct r; simpl in *; subst.
  - assert (forall xs rs r, r ∈ foldl merge_state rs xs -> r ∈ rs \/
      exists x, x ∈ xs /\ same_resource r x = true /\ rs_State r = rs_State x) as H.
    { induction xs as [|x xs IH]; intros rs r; simpl; [by left|].
      intros [Hr|(y & Hy & Hs)]%IH.
      - apply merge_state_from in Hr as [Hr|Hr]; [by left|]. right. exists x.
        split; [apply list_elem_of_here|done].
      - right. exists y. split; [by apply list_elem_of_further|done]. }
    intros r [Hr|Hr]%H; [|by right]. left. apply Hfresh. by rewrite SliceStable_perm in Hr.
Qed.

(** One version of a type can be served: both schemas are known and compatible. *)
Definition version_compatible (sm im : gmap GroupVersionResource JSONSchema)
    (r : ResourceToSync) (v : string) : Prop :=
  exists u d x, sm !! version_gvr r v = Some u /\ im !! version_gvr r v = Some d /\
    Compat (GVR_String (version_gvr r v)) u d = inr x.

Lemma resource_state_spec sm im r vs s :
  s <> ResourceSchemaAcceptedState ->
  (resource_state Compat sm im r vs s = ResourceSchemaAcceptedState <->
   exists v, v ∈ vs /\ version_compatible sm im r v).
Proof.
  revert s. induction vs as [|v vs IH]; intros s Hs; simpl.
  { split; [done|]. by intros (v & []%elem_of_nil & _). }
  assert (ResourceSchemaPendingState <> ResourceSchemaAcceptedState) as N1
    by (unfold ResourceSchemaPendingState; discriminate).
  assert (ResourceSchemaIncompatibleState <> ResourceSchemaAcceptedState) as N2
    by (unfold ResourceSchemaIncompatibleState; discriminate).
  assert (~ version_compatible sm im r v ->
    ((exists w, w ∈ vs /\ version_compatible sm im r w) <->
     (exists w, w ∈ v :: vs /\ version_compatible sm im r w))) as Hskip.
  { intros Hno. split.
    - intros (w & Hw & Hc). exists w. split; [by apply list_elem_of_further|done].
    - intros (w & [->|Hw]%elem_of_cons & Hc); [done|eauto]. }
  destruct (sm !! version_gvr r v) as [u|] eqn:E1.
  - destruct (im !! version_gvr r v) as [d|] eqn:E2.
    + destruct (Compat (GVR_String (version_gvr r v)) u d) as [e|x] eqn:E3.
      * rewrite IH by done. apply Hskip. intros (u' & d' & x & ? & ? & ?). congruence.
      * split; [intros _|done]. exists v. split; [apply list_elem_of_here|].
        exists u, d, x. done.
    + rewrite IH by done. apply Hskip. intros (u' & d' & x & ? & ? & ?). congruence.
  - rewrite IH by done. apply Hskip. intros (u' & d' & x & ? & ? & ?). congruence.
Qed.

(** Compatibility decides placement: after a pass a type with at least one
    version is Accepted exactly when, for one of its served versions, the
    upstream schema and the schema imported from the physical cluster are both
    known and compatible; its other fields do not change. *)
Theorem compatible_spec (c : Ctl) st st' err imports :
  reconcile_compatible Compat c st = Ok (st', err) ->
  listAPIResourceImports c (ClusterFrom (st_Meta st)) = inr imports ->
  exists sm im,
    forall i r, SyncedResources (st_Status st) !! i = Some r ->
      rs_State r <> ResourceSchemaAcceptedState ->
      exists r', SyncedResources (st_Status st') !! i = Some r' /\
        set_state r' (rs_State r) = r /\
        (rs_State r' = ResourceSchemaAcceptedState <->
         exists v, v ∈ rs_Versions r /\ version_compatible sm im r v).
Proof.
  unfold reconcile_compatible. intros H Hi.
  destruct (upstream_schemas c st _ _) as [[sm es]|e|s]; simpl in H; try done.
  rewrite Hi in H. destruct (foldl add_import (∅, es) imports) as [im es'].
  injection H as <- _. exists sm, im. intros i r Hr Hs. simpl.
  rewrite list_lookup_fmap, Hr. simpl. eexists. split; [done|].
  split; [by destruct r|]. simpl. by apply resource_state_spec.
Qed.

Lemma add_export_schemas_panics (c : Ctl) cl names p n err :
  n ∈ names -> getAPIResourceSchema c cl n = inl err -> IsNotFound err = false ->
  is_panic (add_export_schemas c cl names p) = true.
Proof.
  intros Hn E1 E2. revert p. induction names as [|x l IH]; intros p;
    [by apply elem_of_nil in Hn|]. simpl. apply elem_of_cons in Hn as [<-|Hn].
  - by rewrite E1, E2.
  - destruct (getAPIResourceSchema c cl x) as [e|s]; [|by apply IH].
    destruct (IsNotFound e); [by apply IH|done].
Qed.

Lemma add_export_schemas_no_err (c : Ctl) cl names p err :
  add_export_schemas c cl names p <> Err err.
Proof.
  revert p. induction names as [|x l IH]; intros p; simpl; [done|].
  destruct (getAPIResourceSchema c cl x) as [e|s]; [|apply IH].
  destruct (IsNotFound e); [apply IH|done].
Qed.

(** An error (other than not found) when reading the schema of an existing
    export is recorded and then the missing schema is read anyway: the pass
    panics. *)
Theorem compatible_panics_on_error (c : Ctl) st ref export n err :
  ref ∈ SupportedAPIExports (st_Spec st) ->
  getAPIExport c (export_path st ref) (ref_Export ref) = inr export ->
  n ∈ LatestResourceSchemas export ->
  getAPIResourceSchema c (ClusterFrom (ae_Meta export)) n = inl err ->
  IsNotFound err = false ->
  is_panic (reconcile_compatible Compat c st) = true.
Proof.
  intros Href He Hn E1 E2. unfold reconcile_compatible.
  assert (forall refs p, ref ∈ refs -> is_panic (upstream_schemas c st refs p) = true) as H.
  { induction refs as [|x l IH]; intros p; [by intros []%elem_of_nil|].
    intros [<-|Hin]%elem_of_cons; simpl.
    - rewrite He. pose proof (add_export_schemas_panics c (ClusterFrom (ae_Meta export))
        (LatestResourceSchemas export) p n err Hn E1 E2) as Hp.
      by destruct (add_export_schemas c _ _ p).
    - destruct (getAPIExport c (export_path st x) (ref_Export x)) as [e|e]; [by apply IH|].
      destruct (add_export_schemas c _ _ p) as [q|err'|s] eqn:Ea; simpl; [by apply IH| |done].
      by apply add_export_schemas_no_err in Ea. }
  specialize (H (SupportedAPIExports (st_Spec st)) (∅, []) Href).
  by destruct (upstream_schemas c st _ _).
Qed.
End theorems.

(** ** A concrete instance *)

Module Examples.
#[local] Existing Instance canonical_order.
#[local] Existing Instance simple_errors.
#[local] Existing Instance simple_clusters.
#[local] Existing Instance simple_schema.

(** Schemas are numbers; a downstream schema serves those up to its own. *)
Definition compat (_ : string) (up down : nat) : result nat :=
  if decide (up <= down) then inr up else inl (ErrMsg "incompatible").
Definition group_resource (g r : string) : GroupResource := {| gr_Group := g; gr_Resource := r |}.
Definition synced (g r v state : string) : ResourceToSync :=
  {| rs_GroupResource := group_resource g r; rs_Versions := [v]; rs_IdentityHash := "h";
     rs_State := state |}.
Definition target (l : list ResourceToSync) : SyncTarget := {|
  st_Meta := mk_meta "t" "" None None [];
  st_Spec := {| Unschedulable := false; EvictAfter := None;
    SupportedAPIExports := [{| ref_Path := "root"; ref_Export := "kubernetes" |}];
    Cells := None |};
  st_Status := {| Allocatable := None; Capacity := None; st_Conditions := [];
    SyncedResources := l; LastSyncerHeartbeatTime := None;
    VirtualWorkspaces := []; TunnelWorkspaces := [] |} |}.
Definition export : APIExport :=
  {| ae_Meta := mk_meta "kubernetes" "" None None [];
     LatestResourceSchemas := ["apps"; "core"]; ae_IdentityHash := "h" |}.
Definition schema (g r : string) : APIResourceSchema (JSONSchema := nat) :=
  {| ars_Group := g; ars_Plural := r;
     ars_Versions := [{| arv_Name := "v1"; arv_Served := true; arv_GetSchema := inr 1 |}] |}.
Definition world (core : result (APIResourceSchema (JSONSchema := nat))) : @Controller nat := {|
  getAPIExport _ _ := inr export;
  getAPIResourceSchema _ n :=
    if decide (n = "apps") then inr (schema "apps" "deployments") else core;
  listAPIResourceImports _ := inr [{| ari_Meta := mk_meta "i" "" None None [];
    ari_Location := "t";
    ari_GVR := {| gvr_Group := "apps"; gvr_Version := "v1"; gvr_Resource := "deployments" |};
    ari_GetSchema := inr 2 |}];
  getSyncTarget _ _ := inr (target []);
  syncTargetKeysByExport _ := inr [];
  GetByKey _ := inl (ErrLib "NotFound" "");
  exportsBySchema _ := inr [];
  Marshal _ := inr "{}"; CreateMergePatch _ _ := inr "patch"; DoPatch _ := inr tt |}.
Definition services := world (inr (schema "" "services")).

Lemma compatible_witness : exists r',
  SyncedResources (st_Status match reconcile_compatible compat services
      (target [synced "apps" "deployments" "v1" ""]) with Ok (st, _) => st | _ => target [] end)
    !! 0 = Some r' /\ set_state r' "" = synced "apps" "deployments" "v1" "".
Proof.
  eassert (reconcile_compatible compat services (target [synced "apps" "deployments" "v1" ""]) =
    Ok (target [synced "apps" "deployments" "v1" "Accepted"], None)) as E
    by (vm_compute; reflexivity).
  destruct (compatible_spec compat services _ _ _ _ E eq_refl) as (sm & im & H).
  destruct (H 0 (synced "apps" "deployments" "v1" "") eq_refl ltac:(discriminate))
    as (r' & Hr & Hs & _).
  rewrite E. exists r'. split; [exact Hr|exact Hs].
Defined.

Lemma compatible_panics_witness :
  is_panic (reconcile_compatible compat (world (inl (ErrLib "Timeout" ""))) (target [])) = true.
Proof.
  apply (compatible_panics_on_error compat (world (inl (ErrLib "Timeout" ""))) (target [])
    {| ref_Path := "root"; ref_Export := "kubernetes" |} export "core" (ErrLib "Timeout" ""));
    try reflexivity.
  - apply list_elem_of_here.
  - apply list_elem_of_further, list_elem_of_here.
Defined.

(** The comparison given to the sort holds both ways, so the order of the synced
    resources depends on the order of the exports. *)
Example resource_less_both_ways :
  resource_less (synced "apps" "a" "v1" "") (synced "" "b" "v1" "") = true /\
  resource_less (synced "" "b" "v1" "") (synced "apps" "a" "v1" "") = true /\
  SliceStable resource_less [synced "apps" "a" "v1" ""; synced "" "b" "v1" ""] <>
  SliceStable resource_less [synced "" "b" "v1" ""; synced "apps" "a" "v1" ""].
Proof. vm_compute. split; [done|]. split; [done|]. discriminate. Qed.
End Examples.

End Exports.
