(* ===== verification/Json.v ===== *)
(** * Go's [encoding/json]

    The text that [json.Marshal] writes and the reader behind [json.Unmarshal],
    on the bytes of the text: string escapes, UTF-8 and its replacement
    character, number literals and the nesting limit.  Components turn a
    parsed value into their own struct. *)

From S2P Require Import Prelude.
From Stdlib Require Import Lia.
Local Open Scope N_scope.

(** A JSON value. The fields of an object keep their order and duplicates; a
    number is its literal. *)
Inductive json :=
  | JNull
  | JBool (b : bool)
  | JNumber (lit : string)
  | JString (s : string)
  | JArray (l : list json)
  | JObject (l : list (string * json)).

(** ** Bytes and UTF-8 *)

Definition byte_of (n : N) : ascii := ascii_of_N n.
Definition code (a : ascii) : N := N_of_ascii a.
Definition is_ascii (a : ascii) : bool := code a <? 128.
Definition between (lo hi : N) (a : ascii) : bool := (lo <=? code a) && (code a <=? hi).
Definition cont (a : ascii) : bool := between 128 191 a.
Definition quote_char : ascii := byte_of 34.
Definition backslash : ascii := byte_of 92.

(** [utf8.DecodeRuneInString] on a first byte that is not ASCII: the code point
    and the bytes after it, or nothing on an invalid sequence. *)
Definition decode_rune (s : string) : option (N * string) :=
  match s with
  | String a (String b r) =>
      if between 194 223 a && cont b
      then Some ((code a - 192) * 64 + (code b - 128), r) else
      match r with
      | String c r =>
          if ((between 224 224 a && between 160 191 b)
              || (between 237 237 a && between 128 159 b)
              || ((between 225 236 a || between 238 239 a) && cont b)) && cont c
          then Some (((code a - 224) * 64 + (code b - 128)) * 64 + (code c - 128), r) else
          match r with
          | String d r =>
              if ((between 240 240 a && between 144 191 b)
                  || (between 244 244 a && between 128 143 b)
                  || (between 241 243 a && cont b)) && cont c && cont d
              then Some ((((code a - 240) * 64 + (code b - 128)) * 64 + (code c - 128)) * 64
                         + (code d - 128), r)
              else None
          | _ => None
          end
      | _ => None
      end
  | _ => None
  end.

(** [utf8.EncodeRune]; a surrogate half or a value out of range is U+FFFD. *)
Definition bytes_string (l : list N) : string :=
  fold_right (fun n s => String (byte_of n) s) "" l.
Definition replacement : string := bytes_string [239; 191; 189].
Definition encode_rune (r : N) : string :=
  if r <? 128 then bytes_string [r]
  else if r <? 2048 then bytes_string [192 + r / 64; 128 + r mod 64]
  else if ((55296 <=? r) && (r <=? 57343)) || (1114111 <? r) then replacement
  else if r <? 65536
  then bytes_string [224 + r / 4096; 128 + (r / 64) mod 64; 128 + r mod 64]
  else bytes_string [240 + r / 262144; 128 + (r / 4096) mod 64; 128 + (r / 64) mod 64;
                     128 + r mod 64].

(** ** Writing *)

Definition hex_digit (n : N) : ascii := byte_of (if n <? 10 then 48 + n else 87 + n).

(** [encodeState.string] with HTML escaping, one byte below 128. *)
Definition escape_byte (a : ascii) : string :=
  let n := code a in
  if (n =? 34) || (n =? 92) then String backslash (String a "")
  else if n =? 10 then String backslash "n"
  else if n =? 13 then String backslash "r"
  else if n =? 9 then String backslash "t"
  else if (n <? 32) || (n =? 60) || (n =? 62) || (n =? 38)
  then String backslash ("u00" +:+ String (hex_digit (n / 16)) (String (hex_digit (n mod 16)) ""))
  else String a "".

Fixpoint escape_go (fuel : nat) (s : string) : string :=
  match fuel, s with
  | _, EmptyString => ""
  | O, _ => ""
  | S fuel, String a r =>
      if is_ascii a then escape_byte a +:+ escape_go fuel r
      else match decode_rune s with
           | None => String backslash "ufffd" +:+ escape_go fuel r
           | Some (c, r') =>
               (if (c =? 8232) || (c =? 8233)
                then String backslash ("u202" +:+ String (hex_digit (c mod 16)) "")
                else String.substring 0 (String.length s - String.length r')%nat s)
               +:+ escape_go fuel r'
           end
  end.
Definition escape (s : string) : string := escape_go (String.length s) s.
Definition quote (s : string) : string :=
  String quote_char (escape s +:+ String quote_char "").

(** [json.Marshal]: compact, the fields in order. *)
Fixpoint print (j : json) : string :=
  match j with
  | JNull => "null"
  | JBool true => "true"
  | JBool false => "false"
  | JNumber lit => lit
  | JString s => quote s
  | JArray l => "[" +:+ Join (map print l) "," +:+ "]"
  | JObject l =>
      "{" +:+ Join (map (fun '(k, v) => quote k +:+ ":" +:+ print v) l) "," +:+ "}"
  end.

(** ** Reading *)

(** A reader returns a value and the rest of the text, a syntax error, or runs
    out of fuel. *)
Inductive reading (A : Type) :=
  | Read (a : A) (rest : string)
  | SyntaxError
  | OutOfFuel.
Arguments Read {_} _ _.
Arguments SyntaxError {_}.
Arguments OutOfFuel {_}.

Definition is_space (a : ascii) : bool :=
  let n := code a in (n =? 32) || (n =? 9) || (n =? 10) || (n =? 13).
Fixpoint skip_space (s : string) : string :=
  match s with
  | String a r => if is_space a then skip_space r else s
  | EmptyString => ""
  end.

Definition hex_val (a : ascii) : option N :=
  if between 48 57 a then Some (code a - 48)
  else if between 97 102 a then Some (code a - 87)
  else if between 65 70 a then Some (code a - 55)
  else None.
(** [getu4] after the [\u]. *)
Definition read_u4 (s : string) : option (N * string) :=
  match s with
  | String a (String b (String c (String d r))) =>
      match hex_val a, hex_val b, hex_val c, hex_val d with
      | Some a, Some b, Some c, Some d => Some (((a * 16 + b) * 16 + c) * 16 + d, r)
      | _, _, _, _ => None
      end
  | _ => None
  end.
Definition is_surrogate (r : N) : bool := (55296 <=? r) && (r <=? 57343).
(** The text after a high surrogate, when the low one follows. *)
Definition low_surrogate (r : N) (s : string) : option (N * string) :=
  match s with
  | String a (String b s') =>
      if (code a =? 92) && (code b =? 117) && (r <? 56320) then
        match read_u4 s' with
        | Some (r2, s'') =>
            if (56320 <=? r2) && (r2 <=? 57343)
            then Some ((r - 55296) * 1024 + (r2 - 56320) + 65536, s'') else None
        | None => None
        end
      else None
  | _ => None
  end.

(** What follows a backslash: the bytes it stands for and the rest. *)
Definition unescape (s : string) : option (string * string) :=
  match s with
  | EmptyString => None
  | String a r =>
      let n := code a in
      if (n =? 34) || (n =? 92) || (n =? 47) then Some (String a "", r)
      else if n =? 98 then Some (bytes_string [8], r)
      else if n =? 102 then Some (bytes_string [12], r)
      else if n =? 110 then Some (bytes_string [10], r)
      else if n =? 114 then Some (bytes_string [13], r)
      else if n =? 116 then Some (bytes_string [9], r)
      else if n =? 117 then
        match read_u4 r with
        | None => None
        | Some (c, r) =>
            if is_surrogate c then
              match low_surrogate c r with
              | Some (c', r') => Some (encode_rune c', r')
              | None => Some (replacement, r)
              end
            else Some (encode_rune c, r)
        end
      else None
  end.

(** A string literal after its opening quote ([unquoteBytes]). *)
Fixpoint read_string (fuel : nat) (s : string) : reading string :=
  match fuel with
  | O => OutOfFuel
  | S fuel =>
      let cons (b : string) (r : string) :=
        match read_string fuel r with
        | Read t rest => Read (b +:+ t) rest
        | e => e
        end in
      match s with
      | EmptyString => SyntaxError
      | String a r =>
          if code a =? 34 then Read "" r
          else if code a =? 92 then
            match unescape r with Some (b, r) => cons b r | None => SyntaxError end
          else if code a <? 32 then SyntaxError
          else if is_ascii a then cons (String a "") r
          else match decode_rune s with
               | Some (c, r') => cons (encode_rune c) r'
               | None => cons replacement r
               end
      end
  end.

(** A number: the longest run of its characters must be a literal. After a
    complete literal the scanner accepts none of them. *)
Definition is_digit (a : ascii) : bool := between 48 57 a.
Definition number_char (a : ascii) : bool :=
  is_digit a || existsb (fun n => code a =? n) [43; 45; 46; 69; 101].
Fixpoint span (p : ascii -> bool) (s : string) : string * string :=
  match s with
  | String a r => if p a then let '(x, y) := span p r in (String a x, y) else ("", s)
  | EmptyString => ("", "")
  end.
Definition skip_char (ns : list N) (s : string) : string :=
  match s with
  | String a r => if existsb (fun n => code a =? n) ns then r else s
  | EmptyString => ""
  end.
Definition digits1 (s : string) : option string :=
  match span is_digit s with (EmptyString, _) => None | (_, r) => Some r end.
Definition integer_part (s : string) : option string :=
  match s with
  | String a r => if code a =? 48 then Some r else digits1 s
  | EmptyString => None
  end.
Definition fraction_part (s : string) : option string :=
  match s with
  | String a r => if code a =? 46 then digits1 r else Some s
  | EmptyString => Some s
  end.
Definition exponent_part (s : string) : option string :=
  match s with
  | String a r => if (code a =? 69) || (code a =? 101) then digits1 (skip_char [43; 45] r)
                  else Some s
  | EmptyString => Some s
  end.
Definition is_number (lit : string) : bool :=
  match (s ← integer_part (skip_char [45] lit); s ← fraction_part s; exponent_part s) with
  | Some EmptyString => true
  | _ => false
  end.

(** [maxNestingDepth]. *)
Definition max_depth : N := 10000.

Definition literal (word : string) (j : json) (s : string) : reading json :=
  match strip_prefix word s with Some r => Read j r | None => SyntaxError end.

Fixpoint read_value (fuel : nat) (depth : N) (s : string) : reading json :=
  match fuel with
  | O => OutOfFuel
  | S fuel =>
      let s := skip_space s in
      match s with
      | EmptyString => SyntaxError
      | String a r =>
          let n := code a in
          if n =? 34 then
            match read_string (String.length s) r with
            | Read t rest => Read (JString t) rest
            | SyntaxError => SyntaxError
            | OutOfFuel => OutOfFuel
            end
          else if n =? 123 then
            if depth =? 0 then SyntaxError else
            match skip_space r with
            | String b r' =>
                if code b =? 125 then Read (JObject []) r'
                else match read_members fuel (depth - 1) r with
                     | Read l rest => Read (JObject l) rest
                     | SyntaxError => SyntaxError
                     | OutOfFuel => OutOfFuel
                     end
            | EmptyString => SyntaxError
            end
          else if n =? 91 then
            if depth =? 0 then SyntaxError else
            match skip_space r with
            | String b r' =>
                if code b =? 93 then Read (JArray []) r'
                else match read_elements fuel (depth - 1) r with
                     | Read l rest => Read (JArray l) rest
                     | SyntaxError => SyntaxError
                     | OutOfFuel => OutOfFuel
                     end
            | EmptyString => SyntaxError
            end
          else if n =? 116 then literal "true" (JBool true) s
          else if n =? 102 then literal "false" (JBool false) s
          else if n =? 110 then literal "null" JNull s
          else if number_char a then
            let '(lit, rest) := span number_char s in
            if is_number lit then Read (JNumber lit) rest else SyntaxError
          else SyntaxError
      end
  end
with read_elements (fuel : nat) (depth : N) (s : string) : reading (list json) :=
  match fuel with
  | O => OutOfFuel
  | S fuel =>
      match read_value fuel depth s with
      | Read v rest =>
          match skip_space rest with
          | String a r =>
              if code a =? 93 then Read [v] r
              else if code a =? 44 then
                match read_elements fuel depth r with
                | Read l rest => Read (v :: l) rest
                | e => e
                end
              else SyntaxError
          | EmptyString => SyntaxError
          end
      | SyntaxError => SyntaxError
      | OutOfFuel => OutOfFuel
      end
  end
with read_members (fuel : nat) (depth : N) (s : string) : reading (list (string * json)) :=
  match fuel with
  | O => OutOfFuel
  | S fuel =>
      match skip_space s with
      | String q r =>
          if code q =? 34 then
            match read_string (String.length s) r with
            | Read k rest =>
                match skip_space rest with
                | String c r =>
                    if code c =? 58 then
                      match read_value fuel depth r with
                      | Read v rest =>
                          match skip_space rest with
                          | String a r =>
                              if code a =? 125 then Read [(k, v)] r
                              else if code a =? 44 then
                                match read_members fuel depth r with
                                | Read l rest => Read ((k, v) :: l) rest
                                | e => e
                                end
                              else SyntaxError
                          | EmptyString => SyntaxError
                          end
                      | SyntaxError => SyntaxError
                      | OutOfFuel => OutOfFuel
                      end
                    else SyntaxError
                | EmptyString => SyntaxError
                end
            | SyntaxError => SyntaxError
            | OutOfFuel => OutOfFuel
            end
          else SyntaxError
      | EmptyString => SyntaxError
      end
  end.

(** The value of a whole text. *)
Definition parse_fuel (s : string) : nat := (2 * String.length s + 2)%nat.
Definition parse_with (fuel : nat) (s : string) : reading json :=
  match read_value fuel max_depth s with
  | Read j rest => match skip_space rest with EmptyString => Read j "" | _ => SyntaxError end
  | e => e
  end.
Definition syntax_error : error := ErrLib "SyntaxError" "invalid character in JSON text".
Definition parse (s : string) : result json :=
  match parse_with (parse_fuel s) s with
  | Read j _ => inr j
  | SyntaxError | OutOfFuel => inl syntax_error
  end.

(** ** Reading back *)

(** Texts of ASCII bytes. *)
Definition ascii_string (s : string) : bool :=
  forallb is_ascii (String.list_ascii_of_string s).

(** One escaped byte is read back as that byte. *)
Lemma read_escape_byte f a s :
  is_ascii a = true ->
  read_string (S f) (escape_byte a +:+ s) =
    match read_string f s with Read t rest => Read (String a t) rest | e => e end.
Proof.
  destruct a as [[] [] [] [] [] [] [] []]; intros H; try discriminate H; reflexivity.
Qed.
Lemma length_escape_byte a : (1 <= String.length (escape_byte a))%nat.
Proof. unfold escape_byte. repeat case_match; simpl; lia. Qed.

Lemma read_escape f n s rest :
  ascii_string s = true -> (String.length s <= n)%nat -> (String.length s < f)%nat ->
  read_string f (escape_go n s +:+ String quote_char rest) = Read s rest.
Proof.
  revert f n; induction s as [|a s IH]; intros f n Ha Hn Hf; simpl in Hn, Hf.
  - destruct f as [|f]; [lia|]. by destruct n.
  - destruct f as [|f]; [lia|]. destruct n as [|n]; [lia|].
    unfold ascii_string in Ha; simpl in Ha. apply andb_prop in Ha as [Ha Hs].
    cbn [escape_go]. rewrite Ha, string_app_assoc, read_escape_byte by done.
    by rewrite IH by (done || lia).
Qed.
Lemma length_escape n s :
  ascii_string s = true -> (String.length s <= n)%nat ->
  (String.length s <= String.length (escape_go n s))%nat.
Proof.
  revert n; induction s as [|a s IH]; intros n Ha Hn; simpl in *; [lia|].
  destruct n as [|n]; [lia|]. unfold ascii_string in Ha; simpl in Ha.
  apply andb_prop in Ha as [Ha Hs]. cbn [escape_go]. rewrite Ha, string_app_length.
  pose proof (length_escape_byte a). specialize (IH n Hs). lia.
Qed.

(** Values made of ASCII texts and valid numbers; how deep they nest and how
    much fuel the reader needs for them. *)
Fixpoint ascii_json (j : json) : bool :=
  match j with
  | JNull | JBool _ => true
  | JNumber lit => is_number lit && forallb number_char (String.list_ascii_of_string lit)
  | JString s => ascii_string s
  | JArray l => forallb ascii_json l
  | JObject l => forallb (fun '(k, v) => ascii_string k && ascii_json v) l
  end.
Fixpoint json_depth (j : json) : N :=
  match j with
  | JArray l => 1 + foldr (fun v d => N.max (json_depth v) d) 0 l
  | JObject l => 1 + foldr (fun kv d => N.max (json_depth kv.2) d) 0 l
  | _ => 0
  end.
Fixpoint json_fuel (j : json) : nat :=
  match j with
  | JArray l => S (foldr (fun v n => S (json_fuel v + n)) O l)
  | JObject l => S (foldr (fun kv n => S (json_fuel kv.2 + n)) O l)
  | _ => 1%nat
  end.

Section json_induction.
Variable P : json -> Prop.
Hypothesis Hnull : P JNull.
Hypothesis Hbool : forall b, P (JBool b).
Hypothesis Hnumber : forall lit, P (JNumber lit).
Hypothesis Hstring : forall s, P (JString s).
Hypothesis Harray : forall l, Forall P l -> P (JArray l).
Hypothesis Hobject : forall l, Forall (fun kv => P kv.2) l -> P (JObject l).
Fixpoint json_induction (j : json) : P j :=
  match j with
  | JNull => Hnull
  | JBool b => Hbool b
  | JNumber lit => Hnumber lit
  | JString s => Hstring s
  | JArray l => Harray l
      ((fix go l : Forall P l :=
          match l with
          | [] => Forall_nil_2 P
          | v :: l => Forall_cons_2 P v l (json_induction v) (go l)
          end) l)
  | JObject l => Hobject l
      ((fix go l : Forall (fun kv => P kv.2) l :=
          match l with
          | [] => Forall_nil_2 _
          | kv :: l => Forall_cons_2 (fun kv => P kv.2) kv l (json_induction kv.2) (go l)
          end) l)
  end.
End json_induction.

(** What follows a value ends a number. *)
Definition stops (rest : string) : bool :=
  match rest with EmptyString => true | String a _ => negb (number_char a) end.

Lemma span_number lit rest :
  forallb number_char (String.list_ascii_of_string lit) = true -> stops rest = true ->
  span number_char (lit +:+ rest) = (lit, rest).
Proof.
  intros Hl Hr. induction lit as [|a lit IH]; simpl in *.
  - destruct rest as [|b rest]; [done|]. simpl in *. by destruct (number_char b).
  - apply andb_prop in Hl as [Ha Hl]. rewrite Ha. by rewrite (IH Hl).
Qed.

(** The first byte of a printed value. *)
Lemma print_head j :
  ascii_json j = true ->
  exists a r, print j = String a r /\ is_space a = false /\
    code a <> 93 /\ code a <> 125.
Proof.
  destruct j as [|[]|[|a lit]|s|l|l]; intros H; simpl in H;
    try (eexists _, _; split; [reflexivity|]; vm_compute; done).
  - done.
  - exists a, lit. split; [done|]. apply andb_prop in H as [_ H]. simpl in H.
    apply andb_prop in H as [H _].
    destruct a as [[] [] [] [] [] [] [] []]; try discriminate H; vm_compute; done.
Qed.
Lemma skip_space_print j rest :
  ascii_json j = true -> skip_space (print j +:+ rest) = print j +:+ rest.
Proof. intros H. destruct (print_head j H) as (a & r & -> & Ha & _). simpl. by rewrite Ha. Qed.

Lemma string_length_pos j : ascii_json j = true -> (1 <= String.length (print j))%nat.
Proof. intros H. destruct (print_head j H) as (a & r & -> & _). simpl. lia. Qed.

Lemma Join_cons x l sep :
  Join (x :: l) sep = x +:+ match l with [] => "" | _ => sep +:+ Join l sep end.
Proof. destruct l; simpl; [by rewrite string_app_nil|done]. Qed.

(** The reader reads the printed value back, whatever stops after it. *)
Definition reads (j : json) : Prop := forall fuel depth rest,
  ascii_json j = true -> stops rest = true -> (json_fuel j <= fuel)%nat ->
  json_depth j <= depth -> read_value fuel depth (print j +:+ rest) = Read j rest.

Lemma read_quoted s rest :
  ascii_string s = true ->
  read_string (String.length (quote s +:+ rest)) (escape s +:+ String quote_char rest) = Read s rest.
Proof.
  intros H. unfold escape. apply read_escape; [done|lia|].
  unfold quote, escape. simpl. rewrite !string_app_length.
  pose proof (length_escape (String.length s) s H (le_n _)). simpl. lia.
Qed.
Lemma quote_app s rest : quote s +:+ rest = String quote_char (escape s +:+ String quote_char rest).
Proof. unfold quote. rewrite string_app_cons. f_equal. by rewrite string_app_assoc. Qed.

Lemma read_print_elements l fuel depth rest :
  Forall reads l -> l <> [] ->
  forallb ascii_json l = true ->
  (foldr (fun v n => S (json_fuel v + n)) O l <= fuel)%nat ->
  foldr (fun v d => N.max (json_depth v) d) 0 l <= depth ->
  read_elements fuel depth (Join (map print l) "," +:+ String "]" rest) = Read l rest.
Proof.
  intros HF. revert fuel. induction HF as [|v l Hv HF IH]; intros fuel Hne Ha Hf Hd; [done|].
  simpl in Ha, Hf, Hd. apply andb_prop in Ha as [Hav Hal].
  destruct fuel as [|fuel]; [lia|]. cbn [map]. rewrite Join_cons, string_app_assoc.
  cbn [read_elements]. rewrite Hv; [|done|by destruct l|lia|lia].
  destruct l as [|w l]; [done|].
  change ((map print (w :: l))) with (print w :: map print l).
  cbv iota beta. rewrite string_app_assoc. simpl (skip_space _).
  cbv beta iota. rewrite IH; [done|done|done|lia|lia].
Qed.

Lemma read_print_members l fuel depth rest :
  Forall (fun kv => reads kv.2) l -> l <> [] ->
  forallb (fun '(k, v) => ascii_string k && ascii_json v) l = true ->
  (foldr (fun kv n => S (json_fuel kv.2 + n)) O l <= fuel)%nat ->
  foldr (fun kv d => N.max (json_depth kv.2) d) 0 l <= depth ->
  read_members fuel depth
    (Join (map (fun '(k, v) => quote k +:+ ":" +:+ print v) l) "," +:+ String "}" rest)
  = Read l rest.
Proof.
  intros HF. revert fuel. induction HF as [|[k v] l Hv HF IH]; intros fuel Hne Ha Hf Hd; [done|].
  simpl in Ha, Hf, Hd, Hv. apply andb_prop in Ha as [Hkv Hal]. apply andb_prop in Hkv as [Hk Hav].
  destruct fuel as [|fuel]; [lia|]. cbn [map]. rewrite Join_cons, !string_app_assoc.
  cbn [read_members].
  pose proof (read_quoted k) as Hread. setoid_rewrite quote_app in Hread. rewrite quote_app.
  change (skip_space (String quote_char ?x)) with (String quote_char x). cbv iota.
  change (code quote_char =? 34) with true. cbv iota. rewrite Hread by done.
  rewrite string_app_cons. simpl (skip_space (String ":" _)). cbv iota beta.
  change (code ":" =? 58) with true. cbv iota.
  change ("" +:+ ?x) with x. rewrite (Hv fuel depth); [|done|by destruct l|lia|lia].
  destruct l as [|w l]; [done|]. revert IH Hne Hal Hf Hd. 
  cbn [map]. intros. cbv iota beta. rewrite string_app_assoc. simpl (skip_space _).
  cbv beta iota. rewrite IH; [done|done|done|lia|lia].
Qed.

Lemma print_array l rest :
  print (JArray l) +:+ rest = String "[" (Join (map print l) "," +:+ String "]" rest).
Proof.
  change (print (JArray l)) with (String "[" (Join (map print l) "," +:+ "]")).
  rewrite string_app_cons. f_equal. by rewrite string_app_assoc.
Qed.
Lemma print_object l rest :
  print (JObject l) +:+ rest =
    String "{" (Join (map (fun '(k, v) => quote k +:+ ":" +:+ print v) l) ","
                +:+ String "}" rest).
Proof.
  change (print (JObject l)) with
    (String "{" (Join (map (fun '(k, v) => quote k +:+ ":" +:+ print v) l) "," +:+ "}")).
  rewrite string_app_cons. f_equal. by rewrite string_app_assoc.
Qed.

Lemma read_print_value j : reads j.
Proof.
  induction j as [|b|lit|s|l IH|l IH] using json_induction;
    intros [|fuel] depth rest Ha Hs Hf Hd; simpl in Hf; try lia;
    cbn [read_value]; rewrite skip_space_print by done.
  - done.
  - by destruct b.
  - simpl in Ha. apply andb_prop in Ha as [Hn Hc].
    simpl print. destruct lit as [|a lit]; [done|]. rewrite string_app_cons.
    rewrite <-(string_app_cons a lit rest), (span_number (String a lit) rest Hc Hs), Hn.
    simpl in Hc. apply andb_prop in Hc as [Hc _].
    destruct a as [[] [] [] [] [] [] [] []]; try discriminate Hc; reflexivity.
  - simpl print. rewrite quote_app. change (code quote_char =? 34) with true. cbv iota zeta.
    rewrite <-(quote_app s rest), read_quoted by done. done.
  - simpl in Hd. rewrite print_array. cbv zeta.
    change (code "[" =? 34) with false. change (code "[" =? 123) with false.
    change (code "[" =? 91) with true. cbv iota.
    destruct (N.eqb_spec depth 0) as [|_]; [lia|].
    destruct l as [|v l]; [reflexivity|]. simpl in Ha. pose proof Ha as Ha'.
    apply andb_prop in Ha as [Hv _]. destruct (print_head v Hv) as (a & r & E & Hsp & H93 & _).
    pose proof (read_print_elements (v :: l) fuel (depth - 1) rest IH) as Hel.
    cbn [map] in Hel |- *. rewrite Join_cons in Hel |- *. rewrite E in Hel |- *. rewrite !string_app_cons in Hel |- *.
    cbn [skip_space]. rewrite Hsp. apply N.eqb_neq in H93. rewrite H93.
    rewrite Hel; [done|done|done|exact (le_S_n _ _ Hf)|lia].
  - simpl in Hd. rewrite print_object. cbv zeta.
    change (code "{" =? 34) with false. change (code "{" =? 123) with true. cbv iota.
    destruct (N.eqb_spec depth 0) as [|_]; [lia|].
    destruct l as [|[k v] l]; [reflexivity|].
    pose proof (read_print_members ((k, v) :: l) fuel (depth - 1) rest IH) as Hel.
    cbn [map] in Hel |- *. rewrite Join_cons in Hel |- *.
    unfold quote in Hel |- *. rewrite !string_app_cons in Hel |- *.
    cbn [skip_space]. change (is_space quote_char) with false. change (code quote_char =? 125) with false.
    cbv iota. rewrite Hel; [done|done|done|exact (le_S_n _ _ Hf)|lia].
Qed.

Lemma json_fuel_le j : ascii_json j = true -> (json_fuel j <= String.length (print j))%nat.
Proof.
  induction j as [|b|lit|s|l IH|l IH] using json_induction; intros Ha;
    try exact (string_length_pos _ Ha).
  - rewrite <-(string_app_nil (print _)), print_array. simpl in Ha |- *.
    rewrite string_app_length. simpl. apply le_n_S.
    induction IH as [|v l Hv IH IHl]; [simpl; lia|]. simpl in Ha.
    apply andb_prop in Ha as [Hav Hal]. cbn [foldr map]. rewrite Join_cons, string_app_length.
    specialize (Hv Hav). specialize (IHl Hal). destruct l as [|w l]; [simpl; lia|].
    cbn [map] in IHl |- *. rewrite string_app_length. simpl (String.length ","). lia.
  - rewrite <-(string_app_nil (print _)), print_object. simpl in Ha |- *.
    rewrite string_app_length. simpl. apply le_n_S.
    induction IH as [|[k v] l Hv IH IHl]; [simpl; lia|]. simpl in Ha, Hv.
    apply andb_prop in Ha as [Hav Hal]. apply andb_prop in Hav as [_ Hav].
    cbn [foldr map snd]. rewrite Join_cons, !string_app_length.
    specialize (Hv Hav). specialize (IHl Hal). simpl (String.length ":").
    destruct l as [|w l]; [simpl; lia|].
    cbn [map] in IHl |- *. rewrite string_app_length. simpl (String.length ","). lia.
Qed.

Lemma parse_print j : ascii_json j = true -> json_depth j <= max_depth -> parse (print j) = inr j.
Proof.
  intros Ha Hd. unfold parse, parse_with. rewrite <-(string_app_nil (print j)) at 2.
  rewrite (read_print_value j (parse_fuel (print j)) max_depth ""); [done|done|done| |done].
  pose proof (json_fuel_le j Ha). unfold parse_fuel. lia.
Qed.

(** ** The fuel is enough on every text *)

Lemma decode_rune_shorter s c r : decode_rune s = Some (c, r) -> (String.length r < String.length s)%nat.
Proof.
  unfold decode_rune. intros. repeat (case_match; simplify_eq/=; try done); simpl in *; lia.
Qed.
Lemma escape_go_fuel n m s :
  (String.length s <= n)%nat -> (String.length s <= m)%nat -> escape_go n s = escape_go m s.
Proof.
  revert m s; induction n as [|n IH]; intros m s Hn Hm.
  { destruct s; [by destruct m|simpl in Hn; lia]. }
  destruct s as [|a s]; [by destruct m|]. destruct m as [|m]; [simpl in Hm; lia|].
  simpl in Hn, Hm. cbn [escape_go]. destruct (is_ascii a); [by rewrite (IH m) by lia|].
  destruct (decode_rune (String a s)) as [[c r]|] eqn:E.
  - apply decode_rune_shorter in E. simpl in E. by rewrite (IH m) by lia.
  - by rewrite (IH m) by lia.
Qed.

Definition consumed {A} (n : nat) (r : reading A) : Prop :=
  match r with
  | Read _ rest => (String.length rest < n)%nat
  | SyntaxError => True
  | OutOfFuel => False
  end.
Lemma consumed_mono {A} n m (r : reading A) : consumed n r -> (n <= m)%nat -> consumed m r.
Proof. destruct r; simpl; [lia|done|done]. Qed.

Ltac shorter := repeat (case_match; simplify_eq/=; try done); simpl in *; try lia.
Lemma read_u4_shorter s c r : read_u4 s = Some (c, r) -> (String.length r < String.length s)%nat.
Proof. unfold read_u4. intros. shorter. Qed.
Lemma low_surrogate_shorter n s c r :
  low_surrogate n s = Some (c, r) -> (String.length r < String.length s)%nat.
Proof.
  unfold low_surrogate. intros. repeat (case_match; simplify_eq/=; try done).
  match goal with H : read_u4 _ = _ |- _ => apply read_u4_shorter in H end. lia.
Qed.
Lemma unescape_shorter s b r : unescape s = Some (b, r) -> (String.length r < String.length s)%nat.
Proof.
  unfold unescape. intros. destruct s as [|a s]; [done|].
  repeat (case_match; simplify_eq/=; try done); try lia;
    repeat match goal with
    | H : read_u4 _ = _ |- _ => apply read_u4_shorter in H
    | H : low_surrogate _ _ = _ |- _ => apply low_surrogate_shorter in H
    end; lia.
Qed.
Lemma skip_space_length s : (String.length (skip_space s) <= String.length s)%nat.
Proof. induction s as [|a s IH]; simpl; [lia|]. case_match; simpl; lia. Qed.
Lemma span_length p s : String.length s = (String.length (span p s).1 + String.length (span p s).2)%nat.
Proof.
  induction s as [|a s IH]; simpl; [done|]. destruct (p a); [|done].
  destruct (span p s). simpl in *. lia.
Qed.
Lemma literal_consumed w j s : (0 < String.length w)%nat -> consumed (String.length s) (literal w j s).
Proof.
  intros Hw. unfold literal. destruct (strip_prefix w s) as [r|] eqn:E; [|done].
  apply strip_prefix_Some in E as ->. simpl. rewrite string_app_length. lia.
Qed.

Lemma read_string_consumed f s :
  (String.length s < f)%nat -> consumed (String.length s) (read_string f s).
Proof.
  revert s; induction f as [|f IH]; intros s Hf; [lia|]. cbn [read_string].
  assert (Hc : forall b r, (String.length r < String.length s)%nat ->
    consumed (String.length s)
      match read_string f r with Read t rest => Read (b +:+ t) rest | e => e end).
  { intros b r Hr. specialize (IH r ltac:(lia)). destruct (read_string f r); simpl in *; [lia|done|done]. }
  destruct s as [|a s]; [done|]. cbv zeta. case_match; [simpl; lia|]. case_match.
  { destruct (unescape s) as [[b r]|] eqn:E; [|done]. apply Hc.
    apply unescape_shorter in E. simpl. lia. }
  case_match; [done|]. case_match; [apply Hc; simpl; lia|].
  destruct (decode_rune (String a s)) as [[c r]|] eqn:E; apply Hc; [|simpl; lia].
  by apply decode_rune_shorter in E.
Qed.

(** One unit of fuel per value and one per list cell: two per byte. *)
Definition value_total (f : nat) : Prop := forall d s,
  (2 * String.length s < f)%nat -> consumed (String.length s) (read_value f d s).
Definition elements_total (f : nat) : Prop := forall d s,
  (2 * String.length s + 1 < f)%nat -> consumed (String.length s) (read_elements f d s).
Definition members_total (f : nat) : Prop := forall d s,
  (2 * String.length s + 1 < f)%nat -> consumed (String.length s) (read_members f d s).

Ltac space_shorter :=
  repeat match goal with
  | E : skip_space ?s = String ?a ?r |- _ =>
      assert (String.length r < String.length s)%nat
        by (pose proof (skip_space_length s) as Hss; rewrite E in Hss; simpl in Hss; lia);
      clear E
  end.

Lemma value_total_step f : elements_total f -> members_total f -> value_total (S f).
Proof.
  intros He Hm d s Hf. cbn [read_value]. destruct (skip_space s) as [|a r] eqn:Es; [done|].
  pose proof (skip_space_length s) as Hl. rewrite Es in Hl. simpl in Hl. cbv zeta.
  apply consumed_mono with (String.length (String a r)); [|simpl; lia].
  case_match.
  { pose proof (read_string_consumed (String.length (String a r)) r ltac:(simpl; lia)) as H1.
    destruct (read_string _ r); simpl in *; [lia|done|done]. }
  case_match.
  { case_match; [done|]. destruct (skip_space r) as [|b r'] eqn:Er; [done|].
    case_match; [simpl; space_shorter; lia|].
    specialize (Hm (d - 1) r ltac:(lia)). destruct (read_members f (d - 1) r); simpl in *; [lia|done|done]. }
  case_match.
  { case_match; [done|]. destruct (skip_space r) as [|b r'] eqn:Er; [done|].
    case_match; [simpl; space_shorter; lia|].
    specialize (He (d - 1) r ltac:(lia)). destruct (read_elements f (d - 1) r); simpl in *; [lia|done|done]. }
  do 3 (case_match; [apply literal_consumed; simpl; lia|]).
  destruct (number_char a) eqn:Ha; [|done].
  pose proof (span_length number_char (String a r)) as Hs. simpl in Hs |- *. rewrite Ha in Hs |- *.
  destruct (span number_char r) as [x y]. simpl in Hs. case_match; [simpl; lia|done].
Qed.

Lemma elements_total_step f : value_total f -> elements_total f -> elements_total (S f).
Proof.
  intros Hv He d s Hf. cbn [read_elements]. specialize (Hv d s ltac:(lia)).
  destruct (read_value f d s) as [v rest| |]; [|done|done]. simpl in Hv.
  destruct (skip_space rest) as [|a r] eqn:Er; [done|]. space_shorter.
  case_match; [simpl; lia|]. case_match; [|done].
  specialize (He d r ltac:(lia)). destruct (read_elements f d r); simpl in *; [lia|done|done].
Qed.

Lemma members_total_step f : value_total f -> members_total f -> members_total (S f).
Proof.
  intros Hv Hm d s Hf. cbn [read_members].
  destruct (skip_space s) as [|q r] eqn:Es; [done|]. case_match; [|done].
  space_shorter. pose proof (read_string_consumed (String.length s) r ltac:(lia)) as H1.
  destruct (read_string _ r) as [k rest| |]; [|done|done]. simpl in H1.
  destruct (skip_space rest) as [|c r2] eqn:Er; [done|]. case_match; [|done]. space_shorter.
  specialize (Hv d r2 ltac:(lia)). destruct (read_value f d r2) as [v rest2| |]; [|done|done].
  simpl in Hv. destruct (skip_space rest2) as [|a r3] eqn:Er3; [done|]. space_shorter.
  case_match; [simpl; lia|]. case_match; [|done].
  specialize (Hm d r3 ltac:(lia)). destruct (read_members f d r3); simpl in *; [lia|done|done].
Qed.

Lemma readers_total f : value_total f /\ elements_total f /\ members_total f.
Proof.
  induction f as [|f (Hv & He & Hm)].
  - split_and!; intros d s H; lia.
  - split_and!; [by apply value_total_step|by apply elements_total_step|by apply members_total_step].
Qed.

(** [parse] never runs out of fuel: an error is a syntax error. *)
Lemma parse_total s : parse_with (parse_fuel s) s <> OutOfFuel.
Proof.
  unfold parse_with. destruct (readers_total (parse_fuel s)) as [Hv _].
  specialize (Hv max_depth s ltac:(unfold parse_fuel; lia)).
  destruct (read_value (parse_fuel s) max_depth s) as [j rest| |]; [|done|done].
  by destruct (skip_space rest).
Qed.
