(* ===== verification/JsonValue.v ===== *)
(** * Go's [interface{}] values of JSON

    What [json.Unmarshal] makes of a text when the destination is an
    [interface{}] or a [map[string]interface{}]: the members of an object become
    a map, so the last of two equal keys wins and the order is lost, and
    [json.Marshal] writes the keys in increasing order. *)

From S2P Require Import Prelude Digest ApiTypes Json.
From stdpp Require Import pretty.
Local Open Scope N_scope.

(** An object as a Go map; the members of a Go map, in the order they are
    written. *)
Definition map_of_members (l : list (string * json)) : gmap string json :=
  foldl (fun m kv => <[ kv.1 := kv.2 ]> m) ∅ l.
Definition members (m : gmap string json) : list (string * json) :=
  map (fun k => (k, default JNull (m !! k))) (set_list (dom m)).
Definition json_of_map (m : gmap string json) : json := JObject (members m).

(** The value an [interface{}] holds, each map as its sorted members. *)
Fixpoint interface_of (j : json) : json :=
  match j with
  | JArray l => JArray (map interface_of l)
  | JObject l => json_of_map (map_of_members (map (fun '(k, v) => (k, interface_of v)) l))
  | _ => j
  end.

(** [json.Unmarshal] into a [map[string]interface{}] variable: null makes it the
    nil map, here [None]. *)
Definition unmarshal_map_error : error :=
  ErrLib "UnmarshalTypeError" "cannot unmarshal the value into a map".
Definition unmarshal_map (text : string) : result (option (gmap string json)) :=
  match parse text with
  | inl e => inl e
  | inr (JObject l) => inr (Some (map_of_members (map (fun '(k, v) => (k, interface_of v)) l)))
  | inr JNull => inr None
  | inr _ => inl unmarshal_map_error
  end.
(** [json.Marshal] of such a variable. *)
Definition marshal_map (m : option (gmap string json)) : string :=
  match m with Some m => print (json_of_map m) | None => "null" end.

(** ** The round trip *)

(** A value that can be written and read back: canonical as Go's maps are,
    ASCII, and not nested too deeply. *)
Record plain (d : N) (j : json) : Prop := {
  plain_canonical : interface_of j = j;
  plain_ascii : ascii_json j = true;
  plain_depth : json_depth j <= d;
}.

Lemma members_fst m : (members m).*1 = set_list (dom m).
Proof. unfold members. rewrite <-list_fmap_compose. apply list_fmap_id. Qed.
Lemma elem_of_members m k v : (k, v) ∈ members m <-> m !! k = Some v.
Proof.
  unfold members. split.
  - intros (k' & [= -> ->] & Hk)%list_elem_of_fmap.
    apply elem_of_set_list, elem_of_dom in Hk as [v E]. by rewrite E.
  - intros E. apply list_elem_of_fmap. exists k. rewrite E. split; [done|].
    apply elem_of_set_list, elem_of_dom. eauto.
Qed.

Lemma map_of_members_lookup l k v :
  NoDup l.*1 -> map_of_members l !! k = Some v <-> (k, v) ∈ l.
Proof.
  unfold map_of_members. intros Hl.
  cut (forall m : gmap string json, (forall k, k ∈ l.*1 -> m !! k = None) ->
    (foldl (fun m kv => <[ kv.1 := kv.2 ]> m) m l) !! k = Some v <-> m !! k = Some v \/ (k, v) ∈ l).
  { intros H. rewrite H; [|intros; apply lookup_empty]. rewrite lookup_empty. naive_solver. }
  induction l as [|[k' v'] l IH]; intros m Hm; simpl.
  { split; [by left|]. intros [H|H%elem_of_nil]; done. }
  apply NoDup_cons in Hl as [Hk' Hl]. rewrite IH; [|done|].
  - rewrite elem_of_cons. destruct (decide (k' = k)) as [->|Hne].
    + rewrite lookup_insert_eq, (Hm k) by apply list_elem_of_here.
      split; [intros [[= ->]|H]; auto|]. intros [H|[[= ->]|H]]; auto. done.
    + rewrite lookup_insert_ne by done. naive_solver.
  - intros k2 Hk2. rewrite lookup_insert_ne by (intros ->; done).
    apply Hm. simpl. by apply list_elem_of_further.
Qed.
Lemma map_of_members_members m : map_of_members (members m) = m.
Proof.
  apply map_eq. intros k. apply option_eq. intros v.
  rewrite map_of_members_lookup, elem_of_members; [done|].
  rewrite members_fst. apply NoDup_set_list.
Qed.

Lemma interface_of_members m :
  (forall k v, m !! k = Some v -> interface_of v = v) ->
  map (fun '(k, v) => (k, interface_of v)) (members m) = members m.
Proof.
  intros H. apply list_eq_Forall2.
  cut (forall l : list (string * json), (forall k v, (k, v) ∈ l -> interface_of v = v) ->
    Forall2 eq (map (fun '(k, v) => (k, interface_of v)) l) l).
  { intros Hl. apply Hl. intros k v Hin%elem_of_members. by eapply H. }
  induction l as [|[k v] l IH]; intros Hl; simpl; [done|]. constructor.
  - by rewrite (Hl k v) by apply list_elem_of_here.
  - apply IH. intros k' v' Hin. apply (Hl k'). by apply list_elem_of_further.
Qed.

(** A map of plain values, a level below the nesting limit. *)
Definition plain_map (d : N) (m : gmap string json) : Prop :=
  forall k v, m !! k = Some v -> ascii_string k = true /\ plain d v.

Lemma plain_object d m : plain_map d m -> plain (1 + d) (json_of_map m).
Proof.
  intros H. split; simpl.
  - rewrite interface_of_members; [by rewrite map_of_members_members|].
    intros k v E. by apply (H k v E).
  - apply forallb_forall. intros [k v] Hin%list_elem_of_In%elem_of_members.
    destruct (H k v Hin) as [Hk Hv]. by rewrite Hk, (plain_ascii _ _ Hv).
  - apply N.add_le_mono_l.
    assert (Hd : forall k v, (k, v) ∈ members m -> json_depth v <= d).
    { intros k v Hin%elem_of_members. destruct (H k v Hin) as [_ Hv]. apply (plain_depth _ _ Hv). }
    revert Hd. generalize (members m). induction l as [|[k v] l IH]; intros Hd; simpl; [lia|].
    apply N.max_lub; [apply (Hd k), list_elem_of_here|].
    apply IH. intros k' v' Hin. eapply Hd, list_elem_of_further, Hin.
Qed.

Lemma unmarshal_marshal m :
  plain_map (max_depth - 1) m -> unmarshal_map (marshal_map (Some m)) = inr (Some m).
Proof.
  intros H. pose proof (plain_object _ _ H) as [_ Ha Hd]. unfold unmarshal_map, marshal_map.
  rewrite parse_print; [|done|unfold max_depth in *; lia]. unfold json_of_map.
  rewrite interface_of_members; [by rewrite map_of_members_members|].
  intros k v E. by apply (H k v E).
Qed.

(** ** Decimal integers are number literals *)

Definition all_digits (s : string) : bool :=
  forallb is_digit (String.list_ascii_of_string s).

Lemma digit_char x : (x < 10)%N -> is_digit (pretty_N_char x) = true.
Proof.
  intros H. assert (x = 0 \/ x = 1 \/ x = 2 \/ x = 3 \/ x = 4 \/ x = 5 \/ x = 6 \/ x = 7 \/ x = 8 \/ x = 9)
    as Hx by lia.
  by repeat (destruct Hx as [->|Hx]; [vm_compute|]); subst.
Qed.
Lemma digit_char_nonzero x : (0 < x < 10)%N -> code (pretty_N_char x) <> 48.
Proof.
  intros H. assert (x = 1 \/ x = 2 \/ x = 3 \/ x = 4 \/ x = 5 \/ x = 6 \/ x = 7 \/ x = 8 \/ x = 9)
    as Hx by lia.
  by repeat (destruct Hx as [->|Hx]; [vm_compute|]); subst.
Qed.

(** Digits without a leading zero, in front of what was there. *)
Lemma pretty_N_go_digits x s :
  (0 < x)%N -> exists c r, pretty_N_go x s = String c (r +:+ s) /\ is_digit c = true /\
    code c <> 48 /\ all_digits r = true.
Proof.
  revert s. induction (N.lt_wf_0 x) as [x _ IH]. intros s Hx. rewrite pretty_N_go_step by done.
  destruct (N.eq_0_gt_0_cases (x / 10)) as [E|E].
  - rewrite E, pretty_N_go_0. exists (pretty_N_char (x mod 10)), "".
    pose proof (N.div_mod x 10 ltac:(done)). pose proof (N.mod_lt x 10 ltac:(done)).
    split; [done|]. split; [by apply digit_char|]. split; [|done]. apply digit_char_nonzero. lia.
  - destruct (IH (x / 10) (N.div_lt x 10 Hx eq_refl) (String (pretty_N_char (x mod 10)) s) E)
      as (c & r & -> & Hc & H48 & Hr).
    exists c, (r +:+ String (pretty_N_char (x mod 10)) ""). split.
    { f_equal. by rewrite string_app_assoc. }
    do 2 (split; [done|]). unfold all_digits in *. clear -Hr.
    induction r as [|a r IH]; simpl in *.
    + rewrite digit_char; [done|]. by apply N.mod_lt.
    + apply andb_prop in Hr as [-> Hr]. by apply IH.
Qed.

Lemma span_digits s : all_digits s = true -> span is_digit s = (s, "").
Proof.
  unfold all_digits. induction s as [|a s IH]; simpl; [done|].
  intros [-> Hs]%andb_prop. by rewrite IH.
Qed.
Lemma digits_number_chars s :
  all_digits s = true -> forallb number_char (String.list_ascii_of_string s) = true.
Proof.
  unfold all_digits. induction s as [|a s IH]; simpl; [done|].
  intros [Ha Hs]%andb_prop. rewrite IH by done. unfold number_char. by rewrite Ha.
Qed.

(** The texts of integers. *)
Definition number_text (s : string) : Prop :=
  is_number s = true /\ forallb number_char (String.list_ascii_of_string s) = true.
Lemma digits_number c r :
  is_digit c = true -> code c <> 48 -> all_digits r = true ->
  integer_part (String c r) = Some "" /\ skip_char [45] (String c r) = String c r.
Proof.
  intros Hc H48 Hr. simpl. apply N.eqb_neq in H48. rewrite H48. unfold digits1. simpl.
  rewrite Hc, span_digits by done. split; [done|].
  assert ((code c =? 45) = false) as ->; [|done].
  unfold is_digit, Json.between in Hc. apply andb_prop in Hc as [Hc _]. apply N.leb_le in Hc.
  apply N.eqb_neq. lia.
Qed.
Lemma pretty_number (z : Z) : number_text (pretty z).
Proof.
  assert (Hpos : forall p : positive, exists c r, pretty p = String c r /\ is_digit c = true /\
    code c <> 48 /\ all_digits r = true).
  { intros p. unfold pretty, pretty_positive, pretty, pretty_N. rewrite decide_False by done.
    destruct (pretty_N_go_digits (N.pos p) "" eq_refl) as (c & r & -> & H).
    exists c, r. by rewrite string_app_nil. }
  destruct z as [|p|p]; [by vm_compute| |];
    unfold pretty, pretty_Z; destruct (Hpos p) as (c & r & -> & Hc & H48 & Hr);
    destruct (digits_number c r Hc H48 Hr) as [Hi Hs]; split.
  - unfold is_number. rewrite Hs, Hi. done.
  - apply digits_number_chars. unfold all_digits in *. simpl. by rewrite Hc, Hr.
  - unfold is_number. change (skip_char [45] ("-" +:+ String c r)) with (String c r). by rewrite Hi.
  - change (forallb number_char (String.list_ascii_of_string (String c r)) = true).
    apply digits_number_chars. unfold all_digits in *. simpl. by rewrite Hc, Hr.
Qed.

(** ** Texts written by hand

    Rules to read a text with spaces that [print] does not write. *)

(** A text between quotes, when nothing in it has to be escaped. *)
Definition quoted (s : string) : string := String quote_char (s +:+ String quote_char "").
Definition simple_char (a : ascii) : bool :=
  is_ascii a && bool_decide (escape_byte a = String a "").
Definition simple_text (s : string) : bool :=
  forallb simple_char (String.list_ascii_of_string s).

Lemma escape_go_simple n s :
  simple_text s = true -> (String.length s <= n)%nat -> escape_go n s = s.
Proof.
  unfold simple_text. revert n. induction s as [|a s IH]; intros n Hs Hn; [by destruct n|].
  destruct n as [|n]; simpl in Hn; [lia|].
  cbn [String.list_ascii_of_string forallb] in Hs. apply andb_prop in Hs as [Ha Hs].
  apply andb_prop in Ha as [Ha He%bool_decide_eq_true]. cbn [escape_go].
  rewrite Ha, He, IH by (done || lia). done.
Qed.
Lemma quoted_simple s : simple_text s = true -> quoted s = quote s.
Proof. intros Hs. unfold quote, escape. by rewrite escape_go_simple. Qed.
Lemma simple_app s t : simple_text (s +:+ t) = simple_text s && simple_text t.
Proof.
  unfold simple_text. induction s as [|a s IH]; [done|]. rewrite string_app_cons.
  cbn [String.list_ascii_of_string forallb]. by rewrite IH, andb_assoc.
Qed.
Lemma simple_ascii s : simple_text s = true -> ascii_string s = true.
Proof.
  unfold simple_text, ascii_string. rewrite !forallb_forall. intros H a Ha.
  by apply H, andb_prop in Ha as [? _].
Qed.

(** The digits of a sync target's key. *)
Lemma digit62_simple d : (0 <= d < 62)%Z -> simple_char (digit62 d) = true.
Proof.
  intros Hd. assert (H : forallb (fun n => simple_char (digit62 (Z.of_nat n))) (seq 0 62) = true)
    by (vm_compute; reflexivity).
  rewrite forallb_forall in H. specialize (H (Z.to_nat d)). rewrite Z2Nat.id in H by lia.
  apply H, in_seq. lia.
Qed.
Lemma text62_simple fuel x acc :
  simple_text acc = true -> simple_text (text62_go fuel x acc) = true.
Proof.
  revert x acc. induction fuel as [|fuel IH]; intros x acc H; [done|]. cbn [text62_go].
  assert (simple_text (String (digit62 (x mod 62)) acc) = true).
  { unfold simple_text. cbn [String.list_ascii_of_string forallb]. rewrite digit62_simple; [done|].
    by apply Z.mod_pos_bound. }
  case_match; [done|by apply IH].
Qed.
Lemma toBase62_simple bs : simple_text (toBase62 bs) = true.
Proof. unfold toBase62, Text62. by apply text62_simple. Qed.

(** One member of an object, with spaces around its parts. *)
Lemma read_members_step f d s k r1 r1' v r2 :
  skip_space s = quote k +:+ r1 -> ascii_string k = true ->
  skip_space r1 = String ":" r1' -> read_value f d r1' = Read v r2 ->
  read_members (S f) d s =
    match skip_space r2 with
    | String a r =>
        if code a =? 125 then Read [(k, v)] r
        else if code a =? 44 then
          match read_members f d r with Read l rest => Read ((k, v) :: l) rest | e => e end
        else SyntaxError
    | EmptyString => SyntaxError
    end.
Proof.
  intros Hs Hk H1 Hv. cbn [read_members].
  assert (Hlen : (String.length k < String.length s)%nat).
  { pose proof (skip_space_length s) as Hl. rewrite Hs, quote_app in Hl. simpl in Hl.
    unfold escape in Hl. rewrite string_app_length in Hl.
    pose proof (length_escape (String.length k) k Hk (le_n _)). lia. }
  rewrite Hs, quote_app. change (code quote_char =? 34) with true. cbv iota.
  unfold escape. rewrite (read_escape (String.length s) (String.length k) k r1 Hk (le_n _) Hlen), H1.
  change (code ":" =? 58) with true. cbv iota. by rewrite Hv.
Qed.
Lemma read_members_more f d s k r1 r1' v r2 r3 l rest :
  skip_space s = quote k +:+ r1 -> ascii_string k = true ->
  skip_space r1 = String ":" r1' -> read_value f d r1' = Read v r2 ->
  skip_space r2 = String "," r3 -> read_members f d r3 = Read l rest ->
  read_members (S f) d s = Read ((k, v) :: l) rest.
Proof.
  intros H1 H2 H3 H4 H5 H6. by rewrite (read_members_step f d s k r1 r1' v r2), H5, H6.
Qed.
Lemma read_members_last f d s k r1 r1' v r2 rest :
  skip_space s = quote k +:+ r1 -> ascii_string k = true ->
  skip_space r1 = String ":" r1' -> read_value f d r1' = Read v r2 ->
  skip_space r2 = String "}" rest ->
  read_members (S f) d s = Read [(k, v)] rest.
Proof. intros H1 H2 H3 H4 H5. by rewrite (read_members_step f d s k r1 r1' v r2), H5. Qed.
Lemma read_value_string f d s r rest :
  skip_space s = quote r +:+ rest -> ascii_string r = true ->
  read_value (S f) d s = Read (JString r) rest.
Proof.
  intros Hs Hr. cbn [read_value]. rewrite Hs.
  pose proof (read_quoted r rest Hr) as Hread. rewrite quote_app in Hread |- *.
  change (code quote_char =? 34) with true. cbv iota zeta. by rewrite Hread.
Qed.

Lemma read_value_object f d r r' l rest :
  skip_space r = String quote_char r' -> read_members f d r = Read l rest ->
  read_value (S f) (d + 1) (String "{" r) = Read (JObject l) rest.
Proof.
  intros Hr Hl. cbn [read_value skip_space]. change (is_space "{") with false. cbv iota zeta.
  change (code "{" =? 34) with false. change (code "{" =? 123) with true. cbv iota.
  rewrite Hr. change (code quote_char =? 125) with false. cbv iota.
  destruct (N.eqb_spec (d + 1) 0); [lia|]. by rewrite N.add_sub, Hl.
Qed.
Lemma read_value_space f d s : read_value (S f) d (String " " s) = read_value (S f) d s.
Proof. reflexivity. Qed.
Lemma read_value_singleton f d r b r' v rest rest' :
  skip_space r = String b r' -> code b <> 93 ->
  read_value f d r = Read v rest -> skip_space rest = String "]" rest' ->
  read_value (S (S f)) (d + 1) (String "[" r) = Read (JArray [v]) rest'.
Proof.
  intros Hr Hb%N.eqb_neq Hv Hrest. remember (S f) as g. cbn [read_value skip_space].
  change (is_space "[") with false. cbv iota zeta.
  change (code "[" =? 34) with false. change (code "[" =? 123) with false.
  change (code "[" =? 91) with true. cbv iota.
  destruct (N.eqb_spec (d + 1) 0); [lia|]. rewrite Hr, Hb, N.add_sub. subst g.
  cbn [read_elements]. by rewrite Hv, Hrest.
Qed.
