(* ===== verification/SyncerShared.v ===== *)
(** * What the syncer's controllers share ([pkg/syncer/shared], [pkg/syncer/indexers])

    Unstructured objects, the locator that ties a downstream namespace to its
    upstream namespace, the names of objects on both sides, the calls the syncer
    makes to the two API servers, and the removal of the syncer's finalizer. *)

From S2P Require Import Prelude Platform Digest ApiTypes Json.
Local Open Scope nat_scope.

(** ** Libraries *)

(** Keys that other modules define: [logicalcluster.AnnotationKey],
    [handlers.KCPOriginalAPIVersionAnnotation], [corev1.ServiceAccountNameKey] and
    [corev1.ServiceAccountUIDKey]. *)
Class KeyLib := {
  AnnotationKey : string;
  KCPOriginalAPIVersionAnnotation : string;
  ServiceAccountNameKey : string;
  ServiceAccountUIDKey : string;
}.
(** [base36.EncodeBytes]. *)
Class Base36Lib := { EncodeBytes : list Z -> string }.

(** ** Unstructured objects *)

(** [unstructured.Unstructured]: the metadata as the accessors of the library
    read it, its fields that [ObjectMeta] does not list, and the other
    top-level fields. *)
Record Unstructured := {
  u_meta : ObjectMeta;
  u_more : gmap string json;
  u_content : gmap string json;
}.

Definition field_string (u : Unstructured) (k : string) : string :=
  match u_content u !! k with Some (JString s) => s | _ => "" end.
Definition GetName (u : Unstructured) : string := Name (u_meta u).
Definition GetNamespace (u : Unstructured) : string := Namespace (u_meta u).
Definition GetAnnotations (u : Unstructured) : gomap := Annotations (u_meta u).
Definition GetLabels (u : Unstructured) : gomap := Labels (u_meta u).
Definition GetFinalizers (u : Unstructured) : list string := Finalizers (u_meta u).

Definition on_meta (f : ObjectMeta -> ObjectMeta) (u : Unstructured) : Unstructured :=
  {| u_meta := f (u_meta u); u_more := u_more u; u_content := u_content u |}.
Definition SetAnnotations (u : Unstructured) (a : gomap) : Unstructured :=
  on_meta (fun m => with_annotations m a) u.
Definition SetLabels (u : Unstructured) (l : gomap) : Unstructured :=
  on_meta (fun m => with_labels m l) u.
Definition SetFinalizers (u : Unstructured) (f : list string) : Unstructured :=
  on_meta (fun m => with_finalizers m f) u.

(** [schema.GroupVersionKind] and [Unstructured.GroupVersionKind]: empty when the
    [apiVersion] does not parse. *)
Record GroupVersionKind := { gvk_Group : string; gvk_Version : string; gvk_Kind : string }.
#[global] Instance GroupVersionKind_eq_dec : EqDecision GroupVersionKind.
Proof. solve_decision. Defined.
Definition GetGroupVersionKind `{!SchemaLib} (u : Unstructured) : GroupVersionKind :=
  match ParseGroupVersion (field_string u "apiVersion") with
  | inr (g, v) => {| gvk_Group := g; gvk_Version := v; gvk_Kind := field_string u "kind" |}
  | inl _ => {| gvk_Group := ""; gvk_Version := ""; gvk_Kind := "" |}
  end.

(** ** Namespace locators ([namespace.go]) *)

Definition NamespaceLocatorAnnotation : string := "kcp.io/namespace-locator".
Definition TenantIDLabel : string := "kcp.io/tenant-id".

Record SyncTargetLocator := {
  stl_ClusterName : string;
  DeprecatedPath : string;
  stl_Name : string;
  stl_UID : string;
}.
Record NamespaceLocator := {
  nl_SyncTarget : SyncTargetLocator;
  nl_ClusterName : string;
  nl_Namespace : string;
}.
#[global] Instance SyncTargetLocator_eq_dec : EqDecision SyncTargetLocator.
Proof. solve_decision. Defined.
#[global] Instance NamespaceLocator_eq_dec : EqDecision NamespaceLocator.
Proof. solve_decision. Defined.

Definition NewNamespaceLocator
    (workspace syncTargetClusterName syncTargetUID syncTargetName upstreamNamespace : string)
    : NamespaceLocator := {|
  nl_SyncTarget := {| stl_ClusterName := syncTargetClusterName; DeprecatedPath := "";
                      stl_Name := syncTargetName; stl_UID := syncTargetUID |};
  nl_ClusterName := workspace;
  nl_Namespace := upstreamNamespace;
|}.
Definition NewNamespaceLocatorV060
    (workspace syncTargetClusterName syncTargetUID syncTargetName upstreamNamespace : string)
    : NamespaceLocator := {|
  nl_SyncTarget := {| stl_ClusterName := ""; DeprecatedPath := syncTargetClusterName;
                      stl_Name := syncTargetName; stl_UID := syncTargetUID |};
  nl_ClusterName := workspace;
  nl_Namespace := upstreamNamespace;
|}.

(** [json.Marshal] of the structs: their tags, in order, with [omitempty]. *)
Definition omitempty (k s : string) : list (string * json) :=
  if decide (s = "") then [] else [(k, JString s)].
Definition SyncTargetLocator_json (l : SyncTargetLocator) : json :=
  JObject (omitempty "cluster" (stl_ClusterName l) ++ omitempty "path" (DeprecatedPath l)
           ++ [("name", JString (stl_Name l)); ("uid", JString (stl_UID l))]).
Definition NamespaceLocator_json (l : NamespaceLocator) : json :=
  JObject (("syncTarget", SyncTargetLocator_json (nl_SyncTarget l))
           :: omitempty "cluster" (nl_ClusterName l)
           ++ [("namespace", JString (nl_Namespace l))]).
Definition Marshal (l : NamespaceLocator) : string := print (NamespaceLocator_json l).

(** [json.Unmarshal] into the structs. A key names a field exactly or, failing
    that, up to case; the later of two keys wins; unknown keys are skipped; null
    leaves a field as it is; any other mismatch of types is an error, reported
    after the whole value is decoded. *)
Definition to_lower (a : ascii) : ascii :=
  if between 65 90 a then byte_of (code a + 32) else a.
(** [bytes.EqualFold] against an ASCII name: U+017F folds to s, U+212A to k. *)
Fixpoint fold_key (s : string) : string :=
  match s with
  | String a r =>
      match r with
      | String b r' =>
          if ((code a =? 197)%N && (code b =? 191)%N) then String "s" (fold_key r') else
          match r' with
          | String c r'' =>
              if (code a =? 226)%N && (code b =? 132)%N && (code c =? 170)%N
              then String "k" (fold_key r'') else String (to_lower a) (fold_key r)
          | EmptyString => String (to_lower a) (fold_key r)
          end
      | EmptyString => String (to_lower a) ""
      end
  | EmptyString => ""
  end.
Definition field_of (names : list string) (k : string) : option string :=
  if decide (k ∈ names) then Some k
  else snd <$> list_find (fun n => fold_key n = fold_key k) names.
(** The decoded struct, and whether a type mismatched. *)
Definition decode_string (old : string) (v : json) : string * bool :=
  match v with JString s => (s, false) | JNull => (old, false) | _ => (old, true) end.
Definition decode_object {T} (field : T * bool -> string * json -> T * bool) (x : T * bool)
    (v : json) : T * bool :=
  match v with
  | JObject l => foldl field x l
  | JNull => x
  | _ => (x.1, true)
  end.
Definition SyncTargetLocator_field (x : SyncTargetLocator * bool) (kv : string * json)
    : SyncTargetLocator * bool :=
  let '(l, bad) := x in
  match field_of ["cluster"; "path"; "name"; "uid"] kv.1 with
  | Some "cluster" =>
      let '(s, b) := decode_string (stl_ClusterName l) kv.2 in
      ({| stl_ClusterName := s; DeprecatedPath := DeprecatedPath l; stl_Name := stl_Name l;
          stl_UID := stl_UID l |}, bad || b)
  | Some "path" =>
      let '(s, b) := decode_string (DeprecatedPath l) kv.2 in
      ({| stl_ClusterName := stl_ClusterName l; DeprecatedPath := s; stl_Name := stl_Name l;
          stl_UID := stl_UID l |}, bad || b)
  | Some "name" =>
      let '(s, b) := decode_string (stl_Name l) kv.2 in
      ({| stl_ClusterName := stl_ClusterName l; DeprecatedPath := DeprecatedPath l;
          stl_Name := s; stl_UID := stl_UID l |}, bad || b)
  | Some "uid" =>
      let '(s, b) := decode_string (stl_UID l) kv.2 in
      ({| stl_ClusterName := stl_ClusterName l; DeprecatedPath := DeprecatedPath l;
          stl_Name := stl_Name l; stl_UID := s |}, bad || b)
  | _ => x
  end.
Definition NamespaceLocator_field (x : NamespaceLocator * bool) (kv : string * json)
    : NamespaceLocator * bool :=
  let '(l, bad) := x in
  match field_of ["syncTarget"; "cluster"; "namespace"] kv.1 with
  | Some "syncTarget" =>
      let '(s, b) := decode_object SyncTargetLocator_field (nl_SyncTarget l, bad) kv.2 in
      ({| nl_SyncTarget := s; nl_ClusterName := nl_ClusterName l;
          nl_Namespace := nl_Namespace l |}, b)
  | Some "cluster" =>
      let '(s, b) := decode_string (nl_ClusterName l) kv.2 in
      ({| nl_SyncTarget := nl_SyncTarget l; nl_ClusterName := s;
          nl_Namespace := nl_Namespace l |}, bad || b)
  | Some "namespace" =>
      let '(s, b) := decode_string (nl_Namespace l) kv.2 in
      ({| nl_SyncTarget := nl_SyncTarget l; nl_ClusterName := nl_ClusterName l;
          nl_Namespace := s |}, bad || b)
  | _ => x
  end.
Definition zero_locator : NamespaceLocator := NewNamespaceLocator "" "" "" "" "".
Definition type_error : error :=
  ErrLib "UnmarshalTypeError" "cannot unmarshal the value into a locator".
Definition Unmarshal (text : string) : result NamespaceLocator :=
  match parse text with
  | inl e => inl e
  | inr v =>
      match decode_object NamespaceLocator_field (zero_locator, false) v with
      | (l, false) => inr l
      | (_, true) => inl type_error
      end
  end.

(** [LocatorFromAnnotations], with the upgrade of v0.6.0 locators. *)
Definition upgrade_locator (l : NamespaceLocator) : NamespaceLocator :=
  let st := nl_SyncTarget l in
  {| nl_SyncTarget := {|
       stl_ClusterName := if decide (stl_ClusterName st = "") then DeprecatedPath st
                          else stl_ClusterName st;
       DeprecatedPath := ""; stl_Name := stl_Name st; stl_UID := stl_UID st |};
     nl_ClusterName := nl_ClusterName l; nl_Namespace := nl_Namespace l |}.
Definition LocatorFromAnnotations (annotations : gomap) : result (option NamespaceLocator) :=
  match map_get annotations NamespaceLocatorAnnotation with
  | None => inr None
  | Some annotation =>
      match Unmarshal annotation with
      | inl err => inl err
      | inr locator => inr (Some (upgrade_locator locator))
      end
  end.

(** [strings.ToLower] on the text of a base-36 number. *)
Fixpoint ToLower (s : string) : string :=
  match s with String a r => String (to_lower a) (ToLower r) | EmptyString => "" end.
(** [s[:n]]. *)
Definition slice_to (s : string) (n : nat) : res string :=
  if decide (n <= String.length s) then Ok (String.substring 0 n s)
  else Panic "slice bounds out of range".
Definition base36hash `{!Base36Lib} (text : string) : string :=
  ToLower (EncodeBytes (Sum224 (bytes_of text))).
Definition PhysicalClusterNamespaceName `{!Base36Lib} (l : NamespaceLocator) : res string :=
  p ← slice_to (base36hash (Marshal l)) 12; mret ("kcp-" +:+ p).

(** ** The index of downstream namespaces ([pkg/syncer/indexers/indexes.go]) *)

Definition IndexByNamespaceLocator (metaObj : ObjectMeta) : result (list string) :=
  match LocatorFromAnnotations (Annotations metaObj) with
  | inl err => inl (ErrWrap "failed to get locator from annotations" err)
  | inr None => inr []
  | inr (Some loc) => inr [Marshal loc]
  end.

(** ** Names ([helpers.go]) *)

Definition DeprecatedGetAssignedSyncTarget `{!MapOrder} (labels : gomap) : string :=
  match list_find (fun kv => HasPrefix kv.1 ClusterResourceStateLabelPrefix
                             && bool_decide (kv.2 = ResourceStateSync))
          (map_range (entries labels)) with
  | Some (_, (k, _)) => TrimPrefix k ClusterResourceStateLabelPrefix
  | None => ""
  end.

Definition core_v1 (r : string) : GroupVersionResource :=
  {| gvr_Group := ""; gvr_Version := "v1"; gvr_Resource := r |}.
Definition configMapGVR := core_v1 "configmaps".
Definition secretGVR := core_v1 "secrets".
Definition namespaceGVR := core_v1 "namespaces".

Definition GetUpstreamResourceName (downstreamResourceGVR : GroupVersionResource)
    (downstreamResourceName : string) : string :=
  if bool_decide (downstreamResourceGVR = configMapGVR)
     && bool_decide (downstreamResourceName = "kcp-root-ca.crt")
  then "kube-root-ca.crt"
  else if bool_decide (downstreamResourceGVR = secretGVR)
          && HasPrefix downstreamResourceName "kcp-default-token"
  then TrimPrefix downstreamResourceName "kcp-"
  else downstreamResourceName.

(** Marshalling a locator never fails: its fields are strings. *)
Definition GetDNSID `{!Base36Lib} (clusterName syncTargetUID syncTargetName : string)
    : res string :=
  uid ← slice_to (base36hash syncTargetUID) 8;
  ws ← slice_to (base36hash clusterName) 8;
  mret ("kcp-dns-" +:+ syncTargetName +:+ "-" +:+ uid +:+ "-" +:+ ws).

Definition GetTenantID (l : NamespaceLocator) : string :=
  let clusterWideLocator := {| nl_SyncTarget := nl_SyncTarget l;
    nl_ClusterName := nl_ClusterName l; nl_Namespace := "" |} in
  toBase62 (Sum224 (bytes_of (Marshal clusterWideLocator))).

Definition ContainsGVR (gvrs : list GroupVersionResource) (gvr : GroupVersionResource) : bool :=
  existsb (fun item => bool_decide (gvr = item)) gvrs.

(** ** The calls of the syncer

    One history for all the controllers of a syncer: requests to the upstream
    clusters and to the downstream cluster, work-queue operations and the
    namespace cleaner. The informers' caches and the API servers answer by the
    history so far. [EvCacheWrite] is an object of a cache changed in place,
    [EvInitialized] an identifier stored in the DNS processor's [sync.Map],
    [EvStoreDirty] and [EvTakeDirty] operations on the upsyncer's [sync.Map]. *)

Inductive client := Upstream (cluster : string) | Downstream.
Inductive verb := VGet | VCreate | VUpdate | VUpdateStatus | VDelete | VApply | VPatch.

(** The objects of the DNS nameserver ([pkg/syncer/spec/dns]), typed. *)
Record PolicyRule := {
  pr_APIGroups : list string;
  pr_Resources : list string;
  pr_ResourceNames : list string;
  pr_Verbs : list string;
  pr_NonResourceURLs : list string;
}.
Record Container := {
  ctr_Name : string;
  ctr_Image : string;
  ctr_Command : list string;
  ctr_Args : list string;
  ctr_Env : list (string * string);
  ctr_ImagePullPolicy : string;
  ctr_TerminationMessagePolicy : string;
}.
Record DeploymentSpec := {
  ds_Replicas : nat;
  ds_Strategy : string;
  ds_MatchLabels : gomap;
  ds_TemplateLabels : gomap;
  ds_Containers : list Container;
  ds_ServiceAccountName : string;
}.
Record ServicePort := {
  sp_Name : string; sp_Port : Z; sp_Protocol : string; sp_TargetPort : Z }.
Inductive NetworkPolicyPeer :=
  | NamespaceSelector (matchLabels : gomap)
  | PodSelector (matchLabels : gomap)
  | IPBlock (cidr : string).
Record NetworkPolicySpec := {
  nps_PodSelector : gomap;
  nps_PolicyTypes : list string;
  nps_Ingress : list (list NetworkPolicyPeer * list (string * Z));
  nps_Egress : list (list NetworkPolicyPeer * list (string * Z));
}.
Inductive dns_object :=
  | ServiceAccount (name namespace : string)
  | Role (name namespace : string) (rules : list PolicyRule)
  | RoleBinding (name namespace refName : string) (subjects : list (string * string * string))
  | Deployment (name namespace : string) (spec : DeploymentSpec)
  | Service (name namespace : string) (labels selector : gomap) (ports : list ServicePort)
  | NetworkPolicy (name namespace : string) (spec : NetworkPolicySpec).

Inductive payload :=
  | NoBody
  | Body (u : Unstructured)
  | ConfigMapBody (data : gmap string string)
  | PatchBody (patchType text : string)
  | DnsBody (o : dns_object).

(** A queue item: [queueKey]. *)
Record queueKey := { qk_gvr : GroupVersionResource; qk_key : string }.

Inductive ev :=
  | EvRequest (c : client) (v : verb) (gvr : GroupVersionResource) (ns name : string)
      (body : payload)
  | EvPlanCleaning (ns : string)
  | EvCancelCleaning (ns : string)
  | EvInitialized (dnsID : string)
  | EvCacheWrite (gvr : GroupVersionResource) (u : Unstructured)
  | EvAdd (k : queueKey)
  | EvAddAfter (k : queueKey) (after : Z)
  | EvAddRateLimited (k : queueKey)
  | EvForget (k : queueKey)
  | EvDone (k : queueKey)
  | EvHandleError (e : error)
  | EvStoreDirty (k : queueKey)
  | EvTakeDirty (k : queueKey).

(** A look at a cache: no event, the answer depends on the history. *)
Definition observe {A} (f : list ev -> result A) : M ev A := fun h => (h, of_result (f h)).

Lemma safe_observe {A} (f : list ev -> result A) : safe (observe f).
Proof. intros h. unfold observe. simpl. by destruct (f h). Qed.

(** The answers. [Informers] are a factory's synced informers and the resources
    that are not synced yet; [getShardAccess] tells whether the clients of the
    shard of a cluster are known. *)
Class World := {
  api_write : list ev -> result unit;
  api_get : list ev -> result Unstructured;
  getShardAccess : list ev -> string -> result bool;
  downstream_Informers : list ev -> gset GroupVersionResource * list GroupVersionResource;
  upstream_Informers :
    list ev -> string -> gset GroupVersionResource * list GroupVersionResource;
  upstream_Get : list ev -> string -> GroupVersionResource -> string -> string ->
    result Unstructured;
  downstream_Get : list ev -> GroupVersionResource -> string -> string -> result Unstructured;
  downstream_Namespaces : list ev -> result (list Unstructured);
}.

Section calls.
Context {EL : ErrorLib} {W : World}.

Definition request (c : client) (v : verb) (gvr : GroupVersionResource) (ns name : string)
    (body : payload) : M ev unit :=
  call (EvRequest c v gvr ns name body) api_write.
Definition Update (c : client) (gvr : GroupVersionResource) (ns : string) (u : Unstructured)
    : M ev unit := request c VUpdate gvr ns (GetName u) (Body u).

(** [getDownstreamLister], [getUpstreamLister], [getUpstreamClient]: the closures
    of [NewSpecSyncerForDownstream] ([spec_controller.go]). *)
Definition informer_for (side : string) (i : gset GroupVersionResource * list GroupVersionResource)
    (gvr : GroupVersionResource) : result unit :=
  if bool_decide (gvr ∈ i.1) then inr tt
  else if ContainsGVR i.2 gvr
  then inl (ErrMsg ("informer for gvr not synced in the " +:+ side +:+ " informer factory"))
  else inl (ErrMsg ("gvr should be known in the " +:+ side +:+ " informer factory")).
Definition getDownstreamLister (gvr : GroupVersionResource) : M ev unit :=
  observe (fun h => informer_for "downstream" (downstream_Informers h) gvr).
Definition shard_of (clusterName : string) : M ev unit :=
  ok ← observe (fun h => getShardAccess h clusterName);
  if (ok : bool) then mret tt
  else fail (ErrMsg "shard-related clients not found for cluster").
Definition getUpstreamLister (clusterName : string) (gvr : GroupVersionResource) : M ev unit :=
  shard_of clusterName;;
  observe (fun h => informer_for "upstream" (upstream_Informers h clusterName) gvr).
Definition getUpstreamClient (clusterName : string) : M ev unit := shard_of clusterName.

(** ** The syncer's finalizer ([finalizer.go]) *)

Definition without_finalizer (syncTargetKey : string) (fs : list string) : list string :=
  List.filter (fun f => negb (bool_decide (f = SyncerFinalizerNamePrefix +:+ syncTargetKey))) fs.
(** The object as it is sent, without any trace of the sync target. *)
Definition released (syncTargetKey : string) (u : Unstructured) : Unstructured :=
  let u := SetFinalizers u (without_finalizer syncTargetKey (GetFinalizers u)) in
  let annotations := map_delete (GetAnnotations u)
    (InternalClusterStatusAnnotationPrefix +:+ syncTargetKey) in
  let annotations := map_delete annotations
    (InternalClusterDeletionTimestampAnnotationPrefix +:+ syncTargetKey) in
  let u := SetAnnotations u annotations in
  SetLabels u (map_delete (GetLabels u) (ClusterResourceStateLabelPrefix +:+ syncTargetKey)).

(** The lister and client are those of [clusterName]. *)
Definition EnsureUpstreamFinalizerRemoved (clusterName : string) (gvr : GroupVersionResource)
    (upstreamNamespace syncTargetKey resourceName : string) : M ev unit :=
  r ← try (observe (fun h => upstream_Get h clusterName gvr upstreamNamespace resourceName));
  match r with
  | inl err => if negb (IsNotFound err) then fail err else mret tt
  | inr upstreamObj =>
      if bool_decide (map_index (GetAnnotations upstreamObj)
           (InternalClusterDeletionTimestampAnnotationPrefix +:+ syncTargetKey) = "")
      then mret tt
      else
        let upstreamObj := released syncTargetKey upstreamObj in
        Update (Upstream clusterName) gvr
          (if decide (upstreamNamespace = "") then "" else GetNamespace upstreamObj) upstreamObj
  end.

End calls.

(** * Lemmas *)

(** ** The round trip of locators *)

Definition ascii_locator (l : NamespaceLocator) : bool :=
  let st := nl_SyncTarget l in
  forallb ascii_string [stl_ClusterName st; DeprecatedPath st; stl_Name st; stl_UID st;
                        nl_ClusterName l; nl_Namespace l].

Lemma omitempty_ascii k s :
  ascii_string k = true -> ascii_string s = true ->
  forallb (fun '(k, v) => ascii_string k && ascii_json v) (omitempty k s) = true.
Proof. intros Hk Hs. unfold omitempty. case_decide; simpl; [done|]. by rewrite Hk, Hs. Qed.
Lemma omitempty_depth k s d :
  foldr (fun kv d => N.max (json_depth kv.2) d) d (omitempty k s) = d.
Proof. unfold omitempty. case_decide; simpl; [done|]. lia. Qed.

Lemma locator_json_ascii l : ascii_locator l = true -> ascii_json (NamespaceLocator_json l) = true.
Proof.
  unfold ascii_locator. destruct l as [[cn dp nm uid] c ns]. simpl.
  rewrite !andb_true_iff. intros (Hcn & Hdp & Hnm & Huid & Hc & Hns & _).
  rewrite !forallb_app. simpl. rewrite !omitempty_ascii by done. by rewrite Hnm, Huid, Hns.
Qed.
Lemma locator_json_depth l : (json_depth (NamespaceLocator_json l) <= max_depth)%N.
Proof.
  destruct l as [[cn dp nm uid] c ns]. unfold NamespaceLocator_json. cbn [json_depth nl_SyncTarget].
  rewrite !foldr_cons, foldr_app, omitempty_depth. cbn.
  rewrite !foldr_app, !omitempty_depth. cbn. unfold max_depth. lia.
Qed.

Lemma parse_Marshal l : ascii_locator l = true -> parse (Marshal l) = inr (NamespaceLocator_json l).
Proof. intros H. apply parse_print; [by apply locator_json_ascii|apply locator_json_depth]. Qed.

Lemma Unmarshal_Marshal l : ascii_locator l = true -> Unmarshal (Marshal l) = inr l.
Proof.
  intros H. unfold Unmarshal. rewrite parse_Marshal by done.
  destruct l as [[cn dp nm uid] c ns]. unfold NamespaceLocator_json, SyncTargetLocator_json, omitempty.
  cbn [nl_SyncTarget nl_ClusterName nl_Namespace stl_ClusterName DeprecatedPath stl_Name stl_UID].
  destruct (decide (cn = "")) as [->|?], (decide (dp = "")) as [->|?], (decide (c = "")) as [->|?];
    reflexivity.
Qed.

(** Different locators have different texts. *)
Lemma Marshal_inj l l' :
  ascii_locator l = true -> ascii_locator l' = true -> Marshal l = Marshal l' -> l = l'.
Proof.
  intros H H' E. pose proof (Unmarshal_Marshal l H) as Hl. rewrite E, Unmarshal_Marshal in Hl by done.
  congruence.
Qed.

Lemma upgrade_current w cn uid n ns :
  upgrade_locator (NewNamespaceLocator w cn uid n ns) = NewNamespaceLocator w cn uid n ns.
Proof. unfold upgrade_locator. simpl. by case_decide as E; [subst cn|]. Qed.
Lemma upgrade_V060 w cn uid n ns :
  upgrade_locator (NewNamespaceLocatorV060 w cn uid n ns) = NewNamespaceLocator w cn uid n ns.
Proof. reflexivity. Qed.

Lemma upgrade_ascii l : ascii_locator l = true -> ascii_locator (upgrade_locator l) = true.
Proof.
  unfold ascii_locator. destruct l as [[cn dp nm uid] c ns]. simpl. rewrite !andb_true_iff.
  intros (Hcn & Hdp & Hnm & Huid & Hc & Hns & _). case_decide; by split_and!.
Qed.


Module Examples.
Definition v060 : NamespaceLocator := NewNamespaceLocatorV060 "ws" "org" "uid" "st" "ns".
Definition annotated : ObjectMeta :=
  mk_meta "kcp-x" "" None (Some {[ NamespaceLocatorAnnotation := Marshal v060 ]}) [].
End Examples.
