(* ===== verification/Dns.v ===== *)
(** * The DNS nameserver of a workspace ([pkg/syncer/spec/dns])

    The syncer runs one nameserver per workspace in its own namespace of the
    downstream cluster. [EnsureDNSUpAndReady] creates the nameserver's objects
    when its endpoints are missing, refreshes its image once per process, and
    tells whether it answers. *)

From S2P Require Import Prelude Platform Digest ApiTypes Json SyncerShared.
Local Open Scope nat_scope.

(** ** The objects ([resources.go] and the YAML files it embeds) *)

Definition gvr (g v r : string) : GroupVersionResource :=
  {| gvr_Group := g; gvr_Version := v; gvr_Resource := r |}.
Definition serviceAccountGVR := core_v1 "serviceaccounts".
Definition roleGVR := gvr "rbac.authorization.k8s.io" "v1" "roles".
Definition roleBindingGVR := gvr "rbac.authorization.k8s.io" "v1" "rolebindings".
Definition deploymentGVR := gvr "apps" "v1" "deployments".
Definition serviceGVR := core_v1 "services".
Definition networkPolicyGVR := gvr "networking.k8s.io" "v1" "networkpolicies".
Definition endpointsGVR := core_v1 "endpoints".

(** The fields of [corev1.EndpointSubset] in use. *)
Record EndpointSubset := { es_Addresses : list string; es_Ports : list (Z * string) }.

Definition roleTemplate_rules : list PolicyRule :=
  [{| pr_APIGroups := [""]; pr_Resources := ["configmaps"];
      pr_ResourceNames := ["ConfigMapName"]; pr_Verbs := ["get"; "list"; "watch"];
      pr_NonResourceURLs := [] |}].
Definition deploymentTemplate : DeploymentSpec := {|
  ds_Replicas := 1; ds_Strategy := "Recreate";
  ds_MatchLabels := Some {[ "app" := "Name" ]};
  ds_TemplateLabels := Some {[ "app" := "Name" ]};
  ds_Containers := [{|
    ctr_Name := "kcp-dns"; ctr_Image := "Image";
    ctr_Command := ["/ko-app/syncer"];
    ctr_Args := ["dns"; "start"; "--configmap-name"; "ConfigMapName"];
    ctr_Env := [("NAMESPACE", "metadata.namespace")];
    ctr_ImagePullPolicy := "IfNotPresent";
    ctr_TerminationMessagePolicy := "FallbackToLogsOnError" |}];
  ds_ServiceAccountName := "Name" |}.
Definition serviceTemplate_ports : list ServicePort :=
  [{| sp_Name := "dns"; sp_Port := 53; sp_Protocol := "UDP"; sp_TargetPort := 5353 |};
   {| sp_Name := "dns-tcp"; sp_Port := 53; sp_Protocol := "TCP"; sp_TargetPort := 5353 |}].
Definition networkPolicyTemplate : NetworkPolicySpec := {|
  nps_PodSelector := Some {[ "app" := "Name" ]};
  nps_PolicyTypes := ["Ingress"; "Egress"];
  nps_Ingress :=
    [([NamespaceSelector (Some {[ TenantIDLabel := "TenantID" ]})],
      [("TCP", 5353%Z); ("UDP", 5353%Z)])];
  nps_Egress :=
    [([NamespaceSelector (Some {[ "kubernetes.io/metadata.name" := "kube-system" ]});
       PodSelector (Some {[ "k8s-app" := "kube-dns" ]})],
      [("TCP", 53%Z); ("UDP", 53%Z)]);
     ([IPBlock "APIServerIP"], [("TCP", 6443%Z)])] |}.

(** Writing a label of a template, whose label maps are not nil. *)
Definition put (k v : string) (m : gomap) : gomap := <[k := v]> <$> m.

Definition MakeServiceAccount (name namespace : string) : dns_object :=
  ServiceAccount name namespace.
Definition MakeRole (name namespace : string) : dns_object :=
  Role name namespace
    (alter (fun r => {| pr_APIGroups := pr_APIGroups r; pr_Resources := pr_Resources r;
                        pr_ResourceNames := <[0 := name]> (pr_ResourceNames r);
                        pr_Verbs := pr_Verbs r; pr_NonResourceURLs := pr_NonResourceURLs r |}) 0 roleTemplate_rules).
Definition MakeRoleBinding (name namespace : string) : dns_object :=
  RoleBinding name namespace name
    (alter (fun s => (s.1.1, name, namespace)) 0 [("ServiceAccount", "Name", "Name")]).
Definition MakeDeploymentSpec (name image : string) : DeploymentSpec :=
  let t := deploymentTemplate in
  {| ds_Replicas := ds_Replicas t; ds_Strategy := ds_Strategy t;
     ds_MatchLabels := put "app" name (ds_MatchLabels t);
     ds_TemplateLabels := put "app" name (ds_TemplateLabels t);
     ds_Containers :=
       alter (fun c => {| ctr_Name := ctr_Name c; ctr_Image := image;
                          ctr_Command := ctr_Command c; ctr_Args := <[3 := name]> (ctr_Args c);
                          ctr_Env := ctr_Env c; ctr_ImagePullPolicy := ctr_ImagePullPolicy c;
                          ctr_TerminationMessagePolicy := ctr_TerminationMessagePolicy c |})
         0 (ds_Containers t);
     ds_ServiceAccountName := name |}.
Definition MakeDeployment (name namespace image : string) : dns_object :=
  Deployment name namespace (MakeDeploymentSpec name image).
Definition MakeService (name namespace : string) : dns_object :=
  Service name namespace (put "app" name (Some {[ "app" := "Name" ]}))
    (put "app" name (Some {[ "app" := "Name" ]})) serviceTemplate_ports.
Definition MakeNetworkPolicy (name namespace tenantID : string) (kubeEndpoints : EndpointSubset)
    : dns_object :=
  let t := networkPolicyTemplate in
  let to := map (fun ip => IPBlock (ip +:+ "/32")) (es_Addresses kubeEndpoints) in
  let ports := map (fun p => (p.2, p.1)) (es_Ports kubeEndpoints) in
  NetworkPolicy name namespace {|
    nps_PodSelector := put "app" name (nps_PodSelector t);
    nps_PolicyTypes := nps_PolicyTypes t;
    nps_Ingress := alter (fun i => (alter (fun p =>
      match p with NamespaceSelector m => NamespaceSelector (put TenantIDLabel tenantID m)
                 | p => p end) 0 i.1, i.2)) 0 (nps_Ingress t);
    nps_Egress := alter (fun _ => (to, ports)) 1 (nps_Egress t) |}.

(** ** The processor ([dns_process.go]) *)

(** The listers of the syncer's namespace, the endpoints of the downstream API
    server, and the identifiers the process has marked as initialized. *)
Class DnsWorld := {
  dns_Get : list ev -> GroupVersionResource -> string -> string -> result unit;
  deployment_Get : list ev -> string -> string -> result DeploymentSpec;
  endpoints_Get : list ev -> string -> string -> result (list EndpointSubset);
  kube_Endpoints : list ev -> result (list EndpointSubset);
  initialized_Load : list ev -> string -> bool;
}.

Section processor.
Context {EL : ErrorLib} {B36 : Base36Lib} {W : World} {DW : DnsWorld}.
Variables syncTargetUID syncTargetName dnsNamespace dnsImage : string.

(** [processServiceAccount], ..., [processService]: look up, create when it is
    not found, tolerate an object created meanwhile. *)
Definition process_object (gvr : GroupVersionResource) (get : list ev -> result unit)
    (name : string) (expected : dns_object) : M ev unit :=
  r ← try (observe get);
  r ← match r with
      | inl err => if IsNotFound err
                   then try (request Downstream VCreate gvr dnsNamespace name (DnsBody expected))
                   else mret (inl err)
      | inr _ => mret (inr tt)
      end;
  match r with
  | inl err => if negb (IsAlreadyExists err) then fail err else mret tt
  | inr _ => mret tt
  end.
Definition processServiceAccount (name : string) : M ev unit :=
  process_object serviceAccountGVR (fun h => dns_Get h serviceAccountGVR dnsNamespace name) name
    (MakeServiceAccount name dnsNamespace).
Definition processRole (name : string) : M ev unit :=
  process_object roleGVR (fun h => dns_Get h roleGVR dnsNamespace name) name
    (MakeRole name dnsNamespace).
Definition processRoleBinding (name : string) : M ev unit :=
  process_object roleBindingGVR (fun h => dns_Get h roleBindingGVR dnsNamespace name) name
    (MakeRoleBinding name dnsNamespace).
Definition processDeployment (name : string) : M ev unit :=
  process_object deploymentGVR
    (fun h => match deployment_Get h dnsNamespace name with
              | inl e => inl e | inr _ => inr tt end) name
    (MakeDeployment name dnsNamespace dnsImage).
Definition processService (name : string) : M ev unit :=
  process_object serviceGVR (fun h => dns_Get h serviceGVR dnsNamespace name) name
    (MakeService name dnsNamespace).

Definition processNetworkPolicy (name : string) (namespaceLocator : NamespaceLocator)
    : M ev unit :=
  r ← try (observe (fun h => dns_Get h networkPolicyGVR dnsNamespace name));
  r ← match r with
      | inl err =>
          if IsNotFound err then
            kubeEndpoints ← call (EvRequest Downstream VGet endpointsGVR "default" "kubernetes" NoBody)
                              kube_Endpoints;
            match kubeEndpoints with
            | [] => fail (ErrMsg "missing kubernetes API endpoints")
            | subset :: _ =>
                match es_Addresses subset with
                | [] => fail (ErrMsg "missing kubernetes API endpoints")
                | _ :: _ =>
                    try (request Downstream VCreate networkPolicyGVR dnsNamespace name
                           (DnsBody (MakeNetworkPolicy name dnsNamespace
                                       (GetTenantID namespaceLocator) subset)))
                end
            end
          else mret (inl err)
      | inr _ => mret (inr tt)
      end;
  match r with
  | inl err => if negb (IsAlreadyExists err) then fail err else mret tt
  | inr _ => mret tt
  end.

Definition hasAtLeastOneReadyAddress (subsets : list EndpointSubset) : bool :=
  existsb (fun s => match es_Addresses s with
                    | ip :: _ => bool_decide (ip <> "")
                    | [] => false
                    end) subsets.

(** [findContainer], with the write to the image through the pointer it returns. *)
Definition findContainer (d : DeploymentSpec) (name : string) : option (nat * Container) :=
  list_find (fun c => ctr_Name c = name) (ds_Containers d).
Definition with_image (d : DeploymentSpec) (i : nat) (image : string) : DeploymentSpec :=
  {| ds_Replicas := ds_Replicas d; ds_Strategy := ds_Strategy d;
     ds_MatchLabels := ds_MatchLabels d; ds_TemplateLabels := ds_TemplateLabels d;
     ds_Containers := alter (fun c => {|
       ctr_Name := ctr_Name c; ctr_Image := image; ctr_Command := ctr_Command c;
       ctr_Args := ctr_Args c; ctr_Env := ctr_Env c;
       ctr_ImagePullPolicy := ctr_ImagePullPolicy c;
       ctr_TerminationMessagePolicy := ctr_TerminationMessagePolicy c |}) i (ds_Containers d);
     ds_ServiceAccountName := ds_ServiceAccountName d |}.

(** A lookup error other than not found leaves a nil deployment, which
    [findContainer] dereferences. *)
Definition mayUpdate (name : string) : M ev bool :=
  r ← try (observe (fun h => deployment_Get h dnsNamespace name));
  match r with
  | inl err =>
      if IsNotFound err then mret false
      else lift (Panic "invalid memory address or nil pointer dereference")
  | inr deployment =>
      let desired :=
        match findContainer deployment "kcp-dns" with
        | None => Some (MakeDeploymentSpec name dnsImage)
        | Some (i, c) => if decide (ctr_Image c = dnsImage) then None
                         else Some (with_image deployment i dnsImage)
        end in
      match desired with
      | None => mret false
      | Some spec =>
          request Downstream VUpdate deploymentGVR dnsNamespace name
            (DnsBody (Deployment name dnsNamespace spec));;
          mret true
      end
  end.

(** The critical section; [initialized] is read again inside. *)
Definition lockMayUpdate (dnsID : string) : M ev (bool * option error) :=
  initialized ← observe (fun h => inr (initialized_Load h dnsID));
  if (initialized : bool) then mret (false, None)
  else
    r ← try (mayUpdate dnsID);
    match r with
    | inl err => mret (true, Some err)
    | inr updated => emit (EvInitialized dnsID);; mret (updated, None)
    end.

Definition EnsureDNSUpAndReady (namespaceLocator : NamespaceLocator) : M ev bool :=
  dnsID ← lift (GetDNSID (nl_ClusterName namespaceLocator) syncTargetUID syncTargetName);
  initialized ← observe (fun h => inr (initialized_Load h dnsID));
  '(updated, err) ← (if (initialized : bool) then mret (false, None) else lockMayUpdate dnsID);
  if (updated : bool) then match err with Some err => fail err | None => mret false end
  else
    r ← try (observe (fun h => endpoints_Get h dnsNamespace dnsID));
    match r with
    | inr endpoints => mret (hasAtLeastOneReadyAddress endpoints)
    | inl err =>
        if negb (IsNotFound err) then fail err
        else
          processServiceAccount dnsID;;
          processRole dnsID;;
          processRoleBinding dnsID;;
          processDeployment dnsID;;
          processService dnsID;;
          processNetworkPolicy dnsID namespaceLocator;;
          mret false
    end.

End processor.

(** * Lemmas *)

Section theorems.
Context {EL : ErrorLib} {B36 : Base36Lib} {W : World} {DW : DnsWorld}.
Variables syncTargetUID syncTargetName dnsNamespace dnsImage : string.
Local Abbreviation Ensure :=
  (EnsureDNSUpAndReady syncTargetUID syncTargetName dnsNamespace dnsImage).

(** What the processor may do for the nameserver [id]. *)
Definition dns_call (id : string) (e : ev) : Prop :=
  match e with
  | EvRequest Downstream VGet g ns n NoBody =>
      g = endpointsGVR /\ ns = "default" /\ n = "kubernetes"
  | EvRequest Downstream VCreate _ ns n (DnsBody _) => ns = dnsNamespace /\ n = id
  | EvRequest Downstream VUpdate g ns n (DnsBody _) =>
      g = deploymentGVR /\ ns = dnsNamespace /\ n = id
  | EvInitialized i => i = id
  | _ => False
  end.

Lemma observe_guarded {A} P (f : list ev -> result A) h : guarded P (observe f) h.
Proof. by apply guarded_quiet. Qed.

Lemma process_object_guarded g get name o h :
  guarded (fun _ => dns_call name) (process_object dnsNamespace g get name o) h.
Proof.
  unfold process_object, request.
  repeat first [guarded_step | apply observe_guarded | done].
Qed.

Lemma processNetworkPolicy_guarded name loc h :
  guarded (fun _ => dns_call name) (processNetworkPolicy dnsNamespace name loc) h.
Proof.
  unfold processNetworkPolicy, request.
  repeat first [guarded_step | apply observe_guarded | done].
Qed.

Lemma lockMayUpdate_guarded id h :
  guarded (fun _ => dns_call id) (lockMayUpdate dnsNamespace dnsImage id) h.
Proof.
  unfold lockMayUpdate, mayUpdate, request.
  repeat first [guarded_step | apply observe_guarded | done].
Qed.

Lemma Ensure_guarded loc id h :
  GetDNSID (nl_ClusterName loc) syncTargetUID syncTargetName = Ok id ->
  guarded (fun _ => dns_call id) (Ensure loc) h.
Proof.
  intros Hid. unfold EnsureDNSUpAndReady. rewrite Hid.
  unfold processServiceAccount, processRole, processRoleBinding, processDeployment, processService.
  repeat first [apply process_object_guarded | apply processNetworkPolicy_guarded
    | apply lockMayUpdate_guarded | guarded_step | apply observe_guarded | done].
  all: injection H as <- <-; repeat first [apply process_object_guarded | apply processNetworkPolicy_guarded
    | apply lockMayUpdate_guarded | guarded_step | apply observe_guarded | done].
Qed.
End theorems.
Section ready.
Context {EL : ErrorLib} {B36 : Base36Lib} {W : World} {DW : DnsWorld}.
Variables syncTargetUID syncTargetName dnsNamespace dnsImage : string.
Local Abbreviation Ensure :=
  (EnsureDNSUpAndReady syncTargetUID syncTargetName dnsNamespace dnsImage).

(** C39: whatever the servers and the caches answer, the DNS processor touches
    only the objects of the nameserver of the locator's workspace, in the DNS
    namespace: it never deletes, updates nothing but the deployment, and reads
    the API server's own endpoints. It reports the nameserver ready only when
    the endpoints of that nameserver have a ready address. *)
Theorem EnsureDNSUpAndReady_safe loc id h :
  GetDNSID (nl_ClusterName loc) syncTargetUID syncTargetName = Ok id ->
  guarded (fun _ => dns_call dnsNamespace id) (Ensure loc) h /\
  (forall h', Ensure loc h = (h', Ok true) ->
     exists subsets, endpoints_Get h' dnsNamespace id = inr subsets /\
       exists s ip ips, s ∈ subsets /\ es_Addresses s = ip :: ips /\ ip <> "").
Proof.
  intros Hid. split; [by apply Ensure_guarded|]. intros h' H.
  unfold EnsureDNSUpAndReady in H. rewrite Hid in H.
  unbind H. injection Hm as <- <-. unbind H. unbind H.
  destruct a0 as [updated err]. destruct updated; [by destruct err|].
  unbind H. destruct a0 as [e|subsets].
  { destruct (negb (IsNotFound e)); [done|]. do 6 unbind H. done. }
  apply try_inv in Hm1. injection Hm1 as <- Hg. injection H as <- Hr.
  exists subsets. split; [by destruct (endpoints_Get _ _ _); simplify_eq/=|].
  unfold hasAtLeastOneReadyAddress in Hr. apply existsb_exists in Hr as (s & Hs & Hr).
  destruct (es_Addresses s) as [|ip ips] eqn:E; [done|]. apply bool_decide_eq_true in Hr.
  exists s, ip, ips. by rewrite list_elem_of_In.
Qed.
End ready.

(** ** A nameserver that answers *)

Module Examples.
#[local] Existing Instance simple_errors.
#[local] Instance b36 : Base36Lib := {| EncodeBytes l := Text62 (SetBytes l) |}.
#[local] Instance world : World := {|
  api_write _ := inr tt;
  api_get _ := inl (ErrLib "NotFound" "");
  getShardAccess _ _ := inr true;
  downstream_Informers _ := (∅, []);
  upstream_Informers _ _ := (∅, []);
  upstream_Get _ _ _ _ _ := inl (ErrLib "NotFound" "");
  downstream_Get _ _ _ _ := inl (ErrLib "NotFound" "");
  downstream_Namespaces _ := inr [];
|}.
(** The objects are missing until the service is created. *)
Definition served (h : list ev) : bool :=
  existsb (fun e => match e with EvRequest _ VCreate g _ _ _ => bool_decide (g = serviceGVR)
                               | _ => false end) h.
Definition subset : EndpointSubset :=
  {| es_Addresses := ["10.0.0.1"]; es_Ports := [(6443%Z, "TCP")] |}.
#[local] Instance dns_world : DnsWorld := {|
  dns_Get _ _ _ _ := inl (ErrLib "NotFound" "");
  deployment_Get _ _ _ := inl (ErrLib "NotFound" "");
  endpoints_Get h _ _ := if served h then inr [subset] else inl (ErrLib "NotFound" "");
  kube_Endpoints _ := inr [subset];
  initialized_Load h id :=
    existsb (fun e => match e with EvInitialized i => bool_decide (i = id) | _ => false end) h;
|}.
Definition locator : NamespaceLocator := NewNamespaceLocator "root:ws" "root:org" "uid" "st" "".
Definition ensure : M ev bool :=
  EnsureDNSUpAndReady "uid" "st" "kcp-syncer" "image" locator.
Definition dns_id : string :=
  match GetDNSID "root:ws" "uid" "st" with Ok id => id | _ => "" end.
(** The first call creates the objects, the second finds them ready. *)
Definition after_first : list ev := (ensure []).1.

Lemma EnsureDNSUpAndReady_safe_witness :
  GetDNSID (nl_ClusterName locator) "uid" "st" = Ok dns_id /\
  guarded (fun _ => dns_call "kcp-syncer" dns_id) ensure after_first /\
  length after_first = 8 /\
  exists subsets, endpoints_Get after_first "kcp-syncer" dns_id = inr subsets /\
    exists s ip ips, s ∈ subsets /\ es_Addresses s = ip :: ips /\ ip <> "".
Proof.
  assert (H : GetDNSID (nl_ClusterName locator) "uid" "st" = Ok dns_id)
    by (vm_compute; reflexivity).
  assert (Hr : ensure after_first = (after_first, Ok true)) by (vm_compute; reflexivity).
  destruct (EnsureDNSUpAndReady_safe "uid" "st" "kcp-syncer" "image" locator dns_id after_first H)
    as [Hg Hready].
  split; [exact H|]. split; [exact Hg|]. split; [vm_compute; reflexivity|].
  exact (Hready after_first Hr).
Defined.
End Examples.
