(* ===== verification/SpecSync.v ===== *)
(** * The spec syncer ([pkg/syncer/spec])

    The controller of the syncer that copies upstream objects to the downstream
    cluster. It claims an object with its finalizer before it writes anything
    downstream, and releases it only when the downstream object is gone. *)

From S2P Require Import Prelude Platform Digest ApiTypes Committer Json SyncerShared Dns.
Local Open Scope nat_scope.

(** Libraries: [cache.MetaNamespaceKeyFunc] and [cache.SplitMetaNamespaceKey], and
    [jsonpatch.DecodePatch] with [Patch.Apply]. *)
Class NamespaceKeyLib := {
  MetaNamespaceKeyFunc : ObjectMeta -> result string;
  SplitMetaNamespaceKey : string -> result (string * string);
}.
Class JsonPatchLib := {
  DecodePatch : string -> result (string -> result string);
}.

(** ** Setters of [unstructured.Unstructured] *)

Definition SetIdentity (u : Unstructured) (name uid version ns : string) : Unstructured :=
  on_meta (fun m => {|
    Name := name; Namespace := ns; UID := uid; ResourceVersion := version;
    Labels := Labels m; Annotations := Annotations m; Finalizers := Finalizers m;
    DeletionTimestamp := DeletionTimestamp m; CreationTimestamp := CreationTimestamp m;
    OwnerReferences := OwnerReferences m |}) u.
Definition SetDeletionTimestamp_nil (u : Unstructured) : Unstructured :=
  on_meta (fun m => {|
    Name := Name m; Namespace := Namespace m; UID := UID m;
    ResourceVersion := ResourceVersion m;
    Labels := Labels m; Annotations := Annotations m; Finalizers := Finalizers m;
    DeletionTimestamp := None; CreationTimestamp := CreationTimestamp m;
    OwnerReferences := OwnerReferences m |}) u.
Definition SetOwnerReferences_nil (u : Unstructured) : Unstructured :=
  on_meta (fun m => {|
    Name := Name m; Namespace := Namespace m; UID := UID m;
    ResourceVersion := ResourceVersion m;
    Labels := Labels m; Annotations := Annotations m; Finalizers := Finalizers m;
    DeletionTimestamp := DeletionTimestamp m; CreationTimestamp := CreationTimestamp m;
    OwnerReferences := [] |}) u.
(** [SetManagedFields(nil)], [SetDeletionGracePeriodSeconds(nil)]. *)
Definition RemoveMetaField (k : string) (u : Unstructured) : Unstructured :=
  {| u_meta := u_meta u; u_more := delete k (u_more u); u_content := u_content u |}.
Definition SetContent (k : string) (v : json) (u : Unstructured) : Unstructured :=
  {| u_meta := u_meta u; u_more := u_more u; u_content := <[k := v]> (u_content u) |}.

(** ** What matters of an update ([deepEqualApartFromStatus]) *)

Section deep_equal.
Context {DM : DeepEq gomap} {DF : DeepEq (list string)} {DV : DeepEq (option json)}.
(** [unstructured.NestedStringMap(o.Object, "metadata", "annotations")]: an error
    when the field is not a map of strings. *)
Variable NestedAnnotations : Unstructured -> result gomap.

Definition without_status_annotations (a : gomap) : gomap :=
  filter (fun kv => HasPrefix kv.1 InternalClusterStatusAnnotationPrefix = false) <$> a.

Definition deepEqualApartFromStatus (old new : Unstructured) : bool :=
  match NestedAnnotations old, NestedAnnotations new with
  | inr oldAnnotations, inr newAnnotations =>
      deep_equal (without_status_annotations oldAnnotations)
        (without_status_annotations newAnnotations) &&
      deep_equal (GetLabels old) (GetLabels new) &&
      deep_equal (GetFinalizers old) (GetFinalizers new) &&
      Bool.eqb (bool_decide (is_Some (DeletionTimestamp (u_meta old))))
        (bool_decide (is_Some (DeletionTimestamp (u_meta new)))) &&
      forallb (fun key =>
        bool_decide (key = "metadata") || bool_decide (key = "status") ||
        deep_equal (u_content old !! key) (u_content new !! key))
        (elements (dom (u_content old) ∪ dom (u_content new)))
  | _, _ => false
  end.
End deep_equal.

(** ** Names ([getTransformedName]) *)

Definition configMapGVK : GroupVersionKind :=
  {| gvk_Group := ""; gvk_Version := "v1"; gvk_Kind := "ConfigMap" |}.
Definition secretGVK : GroupVersionKind :=
  {| gvk_Group := ""; gvk_Version := "v1"; gvk_Kind := "Secret" |}.

Definition getTransformedName `{!SchemaLib, !KeyLib} (syncedObject : Unstructured) : string :=
  if bool_decide (GetGroupVersionKind syncedObject = configMapGVK)
     && bool_decide (GetName syncedObject = "kube-root-ca.crt")
  then "kcp-root-ca.crt"
  else if bool_decide (GetGroupVersionKind syncedObject = secretGVK)
          && HasPrefix (GetName syncedObject) "default-token-"
          && bool_decide (map_get (GetAnnotations syncedObject) ServiceAccountNameKey
                          = Some "default")
  then "kcp-" +:+ GetName syncedObject
  else GetName syncedObject.

(** ** The controller *)

(** [type Controller struct]: the configuration of one syncer. *)
Record Controller := {
  mutators : gmap GroupVersionResource (Unstructured -> res Unstructured);
  c_syncTargetName : string;
  c_syncTargetClusterName : string;
  c_syncTargetUID : string;
  c_syncTargetKey : string;
  advancedSchedulingEnabled : bool;
  c_dnsNamespace : string;
  c_dnsImage : string;
}.

Section controller.
Context {EL : ErrorLib} {CL : ClusterLib} {SL : SchemaLib} {KL : KeyLib}.
Context {B36 : Base36Lib} {NK : NamespaceKeyLib} {JP : JsonPatchLib}.
Context {W : World} {DW : DnsWorld}.
Variable c : Controller.

Definition downstream_delete (gvr : GroupVersionResource) (ns name : string) : M ev unit :=
  request Downstream VDelete gvr ns name NoBody.

(** [downstream_Get] of a lister obtained first: its cached object is shared.
    The label is written into it in place, which [EvCacheWrite] records. *)
Definition desired_locator (upstreamObj : Unstructured) : NamespaceLocator :=
  NewNamespaceLocator (ClusterFrom (u_meta upstreamObj)) (c_syncTargetClusterName c)
    (c_syncTargetUID c) (c_syncTargetName c) (GetNamespace upstreamObj).
Definition new_namespace (downstreamNamespace : string) (desiredNSLocator : NamespaceLocator)
    : Unstructured := {|
  u_meta := mk_meta downstreamNamespace ""
    (Some {[ InternalDownstreamClusterLabel := c_syncTargetKey c;
             TenantIDLabel := GetTenantID desiredNSLocator ]})
    (Some {[ NamespaceLocatorAnnotation := Marshal desiredNSLocator ]}) [];
  u_more := ∅;
  u_content := {[ "apiVersion" := JString "v1"; "kind" := JString "Namespace" ]} |}.

(** The namespace exists: check its locator, then its tenant label. [cached]
    tells whether the object is the lister's. *)
Definition check_namespace (downstreamNamespace : string) (desiredNSLocator : NamespaceLocator)
    (cached : bool) (namespace : Unstructured) : M ev unit :=
  match LocatorFromAnnotations (GetAnnotations namespace) with
  | inl err => fail (ErrWrap "(possible namespace collision) namespace already exists, but found an error when trying to decode the annotation" err)
  | inr None => fail (ErrMsg "(namespace collision) namespace has no namespace locator")
  | inr (Some nsLocator) =>
      if decide (desiredNSLocator = nsLocator) then
        let desiredTenantID := GetTenantID desiredNSLocator in
        if bool_decide (map_get (GetLabels namespace) TenantIDLabel = Some desiredTenantID)
        then mret tt
        else
          labels ← lift (map_set (GetLabels namespace) TenantIDLabel desiredTenantID);
          let namespace := SetLabels namespace labels in
          (if cached then emit (EvCacheWrite namespaceGVR namespace) else mret tt);;
          Update Downstream namespaceGVR "" namespace
      else fail (ErrMsg "(namespace collision) namespace already exists, but has a different namespace locator annotation")
  end.

Definition ensureDownstreamNamespaceExists (downstreamNamespace : string)
    (upstreamObj : Unstructured) : M ev unit :=
  emit (EvCancelCleaning downstreamNamespace);;
  let desiredNSLocator := desired_locator upstreamObj in
  let newNamespace := new_namespace downstreamNamespace desiredNSLocator in
  getDownstreamLister namespaceGVR;;
  r ← try (observe (fun h => downstream_Get h namespaceGVR "" downstreamNamespace));
  match r with
  | inr namespace => check_namespace downstreamNamespace desiredNSLocator true namespace
  | inl err =>
      created ← (if IsNotFound err
                 then try (request Downstream VCreate namespaceGVR "" downstreamNamespace
                             (Body newNamespace))
                 else mret (inl err));
      match created with
      | inr _ => mret tt
      | inl err =>
          if IsAlreadyExists err then
            namespace ← call (EvRequest Downstream VGet namespaceGVR "" downstreamNamespace NoBody)
                          api_get;
            check_namespace downstreamNamespace desiredNSLocator false namespace
          else fail err
      end
  end.

Definition clusterWideCollisionCheck (gvr : GroupVersionResource) (upstreamObj : Unstructured)
    : M ev unit :=
  getDownstreamLister gvr;;
  r ← try (observe (fun h => downstream_Get h gvr "" (GetName upstreamObj)));
  match r with
  | inl err => if IsNotFound err then mret tt else fail err
  | inr resource =>
      match LocatorFromAnnotations (GetAnnotations resource) with
      | inl err => fail (ErrWrap "(possible cluster-wide resource collision) resource already exists, but found an error when trying to decode the annotation" err)
      | inr None => fail (ErrMsg "(cluster-wide resource collision) resource has no namespace locator")
      | inr (Some nsLocator) =>
          if decide (nl_ClusterName nsLocator = c_syncTargetClusterName c) then mret tt
          else fail (ErrMsg "(cluster-wide resource collision) resource already exists, but has a different namespace locator annotation")
      end
  end.

(** ** Ownership *)

Definition my_finalizer : string := SyncerFinalizerNamePrefix +:+ c_syncTargetKey c.
Definition intendedToBeRemovedFromLocation (u : Unstructured) : bool :=
  negb (bool_decide (map_index (GetAnnotations u)
    (InternalClusterDeletionTimestampAnnotationPrefix +:+ c_syncTargetKey c) = "")).
Definition stillOwnedByExternalActorForLocation (u : Unstructured) : bool :=
  negb (bool_decide (map_index (GetAnnotations u)
    (ClusterFinalizerAnnotationPrefix +:+ c_syncTargetKey c) = "")).
Definition has_my_finalizer (u : Unstructured) : bool :=
  existsb (fun f => bool_decide (f = my_finalizer)) (GetFinalizers u).

(** [ensureSyncerFinalizer]: whether the finalizer was added. *)
Definition ensureSyncerFinalizer (gvr : GroupVersionResource) (upstreamObj : Unstructured)
    : M ev bool :=
  if negb (has_my_finalizer upstreamObj)
     && (negb (intendedToBeRemovedFromLocation upstreamObj)
         || stillOwnedByExternalActorForLocation upstreamObj)
  then
    let clusterName := ClusterFrom (u_meta upstreamObj) in
    let upstreamObjCopy :=
      SetFinalizers upstreamObj (GetFinalizers upstreamObj ++ [my_finalizer]) in
    getUpstreamClient clusterName;;
    Update (Upstream clusterName) gvr (GetNamespace upstreamObjCopy) upstreamObjCopy;;
    mret true
  else mret false.

(** ** Applying the object ([applyToDownstream]) *)

(** The spec-diff patch on the upstream spec. Numbers keep their text. *)
Definition patched_spec (specDiffPatch : string) (upstreamSpec : json) : result json :=
  match DecodePatch specDiffPatch with
  | inl err => inl err
  | inr apply =>
      match apply (print upstreamSpec) with
      | inl err => inl err
      | inr patchedUpstreamSpecJSON =>
          match parse patchedUpstreamSpecJSON with
          | inl err => inl err
          | inr (JObject l) => inr (JObject l)
          | inr JNull => inr (JObject [])
          | inr _ => inl type_error
          end
      end
  end.

(** From the mutated copy to the object that is applied. *)
Definition downstream_annotations (downstreamNamespace : string) (upstreamObj : Unstructured)
    (annotations : gomap) : res gomap :=
  let a := map_delete annotations AnnotationKey in
  let a := map_delete a (InternalClusterStatusAnnotationPrefix +:+ c_syncTargetKey c) in
  a ← (if decide (downstreamNamespace = "") then
         map_set a NamespaceLocatorAnnotation
           (Marshal (NewNamespaceLocator (ClusterFrom (u_meta upstreamObj))
              (c_syncTargetClusterName c) (c_syncTargetUID c) (c_syncTargetName c) ""))
       else Ok a);
  mret (if decide (entries a = ∅) then None else a).
Definition downstream_labels (labels : gomap) : res gomap :=
  map_set (map_delete labels (ClusterResourceStateLabelPrefix +:+ c_syncTargetKey c))
    InternalDownstreamClusterLabel (c_syncTargetKey c).
Definition downstream_object (downstreamNamespace transformedName : string)
    (upstreamObj downstreamObj : Unstructured) : res Unstructured :=
  let o := RemoveMetaField "managedFields"
             (SetIdentity downstreamObj transformedName "" "" downstreamNamespace) in
  annotations ← downstream_annotations downstreamNamespace upstreamObj (GetAnnotations o);
  let o := SetAnnotations o annotations in
  let o := RemoveMetaField "deletionGracePeriodSeconds" (SetDeletionTimestamp_nil o) in
  let o := SetFinalizers (SetOwnerReferences_nil o) [] in
  labels ← downstream_labels (GetLabels o);
  let o := SetLabels o labels in
  let specDiffPatch := map_index (GetAnnotations upstreamObj)
    (ClusterSpecDiffAnnotationPrefix +:+ c_syncTargetKey c) in
  if advancedSchedulingEnabled c && negb (bool_decide (specDiffPatch = "")) then
    match u_content upstreamObj !! "spec" with
    | None => mret o
    | Some upstreamSpec =>
        newSpec ← of_result (patched_spec specDiffPatch upstreamSpec);
        mret (SetContent "spec" newSpec o)
    end
  else mret o.

Definition delete_downstream (gvr : GroupVersionResource)
    (downstreamNamespace transformedName : string) (upstreamObj : Unstructured) : M ev unit :=
  let clusterName := ClusterFrom (u_meta upstreamObj) in
  r ← try (downstream_delete gvr downstreamNamespace transformedName);
  match r with
  | inl err =>
      if IsNotFound err then
        getUpstreamClient clusterName;;
        EnsureUpstreamFinalizerRemoved clusterName gvr (GetNamespace upstreamObj)
          (c_syncTargetKey c) (GetName upstreamObj)
      else fail err
  | inr _ =>
      if decide (downstreamNamespace = "") then mret tt
      else emit (EvPlanCleaning downstreamNamespace)
  end.

Definition applyToDownstream (gvr : GroupVersionResource) (downstreamNamespace : string)
    (upstreamObj : Unstructured) : M ev unit :=
  let transformedName := getTransformedName upstreamObj in
  getUpstreamLister (ClusterFrom (u_meta upstreamObj)) gvr;;
  if intendedToBeRemovedFromLocation upstreamObj
     && negb (stillOwnedByExternalActorForLocation upstreamObj)
  then delete_downstream gvr downstreamNamespace transformedName upstreamObj
  else
    mutated ← lift (match mutators c !! gvr with
                    | Some mutate => mutate upstreamObj
                    | None => Ok upstreamObj
                    end);
    downstreamObj ← lift (downstream_object downstreamNamespace transformedName
                            upstreamObj mutated);
    request Downstream VApply gvr downstreamNamespace (GetName downstreamObj)
      (Body downstreamObj).

(** ** One pass ([process]) *)

(** The downstream namespace of an upstream namespace: the one annotated with the
    locator, or the hashed name of a new one. *)
Definition by_locator (h : list ev) (jsonLocator : string) : result (list Unstructured) :=
  match downstream_Namespaces h with
  | inl err => inl err
  | inr l => inr (List.filter (fun ns =>
      match IndexByNamespaceLocator (u_meta ns) with
      | inr ks => bool_decide (jsonLocator ∈ ks)
      | inl _ => false
      end) l)
  end.
Definition downstream_namespace (desiredNSLocator : NamespaceLocator) : M ev string :=
  if decide (nl_Namespace desiredNSLocator = "") then mret ""
  else
    downstreamNamespaces ← observe (fun h => by_locator h (Marshal desiredNSLocator));
    match downstreamNamespaces with
    | [namespace] => mret (GetName namespace)
    | _ :: _ :: _ => fail (ErrMsg "(namespace collision) found multiple downstream namespaces")
    | [] => lift (PhysicalClusterNamespaceName desiredNSLocator)
    end.

(** The resource at its original API version; nothing when it does not parse. *)
Definition actual_gvr (gvr : GroupVersionResource) (upstreamObj : Unstructured)
    : option GroupVersionResource :=
  let actualVersion := map_index (GetAnnotations upstreamObj) KCPOriginalAPIVersionAnnotation in
  if decide (actualVersion = "") then Some gvr
  else match ParseGroupVersion actualVersion with
       | inl _ => None
       | inr (_, v) => Some {| gvr_Group := gvr_Group gvr; gvr_Version := v;
                               gvr_Resource := gvr_Resource gvr |}
       end.

Definition sync_object (desiredNSLocator : NamespaceLocator) (gvr : GroupVersionResource)
    (downstreamNamespace : string) (upstreamObj : Unstructured) : M ev (option Z) :=
  (if decide (downstreamNamespace = "") then clusterWideCollisionCheck gvr upstreamObj
   else ensureDownstreamNamespaceExists downstreamNamespace upstreamObj);;
  dnsUpAndReady ← EnsureDNSUpAndReady (c_syncTargetUID c) (c_syncTargetName c)
    (c_dnsNamespace c) (c_dnsImage c) desiredNSLocator;
  if negb dnsUpAndReady && bool_decide (gvr = deploymentGVR) then mret (Some 500000000%Z)
  else
    added ← ensureSyncerFinalizer gvr upstreamObj;
    if (added : bool) then mret None
    else applyToDownstream gvr downstreamNamespace upstreamObj;; mret None.

Definition process (gvr : GroupVersionResource) (key : string) : M ev (option Z) :=
  match SplitMetaClusterNamespaceKey key with
  | inl _ => mret None
  | inr (clusterName, upstreamNamespace, name) =>
      let desiredNSLocator := NewNamespaceLocator clusterName (c_syncTargetClusterName c)
        (c_syncTargetUID c) (c_syncTargetName c) upstreamNamespace in
      downstreamNamespace ← downstream_namespace desiredNSLocator;
      getUpstreamLister clusterName gvr;;
      r ← try (observe (fun h => upstream_Get h clusterName gvr upstreamNamespace name));
      match r with
      | inl err =>
          if negb (IsNotFound err) then fail err
          else
            d ← try (downstream_delete gvr downstreamNamespace name);
            match d with
            | inl err => if negb (IsNotFound err) then fail err else mret tt
            | inr _ => mret tt
            end;;
            (if decide (downstreamNamespace = "") then mret tt
             else emit (EvPlanCleaning downstreamNamespace));;
            mret None
      | inr upstreamObj =>
          match actual_gvr gvr upstreamObj with
          | None => mret None
          | Some gvr => sync_object desiredNSLocator gvr downstreamNamespace upstreamObj
          end
      end
  end.

(** ** Handlers and the queue ([spec_controller.go]) *)

Definition AddToQueue (gvr : GroupVersionResource) (obj : ObjectMeta) : M ev unit :=
  match MetaClusterNamespaceKeyFunc obj with
  | inl err => emit (EvHandleError err)
  | inr key => emit (EvAdd {| qk_gvr := gvr; qk_key := key |})
  end.
Definition upstream_AddFunc (gvr : GroupVersionResource) (obj : Unstructured) : M ev unit :=
  if decide (gvr = namespaceGVR) then mret tt else AddToQueue gvr (u_meta obj).
Definition upstream_UpdateFunc (equal : Unstructured -> Unstructured -> bool)
    (gvr : GroupVersionResource) (oldObj newObj : Unstructured) : M ev unit :=
  if decide (gvr = namespaceGVR) then mret tt
  else if equal oldObj newObj then mret tt else AddToQueue gvr (u_meta newObj).

(** The downstream object is gone: find its upstream object and queue it. A split
    error is handled, with an empty namespace and name, without a return. *)
Definition locator_holder (gvr : GroupVersionResource) (namespace : string)
    (unstrObj : Unstructured) : M ev (option Unstructured) :=
  if decide (namespace = "") then mret (Some unstrObj)
  else
    l ← try (getDownstreamLister namespaceGVR);
    match l with
    | inl err => emit (EvHandleError err);; mret None
    | inr _ =>
        r ← try (observe (fun h => downstream_Get h namespaceGVR "" namespace));
        match r with
        | inl err => if IsNotFound err then mret None
                     else emit (EvHandleError err);; mret None
        | inr nsObj => emit (EvPlanCleaning namespace);; mret (Some nsObj)
        end
    end.
Definition upstream_meta (gvr : GroupVersionResource) (nsLocator : NamespaceLocator)
    (name : string) : ObjectMeta :=
  mk_meta (GetUpstreamResourceName gvr name) (nl_Namespace nsLocator) None
    (Some {[ AnnotationKey := nl_ClusterName nsLocator ]}) [].
Definition downstream_DeleteFunc (gvr : GroupVersionResource) (unstrObj : Unstructured)
    : M ev unit :=
  if decide (gvr = namespaceGVR) then mret tt
  else if bool_decide (map_index (GetLabels unstrObj)
            (ClusterResourceStateLabelPrefix +:+ c_syncTargetKey c) = ResourceStateUpsync)
  then mret tt
  else match MetaNamespaceKeyFunc (u_meta unstrObj) with
  | inl err => emit (EvHandleError (ErrWrap "error getting key" err))
  | inr key =>
      '(namespace, name) ← match SplitMetaNamespaceKey key with
        | inl err => emit (EvHandleError (ErrWrap "error splitting key" err));; mret ("", "")
        | inr p => mret p
        end;
      holder ← locator_holder gvr namespace unstrObj;
      match holder with
      | None => mret tt
      | Some nsLocatorHolder =>
          match map_get (GetAnnotations nsLocatorHolder) NamespaceLocatorAnnotation with
          | None => emit (EvHandleError (ErrMsg "unable to find the locator annotation in resource"))
          | Some locator =>
              match Unmarshal locator with
              | inl err => emit (EvHandleError err)
              | inr nsLocator => AddToQueue gvr (upstream_meta gvr nsLocator name)
              end
          end
      end
  end.

(** [processNextWorkItem] on an item taken from the queue; [Done] is deferred. *)
Definition processNextWorkItem (qk : queueKey) : M ev unit := fun h =>
  let '(h, r) :=
    (r ← try (process (qk_gvr qk) (qk_key qk));
     match r with
     | inl err =>
         emit (EvHandleError (ErrWrap "failed to sync" err));; emit (EvAddRateLimited qk)
     | inr (Some retryAfter) => emit (EvAddAfter qk retryAfter)
     | inr None => emit (EvForget qk)
     end) h in
  (h ++ [EvDone qk], r).

End controller.

(** * Lemmas *)

Lemma HasPrefix_strip s p : HasPrefix s p = true -> exists r, s = p +:+ r.
Proof.
  unfold HasPrefix. destruct (strip_prefix p s) as [r|] eqn:E; [|done]. intros _.
  exists r. by apply strip_prefix_Some.
Qed.

Section names.
Context {SL : SchemaLib} {KL : KeyLib}.

(** The resource and the kind name the same type. *)
Definition same_type (gvr : GroupVersionResource) (u : Unstructured) : Prop :=
  (gvr = configMapGVR <-> GetGroupVersionKind u = configMapGVK) /\
  (gvr = secretGVR <-> GetGroupVersionKind u = secretGVK).

(** The names that the renaming of the syncer reserves downstream. *)
Definition reserved_name (gvr : GroupVersionResource) (name : string) : bool :=
  (bool_decide (gvr = configMapGVR) && bool_decide (name = "kcp-root-ca.crt"))
  || (bool_decide (gvr = secretGVR) && HasPrefix name "kcp-default-token").

(** The name of a downstream object leads back to the upstream object it was
    made from, for every object but those whose upstream name is one that the
    renaming reserves (a config map kcp-root-ca.crt, a secret
    kcp-default-token...), for which it never does. *)
Theorem upstream_name_roundtrip gvr u :
  same_type gvr u ->
  GetUpstreamResourceName gvr (getTransformedName u) = GetName u <->
  reserved_name gvr (GetName u) = false.
Proof.
  intros [Hc Hs]. unfold GetUpstreamResourceName, getTransformedName, reserved_name.
  destruct (bool_decide_reflect (gvr = configMapGVR)) as [->|Nc].
  - rewrite (bool_decide_true (GetGroupVersionKind u = configMapGVK)) by (by apply Hc).
    rewrite (bool_decide_false (configMapGVR = secretGVR)) by done.
    rewrite (bool_decide_false (GetGroupVersionKind u = secretGVK))
      by (rewrite (proj1 Hc eq_refl); done).
    simpl. rewrite orb_false_r.
    destruct (bool_decide_reflect (GetName u = "kube-root-ca.crt")) as [->|Nk]; [done|].
    destruct (bool_decide_reflect (GetName u = "kcp-root-ca.crt")) as [->|Nr]; done.
  - rewrite (bool_decide_false (GetGroupVersionKind u = configMapGVK)) by (by rewrite <-Hc).
    simpl. destruct (bool_decide_reflect (gvr = secretGVR)) as [->|Ns]; simpl.
    + rewrite (bool_decide_true (GetGroupVersionKind u = secretGVK)) by (by apply Hs). simpl.
      destruct (HasPrefix (GetName u) "default-token-") eqn:Hd; simpl.
      * apply HasPrefix_strip in Hd as [r Hr]. rewrite Hr.
        case_bool_decide; [|done]. done.
      * destruct (HasPrefix (GetName u) "kcp-default-token") eqn:Hk; [|done].
        apply HasPrefix_strip in Hk as [r ->]. split; [|done].
        change (TrimPrefix ("kcp-default-token" +:+ r) "kcp-") with ("default-token" +:+ r).
        intros H. apply (f_equal String.length) in H. rewrite !string_app_length in H. simpl in H. lia.
    + rewrite (bool_decide_false (GetGroupVersionKind u = secretGVK)) by (by rewrite <-Hs). done.
Qed.
End names.

(** ** Who writes what *)

Section ownership.
Context {EL : ErrorLib} {CL : ClusterLib} {SL : SchemaLib} {KL : KeyLib}.
Context {B36 : Base36Lib} {NK : NamespaceKeyLib} {JP : JsonPatchLib}.
Context {W : World} {DW : DnsWorld}.
Variable c : Controller.

(** The calls allowed while the syncer works on one upstream object. *)
Definition claims (obj u : Unstructured) : Prop :=
  has_my_finalizer c obj = false /\
  u = SetFinalizers obj (GetFinalizers obj ++ [my_finalizer c]).
Definition releases (dns : string) (obj u : Unstructured) (h : list ev) : Prop :=
  exists h0 g err current,
    h = h0 ++ [EvRequest Downstream VDelete g dns (getTransformedName obj) NoBody] /\
    api_write h = inl err /\ IsNotFound err = true /\
    u = released (c_syncTargetKey c) current.
Definition leaving (obj : Unstructured) : Prop :=
  intendedToBeRemovedFromLocation c obj = true /\
  stillOwnedByExternalActorForLocation c obj = false.
Definition ownership (dns : string) (obj : Unstructured) (h : list ev) (e : ev) : Prop :=
  match e with
  | EvRequest Downstream VApply _ ns n (Body _) =>
      ns = dns /\ n = getTransformedName obj /\ has_my_finalizer c obj = true /\ ~ leaving obj
  | EvRequest Downstream VDelete _ ns n NoBody =>
      ns = dns /\ n = getTransformedName obj /\ leaving obj
  | EvRequest Downstream (VApply | VDelete) _ _ _ _ => False
  | EvRequest (Upstream cl) VUpdate _ _ _ (Body u) =>
      cl = ClusterFrom (u_meta obj) /\ (claims obj u \/ releases dns obj u h)
  | EvRequest (Upstream _) _ _ _ _ _ => False
  | _ => True
  end.

Lemma lister_quiet g h : (getDownstreamLister g h).1 = h.
Proof. done. Qed.
Lemma shard_quiet cl h : (shard_of cl h).1 = h.
Proof.
  unfold shard_of, mbind, M_bind, observe, of_result.
  by destruct (getShardAccess h cl) as [e|[]].
Qed.
Lemma upstream_lister_quiet cl g h : (getUpstreamLister cl g h).1 = h.
Proof.
  unfold getUpstreamLister. unfold mbind, M_bind. pose proof (shard_quiet cl h) as H.
  by destruct (shard_of cl h) as [h' []].
Qed.
Lemma downstream_namespace_quiet l h : (downstream_namespace l h).1 = h.
Proof.
  unfold downstream_namespace. case_decide; [done|].
  unfold mbind, M_bind, observe, of_result. by destruct (by_locator h _) as [e|[|n [|n' ns]]].
Qed.

Lemma guarded_quiet_bind {Ev A B} P (m : M Ev A) (f : A -> M Ev B) h :
  (m h).1 = h -> (forall a, m h = (h, Ok a) -> guarded P (f a) h) -> guarded P (m ≫= f) h.
Proof.
  intros Hq Hf. apply guarded_bind; [by apply guarded_quiet|]. intros h' a E.
  rewrite E in Hq. simpl in Hq. subst. by apply Hf.
Qed.

Lemma check_namespace_guarded dns obj ns l b n h :
  guarded (ownership dns obj) (check_namespace ns l b n) h.
Proof. unfold check_namespace, Update, request. repeat (guarded_step || done). Qed.
Lemma ensure_namespace_guarded dns obj ns u h :
  guarded (ownership dns obj) (ensureDownstreamNamespaceExists c ns u) h.
Proof.
  unfold ensureDownstreamNamespaceExists, request.
  repeat first [apply check_namespace_guarded | guarded_step | apply observe_guarded
    | by apply guarded_quiet | done].
Qed.
Lemma collision_guarded dns obj g u h :
  guarded (ownership dns obj) (clusterWideCollisionCheck c g u) h.
Proof.
  unfold clusterWideCollisionCheck.
  repeat first [guarded_step | apply observe_guarded | by apply guarded_quiet | done].
Qed.
Lemma Ensure_ownership dns obj l h :
  guarded (ownership dns obj)
    (EnsureDNSUpAndReady (c_syncTargetUID c) (c_syncTargetName c) (c_dnsNamespace c)
       (c_dnsImage c) l) h.
Proof.
  destruct (GetDNSID (nl_ClusterName l) (c_syncTargetUID c) (c_syncTargetName c)) as [id|e|s] eqn:E.
  - eapply guarded_mono; [by apply Ensure_guarded|].
    intros h' [[] [] ? ? ? []| | | | | | | | | | | |]; simpl; tauto.
  - apply guarded_quiet. unfold EnsureDNSUpAndReady. by rewrite E.
  - apply guarded_quiet. unfold EnsureDNSUpAndReady. by rewrite E.
Qed.

Lemma ensureSyncerFinalizer_guarded dns g obj h :
  guarded (ownership dns obj) (ensureSyncerFinalizer c g obj) h.
Proof.
  unfold ensureSyncerFinalizer. destruct (has_my_finalizer c obj) eqn:Hf; simpl;
    [apply guarded_ret|].
  case_match; [|apply guarded_ret].
  apply guarded_quiet_bind; [apply shard_quiet|]. intros _ _.
  unfold Update, request. guarded_step; guarded_step. simpl. split; [done|]. by left.
Qed.
(** When it adds nothing, the object is claimed or is leaving. *)
Lemma ensureSyncerFinalizer_none g obj h h' :
  ensureSyncerFinalizer c g obj h = (h', Ok false) ->
  h' = h /\ (has_my_finalizer c obj = true \/ leaving obj).
Proof.
  unfold ensureSyncerFinalizer, leaving. destruct (has_my_finalizer c obj); simpl.
  - intros [= ->]. auto.
  - destruct (intendedToBeRemovedFromLocation c obj), (stillOwnedByExternalActorForLocation c obj);
      simpl; intros H; try (unbind H; unbind H; done). by injection H as ->; auto.
Qed.

Lemma delete_downstream_guarded g ns obj h :
  leaving obj ->
  guarded (ownership ns obj) (delete_downstream c g ns (getTransformedName obj) obj) h.
Proof.
  intros Hl. unfold delete_downstream, downstream_delete, request.
  apply guarded_bind; [by repeat guarded_step|]. intros h' r Hr.
  apply try_inv in Hr. injection Hr as <- Hr. destruct r as [err|]; [|by repeat guarded_step].
  destruct (IsNotFound err) eqn:He; [|apply guarded_fail].
  apply guarded_quiet_bind; [apply shard_quiet|]. intros _ _.
  unfold EnsureUpstreamFinalizerRemoved.
  apply guarded_quiet_bind; [unfold try, observe; by destruct (upstream_Get _ _ _ _ _)|].
  intros [e|current] _; [by destruct (negb _); repeat guarded_step|].
  case_match; [apply guarded_ret|]. unfold Update, request. guarded_step. simpl.
  split; [done|]. right. exists h, g, err, current. split_and!; [done| |done|done].
  destruct (api_write _); simplify_eq/=. done.
Qed.

(** What is applied: the metadata of the mutated object with the parts that are
    replaced, and its content but for the spec. *)
Lemma downstream_object_inv ns t obj m o :
  downstream_object c ns t obj m = Ok o ->
  exists a l v,
    downstream_annotations c ns obj (GetAnnotations m) = Ok a /\ downstream_labels c (GetLabels m) = Ok l /\
    u_meta o = u_meta (SetLabels (SetFinalizers (SetOwnerReferences_nil
      (SetDeletionTimestamp_nil (SetAnnotations (SetIdentity m t "" "" ns) a))) []) l) /\
    u_more o = delete "deletionGracePeriodSeconds" (delete "managedFields" (u_more m)) /\
    (u_content o = u_content m \/
     (advancedSchedulingEnabled c = true /\ u_content o = <["spec" := v]> (u_content m))).
Proof.
  unfold downstream_object, mbind, res_bind. cbv beta zeta.
  destruct (downstream_annotations c ns obj _) as [a| |] eqn:Ha; try done.
  destruct (downstream_labels c _) as [l| |] eqn:Hl; try done.
  intros H. exists a, l, (match u_content o !! "spec" with Some v => v | None => JNull end).
  do 2 (split; [done|]).
  destruct (advancedSchedulingEnabled c); simpl in H; [|by injection H as <-; auto].
  destruct (bool_decide _); simpl in H; [by injection H as <-; auto|].
  destruct (u_content obj !! "spec"); [|by injection H as <-; auto].
  destruct (of_result _) as [v| |]; try done. injection H as <-. simpl.
  rewrite lookup_insert_eq. auto.
Qed.
Lemma downstream_object_name ns t obj m o : downstream_object c ns t obj m = Ok o -> GetName o = t.
Proof. intros (a & l & v & _ & _ & Hm & _)%downstream_object_inv. unfold GetName. by rewrite Hm. Qed.
Lemma applyToDownstream_guarded g ns obj h :
  has_my_finalizer c obj = true \/ leaving obj ->
  guarded (ownership ns obj) (applyToDownstream c g ns obj) h.
Proof.
  intros Hown. unfold applyToDownstream.
  apply guarded_quiet_bind; [apply upstream_lister_quiet|]. intros _ _.
  destruct (_ && _) eqn:Hl.
  { apply andb_prop in Hl as [H1 H2]. apply delete_downstream_guarded. split; [done|].
    by apply negb_true_iff. }
  assert (Hnl : ~ leaving obj). { intros [H1 H2]. by rewrite H1, H2 in Hl. }
  apply guarded_bind; [apply guarded_lift|]. intros h1 m _. apply guarded_bind; [apply guarded_lift|].
  intros h2 o Ho. injection Ho as -> Ho. apply guarded_call. rewrite (downstream_object_name _ _ _ _ _ Ho).
  split_and!; [done|done| |done]. by destruct Hown.
Qed.

Lemma sync_object_guarded l g ns obj h :
  guarded (ownership ns obj) (sync_object c l g ns obj) h.
Proof.
  unfold sync_object. apply guarded_bind.
  { case_decide; [apply collision_guarded|apply ensure_namespace_guarded]. }
  intros h1 _ _. apply guarded_bind; [apply Ensure_ownership|]. intros h2 ready _.
  case_match; [apply guarded_ret|].
  apply guarded_bind; [apply ensureSyncerFinalizer_guarded|]. intros h3 [] Ha; [apply guarded_ret|].
  apply ensureSyncerFinalizer_none in Ha as [_ Hown].
  apply guarded_bind; [by apply applyToDownstream_guarded|]. intros. apply guarded_ret.
Qed.

Lemma process_guarded gvr key cl ns name dns obj h :
  SplitMetaClusterNamespaceKey key = inr (cl, ns, name) ->
  (forall d, downstream_namespace (NewNamespaceLocator cl (c_syncTargetClusterName c)
    (c_syncTargetUID c) (c_syncTargetName c) ns) h = (h, Ok d) -> d = dns) ->
  upstream_Get h cl gvr ns name = inr obj ->
  guarded (ownership dns obj) (process c gvr key) h.
Proof.
  intros Hk Hd Hobj. unfold process. rewrite Hk.
  apply guarded_quiet_bind; [apply downstream_namespace_quiet|]. intros d ->%Hd.
  apply guarded_quiet_bind; [apply upstream_lister_quiet|]. intros _ _.
  apply guarded_quiet_bind; [unfold try, observe; by rewrite Hobj|]. intros r Hr.
  apply try_inv in Hr. unfold observe in Hr. rewrite Hobj in Hr.
  destruct r as [e|u]; simplify_eq/=. destruct (actual_gvr gvr u); [|apply guarded_ret].
  apply sync_object_guarded.
Qed.
(** Without an upstream object the pass only deletes. *)
Definition only_deletes (e : ev) : Prop :=
  match e with
  | EvRequest Downstream VDelete _ _ _ NoBody | EvPlanCleaning _ => True
  | _ => False
  end.
Lemma process_gone_guarded gvr key cl ns name err h :
  SplitMetaClusterNamespaceKey key = inr (cl, ns, name) -> upstream_Get h cl gvr ns name = inl err ->
  guarded (fun _ => only_deletes) (process c gvr key) h.
Proof.
  intros Hk Hobj. unfold process. rewrite Hk.
  apply guarded_quiet_bind; [apply downstream_namespace_quiet|]. intros dns _.
  apply guarded_quiet_bind; [apply upstream_lister_quiet|]. intros _ _.
  apply guarded_quiet_bind; [unfold try, observe; by rewrite Hobj|]. intros r Hr.
  apply try_inv in Hr. unfold observe in Hr. rewrite Hobj in Hr.
  destruct r as [e|u]; simplify_eq/=. unfold downstream_delete, request. repeat (guarded_step || done).
Qed.

(** C6: ownership protocol. While the syncer processes an upstream object, it
    applies nothing downstream unless the upstream object already carries the
    syncer's finalizer and is not leaving the location; it deletes downstream only
    an object that leaves and that no external actor holds; both only under the
    object's downstream name and in its downstream namespace; and the only
    upstream writes are the claim (the finalizer is added) and the release, made
    when that downstream deletion has just answered not found. *)
Theorem process_ownership gvr key cl ns name dns obj h :
  SplitMetaClusterNamespaceKey key = inr (cl, ns, name) ->
  downstream_namespace (NewNamespaceLocator cl (c_syncTargetClusterName c)
    (c_syncTargetUID c) (c_syncTargetName c) ns) h = (h, Ok dns) ->
  upstream_Get h cl gvr ns name = inr obj ->
  guarded (ownership dns obj) (process c gvr key) h.
Proof. intros Hk Hd. apply process_guarded; [done|]. intros d Hd'. congruence. Qed.

(** An object that is gone upstream. Its downstream object is deleted by the
    upstream name, its namespace is planned for cleaning, and nothing else is
    done; a deletion that finds nothing is not an error. *)
Theorem process_upstream_gone gvr key cl ns name dns err h :
  SplitMetaClusterNamespaceKey key = inr (cl, ns, name) ->
  downstream_namespace (NewNamespaceLocator cl (c_syncTargetClusterName c)
    (c_syncTargetUID c) (c_syncTargetName c) ns) h = (h, Ok dns) ->
  getUpstreamLister cl gvr h = (h, Ok tt) ->
  upstream_Get h cl gvr ns name = inl err -> IsNotFound err = true ->
  let h1 := h ++ [EvRequest Downstream VDelete gvr dns name NoBody] in
  process c gvr key h =
    match api_write h1 with
    | inl e => if IsNotFound e
               then (h1 ++ (if decide (dns = "") then [] else [EvPlanCleaning dns]), Ok None)
               else (h1, Err e)
    | inr _ => (h1 ++ (if decide (dns = "") then [] else [EvPlanCleaning dns]), Ok None)
    end.
Proof.
  intros Hk Hd Hl Hg He h1. unfold process. rewrite Hk, (bind_ok _ _ _ _ _ Hd), (bind_ok _ _ _ _ _ Hl).
  unfold mbind, M_bind, try, observe, downstream_delete, request, call. rewrite Hg. simpl.
  rewrite He. simpl. fold h1.
  destruct (api_write h1) as [e|[]]; simpl; [destruct (IsNotFound e); simpl|]; try done;
    case_decide; simpl; by rewrite ?app_nil_r.
Qed.
End ownership.

(** ** What is applied *)

Section applied.
Context {EL : ErrorLib} {CL : ClusterLib} {SL : SchemaLib} {KL : KeyLib}.
Context {JP : JsonPatchLib} {W : World}.
Variable c : Controller.

Lemma map_set_get m k v m' k' :
  map_set m k v = Ok m' -> map_get m' k' = if decide (k' = k) then Some v else map_get m k'.
Proof.
  unfold map_set, map_get, entries. destruct m as [m|]; [|done]. intros [= <-]. simpl.
  case_decide as E; [subst; by rewrite lookup_insert_eq|]. by rewrite lookup_insert_ne by congruence.
Qed.

Definition status_key : string := InternalClusterStatusAnnotationPrefix +:+ c_syncTargetKey c.
Definition state_key : string := ClusterResourceStateLabelPrefix +:+ c_syncTargetKey c.

Lemma downstream_annotations_get ns obj a a' k :
  downstream_annotations c ns obj a = Ok a' ->
  map_get a' k =
    if decide (ns = "" /\ k = NamespaceLocatorAnnotation)
    then Some (Marshal (NewNamespaceLocator (ClusterFrom (u_meta obj)) (c_syncTargetClusterName c)
                 (c_syncTargetUID c) (c_syncTargetName c) ""))
    else if decide (k = AnnotationKey \/ k = status_key) then None else map_get a k.
Proof.
  unfold downstream_annotations. fold status_key.
  set (a0 := map_delete (map_delete a AnnotationKey) status_key).
  assert (H0 : map_get a0 k =
    if decide (k = AnnotationKey \/ k = status_key) then None else map_get a k).
  { unfold a0. rewrite !map_get_delete. repeat case_decide; naive_solver. }
  assert (Hnil : forall b : gomap,
    map_get (if decide (entries b = ∅) then None else b) k = map_get b k).
  { intros b. destruct (decide (entries b = ∅)) as [E|]; [|done]. unfold map_get. rewrite E. simpl. by rewrite !lookup_empty. }
  destruct (decide (ns = "")) as [->|Hns].
  - destruct (map_set a0 NamespaceLocatorAnnotation _) as [b|e|s] eqn:Hb; try done.
    intros [= <-]. rewrite Hnil, (map_set_get _ _ _ _ k Hb).
    destruct (decide (k = NamespaceLocatorAnnotation)) as [->|].
    + by rewrite decide_True.
    + rewrite decide_False by tauto. apply H0.
  - intros [= <-]. rewrite Hnil. rewrite decide_False by tauto. apply H0.
Qed.

Lemma downstream_labels_get l l' k :
  downstream_labels c l = Ok l' ->
  map_get l' k = if decide (k = InternalDownstreamClusterLabel) then Some (c_syncTargetKey c)
                 else if decide (k = state_key) then None else map_get l k.
Proof.
  unfold downstream_labels. intros H. rewrite (map_set_get _ _ _ _ k H). fold state_key.
  case_decide; [done|]. rewrite map_get_delete. repeat case_decide; naive_solver.
Qed.

(** C7: the object applied downstream has the downstream name and namespace and no
    trace of the upstream object's life: no uid, resource version, managed fields,
    owner references, finalizers or deletion; its cluster annotation, the status
    annotation and the state label of this sync target are gone, a cluster-wide
    object carries its locator, the sync target's key is a label, and every other
    label, annotation and field (the spec apart, under a spec-diff patch) is the
    mutated object's. *)
Theorem downstream_object_spec ns t obj m o :
  downstream_object c ns t obj m = Ok o ->
  (GetName o = t /\ GetNamespace o = ns /\ UID (u_meta o) = "" /\
   ResourceVersion (u_meta o) = "" /\ GetFinalizers o = [] /\
   OwnerReferences (u_meta o) = [] /\ DeletionTimestamp (u_meta o) = None /\
   u_more o !! "managedFields" = None /\ u_more o !! "deletionGracePeriodSeconds" = None) /\
  (forall k, map_get (GetAnnotations o) k =
    if decide (ns = "" /\ k = NamespaceLocatorAnnotation)
    then Some (Marshal (NewNamespaceLocator (ClusterFrom (u_meta obj)) (c_syncTargetClusterName c)
                 (c_syncTargetUID c) (c_syncTargetName c) ""))
    else if decide (k = AnnotationKey \/ k = status_key) then None
    else map_get (GetAnnotations m) k) /\
  (forall k, map_get (GetLabels o) k =
    if decide (k = InternalDownstreamClusterLabel) then Some (c_syncTargetKey c)
    else if decide (k = state_key) then None else map_get (GetLabels m) k) /\
  (forall k, k <> "spec" -> u_content o !! k = u_content m !! k) /\
  (advancedSchedulingEnabled c = false -> u_content o = u_content m).
Proof.
  intros (a & l & v & Ha & Hl & Hmeta & Hmore & Hcontent)%downstream_object_inv.
  unfold GetName, GetNamespace, GetFinalizers, GetAnnotations, GetLabels. rewrite Hmeta, Hmore.
  split_and!; try done.
  - by rewrite lookup_delete_ne, lookup_delete_eq.
  - by rewrite lookup_delete_eq.
  - intros k. simpl. exact (downstream_annotations_get _ _ _ _ k Ha).
  - intros k. simpl. exact (downstream_labels_get _ _ k Hl).
  - intros k Hk. destruct Hcontent as [->|[_ ->]]; [done|]. by rewrite lookup_insert_ne.
  - intros Hadv. destruct Hcontent as [->|[H' _]]; [done|]. congruence.
Qed.

(** ** Collisions *)

(** A namespace object that belongs to the locator. *)
Definition owned_namespace (l : NamespaceLocator) (n : Unstructured) : Prop :=
  LocatorFromAnnotations (GetAnnotations n) = inr (Some l).

Lemma check_namespace_ok ns l b n h h' :
  check_namespace ns l b n h = (h', Ok tt) -> owned_namespace l n.
Proof.
  unfold check_namespace, owned_namespace.
  destruct (LocatorFromAnnotations _) as [e|[l'|]]; try done.
  case_decide as E; [by subst|done].
Qed.
Lemma check_namespace_collision ns l b n h :
  ~ owned_namespace l n -> (check_namespace ns l b n h).1 = h.
Proof.
  unfold check_namespace, owned_namespace.
  destruct (LocatorFromAnnotations _) as [e|[l'|]]; try done.
  case_decide as E; [subst; done|done].
Qed.

(** A pass goes on in a downstream namespace only when it was just created
    for the upstream namespace or carries that namespace's locator; on a
    namespace of someone else the pass fails and writes nothing to it. *)
Theorem ensureDownstreamNamespaceExists_owned dns obj h h' r :
  ensureDownstreamNamespaceExists c dns obj h = (h', r) ->
  let l := desired_locator c obj in
  let h1 := h ++ [EvCancelCleaning dns] in
  let h2 := h1 ++ [EvRequest Downstream VCreate namespaceGVR "" dns (Body (new_namespace c dns l))] in
  (r = Ok tt ->
     (h' = h2 /\ api_write h2 = inr tt) \/
     exists n, owned_namespace l n /\
       (downstream_Get h1 namespaceGVR "" dns = inr n \/
        exists h3, api_get h3 = inr n)) /\
  (forall n, downstream_Get h1 namespaceGVR "" dns = inr n -> ~ owned_namespace l n ->
     h' = h1 /\ is_ok r = false).
Proof.
  intros H l h1 h2. unfold ensureDownstreamNamespaceExists in H. cbv beta zeta in H. fold l in H.
  unfold mbind at 1, M_bind at 1, emit in H. cbv beta iota in H. fold h1 in H.
  unfold mbind at 1, M_bind at 1 in H.
  pose proof (lister_quiet namespaceGVR h1) as Hq.
  destruct (getDownstreamLister namespaceGVR h1) as [h1' [[]|e|s]]; simpl in Hq; subst h1'.
  2,3: injection H as <- <-; by split.
  destruct (downstream_Get h1 namespaceGVR "" dns) as [err|n] eqn:Hg.
  - split; [|done]. intros ->.
    unfold mbind at 1, M_bind at 1, try at 1, observe at 1 in H. rewrite Hg in H. simpl in H.
    unbind H. destruct a as [err'|[]].
    + right. destruct (IsAlreadyExists err'); [|done]. unbind H.
      exists a. split; [by eapply check_namespace_ok|]. right.
      unfold call in Hm0. injection Hm0 as _ Hm0.
      match type of Hm0 with of_result (api_get ?x) = _ => exists x; by destruct (api_get x); simplify_eq/= end.
    + left. injection H as <-. destruct (IsNotFound err); [|done].
      apply try_inv in Hm. injection Hm as <- Hm. split; [done|].
      unfold h2. by destruct (api_write _) as [|[]].
  - unfold mbind at 1, M_bind at 1, try, observe in H. rewrite Hg in H. simpl in H. split.
    + intros ->. right. exists n. split; [by eapply check_namespace_ok|]. by left.
    + intros n' [= <-] Hno. pose proof (check_namespace_collision dns l true n h1 Hno) as Hc.
      destruct (check_namespace dns l true n h1) as [h3 r3] eqn:E. injection H as <- <-. simpl in Hc.
      split; [done|]. destruct r3 as [[]| |]; [|done|done]. by apply check_namespace_ok in E.
Qed.
End applied.

(** ** What queues an update *)

Section updates.
Context {DM : DeepEq gomap} {DF : DeepEq (list string)} {DV : DeepEq (option json)}.
Variable NestedAnnotations : Unstructured -> result gomap.
(** Semantic equality does not tell a nil map from an empty one. *)
Hypothesis map_equal : forall a b : gomap, deep_equal a b = true <-> entries a = entries b.

Lemma without_status_entries a b :
  entries (without_status_annotations a) = entries (without_status_annotations b) <->
  forall k, HasPrefix k InternalClusterStatusAnnotationPrefix = false ->
    map_get a k = map_get b k.
Proof.
  assert (H : forall (m : gomap) k, entries (without_status_annotations m) !! k =
    if decide (HasPrefix k InternalClusterStatusAnnotationPrefix = false)
    then map_get m k else None).
  { intros m k. unfold entries, without_status_annotations, map_get, entries.
    destruct m as [m|]; simpl; [|rewrite lookup_empty; by case_decide].
    case_decide as E.
    - destruct (m !! k) as [v|] eqn:Ev.
      + apply map_lookup_filter_Some. by split.
      + apply map_lookup_filter_None. by left.
    - apply map_lookup_filter_None. right. by intros v _ ?. }
  split.
  - intros E k Hk. assert (Ek := f_equal (fun m => m !! k) E). simpl in Ek.
    rewrite !H in Ek. by rewrite !decide_True in Ek by done.
  - intros E. apply map_eq. intros k. rewrite !H. case_decide; [by apply E|done].
Qed.

(** An update of an upstream object is dropped exactly when, the status
    annotations and the status and metadata fields apart, annotations, labels,
    finalizers and all the other fields are semantically equal and the object is
    being deleted in both or in neither version. *)
Theorem deepEqualApartFromStatus_spec old new ao an :
  NestedAnnotations old = inr ao -> NestedAnnotations new = inr an ->
  deepEqualApartFromStatus NestedAnnotations old new = true <->
  (forall k, HasPrefix k InternalClusterStatusAnnotationPrefix = false ->
     map_get ao k = map_get an k) /\
  entries (GetLabels old) = entries (GetLabels new) /\
  deep_equal (GetFinalizers old) (GetFinalizers new) = true /\
  (is_Some (DeletionTimestamp (u_meta old)) <-> is_Some (DeletionTimestamp (u_meta new))) /\
  (forall k, k <> "metadata" -> k <> "status" ->
     deep_equal (u_content old !! k) (u_content new !! k) = true).
Proof.
  intros Ho Hn. unfold deepEqualApartFromStatus. rewrite Ho, Hn.
  rewrite !andb_true_iff, !map_equal, without_status_entries, Bool.eqb_true_iff, forallb_forall.
  assert (Hd : bool_decide (is_Some (DeletionTimestamp (u_meta old))) =
      bool_decide (is_Some (DeletionTimestamp (u_meta new))) <->
      (is_Some (DeletionTimestamp (u_meta old)) <-> is_Some (DeletionTimestamp (u_meta new)))).
  { split; [|by intros E; apply bool_decide_ext].
    do 2 case_bool_decide; intros; try done; tauto. }
  rewrite Hd. split.
  - intros [[[[Ha Hl] Hf] Ht] Hc]. split_and!; try done. intros k Hk1 Hk2.
    destruct (decide (k ∈ dom (u_content old) ∪ dom (u_content new))) as [Hin|Hout].
    + specialize (Hc k). rewrite <-list_elem_of_In, elem_of_elements in Hc. specialize (Hc Hin).
      by rewrite !bool_decide_false in Hc by done.
    + apply not_elem_of_union in Hout as [H1 H2]. apply not_elem_of_dom in H1, H2.
      rewrite H1, H2. apply deep_equal_refl.
  - intros (Ha & Hl & Hf & Ht & Hc). split_and!; try done. intros k _.
    destruct (bool_decide_reflect (k = "metadata")), (bool_decide_reflect (k = "status"));
      simpl; try done. by apply Hc.
Qed.
End updates.

(** ** A syncer at work *)

Module Examples.
#[local] Existing Instance simple_errors.
#[local] Existing Instance simple_clusters.
#[local] Existing Instance simple_schema.
#[local] Instance keys : KeyLib := {|
  AnnotationKey := "kcp.io/cluster";
  KCPOriginalAPIVersionAnnotation := "kcp.io/original-api-version";
  ServiceAccountNameKey := "kubernetes.io/service-account.name";
  ServiceAccountUIDKey := "kubernetes.io/service-account.uid";
|}.
#[local] Instance b36 : Base36Lib := {| EncodeBytes l := Text62 (SetBytes l) |}.
#[local] Instance nskeys : NamespaceKeyLib := {|
  MetaNamespaceKeyFunc o :=
    inr (if decide (Namespace o = "") then Name o else Namespace o +:+ "/" +:+ Name o);
  SplitMetaNamespaceKey k :=
    match Split k "/" with [n] => inr ("", n) | [ns; n] => inr (ns, n)
                         | _ => inl (ErrMsg "unexpected key format") end;
|}.
#[local] Instance patches : JsonPatchLib := {| DecodePatch _ := inr inr |}.
Definition cfg : Controller := {|
  mutators := ∅; c_syncTargetName := "st"; c_syncTargetClusterName := "org";
  c_syncTargetUID := "uid"; c_syncTargetKey := "key"; advancedSchedulingEnabled := false;
  c_dnsNamespace := "kcp-syncer"; c_dnsImage := "image" |}.

Definition object (gv kind name : string) (l a : gomap) (f : list string) : Unstructured := {|
  u_meta := mk_meta name "ns" l a f; u_more := ∅;
  u_content := {[ "apiVersion" := JString gv; "kind" := JString kind ]} |}.
Definition cm (deleting : bool) (f : list string) : Unstructured :=
  object "v1" "ConfigMap" "cm" (Some {[ "state.workload.kcp.io/key" := "Sync" ]})
    (Some (<["kcp.io/cluster" := "ws"]>
      (if deleting then {[ "deletion.internal.workload.kcp.io/key" := "2023-01-01T00:00:00Z" ]}
       else ∅))) f.
Definition not_found : error := ErrLib "NotFound" "".

(** The downstream cluster: empty, or with the namespace of someone else. *)
Definition world_of (obj : result Unstructured) (ns : result Unstructured)
    (write : list ev -> result unit) : World := {|
  api_write := write;
  api_get _ := ns;
  getShardAccess _ _ := inr true;
  downstream_Informers _ := ({[ namespaceGVR; configMapGVR ]}, []);
  upstream_Informers _ _ := ({[ configMapGVR ]}, []);
  upstream_Get _ _ _ _ _ := obj;
  downstream_Get _ _ _ _ := ns;
  downstream_Namespaces _ := inr [];
|}.
Definition accept (h : list ev) : result unit := inr tt.
(** Downstream deletions find nothing. *)
Definition refuse_deletes (h : list ev) : result unit :=
  match last h with
  | Some (EvRequest Downstream VDelete _ _ _ _) => inl not_found
  | _ => inr tt
  end.
#[local] Instance dns_world : DnsWorld := {|
  dns_Get _ _ _ _ := inl not_found;
  deployment_Get _ _ _ := inl not_found;
  endpoints_Get _ _ _ := inr [{| es_Addresses := ["10.0.0.1"]; es_Ports := [] |}];
  kube_Endpoints _ := inr [];
  initialized_Load _ _ := true;
|}.

Definition verbs (l : list ev) : list verb :=
  omap (fun e => match e with EvRequest _ v _ _ _ _ => Some v | _ => None end) l.

Lemma upstream_name_roundtrip_witness :
  let u := object "v1" "Secret" "default-token-x" None
             (Some {[ "kubernetes.io/service-account.name" := "default" ]}) [] in
  same_type secretGVR u /\ getTransformedName u = "kcp-default-token-x" /\
  GetUpstreamResourceName secretGVR (getTransformedName u) = GetName u.
Proof.
  assert (H : same_type secretGVR (object "v1" "Secret" "default-token-x" None
             (Some {[ "kubernetes.io/service-account.name" := "default" ]}) [])).
  { split; split; intros E; try discriminate E; vm_compute in E |- *; try discriminate E; reflexivity. }
  split; [exact H|]. split; [vm_compute; reflexivity|].
  apply (upstream_name_roundtrip _ _ H). vm_compute; reflexivity.
Defined.

Definition target_namespace : string :=
  match PhysicalClusterNamespaceName (NewNamespaceLocator "ws" "org" "uid" "st" "ns") with
  | Ok n => n | _ => "" end.
(** Three passes: the claim, the apply, and the release after a deletion. *)
Definition pass (obj : Unstructured) (write : list ev -> result unit) : M ev (option Z) :=
  let W : World := world_of (inr obj) (inl not_found) write in
  process cfg configMapGVR "ws|ns/cm".
Definition owned (obj : Unstructured) (write : list ev -> result unit) : Prop :=
  let W : World := world_of (inr obj) (inl not_found) write in
  guarded (ownership cfg target_namespace obj) (pass obj write) [].

Lemma process_ownership_witness :
  owned (cm false []) accept /\ owned (cm false ["workload.kcp.io/syncer-key"]) accept /\
  owned (cm true ["workload.kcp.io/syncer-key"]) refuse_deletes /\
  verbs (pass (cm false []) accept []).1 = [VCreate; VUpdate] /\
  verbs (pass (cm false ["workload.kcp.io/syncer-key"]) accept []).1 = [VCreate; VApply] /\
  verbs (pass (cm true ["workload.kcp.io/syncer-key"]) refuse_deletes []).1
    = [VCreate; VDelete; VUpdate].
Proof.
  assert (Hk : SplitMetaClusterNamespaceKey "ws|ns/cm" = inr ("ws", "ns", "cm"))
    by (vm_compute; reflexivity).
  split; [|split; [|split]].
  1-3: refine (@process_ownership _ _ _ _ _ _ (world_of _ _ _) _ cfg configMapGVR "ws|ns/cm"
      "ws" "ns" "cm" target_namespace _ [] Hk _ eq_refl); vm_compute; reflexivity.
  vm_compute. split; [reflexivity|split; reflexivity].
Defined.

(** A root CA config map whose upstream object is gone: the copy kcp-root-ca.crt
    stays downstream. *)
Lemma process_upstream_gone_witness :
  let W : World := world_of (inl not_found) (inl not_found) accept in
  process cfg configMapGVR "ws|ns/kube-root-ca.crt" [] =
    ([EvRequest Downstream VDelete configMapGVR target_namespace "kube-root-ca.crt" NoBody;
      EvPlanCleaning target_namespace], Ok None) /\
  getTransformedName (object "v1" "ConfigMap" "kube-root-ca.crt" None None []) = "kcp-root-ca.crt".
Proof.
  intros W. split; [|vm_compute; reflexivity].
  assert (Hk : SplitMetaClusterNamespaceKey "ws|ns/kube-root-ca.crt" = inr ("ws", "ns", "kube-root-ca.crt"))
    by (vm_compute; reflexivity).
  assert (Hd : downstream_namespace (NewNamespaceLocator "ws" "org" "uid" "st" "ns") []
               = ([], Ok target_namespace)) by (vm_compute; reflexivity).
  assert (Hl : getUpstreamLister "ws" configMapGVR [] = ([], Ok tt)) by (vm_compute; reflexivity).
  assert (He : IsNotFound not_found = true) by (vm_compute; reflexivity).
  rewrite (process_upstream_gone cfg configMapGVR _ "ws" "ns" _ target_namespace not_found []
             Hk Hd Hl eq_refl He).
  vm_compute; reflexivity.
Defined.

Definition finalized : Unstructured := cm false ["a"].
Lemma downstream_object_spec_witness :
  exists o, downstream_object cfg "dns" "cm" finalized finalized = Ok o /\
    GetFinalizers o = [] /\
    map_get (GetLabels o) InternalDownstreamClusterLabel = Some "key" /\
    map_get (GetAnnotations o) "kcp.io/cluster" = None.
Proof.
  assert (E : exists o, downstream_object cfg "dns" "cm" finalized finalized = Ok o)
    by (eexists; vm_compute; reflexivity).
  destruct E as [o E]. exists o. split; [exact E|].
  destruct (downstream_object_spec cfg "dns" "cm" finalized finalized o E)
    as ((_ & _ & _ & _ & Hf & _) & Ha & Hl & _).
  split; [exact Hf|]. split.
  - rewrite Hl. vm_compute; reflexivity.
  - rewrite Ha. vm_compute; reflexivity.
Defined.

(** A namespace without a locator is not used. *)
Definition foreign : Unstructured := object "v1" "Namespace" "other" None None [].
Lemma ensureDownstreamNamespaceExists_owned_witness :
  let W : World := world_of (inr (cm false [])) (inr foreign) accept in
  exists r, ensureDownstreamNamespaceExists cfg "other" (cm false []) [] =
    ([EvCancelCleaning "other"], r) /\ is_ok r = false.
Proof.
  intros W. destruct (ensureDownstreamNamespaceExists cfg "other" (cm false []) []) as [h' r] eqn:E.
  destruct (ensureDownstreamNamespaceExists_owned cfg "other" (cm false []) [] h' r E) as [_ H].
  destruct (H foreign eq_refl) as [-> Hr]; [|exists r; split; [reflexivity|exact Hr]].
  intros Ho. vm_compute in Ho. discriminate Ho.
Defined.

#[local] Instance dm : DeepEq gomap.
Proof.
  refine {| deep_equal a b := bool_decide (entries a = entries b) |}.
  intros a. apply bool_decide_true. reflexivity.
Defined.
#[local] Instance df : DeepEq (list string) := eq_DeepEq.
(** A comparison of fields by their printed text. *)
#[local] Instance dv : DeepEq (option json).
Proof.
  refine {| deep_equal a b := bool_decide (print <$> a = print <$> b) |}.
  intros a. apply bool_decide_true. reflexivity.
Defined.
Definition status_update : Unstructured :=
  SetAnnotations (cm false []) (Some {[ "kcp.io/cluster" := "ws";
    "experimental.status.workload.kcp.io/key" := "{}" ]}).
Lemma deepEqualApartFromStatus_spec_witness :
  let nested u := inr (GetAnnotations u) : result gomap in
  deepEqualApartFromStatus nested (cm false []) status_update = true /\
  map_get (GetAnnotations (cm false [])) "kcp.io/cluster"
    = map_get (GetAnnotations status_update) "kcp.io/cluster".
Proof.
  intros nested.
  assert (H : deepEqualApartFromStatus nested (cm false []) status_update = true)
    by (vm_compute; reflexivity).
  split; [exact H|].
  assert (Hm : forall a b : gomap, deep_equal a b = true <-> entries a = entries b)
    by (intros a b; apply bool_decide_eq_true).
  pose proof (proj1 (deepEqualApartFromStatus_spec nested Hm _ _ _ _ eq_refl eq_refl) H) as [Ha _].
  apply Ha. vm_compute; reflexivity.
Defined.
End Examples.
