(* ===== verification/StatusSync.v ===== *)
(** * The status syncer ([pkg/syncer/status])

    The controller of the syncer that copies the status of downstream objects to
    their upstream objects, and releases an upstream object whose downstream
    object does not exist any more. *)

From S2P Require Import Prelude Platform ApiTypes Committer Json SyncerShared SpecSync.
Local Open Scope nat_scope.

(** [workloadcliplugin.SyncerIDPrefix]. *)
Definition SyncerIDPrefix : string := "kcp-syncer-".

Section status.
Context {EL : ErrorLib} {NK : NamespaceKeyLib} {W : World}.
Variable c : Controller.

Definition deepEqualFinalizersAndStatus `{!DeepEq (list string), !DeepEq (option json)}
    (old new : Unstructured) : bool :=
  deep_equal (GetFinalizers old) (GetFinalizers new)
  && deep_equal (u_content old !! "status") (u_content new !! "status").

(** ** Writing the status ([updateStatusInUpstream]) *)

Definition with_status_annotation (status : json) (u : Unstructured) : Unstructured :=
  SetAnnotations u (Some (<[InternalClusterStatusAnnotationPrefix +:+ c_syncTargetKey c
                            := print status]> (entries (GetAnnotations u)))).

(** [reflect.DeepEqual] of the object and its copy: only annotations may differ. *)
Definition updateStatusInUpstream (clusterName : string) (gvr : GroupVersionResource)
    (upstreamNamespace upstreamName : string) (downstreamObj : Unstructured) : M ev unit :=
  match u_content downstreamObj !! "status" with
  | None => mret tt
  | Some downstreamStatus =>
      existing ← observe (fun h => upstream_Get h clusterName gvr upstreamNamespace upstreamName);
      if advancedSchedulingEnabled c then
        let newUpstream := with_status_annotation downstreamStatus existing in
        if decide (GetAnnotations existing = GetAnnotations newUpstream) then mret tt
        else Update (Upstream clusterName) gvr upstreamNamespace newUpstream
      else
        let newUpstream := SetContent "status" downstreamStatus existing in
        request (Upstream clusterName) VUpdateStatus gvr upstreamNamespace (GetName newUpstream)
          (Body newUpstream)
  end.

(** ** One pass ([process]) *)

(** The locator on an object, or a reason to drop the key: no locator, or one that
    does not decode. *)
Definition locator_of (o : Unstructured) : option NamespaceLocator :=
  match LocatorFromAnnotations (GetAnnotations o) with
  | inr (Some l) => Some l
  | inr None | inl _ => None
  end.
(** Of the namespace of a namespaced object. A lister error drops the key too. *)
Definition namespace_locator (downstreamNamespace : string) : M ev (option NamespaceLocator) :=
  getDownstreamLister namespaceGVR;;
  r ← try (observe (fun h => downstream_Get h namespaceGVR "" downstreamNamespace));
  mret (match r with inl _ => None | inr nsMeta => locator_of nsMeta end).

Definition is_ours (l : NamespaceLocator) : bool :=
  bool_decide (stl_UID (nl_SyncTarget l) = c_syncTargetUID c)
  && bool_decide (stl_ClusterName (nl_SyncTarget l) = c_syncTargetClusterName c).

(** The part of [process] after the locator is known. *)
Definition process_located (gvr : GroupVersionResource) (downstreamName : string)
    (namespaceLocator : NamespaceLocator) (obj : option Unstructured) : M ev unit :=
  if negb (is_ours namespaceLocator) then mret tt
  else
    let upstreamNamespace := nl_Namespace namespaceLocator in
    let upstreamClusterName := nl_ClusterName namespaceLocator in
    let upstreamName := GetUpstreamResourceName gvr downstreamName in
    getUpstreamLister upstreamClusterName gvr;;
    getUpstreamClient upstreamClusterName;;
    match obj with
    | None => EnsureUpstreamFinalizerRemoved upstreamClusterName gvr upstreamNamespace
                (c_syncTargetKey c) upstreamName
    | Some u =>
        if bool_decide (map_index (GetLabels u)
             (ClusterResourceStateLabelPrefix +:+ c_syncTargetKey c) = ResourceStateUpsync)
        then mret tt
        else updateStatusInUpstream upstreamClusterName gvr upstreamNamespace upstreamName u
    end.

Definition process (gvr : GroupVersionResource) (key : string) : M ev unit :=
  match SplitMetaNamespaceKey key with
  | inl _ => mret tt
  | inr (downstreamNamespace, downstreamName) =>
      if HasPrefix downstreamNamespace SyncerIDPrefix then mret tt
      else
        getDownstreamLister gvr;;
        nsLocator ← (if decide (downstreamNamespace = "") then mret (Some None)
                     else l ← namespace_locator downstreamNamespace; mret (Some <$> l));
        match nsLocator with
        | None => mret tt
        | Some nsLocator =>
            r ← try (observe (fun h => downstream_Get h gvr downstreamNamespace downstreamName));
            obj ← match r with
                  | inr obj => mret (Some obj)
                  | inl err => if negb (IsNotFound err) then fail err else mret None
                  end;
            match nsLocator, obj with
            | Some l, _ => process_located gvr downstreamName l obj
            | None, None => mret tt
            | None, Some o =>
                match locator_of o with
                | None => mret tt
                | Some l => process_located gvr downstreamName l obj
                end
            end
        end
  end.

(** ** Handlers and the queue ([status_controller.go]) *)

Definition AddToQueue (gvr : GroupVersionResource) (obj : ObjectMeta) : M ev unit :=
  match MetaNamespaceKeyFunc obj with
  | inl err => emit (EvHandleError err)
  | inr key => emit (EvAdd {| qk_gvr := gvr; qk_key := key |})
  end.
Definition in_upsync (u : Unstructured) : bool :=
  bool_decide (map_index (GetLabels u) (ClusterResourceStateLabelPrefix +:+ c_syncTargetKey c)
               = ResourceStateUpsync).
(** [AddFunc] and [DeleteFunc]. *)
Definition downstream_AddFunc (gvr : GroupVersionResource) (unstrObj : Unstructured) : M ev unit :=
  if decide (gvr = namespaceGVR) then mret tt
  else if in_upsync unstrObj then mret tt else AddToQueue gvr (u_meta unstrObj).
Definition downstream_UpdateFunc (equal : Unstructured -> Unstructured -> bool)
    (gvr : GroupVersionResource) (oldUnstrob newUnstrob : Unstructured) : M ev unit :=
  if decide (gvr = namespaceGVR) then mret tt
  else if in_upsync newUnstrob then mret tt
  else if equal oldUnstrob newUnstrob then mret tt else AddToQueue gvr (u_meta newUnstrob).

Definition processNextWorkItem (qk : queueKey) : M ev unit := fun h =>
  let '(h, r) :=
    (r ← try (process (qk_gvr qk) (qk_key qk));
     match r with
     | inl err =>
         emit (EvHandleError (ErrWrap "failed to sync" err));; emit (EvAddRateLimited qk)
     | inr _ => emit (EvForget qk)
     end) h in
  (h ++ [EvDone qk], r).

(** * Lemmas *)

(** What the status syncer may write for the downstream object [ns/name]. *)
Definition only_status (cur u : Unstructured) : Prop :=
  u_meta u = u_meta cur /\ u_more u = u_more cur /\
  forall k, k <> "status" -> u_content u !! k = u_content cur !! k.
Definition only_status_annotation (cur u : Unstructured) : Prop :=
  advancedSchedulingEnabled c = true /\ u_content u = u_content cur /\
  u_meta u = with_annotations (u_meta cur) (GetAnnotations u) /\
  forall k, k <> InternalClusterStatusAnnotationPrefix +:+ c_syncTargetKey c ->
    map_get (GetAnnotations u) k = map_get (GetAnnotations cur) k.
Definition status_write (gvr : GroupVersionResource) (ns name : string) (h : list ev) (e : ev)
    : Prop :=
  exists l v uns u cur,
    e = EvRequest (Upstream (nl_ClusterName l)) v gvr uns (GetName u) (Body u) /\
    is_ours l = true /\
    upstream_Get h (nl_ClusterName l) gvr (nl_Namespace l) (GetUpstreamResourceName gvr name)
      = inr cur /\
    match v with
    | VUpdateStatus => only_status cur u
    | VUpdate => only_status_annotation cur u \/
                 (u = released (c_syncTargetKey c) cur /\
                  exists err, downstream_Get h gvr ns name = inl err /\ IsNotFound err = true)
    | _ => False
    end.

Lemma only_status_set v cur : only_status cur (SetContent "status" v cur).
Proof.
  split_and!; [done..|]. intros k Hk. simpl. by rewrite lookup_insert_ne.
Qed.
Lemma only_status_annotation_set v cur :
  advancedSchedulingEnabled c = true -> only_status_annotation cur (with_status_annotation v cur).
Proof.
  intros H. split_and!; [done..|]. intros k Hk. unfold map_get. simpl. by rewrite lookup_insert_ne.
Qed.

Lemma process_located_guarded gvr ns name l obj h :
  (obj = None -> exists err, downstream_Get h gvr ns name = inl err /\ IsNotFound err = true) ->
  guarded (status_write gvr ns name) (process_located gvr name l obj) h.
Proof.
  intros Hnone. unfold process_located. destruct (is_ours l) eqn:Ho; simpl; [|apply guarded_ret].
  apply guarded_quiet_bind; [apply upstream_lister_quiet|]. intros _ _.
  apply guarded_quiet_bind; [apply shard_quiet|]. intros _ _.
  destruct obj as [u|].
  - case_match; [apply guarded_ret|]. unfold updateStatusInUpstream.
    destruct (u_content u !! "status") as [st|]; [|apply guarded_ret].
    apply guarded_quiet_bind; [done|]. intros existing Hex.
    assert (Hg : upstream_Get h (nl_ClusterName l) gvr (nl_Namespace l)
               (GetUpstreamResourceName gvr name) = inr existing).
    { unfold observe in Hex. by destruct (upstream_Get _ _ _ _ _); simplify_eq/=. }
    destruct (advancedSchedulingEnabled c) eqn:Hadv.
    + destruct (decide (GetAnnotations existing = _)); [apply guarded_ret|]. unfold Update, request. guarded_step.
      eexists l, _, _, _, existing. split_and!; [done|done|done|].
      left. by apply only_status_annotation_set.
    + unfold request. guarded_step. eexists l, _, _, _, existing. split_and!; [done|done|done|].
      apply only_status_set.
  - destruct (Hnone eq_refl) as (err & Hd & Hn). unfold EnsureUpstreamFinalizerRemoved.
    apply guarded_quiet_bind; [unfold try, observe; by destruct (upstream_Get _ _ _ _ _)|].
    intros r Hr. apply try_inv in Hr. unfold observe in Hr.
    destruct r as [e|cur]; [by destruct (negb _); repeat guarded_step|].
    case_match; [apply guarded_ret|]. unfold Update, request. guarded_step.
    eexists l, _, _, _, cur. split_and!; [done|done| |].
    + by destruct (upstream_Get _ _ _ _ _); simplify_eq/=.
    + right. split; [done|]. by exists err.
Qed.

Lemma namespace_locator_quiet ns h : (namespace_locator ns h).1 = h.
Proof.
  unfold namespace_locator, mbind, M_bind, getDownstreamLister, observe, try, of_result.
  destruct (informer_for _ _ _) as [|[]]; [done|]. by destruct (downstream_Get h namespaceGVR "" ns).
Qed.

Lemma status_process_guarded gvr key ns name h :
  SplitMetaNamespaceKey key = inr (ns, name) ->
  guarded (status_write gvr ns name) (process gvr key) h.
Proof.
  intros Hk. unfold process. rewrite Hk. case_match; [apply guarded_ret|].
  apply guarded_quiet_bind; [done|]. intros _ _.
  apply guarded_quiet_bind.
  { case_decide; [done|]. unfold mbind, M_bind. pose proof (namespace_locator_quiet ns h) as Hq.
    by destruct (namespace_locator ns h) as [h' []]. }
  intros nsLocator _. destruct nsLocator as [nsLocator|]; [|apply guarded_ret].
  apply guarded_quiet_bind; [unfold try, observe; by destruct (downstream_Get _ _ _ _)|].
  intros r Hr. apply try_inv in Hr. unfold observe in Hr. injection Hr as Hr.
  apply guarded_quiet_bind; [destruct r as [e|]; [by destruct (negb _)|done]|].
  intros obj Hobj.
  assert (Hnone : obj = None ->
      exists err, downstream_Get h gvr ns name = inl err /\ IsNotFound err = true).
  { intros ->. destruct r as [e|u]; [|done]. destruct (IsNotFound e) eqn:He; [|done].
    exists e. split; [|done]. by destruct (downstream_Get h gvr ns name); simplify_eq/=. }
  destruct nsLocator as [l|].
  - by apply process_located_guarded.
  - destruct obj as [o|]; [|apply guarded_ret]. destruct (locator_of o); [|apply guarded_ret].
    by apply process_located_guarded.
Qed.


End status.

(** ** A status update *)

Module Examples.
#[local] Existing Instance simple_errors.
#[local] Instance nskeys : NamespaceKeyLib := {|
  MetaNamespaceKeyFunc o :=
    inr (if decide (Namespace o = "") then Name o else Namespace o +:+ "/" +:+ Name o);
  SplitMetaNamespaceKey k :=
    match Split k "/" with [n] => inr ("", n) | [ns; n] => inr (ns, n)
                         | _ => inl (ErrMsg "unexpected key format") end;
|}.
Definition cfg : Controller := {|
  mutators := ∅; c_syncTargetName := "st"; c_syncTargetClusterName := "org";
  c_syncTargetUID := "uid"; c_syncTargetKey := "key"; advancedSchedulingEnabled := false;
  c_dnsNamespace := "kcp-syncer"; c_dnsImage := "image" |}.
Definition locator : NamespaceLocator := NewNamespaceLocatorV060 "ws" "org" "uid" "st" "ns".
Definition namespace : Unstructured := {|
  u_meta := mk_meta "dns" "" None (Some {[ NamespaceLocatorAnnotation := Marshal locator ]}) [];
  u_more := ∅; u_content := ∅ |}.
Definition deployment (status : json) : Unstructured := {|
  u_meta := mk_meta "app" "ns" None None [];
  u_more := ∅; u_content := {[ "status" := status; "spec" := JObject [] ]} |}.
#[local] Instance world : World := {|
  api_write _ := inr tt;
  api_get _ := inl (ErrLib "NotFound" "");
  getShardAccess _ _ := inr true;
  downstream_Informers _ := ({[ namespaceGVR; configMapGVR ]}, []);
  upstream_Informers _ _ := ({[ configMapGVR ]}, []);
  upstream_Get _ _ _ _ _ := inr (deployment JNull);
  downstream_Get _ g _ _ :=
    if decide (g = namespaceGVR) then inr namespace else inr (deployment (JBool true));
  downstream_Namespaces _ := inr [namespace];
|}.

End Examples.
