(* ===== verification/DownstreamNamespace.v ===== *)
(** * Downstream namespaces ([pkg/syncer/namespace])

    The controller of the syncer that keeps the DNS table of a workspace, and the
    cleaner that deletes, after a delay, the downstream namespaces that nothing
    uses any more. The cleaner is shared by several workers and by the spec
    syncer: it is a step relation whose steps are the critical sections of the
    code and the calls between them. *)

From S2P Require Import Prelude Platform Digest ApiTypes Committer Json SyncerShared SpecSync.
Local Open Scope Z_scope.

(** ** Namespaces ([namespace_downstream_process.go]) *)

Section controller.
Context {EL : ErrorLib} {B36 : Base36Lib} {NK : NamespaceKeyLib} {W : World}.
Variable c : Controller.

(** One namespace of the table; one without annotations is skipped. *)
Definition add_namespace (clusterName : string) (data : gmap string string)
    (namespace : Unstructured) : gmap string string :=
  match GetAnnotations namespace with
  | None => data
  | Some _ =>
      match LocatorFromAnnotations (GetAnnotations namespace) with
      | inl _ | inr None => data
      | inr (Some locator) =>
          if decide (nl_ClusterName locator = clusterName)
          then <[nl_Namespace locator := GetName namespace]> data else data
      end
  end.
Definition dns_table (clusterName : string) (namespaces : list Unstructured)
    : gmap string string := foldl (add_namespace clusterName) ∅ namespaces.

Definition updateDNSConfigMap (clusterName : string) : M ev unit :=
  namespaces ← observe downstream_Namespaces;
  let data := dns_table clusterName namespaces in
  configMapName ← lift (GetDNSID clusterName (c_syncTargetUID c) (c_syncTargetName c));
  r ← try (request Downstream VUpdate configMapGVR (c_dnsNamespace c) configMapName
             (ConfigMapBody data));
  match r with
  | inr _ => mret tt
  | inl err =>
      if IsNotFound err
      then request Downstream VCreate configMapGVR (c_dnsNamespace c) configMapName
             (ConfigMapBody data)
      else fail err
  end.

(** [upstreamNamespaceExists]. *)
Definition upstreamNamespaceExists (clusterName upstreamNamespaceName : string) : M ev bool :=
  shard_of clusterName;;
  observe (fun h => informer_for "upstream" (upstream_Informers h clusterName) namespaceGVR);;
  r ← try (observe (fun h => upstream_Get h clusterName namespaceGVR "" upstreamNamespaceName));
  match r with
  | inl err => if IsNotFound err then mret false else fail err
  | inr _ => mret true
  end.

(** [process]: the errors that it only logs drop the key. *)
Definition process (key : string) : M ev unit :=
  match SplitMetaNamespaceKey key with
  | inl _ => mret tt
  | inr (_, namespaceName) =>
      r ← try (observe (fun h => downstream_Get h namespaceGVR "" namespaceName));
      match r with
      | inl _ => mret tt
      | inr downstreamNamespace =>
          let namespaceLocatorJSON :=
            map_index (GetAnnotations downstreamNamespace) NamespaceLocatorAnnotation in
          if decide (namespaceLocatorJSON = "") then mret tt
          else match Unmarshal namespaceLocatorJSON with
          | inl _ => mret tt
          | inr nsLocator =>
              if negb (bool_decide (stl_UID (nl_SyncTarget nsLocator) = c_syncTargetUID c))
              then mret tt
              else
                updateDNSConfigMap (nl_ClusterName nsLocator);;
                if bool_decide (is_Some (DeletionTimestamp (u_meta downstreamNamespace)))
                then mret tt
                else
                  exists' ← try (upstreamNamespaceExists (nl_ClusterName nsLocator)
                                   (nl_Namespace nsLocator));
                  match exists' with
                  | inl _ => mret tt
                  | inr false => emit (EvPlanCleaning key)
                  | inr true => emit (EvCancelCleaning key)
                  end
          end
      end
  end.

(** ** Queue ([namespace_downstream_controller.go]) *)

Definition namespace_key (key : string) : queueKey :=
  {| qk_gvr := namespaceGVR; qk_key := key |}.
Definition AddToQueue (obj : ObjectMeta) : M ev unit :=
  match MetaNamespaceKeyFunc obj with
  | inl err => emit (EvHandleError err)
  | inr key => emit (EvAdd (namespace_key key))
  end.
(** [AddFunc] and [DeleteFunc]. *)
Definition downstream_AddFunc (gvr : GroupVersionResource) (obj : Unstructured) : M ev unit :=
  if decide (gvr = namespaceGVR) then AddToQueue (u_meta obj) else mret tt.
Definition processNextWorkItem (key : string) : M ev unit := fun h =>
  let '(h, r) :=
    (r ← try (process key);
     match r with
     | inl err =>
         emit (EvHandleError (ErrWrap "failed to sync" err));;
         emit (EvAddRateLimited (namespace_key key))
     | inr _ => emit (EvForget (namespace_key key))
     end) h in
  (h ++ [EvDone (namespace_key key)], r).

(** [isDowntreamNamespaceEmpty]: the informers in some order; [list_of] lists the
    objects of a namespace. The answer does not depend on the order unless a
    lister fails. *)
Fixpoint no_objects (list_of : GroupVersionResource -> string -> result nat)
    (namespace : string) (gvrs : list GroupVersionResource) : result bool :=
  match gvrs with
  | [] => inr true
  | gvr :: gvrs =>
      if decide (gvr = namespaceGVR) then no_objects list_of namespace gvrs
      else match list_of gvr namespace with
           | inl err => inl err
           | inr n => if (0 <? n)%nat then inr false else no_objects list_of namespace gvrs
           end
  end.
Definition isDowntreamNamespaceEmpty
    (informers : list GroupVersionResource * list GroupVersionResource)
    (list_of : GroupVersionResource -> string -> result nat) (namespace : string)
    : result bool :=
  match informers.2 with
  | _ :: _ => inl (ErrMsg "some informers are still not synced in the downstream informer factory")
  | [] => no_objects list_of namespace informers.1
  end.

End controller.

(** ** The cleaner *)

(** Where a delayed worker is in [processDelayed]. *)
Inductive phase := Taken | Checked | Empty.
(** What happened when, the latest first. *)
Inductive happening := Planned (k : string) | Canceled (k : string)
  | FoundEmpty (k : string) | DeleteCalled (k : string).

Record cleaner := {
  now : Z;
  toDeleteMap : gmap string Z;
  (** The delayed queue: the keys that wait, until when. *)
  waiting : gmap string Z;
  processing : gmap string phase;
  history : list (Z * happening);
}.

Section cleaner.
Variable namespaceCleanDelay : Z.

(** [AddAfter]: a key that waits already keeps the earlier time. *)
Definition add_after (k : string) (due : Z) (w : gmap string Z) : gmap string Z :=
  <[k := match w !! k with Some d => Z.min d due | None => due end]> w.

Definition isPlannedForCleaning (k : string) (s : cleaner) : bool :=
  bool_decide (is_Some (toDeleteMap s !! k)).
Definition CancelCleaning (k : string) (s : cleaner) : cleaner := {|
  now := now s; toDeleteMap := delete k (toDeleteMap s); waiting := waiting s;
  processing := processing s; history := (now s, Canceled k) :: history s |}.
Definition must_plan (k : string) (s : cleaner) : bool :=
  match toDeleteMap s !! k with Some plannedFor => plannedFor <? now s | None => true end.
Definition PlanCleaning (k : string) (s : cleaner) : cleaner :=
  if must_plan k s then {|
    now := now s;
    toDeleteMap := <[k := now s + namespaceCleanDelay]> (toDeleteMap s);
    waiting := add_after k (now s + namespaceCleanDelay) (waiting s);
    processing := processing s; history := (now s, Planned k) :: history s |}
  else s.

Definition set_phase (k : string) (p : option phase) (s : cleaner) : cleaner := {|
  now := now s; toDeleteMap := toDeleteMap s; waiting := waiting s;
  processing := partial_alter (fun _ => p) k (processing s); history := history s |}.
Definition record (x : happening) (s : cleaner) : cleaner := {|
  now := now s; toDeleteMap := toDeleteMap s; waiting := waiting s;
  processing := processing s; history := (now s, x) :: history s |}.
(** An error: [AddRateLimited], after some back-off. *)
Definition retry (k : string) (backoff : Z) (s : cleaner) : cleaner := {|
  now := now s; toDeleteMap := toDeleteMap s;
  waiting := add_after k (now s + backoff) (waiting s);
  processing := delete k (processing s); history := history s |}.
Definition advance (t : Z) (s : cleaner) : cleaner := {|
  now := t; toDeleteMap := toDeleteMap s; waiting := waiting s;
  processing := processing s; history := history s |}.
Definition take (k : string) (s : cleaner) : cleaner := {|
  now := now s; toDeleteMap := toDeleteMap s; waiting := delete k (waiting s);
  processing := <[k := Taken]> (processing s); history := history s |}.

(** The steps. [step_take] to [step_deleted] are [processNextDelayedWorkItem] and
    [processDelayed]; the others may come between any two of them. *)
Inductive step : cleaner -> cleaner -> Prop :=
  | step_time s t : now s <= t -> step s (advance t s)
  | step_plan s k : step s (PlanCleaning k s)
  | step_cancel s k : step s (CancelCleaning k s)
  | step_take s k due :
      waiting s !! k = Some due -> due <= now s -> processing s !! k = None ->
      step s (take k s)
  | step_not_planned s k :
      processing s !! k = Some Taken -> isPlannedForCleaning k s = false ->
      step s (set_phase k None s)
  | step_planned s k :
      processing s !! k = Some Taken -> isPlannedForCleaning k s = true ->
      step s (set_phase k (Some Checked) s)
  | step_empty_error s k b :
      processing s !! k = Some Checked -> 0 <= b -> step s (retry k b s)
  | step_not_empty s k : processing s !! k = Some Checked -> step s (set_phase k None s)
  | step_empty s k :
      processing s !! k = Some Checked ->
      step s (record (FoundEmpty k) (set_phase k (Some Empty) s))
  | step_delete_error s k b :
      processing s !! k = Some Empty -> 0 <= b ->
      step s (retry k b (record (DeleteCalled k) s))
  | step_deleted s k :
      processing s !! k = Some Empty ->
      step s (set_phase k None (CancelCleaning k (record (DeleteCalled k) s))).

Definition start : cleaner := {|
  now := 0; toDeleteMap := ∅; waiting := ∅; processing := ∅; history := [] |}.
Definition reachable (s : cleaner) : Prop := rtc step start s.

End cleaner.

(** * Lemmas *)

(** ** The DNS table *)

(** The downstream namespace of an upstream namespace of the workspace. *)
Definition serves (clusterName upstreamNamespace : string) (n : Unstructured) : Prop :=
  exists l, LocatorFromAnnotations (GetAnnotations n) = inr (Some l) /\
    nl_ClusterName l = clusterName /\ nl_Namespace l = upstreamNamespace.

Lemma add_namespace_serves cl data n ns :
  serves cl ns n -> add_namespace cl data n !! ns = Some (GetName n).
Proof.
  intros (l & Hl & Hc & Hn). unfold add_namespace.
  destruct (GetAnnotations n) as [a|] eqn:Ha; [|discriminate Hl].
  rewrite Hl, decide_True by done. subst. by rewrite lookup_insert_eq.
Qed.
Lemma add_namespace_other cl data n ns :
  ~ serves cl ns n -> add_namespace cl data n !! ns = data !! ns.
Proof.
  intros Hno. unfold add_namespace. destruct (GetAnnotations n) as [a|] eqn:Ha; [|done].
  destruct (LocatorFromAnnotations (Some a)) as [e|[l|]] eqn:Hl; try done.
  case_decide; [|done]. rewrite lookup_insert_ne; [done|].
  intros Hn. apply Hno. exists l. by rewrite Ha.
Qed.
Lemma serves_dec cl ns n : Decision (serves cl ns n).
Proof.
  unfold serves. destruct (LocatorFromAnnotations (GetAnnotations n)) as [e|[l|]].
  - right. by intros (l & H & _).
  - destruct (decide (nl_ClusterName l = cl /\ nl_Namespace l = ns)) as [[? ?]|H].
    + left. by exists l.
    + right. intros (l' & [= <-] & H1 & H2). by apply H.
  - right. by intros (l & H & _).
Qed.

(** The DNS table of a workspace maps an upstream namespace to the name of the
    last listed downstream namespace whose locator (current or of v0.6.0) names
    the workspace and that namespace, and has no other entry. *)
Theorem dns_table_spec cl l ns name :
  dns_table cl l !! ns = Some name <->
  exists l1 n l2, l = l1 ++ n :: l2 /\ serves cl ns n /\ GetName n = name /\
    Forall (fun m => ~ serves cl ns m) l2.
Proof.
  unfold dns_table. induction l as [|n l IH] using rev_ind.
  - simpl. rewrite lookup_empty. split; [done|]. intros (l1 & n & l2 & E & _). by destruct l1.
  - rewrite foldl_app. simpl. destruct (serves_dec cl ns n) as [Hs|Hs].
    + rewrite add_namespace_serves by done. split.
      * intros [= <-]. exists l, n, []. split_and!; [done..|constructor].
      * intros (l1 & m & l2 & E & Hm & <- & Hl2). destruct l2 as [|k l2 _] using rev_ind.
        -- apply app_inj_tail in E as [_ ->]. done.
        -- rewrite app_comm_cons, app_assoc in E. apply app_inj_tail in E as [_ ->].
           apply Forall_app in Hl2 as [_ Hl2]. inversion Hl2; subst. contradiction.
    + rewrite add_namespace_other, IH by done. split.
      * intros (l1 & m & l2 & -> & Hm & Hn & Hl2). exists l1, m, (l2 ++ [n]).
        rewrite <-app_assoc. split_and!; [done..|]. apply Forall_app. split; [done|]. by constructor.
      * intros (l1 & m & l2 & E & Hm & Hn & Hl2). destruct l2 as [|k l2 _] using rev_ind.
        -- apply app_inj_tail in E as [_ ->]. done.
        -- rewrite app_comm_cons, app_assoc in E. apply app_inj_tail in E as [-> <-].
           exists l1, m, l2. apply Forall_app in Hl2 as [Hl2 _]. done.
Qed.

(** ** One pass *)

Section pass.
Context {EL : ErrorLib} {B36 : Base36Lib} {NK : NamespaceKeyLib} {W : World}.
Variable c : Controller.

Definition namespace_call (key : string) (h : list ev) (e : ev) : Prop :=
  exists l, stl_UID (nl_SyncTarget l) = c_syncTargetUID c /\
  match e with
  | EvRequest Downstream (VUpdate | VCreate) g ns id (ConfigMapBody data) =>
      g = configMapGVR /\ ns = c_dnsNamespace c /\
      GetDNSID (nl_ClusterName l) (c_syncTargetUID c) (c_syncTargetName c) = Ok id /\
      exists h' namespaces, h' `prefix_of` h /\ downstream_Namespaces h' = inr namespaces /\
        data = dns_table (nl_ClusterName l) namespaces
  | EvPlanCleaning k => k = key /\ exists err,
      upstream_Get h (nl_ClusterName l) namespaceGVR "" (nl_Namespace l) = inl err /\
      IsNotFound err = true
  | EvCancelCleaning k => k = key /\ exists n,
      upstream_Get h (nl_ClusterName l) namespaceGVR "" (nl_Namespace l) = inr n
  | _ => False
  end.

Lemma updateDNSConfigMap_guarded key l h :
  stl_UID (nl_SyncTarget l) = c_syncTargetUID c ->
  guarded (namespace_call key) (updateDNSConfigMap c (nl_ClusterName l)) h.
Proof.
  intros Hl. unfold updateDNSConfigMap.
  apply guarded_quiet_bind; [done|]. intros namespaces Hns.
  assert (Hn : downstream_Namespaces h = inr namespaces).
  { unfold observe in Hns. by destruct (downstream_Namespaces h); simplify_eq/=. }
  apply guarded_quiet_bind; [done|]. intros id Hid.
  assert (Hd : GetDNSID (nl_ClusterName l) (c_syncTargetUID c) (c_syncTargetName c) = Ok id).
  { unfold lift in Hid. by injection Hid. }
  unfold request. apply guarded_bind.
  { repeat guarded_step. exists l. split; [done|]. split_and!; [done..|]. by exists h, namespaces. }
  intros h' r Hr. apply try_inv in Hr. injection Hr as <- _.
  destruct r as [err|]; [|apply guarded_ret]. case_match; [|apply guarded_fail].
  guarded_step. exists l. split; [done|]. split_and!; [done..|].
  exists h, namespaces. split; [by apply prefix_app_r|done].
Qed.

Lemma upstreamNamespaceExists_spec cl ns h h' b :
  upstreamNamespaceExists cl ns h = (h', Ok b) ->
  match upstream_Get h cl namespaceGVR "" ns with
  | inl err => b = false /\ IsNotFound err = true
  | inr _ => b = true
  end.
Proof.
  unfold upstreamNamespaceExists. intros H. unbind H. pose proof (shard_quiet cl h) as Hq.
  rewrite Hm in Hq. simpl in Hq. subst. unbind H. unfold observe in Hm0. injection Hm0 as <- _.
  unbind H. apply try_inv in Hm0. unfold observe in Hm0. injection Hm0 as <- Hg.
  destruct (upstream_Get h cl namespaceGVR "" ns) as [err|n], a1 as [e|n']; try discriminate Hg.
  - injection Hg as ->. destruct (IsNotFound e); [|discriminate H]. by injection H as _ <-.
  - by injection H as _ <-.
Qed.
Lemma upstreamNamespaceExists_quiet cl ns h : (upstreamNamespaceExists cl ns h).1 = h.
Proof.
  unfold upstreamNamespaceExists, mbind, M_bind. pose proof (shard_quiet cl h) as Hq.
  destruct (shard_of cl h) as [h1 [[]|e|s]]; simpl in *; try done. subst.
  unfold observe, try, of_result. destruct (informer_for _ _ _) as [|[]]; [done|].
  destruct (upstream_Get _ _ _ _ _); [|done]. by destruct (IsNotFound _).
Qed.

(** A pass over a downstream namespace writes only the DNS table of the
    workspace of its locator, computed from the listed namespaces, and only for a
    locator of this sync target; it plans the namespace for cleaning only when the
    upstream namespace is not found, and cancels only when it exists. *)
Theorem namespace_process_safe key h : guarded (namespace_call key) (process c key) h.
Proof.
  unfold process. destruct (SplitMetaNamespaceKey key) as [e|[? ns]]; [apply guarded_ret|].
  apply guarded_quiet_bind; [unfold try, observe; by destruct (downstream_Get _ _ _ _)|].
  intros [e|n] _; [apply guarded_ret|]. case_decide; [apply guarded_ret|].
  destruct (Unmarshal _) as [e|l]; [apply guarded_ret|].
  case_bool_decide as Hl; simpl; [|apply guarded_ret].
  apply guarded_bind; [by apply updateDNSConfigMap_guarded|]. intros h1 _ _.
  case_match; [apply guarded_ret|].
  apply guarded_quiet_bind.
  { unfold try. pose proof (upstreamNamespaceExists_quiet (nl_ClusterName l) (nl_Namespace l) h1).
    by destruct (upstreamNamespaceExists _ _ h1) as [? []]. }
  intros r Hr. apply try_inv in Hr. destruct r as [e|b]; [apply guarded_ret|].
  apply upstreamNamespaceExists_spec in Hr.
  destruct (upstream_Get h1 _ _ _ _) as [err|u] eqn:Hu; [destruct Hr as [-> He]|subst b];
    guarded_step; exists l; (split; [done|]); (split; [done|]); eauto.
Qed.
End pass.

(** ** The cleaner *)

Section cleaner_theorems.
Variable d : Z.

(** The key was planned at least the delay before [t]. *)
Definition planned_before (s : cleaner) (k : string) (t : Z) : Prop :=
  exists p, (p, Planned k) ∈ history s /\ p + d <= t.
Definition emptied_before (s : cleaner) (k : string) (t : Z) : Prop :=
  exists e, (e, FoundEmpty k) ∈ history s /\ e <= t /\ planned_before s k e.
Record cleaner_inv (s : cleaner) : Prop := {
  inv_waiting k due : waiting s !! k = Some due -> planned_before s k due;
  inv_processing k p : processing s !! k = Some p -> planned_before s k (now s);
  inv_empty k : processing s !! k = Some Empty -> emptied_before s k (now s);
  inv_deleted k t : (t, DeleteCalled k) ∈ history s -> emptied_before s k t;
}.

Lemma planned_before_mono s s' k t t' :
  planned_before s k t -> (forall x, x ∈ history s -> x ∈ history s') -> t <= t' ->
  planned_before s' k t'.
Proof. intros (p & Hp & Ht) Hh Hle. exists p. split; [auto|lia]. Qed.
Lemma emptied_before_mono s s' k t t' :
  emptied_before s k t -> (forall x, x ∈ history s -> x ∈ history s') -> t <= t' ->
  emptied_before s' k t'.
Proof.
  intros (e & He & Ht & Hp) Hh Hle. exists e. split; [auto|]. split; [lia|].
  eapply planned_before_mono; eauto. lia.
Qed.

(** What a step has to justify: only what it adds. *)
Lemma cleaner_inv_step s s' :
  cleaner_inv s -> (forall x, x ∈ history s -> x ∈ history s') -> now s <= now s' ->
  (forall k due, waiting s' !! k = Some due ->
     waiting s !! k = Some due \/ planned_before s' k due) ->
  (forall k p, processing s' !! k = Some p ->
     is_Some (processing s !! k) \/ planned_before s' k (now s')) ->
  (forall k, processing s' !! k = Some Empty ->
     processing s !! k = Some Empty \/ emptied_before s' k (now s')) ->
  (forall k t, (t, DeleteCalled k) ∈ history s' ->
     (t, DeleteCalled k) ∈ history s \/ emptied_before s' k t) ->
  cleaner_inv s'.
Proof.
  intros [Iw Ip Ie Id] Hh Hn Hw Hp He Hd. split.
  - intros k due H. destruct (Hw k due H); [|done]. eapply planned_before_mono; eauto. lia.
  - intros k p H. destruct (Hp k p H) as [[p' H']|]; [|done]. eapply planned_before_mono; eauto.
  - intros k H. destruct (He k H); [|done]. eapply emptied_before_mono; eauto.
  - intros k t H. destruct (Hd k t H); [|done]. eapply emptied_before_mono; eauto. lia.
Qed.

Lemma add_after_lookup k due w k' due' :
  add_after k due w !! k' = Some due' ->
  w !! k' = Some due' \/ (k' = k /\ due' = due).
Proof.
  unfold add_after. destruct (decide (k' = k)) as [->|Hne]; [rewrite lookup_insert_eq|
    rewrite lookup_insert_ne by done; auto].
  destruct (w !! k) as [d0|]; intros [= <-]; [|auto].
  destruct (Z.min_spec d0 due) as [[_ ->]|[_ ->]]; auto.
Qed.

Lemma phase_lookup k p (m : gmap string phase) k' ph :
  partial_alter (fun _ => p) k m !! k' = Some ph ->
  (k' = k /\ p = Some ph) \/ m !! k' = Some ph.
Proof.
  destruct (decide (k = k')) as [->|Hne].
  - rewrite lookup_partial_alter_eq. auto.
  - rewrite lookup_partial_alter_ne by done. auto.
Qed.

(** A worker leaves a key, or moves on without looking at the namespace. *)
Lemma set_phase_inv k p s :
  p <> Some Empty -> is_Some (processing s !! k) -> cleaner_inv s -> cleaner_inv (set_phase k p s).
Proof.
  intros Hne Hk I. apply (cleaner_inv_step s); simpl; auto; try lia.
  - intros k' ph H. apply phase_lookup in H as [[-> _]|H]; eauto.
  - intros k' H. apply phase_lookup in H as [[-> H]|H]; [done|auto].
Qed.
Lemma found_empty_inv k s :
  is_Some (processing s !! k) -> cleaner_inv s ->
  cleaner_inv (record (FoundEmpty k) (set_phase k (Some Empty) s)).
Proof.
  intros Hk I. destruct Hk as [p0 Hk].
  apply (cleaner_inv_step s); simpl; eauto using list_elem_of_further; try lia.
  - intros k' ph H. apply phase_lookup in H as [[-> _]|H]; eauto.
  - intros k' H. apply phase_lookup in H as [[-> H]|H]; [right|auto].
    exists (now s). split; [apply list_elem_of_here|]. split; [done|].
    eapply planned_before_mono; [apply (inv_processing _ I _ _ Hk)| |done].
    intros x Hx. by apply list_elem_of_further.
  - intros k' t H. left. by inversion H; subst.
Qed.
(** The deletion was called on a namespace found empty. *)
Lemma delete_called_inv k s :
  processing s !! k = Some Empty -> cleaner_inv s -> cleaner_inv (record (DeleteCalled k) s).
Proof.
  intros Hk I. apply (cleaner_inv_step s); simpl; eauto using list_elem_of_further; try lia.
  intros k' t H. apply elem_of_cons in H as [H|H]; [|auto]. injection H as -> ->. right.
  eapply emptied_before_mono; [apply (inv_empty _ I _ Hk)| |done].
  intros x Hx. by apply list_elem_of_further.
Qed.
Lemma cancel_inv k s : cleaner_inv s -> cleaner_inv (CancelCleaning k s).
Proof.
  intros I. apply (cleaner_inv_step s); simpl; eauto using list_elem_of_further; try lia.
  intros k' t H. left. by inversion H; subst.
Qed.
Lemma retry_inv k b s :
  0 <= b -> is_Some (processing s !! k) -> cleaner_inv s -> cleaner_inv (retry k b s).
Proof.
  intros Hb [p0 Hk] I. apply (cleaner_inv_step s); simpl; auto; try lia.
  - intros k' due H. apply add_after_lookup in H as [H|[-> ->]]; [auto|right].
    eapply planned_before_mono; [apply (inv_processing _ I _ _ Hk)|done|lia].
  - intros k' ph. rewrite lookup_delete_Some. intros [_ H]; eauto.
  - intros k'. rewrite lookup_delete_Some. intros [_ H]; auto.
Qed.
Lemma plan_inv k s : cleaner_inv s -> cleaner_inv (PlanCleaning d k s).
Proof.
  intros I. unfold PlanCleaning. destruct (must_plan k s); [|done].
  apply (cleaner_inv_step s); simpl; eauto using list_elem_of_further; try lia.
  - intros k' due H. apply add_after_lookup in H as [H|[-> ->]]; [auto|right].
    exists (now s). split; [apply list_elem_of_here|lia].
  - intros k' t H. left. by inversion H; subst.
Qed.
Lemma take_inv k due s :
  waiting s !! k = Some due -> due <= now s -> cleaner_inv s -> cleaner_inv (take k s).
Proof.
  intros Hw Hdue I. apply (cleaner_inv_step s); simpl; eauto; try lia.
  - intros k' due'. rewrite lookup_delete_Some. intros [_ H]; auto.
  - intros k' p. rewrite lookup_insert_Some. intros [[<- _]|[_ H]]; [|eauto].
    right. eapply planned_before_mono; [apply (inv_waiting _ I _ _ Hw)|done|done].
  - intros k'. rewrite lookup_insert_Some. intros [[_ H]|[_ H]]; [done|auto].
Qed.

Lemma step_inv s s' : step d s s' -> cleaner_inv s -> cleaner_inv s'.
Proof.
  intros Hs I. destruct Hs as [s t Ht|s k|s k|s k due Hw Hdue Hp|s k Hp Hc|s k Hp Hc|s k b Hp Hb|
    s k Hp|s k Hp|s k b Hp Hb|s k Hp].
  - apply (cleaner_inv_step s); simpl; eauto.
  - by apply plan_inv.
  - by apply cancel_inv.
  - by eapply take_inv.
  - by apply set_phase_inv.
  - by apply set_phase_inv.
  - by apply retry_inv.
  - by apply set_phase_inv.
  - by apply found_empty_inv.
  - apply retry_inv; [done|by eexists|]. by apply delete_called_inv.
  - apply set_phase_inv; [done|by eexists|]. apply cancel_inv. by apply delete_called_inv.
Qed.

Lemma reachable_inv s : reachable d s -> cleaner_inv s.
Proof.
  unfold reachable. intros H. assert (I0 : cleaner_inv start).
  { split; simpl; intros; try (by rewrite ?lookup_empty in *). by apply not_elem_of_nil in H0. }
  revert I0. induction H as [s|s s1 s2 Hs _ IH]; [done|]. intros I. apply IH. by eapply step_inv.
Qed.


(** A cleaning can be lost. Planned, cancelled and planned again within the
    delay, a namespace is taken off the queue at the first time, found in use and
    dropped; it is then marked for a time still to come with nothing waiting in
    the queue, and planning it again changes nothing. *)
Theorem cleaning_can_be_lost k :
  1 <= d ->
  exists s, reachable d s /\ toDeleteMap s !! k = Some (now s + 1) /\
    waiting s = ∅ /\ processing s = ∅ /\ PlanCleaning d k s = s.
Proof.
  intros Hd.
  set (s1 := PlanCleaning d k start). set (s2 := CancelCleaning k s1).
  set (s3 := PlanCleaning d k (advance 1 s2)). set (s4 := take k (advance d s3)).
  set (s5 := set_phase k (Some Checked) s4). set (s6 := set_phase k None s5).
  assert (Hs1 : toDeleteMap s1 = {[ k := d ]} /\ waiting s1 = {[ k := d ]}).
  { unfold s1, PlanCleaning, must_plan. simpl. rewrite lookup_empty. simpl. split; [done|].
    unfold add_after. by rewrite lookup_empty. }
  destruct Hs1 as [Hm1 Hw1].
  assert (Hn1 : now s1 = 0) by (unfold s1, PlanCleaning; by destruct (must_plan k start)).
  assert (Hs3 : processing s3 = ∅ /\ toDeleteMap s3 = {[ k := 1 + d ]} /\ now s3 = 1 /\
    waiting s3 = {[ k := d ]}).
  { unfold s3, PlanCleaning, must_plan. simpl. rewrite lookup_delete_eq. simpl.
    rewrite Hm1, Hw1. split_and!; [| |done|].
    - unfold s1, PlanCleaning. by destruct (must_plan k start).
    - rewrite delete_singleton_eq. done.
    - unfold add_after. rewrite lookup_singleton_eq, Z.min_l by lia. by rewrite insert_singleton_eq. }
  destruct Hs3 as (Hp3 & Hm3 & Hn3 & Hw).
  assert (Hm : toDeleteMap s6 = {[ k := 1 + d ]}) by done.
  exists s6.
  split_and!.
  - unfold reachable. eapply rtc_l; [apply (step_plan d start k)|].
    eapply rtc_l; [apply (step_cancel d s1 k)|].
    eapply rtc_l; [apply (step_time d s2 1); change (now s1 <= 1); rewrite Hn1; lia|].
    eapply rtc_l; [apply (step_plan d (advance 1 s2) k)|]. fold s3.
    eapply rtc_l; [apply (step_time d s3 d); rewrite Hn3; lia|].
    eapply rtc_l.
    { apply (step_take d (advance d s3) k d); simpl; [by rewrite Hw, lookup_singleton_eq|lia|].
      by rewrite Hp3, lookup_empty. }
    fold s4. eapply rtc_l.
    { apply (step_planned d s4 k); simpl; [by rewrite lookup_insert_eq|].
      unfold isPlannedForCleaning. simpl. rewrite Hm3, lookup_singleton_eq. by apply bool_decide_true. }
    fold s5. apply rtc_once. apply (step_not_empty d s5 k). simpl. by rewrite lookup_partial_alter_eq.
  - rewrite Hm, lookup_singleton_eq. simpl. f_equal. lia.
  - simpl. rewrite Hw. apply delete_singleton_eq.
  - simpl. rewrite Hp3. apply map_eq. intros k'. rewrite lookup_empty.
    destruct (decide (k = k')) as [<-|Hne]; [by rewrite lookup_partial_alter_eq|].
    rewrite !lookup_partial_alter_ne, lookup_insert_ne by done. apply lookup_empty.
  - unfold PlanCleaning, must_plan. rewrite Hm, lookup_singleton_eq.
    destruct (Z.ltb_spec (1 + d) (now s6)) as [Hlt|_]; [|done]. simpl in Hlt. lia.
Qed.
End cleaner_theorems.

(** ** Two runs of the cleaner *)

Module Examples.
Definition s1 : cleaner := PlanCleaning 30 "ns" start.
Definition s2 : cleaner := take "ns" (advance 30 s1).
Definition s3 : cleaner := set_phase "ns" (Some Checked) s2.
Definition s4 : cleaner := record (FoundEmpty "ns") (set_phase "ns" (Some Empty) s3).
Definition s5 : cleaner :=
  set_phase "ns" None (CancelCleaning "ns" (record (DeleteCalled "ns") s4)).
Lemma s5_reachable : reachable 30 s5.
Proof.
  unfold reachable. eapply rtc_l; [apply (step_plan 30 start "ns")|]. fold s1.
  eapply rtc_l; [apply (step_time 30 s1 30); vm_compute; discriminate|].
  eapply rtc_l; [apply (step_take 30 _ "ns" 30); [vm_compute; reflexivity|vm_compute; discriminate|
    vm_compute; reflexivity]|]. fold s2.
  eapply rtc_l; [apply (step_planned 30 s2 "ns"); vm_compute; reflexivity|]. fold s3.
  eapply rtc_l; [apply (step_empty 30 s3 "ns"); vm_compute; reflexivity|]. fold s4.
  apply rtc_once. apply (step_deleted 30 s4 "ns"). vm_compute; reflexivity.
Qed.


Lemma cleaning_can_be_lost_witness :
  1 <= 30 /\ exists s, reachable 30 s /\ toDeleteMap s !! "ns" = Some (now s + 1) /\
    waiting s = ∅ /\ processing s = ∅ /\ PlanCleaning 30 "ns" s = s.
Proof. split; [lia|]. apply (cleaning_can_be_lost 30 "ns"). lia. Defined.
End Examples.
