(* ===== verification/Transformer.v ===== *)
(** * The syncer view of an object ([tmc/virtual/syncer/transformations])

    The syncer does not see the objects of a workspace but its own view of them,
    through a virtual workspace: [AfterRead] makes the view of an upstream
    object, [BeforeWrite] turns an update of the view into an update of the
    object. The fields that a syncer owns (the status, by default) are kept per
    SyncTarget in an annotation; while there is one SyncTarget they are promoted
    to the object itself, and the annotation holds a marker. *)

From S2P Require Import Prelude Platform GoTime ApiTypes SyncIntent Json JsonValue SyncerShared SpecSync.
Local Open Scope nat_scope.

(** ** Libraries *)

(** [unstructured.NestedFieldNoCopy], [SetNestedField] (which copies the value)
    and [RemoveNestedField]. A field that is read after it was set has the value;
    a top-level field other than the metadata is one of the content. *)
Class UnstructuredLib := {
  NestedField : Unstructured -> list string -> result (option json);
  SetNestedField : Unstructured -> json -> list string -> result Unstructured;
  RemoveNestedField : Unstructured -> list string -> Unstructured;
  NestedField_top u k : k <> "metadata" -> NestedField u [k] = inr (u_content u !! k);
  SetNestedField_top u v k : k <> "metadata" -> SetNestedField u v [k] = inr (SetContent k v u);
  RemoveNestedField_top u k : k <> "metadata" -> RemoveNestedField u [k] =
    {| u_meta := u_meta u; u_more := u_more u; u_content := delete k (u_content u) |};
}.
(** [kerrors.NewConflict], [kerrors.NewInternalError]. *)
Class StatusErrorLib := {
  NewConflict : GroupResource -> string -> error -> error;
  NewInternalError : error -> error;
}.
(** [url.JoinPath], and the request path of the logical cluster of an object. *)
Class UrlLib := {
  JoinPath : string -> string -> result string;
  RequestPath : ObjectMeta -> string;
}.

(** [SetDeletionTimestamp]: the text has whole seconds; the zero time is none. *)
Definition SetDeletionTimestamp (u : Unstructured) (t : Time) : Unstructured :=
  on_meta (fun m => {|
    Name := Name m; Namespace := Namespace m; UID := UID m;
    ResourceVersion := ResourceVersion m;
    Labels := Labels m; Annotations := Annotations m; Finalizers := Finalizers m;
    DeletionTimestamp := if IsZero t then None else Some (t - t mod Second)%Z;
    CreationTimestamp := CreationTimestamp m;
    OwnerReferences := OwnerReferences m |}) u.

(** ** Interfaces ([types.go]) *)

(** The fields an annotation stores: [map[string]interface{}], [None] is nil. *)
Abbreviation Fields := (option (gmap string json)) (only parsing).
Definition index_field (fs : Fields) (path : string) : option json :=
  match fs with Some m => m !! path | None => None end.

Record FieldToSummarize := {
  Path : string;
  GetField : Unstructured -> result (option json);
  SetField : Unstructured -> json -> result Unstructured;
  DeleteField : Unstructured -> Unstructured;
  IsStatus : bool;
  CanPromoteToUpstream : bool;
}.
(** Interfaces of one method are functions; nil is [None]. *)
Definition Transformation : Type :=
  string -> GroupVersionResource -> Unstructured -> Fields -> gmap string SyncIntent ->
  result Unstructured.
Definition TransformationProvider : Type := Unstructured -> result (option Transformation).
Definition SummarizingRules : Type := GroupVersionResource -> list FieldToSummarize.
Definition SummarizingRulesProvider : Type := Unstructured -> result (option SummarizingRules).

(** ** The summarizing rules ([defaultsummarizing.go]) *)

Section rules.
Context {UL : UnstructuredLib}.

Record field := { FieldPath : string; PromoteToUpstream : bool }.
Definition pathElements (f : field) : list string := Split (FieldPath f) ".".
Definition field_IsStatus (f : field) : bool :=
  match pathElements f with [e] => bool_decide (e = "status") | _ => false end.
(** [field] as a [FieldToSummarize]. *)
Definition to_summarize (f : field) : FieldToSummarize := {|
  Path := FieldPath f;
  GetField u := NestedField u (pathElements f);
  SetField u v := SetNestedField u v (pathElements f);
  DeleteField u := RemoveNestedField u (pathElements f);
  IsStatus := field_IsStatus f;
  CanPromoteToUpstream := PromoteToUpstream f;
|}.
Definition FieldsToSummarize (fs : list field) : SummarizingRules :=
  fun _ => List.map to_summarize fs.

Definition canPromoteStatusToUpstream (gvr : GroupVersionResource) : bool := true.
Definition Default_FieldsToSummarize : SummarizingRules := fun gvr =>
  [to_summarize {| FieldPath := "status"; PromoteToUpstream := canPromoteStatusToUpstream gvr |}].

(** [json.Unmarshal] into a [[]field]. *)
Definition decode_bool (old : bool) (v : json) : bool * bool :=
  match v with JBool b => (b, false) | JNull => (old, false) | _ => (old, true) end.
Definition field_member (x : field * bool) (kv : string * json) : field * bool :=
  let '(f, bad) := x in
  match field_of ["fieldPath"; "PromoteToUpstream"] kv.1 with
  | Some "fieldPath" =>
      let '(s, b) := decode_string (FieldPath f) kv.2 in
      ({| FieldPath := s; PromoteToUpstream := PromoteToUpstream f |}, bad || b)
  | Some "PromoteToUpstream" =>
      let '(p, b) := decode_bool (PromoteToUpstream f) kv.2 in
      ({| FieldPath := FieldPath f; PromoteToUpstream := p |}, bad || b)
  | _ => x
  end.
Definition decode_field (v : json) : field * bool :=
  decode_object field_member ({| FieldPath := ""; PromoteToUpstream := false |}, false) v.
Definition fields_error : error :=
  ErrLib "UnmarshalTypeError" "cannot unmarshal the value into a list of fields".
Definition unmarshal_fields (encoded : string) : result (list field) :=
  match parse encoded with
  | inl e => inl e
  | inr JNull => inr []
  | inr (JArray l) =>
      let decoded := List.map decode_field l in
      if existsb snd decoded then inl fields_error else inr (List.map fst decoded)
  | inr _ => inl fields_error
  end.

Definition DefaultSummarizingRulesFor : SummarizingRulesProvider := fun resource =>
  let encoded := map_index (GetAnnotations resource) ExperimentalSummarizingRulesAnnotation in
  if decide (encoded = "") then inr (Some Default_FieldsToSummarize)
  else match unmarshal_fields encoded with
       | inl err => inl err
       | inr decoded => inr (Some (FieldsToSummarize decoded))
       end.
End rules.

(** ** The spec-diff transformation ([specdiff.go]) *)

Section specdiff.
Context {UL : UnstructuredLib} {JP : JsonPatchLib}.

Definition ToSyncerView : Transformation :=
  fun syncTargetKey _ newUpstreamResource _ _ =>
  let specDiffPatch := map_index (GetAnnotations newUpstreamResource)
    (ClusterSpecDiffAnnotationPrefix +:+ syncTargetKey) in
  if decide (specDiffPatch = "") then inr newUpstreamResource
  else
    match NestedField newUpstreamResource ["spec"] with
    | inl err => inl err
    | inr None => inr newUpstreamResource
    | inr (Some upstreamSpec) =>
        match patched_spec specDiffPatch upstreamSpec with
        | inl err => inl err
        | inr newSpec => SetNestedField newUpstreamResource newSpec ["spec"]
        end
    end.
Definition SpecDiffTransformationFor : TransformationProvider :=
  fun _ => inr (Some ToSyncerView).
End specdiff.

(** ** The fields in the annotation ([helpers.go]) *)

Definition view_annotation (syncTargetKey : string) : string :=
  InternalSyncerViewAnnotationPrefix +:+ syncTargetKey.
(** The loop over the annotations stops at the one of the SyncTarget. *)
Definition getSyncerViewFields `{!MapOrder} (upstreamResource : Unstructured)
    (syncTargetKey : string) : result Fields :=
  match list_find (fun kv => HasPrefix kv.1 InternalSyncerViewAnnotationPrefix
                     && bool_decide (syncTargetKey = TrimPrefix kv.1 InternalSyncerViewAnnotationPrefix))
          (map_range (entries (GetAnnotations upstreamResource))) with
  | None => inr None
  | Some (_, (_, syncerViewAnnotationValue)) => unmarshal_map syncerViewAnnotationValue
  end.
Definition setSyncerViewFields (kcpResource : Unstructured) (syncTargetKey : string)
    (syncerViewFieldValues : Fields) : Unstructured :=
  let annotations := match GetAnnotations kcpResource with Some a => a | None => ∅ end in
  SetAnnotations kcpResource
    (Some (<[ view_annotation syncTargetKey := marshal_map syncerViewFieldValues ]> annotations)).

(** ** The transformer ([transformer.go]) *)

Definition promotedToUpstream : string := "##promoted##".
(** [v == promotedToUpstream] on an [interface{}]. *)
Definition is_promoted (v : json) : bool :=
  match v with JString s => bool_decide (s = promotedToUpstream) | _ => false end.

(** [type SyncerResourceTransformer struct]; the providers are interfaces, nil
    when absent. *)
Record SyncerResourceTransformer := {
  ShardExternalURL : string;
  srt_TransformationProvider : option TransformationProvider;
  srt_SummarizingRulesProvider : option SummarizingRulesProvider;
}.
(** What the request context carries. *)
Record Context := { APIDomainKey : string; ctx_SyncTargetKey : option string }.
Definition SyncTargetKeyFrom (ctx : Context) : result string :=
  match ctx_SyncTargetKey ctx with
  | Some stk => inr stk
  | None => inl (ErrMsg "context must contain a valid non-empty SyncTarget key")
  end.

(** The calls to the upstream cluster, on the resource of the request. *)
Inductive tev :=
  | EvGet (name resourceVersion : string)
  | EvUpdateStatus (u : Unstructured).
Class ResourceInterface := {
  client_Get : list tev -> result Unstructured;
  client_UpdateStatus : list tev -> result Unstructured;
}.

Definition string_set (l : list string) : gset string := list_to_set l.

Section transformer.
Context {MO : MapOrder} {UL : UnstructuredLib} {SE : StatusErrorLib} {URL : UrlLib} {CL : ClusterLib}.
Variable srt : SyncerResourceTransformer.

Definition TransformationFor (resource : Unstructured) : result (option Transformation) :=
  match srt_TransformationProvider srt with
  | None => inr None
  | Some provider => provider resource
  end.
Definition SummarizingRulesFor (resource : Unstructured) : result (option SummarizingRules) :=
  match srt_SummarizingRulesProvider srt with
  | None => inr (Some Default_FieldsToSummarize)
  | Some provider => provider resource
  end.

(** Wrap an error of the branches below. *)
Definition internal {A} (msg : string) (r : result A) : result A :=
  match r with inl err => inl (NewInternalError (ErrWrap msg err)) | inr a => inr a end.

Definition fields_to_summarize (gvr : GroupVersionResource) (u : Unstructured)
    : result (list FieldToSummarize) :=
  match internal "unable to get summarizing rules" (SummarizingRulesFor u) with
  | inl err => inl err
  | inr None => inr []
  | inr (Some summarizingRules) => inr (summarizingRules gvr)
  end.

(** *** Promotion: the fields of the last SyncTarget move to the object *)

Record promotion := {
  pr_object : Unstructured;
  pr_fields : gmap string json;
  pr_promoted : bool;
  pr_statusPromoted : bool;
}.
(** A field that the map does not hold is nil, which is set like any value. *)
Fixpoint promote_fields (fs : list FieldToSummarize) (p : promotion) : result promotion :=
  match fs with
  | [] => inr p
  | field :: fs =>
      let syncerViewFieldValue := default JNull (pr_fields p !! Path field) in
      if negb (CanPromoteToUpstream field) || is_promoted syncerViewFieldValue
      then promote_fields fs p
      else
        match internal "unable to set promoted syncer view field"
                (SetField field (pr_object p) syncerViewFieldValue) with
        | inl err => inl err
        | inr u => promote_fields fs {|
            pr_object := u;
            pr_fields := <[ Path field := JString promotedToUpstream ]> (pr_fields p);
            pr_promoted := true;
            pr_statusPromoted := pr_statusPromoted p || IsStatus field |}
        end
  end.
(** The object, and whether its status has to be written first. *)
Definition promote (fieldsToSummarize : list FieldToSummarize) (singleSyncTarget : string)
    (u : Unstructured) : result (Unstructured * bool) :=
  match internal "unable to get syncer view fields" (getSyncerViewFields u singleSyncTarget) with
  | inl err => inl err
  | inr None => inr (u, false)
  | inr (Some existingSyncerViewFields) =>
      match promote_fields fieldsToSummarize {|
              pr_object := u; pr_fields := existingSyncerViewFields;
              pr_promoted := false; pr_statusPromoted := false |} with
      | inl err => inl err
      | inr p =>
          inr (if pr_promoted p
               then setSyncerViewFields (pr_object p) singleSyncTarget (Some (pr_fields p))
               else pr_object p, pr_statusPromoted p)
      end
  end.

(** *** Removal of a SyncTarget from the object *)

Definition remove_sync_target (syncTargetKey : string) (u : Unstructured) : Unstructured :=
  let u := match GetLabels u with
           | Some labels => SetLabels u (Some (delete (state_label syncTargetKey) labels))
           | None => u
           end in
  let finalizers := string_set (GetFinalizers u) in
  let u := if bool_decide (syncer_finalizer syncTargetKey ∈ finalizers)
           then SetFinalizers u (set_list (finalizers ∖ {[ syncer_finalizer syncTargetKey ]}))
           else u in
  match GetAnnotations u with
  | Some annotations =>
      let annotations := delete (view_annotation syncTargetKey) annotations in
      let annotations := delete (deletion_annotation syncTargetKey) annotations in
      SetAnnotations u (Some (delete ClusterSpecDiffAnnotationPrefix annotations))
  | None => u
  end.

Definition removed_from_syncer {RI : ResourceInterface} (fieldsToSummarize : list FieldToSummarize)
    (syncTargetKey : string) (existing : Unstructured) : M tev Unstructured :=
  match GetSyncIntents (u_meta existing) with
  | inl err => fail (NewInternalError err)
  | inr existingSyncing =>
      existing ←
        match elements (dom (delete syncTargetKey existingSyncing)) with
        | [singleSyncTarget] =>
            if bool_decide (si_ResourceState <$> existingSyncing !! singleSyncTarget = Some "Sync")
               && bool_decide (syncer_finalizer singleSyncTarget ∈ GetFinalizers existing)
            then
              '(u, statusPromoted) ← lift (of_result (promote fieldsToSummarize singleSyncTarget existing));
              if (statusPromoted : bool)
              then call (EvUpdateStatus u) client_UpdateStatus
              else mret u
            else mret existing
        | _ => mret existing
        end;
      mret (remove_sync_target syncTargetKey existing)
  end.

(** *** Unpromotion: a second SyncTarget gets the object *)

Definition syncer_finalizers (u : Unstructured) : gset string :=
  string_set (List.filter (fun f => HasPrefix f SyncerFinalizerNamePrefix) (GetFinalizers u)).

Fixpoint unpromote_fields (fs : list FieldToSummarize) (u : Unstructured)
    (fields : Fields) (unpromoted : bool) : result (Fields * bool) :=
  match fs with
  | [] => inr (fields, unpromoted)
  | field :: fs =>
      if CanPromoteToUpstream field
         && is_promoted (default JNull (index_field fields (Path field)))
      then
        match internal "unable to get promoted syncer view field" (GetField field u) with
        | inl err => inl err
        | inr None => unpromote_fields fs u fields unpromoted
        | inr (Some v) => unpromote_fields fs u (insert (Path field) v <$> fields) true
        end
      else unpromote_fields fs u fields unpromoted
  end.
Definition unpromote (fieldsToSummarize : list FieldToSummarize) (owner : string)
    (u : Unstructured) : result Unstructured :=
  match internal "unable to get syncer view fields" (getSyncerViewFields u owner) with
  | inl err => inl err
  | inr fields =>
      match unpromote_fields fieldsToSummarize u fields false with
      | inl err => inl err
      | inr (fields, unpromoted) =>
          inr (if (unpromoted : bool) then setSyncerViewFields u owner fields else u)
      end
  end.

(** *** The fields of an update *)

Fixpoint summarize_fields (statusSubresource single : bool) (existingSyncerViewFields : Fields)
    (syncerViewResource : Unstructured) (fs : list FieldToSummarize)
    (u : Unstructured) (syncerViewFields : gmap string json)
    : result (Unstructured * gmap string json) :=
  let next := summarize_fields statusSubresource single existingSyncerViewFields
                syncerViewResource in
  match fs with
  | [] => inr (u, syncerViewFields)
  | field :: fs =>
      if negb (Bool.eqb (IsStatus field) statusSubresource) then
        match index_field existingSyncerViewFields (Path field) with
        | Some existingValue => next fs u (<[ Path field := existingValue ]> syncerViewFields)
        | None => next fs u syncerViewFields
        end
      else
        match internal "unable to get syncer view field" (GetField field syncerViewResource) with
        | inl err => inl err
        | inr None => next fs u syncerViewFields
        | inr (Some v) =>
            if CanPromoteToUpstream field && single then
              match internal "unable to promote syncer view field" (SetField field u v) with
              | inl err => inl err
              | inr u => next fs u (<[ Path field := JString promotedToUpstream ]> syncerViewFields)
              end
            else next fs u (<[ Path field := v ]> syncerViewFields)
        end
  end.

(** The write of a syncer that keeps the object. *)
Definition assigned (syncTargetKey : string) (syncing : gmap string SyncIntent) : bool :=
  bool_decide (si_ResourceState <$> syncing !! syncTargetKey = Some "Sync").
Definition add_finalizer (owners : gset string) (syncTargetKey : string) (u : Unstructured)
    : Unstructured :=
  if bool_decide (syncer_finalizer syncTargetKey ∈ owners) then u
  else SetFinalizers u
         (set_list (string_set (GetFinalizers u ++ [syncer_finalizer syncTargetKey]))).
Definition before_unpromotion (newSyncing : gmap string SyncIntent)
    (fieldsToSummarize : list FieldToSummarize) (u : Unstructured) : result Unstructured :=
  match set_list (syncer_finalizers u) with
  | [owner] =>
      if decide (1 < size newSyncing)
      then unpromote fieldsToSummarize (TrimPrefix owner SyncerFinalizerNamePrefix) u
      else inr u
  | _ => inr u
  end.
Definition update_fields (fieldsToSummarize : list FieldToSummarize) (syncTargetKey : string)
    (subresources : list string) (newSyncing : gmap string SyncIntent)
    (syncerViewResource u : Unstructured) : result Unstructured :=
  match internal "unable to get syncer view fields" (getSyncerViewFields u syncTargetKey) with
  | inl err => inl err
  | inr existingSyncerViewFields =>
      match summarize_fields (bool_decide (subresources = ["status"]))
              (bool_decide (size newSyncing = 1)) existingSyncerViewFields syncerViewResource
              fieldsToSummarize u ∅ with
      | inl err => inl err
      | inr (u, syncerViewFields) =>
          inr (setSyncerViewFields u syncTargetKey (Some syncerViewFields))
      end
  end.
Definition keep (fieldsToSummarize : list FieldToSummarize) (syncTargetKey : string)
    (subresources : list string) (syncerViewResource existing : Unstructured) : result Unstructured :=
  match GetSyncIntents (u_meta existing) with
  | inl err => inl (NewInternalError err)
  | inr newSyncing =>
      if negb (assigned syncTargetKey newSyncing)
      then inl (NewInternalError (ErrMsg "tried to write resource though it is not assigned to the current SyncTarget"))
      else if negb (bool_decide (syncer_finalizer syncTargetKey ∈ GetFinalizers syncerViewResource))
      then inl (NewInternalError (ErrMsg "tried to write resource though it is not owning it (syncer finalizer doesn't exist)"))
      else
        match before_unpromotion newSyncing fieldsToSummarize existing with
        | inl err => inl err
        | inr u =>
            match update_fields fieldsToSummarize syncTargetKey subresources newSyncing
                    syncerViewResource u with
            | inl err => inl err
            | inr u => inr (add_finalizer (syncer_finalizers existing) syncTargetKey u)
            end
        end
  end.

Definition GVR_GroupResource (gvr : GroupVersionResource) : GroupResource :=
  {| gr_Group := gvr_Group gvr; gr_Resource := gvr_Resource gvr |}.

(** [BeforeWrite(client, ctx, gvr, syncerViewResource, subresources...)]. *)
Definition BeforeWrite {RI : ResourceInterface} (ctx : Context) (gvr : GroupVersionResource)
    (syncerViewResource : Unstructured) (subresources : list string) : M tev Unstructured :=
  match SplitMetaClusterNamespaceKey (APIDomainKey ctx) with
  | inl err => fail err
  | inr _ =>
      match SyncTargetKeyFrom ctx with
      | inl err => fail err
      | inr syncTargetKey =>
          let removedFromSyncer :=
            bool_decide (is_Some (DeletionTimestamp (u_meta syncerViewResource)))
            && negb (bool_decide (syncer_finalizer syncTargetKey ∈ GetFinalizers syncerViewResource))
            && bool_decide (subresources = []) in
          existing ← call (EvGet (GetName syncerViewResource)
                             (ResourceVersion (u_meta syncerViewResource))) client_Get;
          if negb (bool_decide (ResourceVersion (u_meta existing)
                                = ResourceVersion (u_meta syncerViewResource)))
          then fail (NewConflict (GVR_GroupResource gvr) (GetName existing)
                       (ErrMsg "the resource has been modified in the meantime"))
          else
            match fields_to_summarize gvr existing with
            | inl err => fail err
            | inr fieldsToSummarize =>
                if removedFromSyncer
                then removed_from_syncer fieldsToSummarize syncTargetKey existing
                else lift (of_result (keep fieldsToSummarize syncTargetKey subresources
                                        syncerViewResource existing))
            end
      end
  end.

(** *** Reading *)

(** The upstream object before the transformation: no finalizers, no deletion
    timestamp, no syncer view. *)
Definition without_views (a : gomap) : gomap :=
  filter (fun kv => HasPrefix kv.1 InternalSyncerViewAnnotationPrefix = false) <$> a.
Definition cleaned (u : Unstructured) : Unstructured :=
  let u := SetDeletionTimestamp_nil (SetFinalizers u []) in
  SetAnnotations u (without_views (GetAnnotations u)).

(** One field over the transformed view; [upstream] has the promoted values. *)
Definition override_field (upstream : Unstructured) (syncerViewFields : Fields)
    (field : FieldToSummarize) (view : Unstructured) : result Unstructured :=
  let set v := internal "unable to override field" (SetField field view v) in
  match index_field syncerViewFields (Path field) with
  | None => inr (if CanPromoteToUpstream field then DeleteField field view else view)
  | Some v =>
      if CanPromoteToUpstream field && is_promoted v then
        match internal "unable to get promoted syncer view field" (GetField field upstream) with
        | inl err => inl err
        | inr None => inr (DeleteField field view)
        | inr (Some v) => set v
        end
      else set v
  end.
Fixpoint override_fields (upstream : Unstructured) (syncerViewFields : Fields)
    (fs : list FieldToSummarize) (view : Unstructured) : result Unstructured :=
  match fs with
  | [] => inr view
  | field :: fs =>
      match override_field upstream syncerViewFields field view with
      | inl err => inl err
      | inr view => override_fields upstream syncerViewFields fs view
      end
  end.

(** The transformation of the cleaned object. *)
Definition transformed (syncTargetKey : string) (gvr : GroupVersionResource) (upstream : Unstructured)
    (syncerViewFields : Fields) (syncing : gmap string SyncIntent) : result Unstructured :=
  match internal "unable to get transformation" (TransformationFor upstream) with
  | inl err => inl err
  | inr None => inr (cleaned upstream)
  | inr (Some transformation) =>
      transformation syncTargetKey gvr (cleaned upstream) syncerViewFields syncing
  end.
(** What the view keeps of the metadata: the syncer's finalizer, its deletion
    timestamp when nothing holds the object on the SyncTarget, and the URL. *)
Definition propagate_finalizer (syncTargetKey : string) (upstream view : Unstructured)
    : Unstructured :=
  if bool_decide (syncer_finalizer syncTargetKey ∈ GetFinalizers upstream)
  then SetFinalizers view
         (set_list (string_set (GetFinalizers view) ∪ {[ syncer_finalizer syncTargetKey ]}))
  else view.
Definition propagate_deletion (syncTargetKey : string) (syncing : gmap string SyncIntent)
    (view : Unstructured) : Unstructured :=
  match syncing !! syncTargetKey with
  | Some {| si_DeletionTimestamp := Some t; si_Finalizers := "" |} => SetDeletionTimestamp view t
  | _ => view
  end.
Definition with_workspace_URL (workspaceURL : string) (view : Unstructured) : Unstructured :=
  SetAnnotations view (Some (match GetAnnotations view with
    | Some annotations => <[ InternalWorkspaceURLAnnotationKey := workspaceURL ]> annotations
    | None => {[ InternalWorkspaceURLAnnotationKey := workspaceURL ]}
    end)).

(** [AfterRead(client, ctx, gvr, upstreamResource, eventType, subresources...)]:
    no call, and neither the event type nor the subresources matter. *)
Definition AfterRead (ctx : Context) (gvr : GroupVersionResource) (upstreamResource : Unstructured)
    : result Unstructured :=
  match SyncTargetKeyFrom ctx with
  | inl err => inl err
  | inr syncTargetKey =>
      match GetSyncIntents (u_meta upstreamResource) with
      | inl err => inl (NewInternalError err)
      | inr syncing =>
          match internal "unable to get syncer view fields"
                  (getSyncerViewFields upstreamResource syncTargetKey) with
          | inl err => inl err
          | inr syncerViewFields =>
              match transformed syncTargetKey gvr upstreamResource syncerViewFields syncing with
              | inl err => inl err
              | inr view =>
                  match fields_to_summarize gvr upstreamResource with
                  | inl err => inl err
                  | inr fs =>
                      match override_fields upstreamResource syncerViewFields fs view with
                      | inl err => inl err
                      | inr view =>
                          let view := propagate_finalizer syncTargetKey upstreamResource view in
                          let view := propagate_deletion syncTargetKey syncing view in
                          match internal "unable to build workspace URL"
                                  (JoinPath (ShardExternalURL srt) (RequestPath (u_meta upstreamResource))) with
                          | inl err => inl err
                          | inr workspaceURL => inr (with_workspace_URL workspaceURL view)
                          end
                      end
                  end
              end
          end
      end
  end.
End transformer.

(** * Lemmas *)

(** ** The annotation *)

Section annotation.
Context {MO : MapOrder}.

Lemma getSyncerViewFields_lookup u k :
  getSyncerViewFields u k =
    match map_get (GetAnnotations u) (view_annotation k) with
    | Some v => unmarshal_map v
    | None => inr None
    end.
Proof.
  unfold getSyncerViewFields, map_get. destruct (list_find _ _) as [[i [n v]]|] eqn:E.
  - apply list_find_Some in E as (Hi & Hp%Is_true_true & _).
    apply andb_prop in Hp as [Hp Hk%bool_decide_eq_true]. simpl in Hp, Hk.
    apply HasPrefix_Trim in Hp. rewrite <-Hk in Hp.
    apply list_elem_of_lookup_2, elem_of_map_range in Hi. subst n.
    unfold view_annotation. by rewrite Hi.
  - destruct (entries _ !! view_annotation k) as [v|] eqn:Ev; [|done].
    apply list_find_None in E. apply elem_of_map_range in Ev.
    rewrite Forall_forall in E. destruct (E _ Ev). apply Is_true_true. cbn [fst].
    unfold view_annotation. rewrite HasPrefix_app, TrimPrefix_app. by apply bool_decide_true.
Qed.

Lemma map_get_setSyncerViewFields u k fs n :
  map_get (GetAnnotations (setSyncerViewFields u k fs)) n =
    if decide (view_annotation k = n) then Some (marshal_map fs) else map_get (GetAnnotations u) n.
Proof.
  unfold setSyncerViewFields, map_get. simpl.
  rewrite lookup_insert. case_decide; [done|]. by destruct (GetAnnotations u).
Qed.

Lemma get_setSyncerViewFields u k m :
  plain_map (max_depth - 1) m ->
  getSyncerViewFields (setSyncerViewFields u k (Some m)) k = inr (Some m).
Proof.
  intros H. rewrite getSyncerViewFields_lookup, map_get_setSyncerViewFields, decide_True by done.
  by apply unmarshal_marshal.
Qed.
Lemma get_setSyncerViewFields_ne u k k' fs :
  k <> k' -> getSyncerViewFields (setSyncerViewFields u k fs) k' = getSyncerViewFields u k'.
Proof.
  intros H. rewrite !getSyncerViewFields_lookup, map_get_setSyncerViewFields, decide_False; [done|].
  by intros ?%(inj (String.append _)).
Qed.

(** What depends on the annotations of the syncer view only. *)
Lemma getSyncerViewFields_ext u u' k :
  map_get (GetAnnotations u) (view_annotation k) = map_get (GetAnnotations u') (view_annotation k) ->
  getSyncerViewFields u k = getSyncerViewFields u' k.
Proof. intros H. by rewrite !getSyncerViewFields_lookup, H. Qed.
End annotation.

(** ** The default rules: the status, always promoted *)

Section default_rules.
Context {MO : MapOrder} {UL : UnstructuredLib} {SE : StatusErrorLib} {URL : UrlLib} {CL : ClusterLib}.
Variable srt : SyncerResourceTransformer.

(** Objects without rules of their own. *)
Definition default_rules (u : Unstructured) : Prop :=
  map_index (GetAnnotations u) ExperimentalSummarizingRulesAnnotation = "".
Definition default_provider : Prop :=
  match srt_SummarizingRulesProvider srt with
  | None => True
  | Some p => p = DefaultSummarizingRulesFor
  end.

Definition status_field : FieldToSummarize :=
  to_summarize {| FieldPath := "status"; PromoteToUpstream := true |}.
Lemma status_elements : pathElements {| FieldPath := "status"; PromoteToUpstream := true |} = ["status"].
Proof. by vm_compute. Qed.
Lemma status_Get u : GetField status_field u = inr (u_content u !! "status").
Proof. unfold status_field, to_summarize. cbn [GetField]. rewrite status_elements. by apply NestedField_top. Qed.
Lemma status_Set u v : SetField status_field u v = inr (SetContent "status" v u).
Proof. unfold status_field, to_summarize. cbn [SetField]. rewrite status_elements. by apply SetNestedField_top. Qed.
Lemma status_Delete u : DeleteField status_field u =
  {| u_meta := u_meta u; u_more := u_more u; u_content := delete "status" (u_content u) |}.
Proof. unfold status_field, to_summarize. cbn [DeleteField]. rewrite status_elements. by apply RemoveNestedField_top. Qed.
Lemma status_IsStatus : IsStatus status_field = true.
Proof. by vm_compute. Qed.

Lemma fields_default gvr u :
  default_provider -> default_rules u -> fields_to_summarize srt gvr u = inr [status_field].
Proof.
  unfold default_provider, default_rules, fields_to_summarize, SummarizingRulesFor. intros Hp Hu.
  destruct (srt_SummarizingRulesProvider srt) as [p|]; [subst p|done].
  unfold DefaultSummarizingRulesFor. by rewrite decide_True by done.
Qed.

(** The status that the view of a SyncTarget shows, read off the object. *)
Definition status_of_view (k : string) (u : Unstructured) : option json :=
  match getSyncerViewFields u k with
  | inr (Some m) =>
      match m !! "status" with
      | Some v => if is_promoted v then u_content u !! "status" else Some v
      | None => None
      end
  | _ => None
  end.

Lemma override_status u fs view view' :
  override_fields u fs [status_field] view = inr view' ->
  u_content view' !! "status" =
    match index_field fs "status" with
    | Some v => if is_promoted v then u_content u !! "status" else Some v
    | None => None
    end.
Proof.
  cbn [override_fields]. unfold override_field. rewrite status_Get.
  change (Path status_field) with "status". change (CanPromoteToUpstream status_field) with true.
  rewrite status_Delete. cbn [andb].
  destruct (index_field fs "status") as [v|]; [|intros [= <-]; apply lookup_delete_eq].
  destruct (is_promoted v); cbn [internal];
    [destruct (u_content u !! "status") as [w|] eqn:E|]; rewrite ?status_Set; cbn [internal];
    intros [= <-]; (apply lookup_insert_eq || apply lookup_delete_eq).
Qed.

Lemma content_after_override k syncing url u view :
  u_content (with_workspace_URL url (propagate_deletion k syncing (propagate_finalizer k u view)))
  = u_content view.
Proof.
  unfold with_workspace_URL, propagate_deletion, propagate_finalizer. simpl.
  case_bool_decide; repeat case_match; done.
Qed.

(** The view's status depends on the annotation and the object's status only. *)
Lemma AfterRead_status ctx gvr k u view :
  default_provider -> default_rules u -> ctx_SyncTargetKey ctx = Some k ->
  AfterRead srt ctx gvr u = inr view -> u_content view !! "status" = status_of_view k u.
Proof.
  intros Hp Hu Hk. unfold AfterRead, SyncTargetKeyFrom, status_of_view. rewrite Hk.
  destruct (GetSyncIntents (u_meta u)) as [e|syncing]; [done|].
  destruct (getSyncerViewFields u k) as [e|fs]; [done|]. simpl.
  destruct (transformed _ _ _ _ _ _) as [e|view1]; [done|]. rewrite fields_default by done.
  destruct (override_fields _ _ _ _) as [e|view2] eqn:E; [done|].
  destruct (JoinPath _ _) as [e|url]; [done|]. simpl. intros [= <-].
  rewrite content_after_override, (override_status _ _ _ _ E). by destruct fs.
Qed.
End default_rules.

(** ** A write that keeps the object *)

Section keep.
Context {MO : MapOrder} {UL : UnstructuredLib} {SE : StatusErrorLib} {URL : UrlLib} {CL : ClusterLib}.

(** A status that an annotation can hold, and is not the marker itself. *)
Definition plain_status (u : Unstructured) : Prop :=
  forall v, u_content u !! "status" = Some v -> plain (max_depth - 1) v /\ is_promoted v = false.
Definition plain_views (u : Unstructured) : Prop :=
  forall k m, getSyncerViewFields u k = inr (Some m) -> plain_map (max_depth - 1) m.

Lemma plain_map_insert d m k v :
  plain_map d m -> ascii_string k = true -> plain d v -> plain_map d (<[ k := v ]> m).
Proof.
  intros Hm Hk Hv k' v' [[<- <-]|[_ E]]%lookup_insert_Some; [done|]. by apply Hm.
Qed.
Lemma plain_map_empty d : plain_map d ∅.
Proof. intros k v E. by rewrite lookup_empty in E. Qed.
Lemma plain_marker d : plain d (JString promotedToUpstream).
Proof. split; [done|by vm_compute|simpl; lia]. Qed.

Lemma content_set u k fs : u_content (setSyncerViewFields u k fs) = u_content u.
Proof. done. Qed.
Lemma views_ext u u' k :
  GetAnnotations u = GetAnnotations u' -> getSyncerViewFields u k = getSyncerViewFields u' k.
Proof. intros H. apply getSyncerViewFields_ext. by rewrite H. Qed.

(** Reading a view after its own, or another's, annotation was written. *)
Lemma status_after_set u k m k' :
  plain_map (max_depth - 1) m ->
  status_of_view k' (setSyncerViewFields u k (Some m)) =
    if decide (k = k') then
      match m !! "status" with
      | Some v => if is_promoted v then u_content u !! "status" else Some v
      | None => None
      end
    else status_of_view k' u.
Proof.
  intros Hm. unfold status_of_view. rewrite content_set. destruct (decide (k = k')) as [->|Hne].
  - by rewrite get_setSyncerViewFields.
  - by rewrite get_setSyncerViewFields_ne.
Qed.

Lemma unpromote_inv owner u u1 :
  unpromote [status_field] owner u = inr u1 ->
  u1 = u \/
  exists m v, getSyncerViewFields u owner = inr (Some m) /\
    m !! "status" = Some (JString promotedToUpstream) /\ u_content u !! "status" = Some v /\
    u1 = setSyncerViewFields u owner (Some (<[ "status" := v ]> m)).
Proof.
  unfold unpromote. destruct (getSyncerViewFields u owner) as [e|fs] eqn:E; cbn [internal]; [done|].
  cbn [unpromote_fields]. change (Path status_field) with "status".
  change (CanPromoteToUpstream status_field) with true. rewrite status_Get. cbn [andb internal].
  destruct (is_promoted (default JNull (index_field fs "status"))) eqn:Hp; [|intros [= <-]; by left].
  destruct (u_content u !! "status") as [v|] eqn:Hv; intros [= <-]; [|by left].
  destruct fs as [m|]; [|done]. cbn [index_field] in Hp.
  destruct (m !! "status") as [w|] eqn:Hw; [|done]. simpl in Hp.
  destruct w as [| | |s| |]; simplify_eq/=. apply bool_decide_eq_true in Hp as ->.
  right. by exists m, v.
Qed.

(** Unpromotion is not visible to any syncer. *)
Lemma unpromote_status owner u u1 :
  plain_status u -> plain_views u -> unpromote [status_field] owner u = inr u1 ->
  u_content u1 = u_content u /\ u_meta u1 = with_annotations (u_meta u) (GetAnnotations u1) /\
  plain_views u1 /\ forall k, status_of_view k u1 = status_of_view k u.
Proof.
  intros Hs Hviews [->|(m & v & Hm & Hp & Hv & ->)]%unpromote_inv.
  { split_and!; [done| |done|done]. by destruct u as [[] ? ?]. }
  destruct (Hs v Hv) as [Hpv Hnp].
  assert (Hplain : plain_map (max_depth - 1) (<[ "status" := v ]> m)).
  { apply plain_map_insert; [by eapply Hviews|by vm_compute|done]. }
  split_and!; [done|done| |].
  - intros k m'. destruct (decide (owner = k)) as [->|Hne].
    + rewrite get_setSyncerViewFields by done. by intros [= <-].
    + rewrite get_setSyncerViewFields_ne by done. apply Hviews.
  - intros k. rewrite status_after_set by done. destruct (decide (owner = k)) as [->|Hne]; [|done].
    rewrite lookup_insert_eq, Hnp. unfold status_of_view. rewrite Hm, Hp. simpl. by rewrite Hv.
Qed.

Lemma before_unpromotion_status syncing u u1 :
  plain_status u -> plain_views u -> before_unpromotion syncing [status_field] u = inr u1 ->
  u_content u1 = u_content u /\ u_meta u1 = with_annotations (u_meta u) (GetAnnotations u1) /\
  plain_views u1 /\ forall k, status_of_view k u1 = status_of_view k u.
Proof.
  intros Hs Hv. unfold before_unpromotion.
  assert (Hsame : u = u1 -> u_content u1 = u_content u /\
    u_meta u1 = with_annotations (u_meta u) (GetAnnotations u1) /\
    plain_views u1 /\ forall k, status_of_view k u1 = status_of_view k u).
  { intros <-. split_and!; [done| |done|done]. by destruct u as [[] ? ?]. }
  destruct (set_list _) as [|owner []]; [by intros [= <-]; apply Hsame| |by intros [= <-]; apply Hsame].
  destruct (decide _) as [Hsz|Hsz]; [|by intros [= <-]; apply Hsame].
  by apply unpromote_status.
Qed.

(** The fields of a write, under the default rules. *)
Lemma summarize_status sub single fs view u r :
  summarize_fields sub single fs view [status_field] u ∅ = inr r ->
  r = if (sub : bool) then
        match u_content view !! "status" with
        | None => (u, ∅)
        | Some v => if (single : bool)
                    then (SetContent "status" v u, {[ "status" := JString promotedToUpstream ]})
                    else (u, {[ "status" := v ]})
        end
      else match index_field fs "status" with
           | Some v => (u, {[ "status" := v ]})
           | None => (u, ∅)
           end.
Proof.
  cbn [summarize_fields]. rewrite status_IsStatus. change (Path status_field) with "status".
  rewrite status_Get. change (CanPromoteToUpstream status_field) with true. cbn [internal andb].
  destruct sub; cbn [Bool.eqb negb].
  - destruct (u_content view !! "status") as [v|]; [|by intros [= <-]].
    destruct single; [rewrite status_Set; cbn [internal]|]; by intros [= <-].
  - destruct (index_field fs "status"); by intros [= <-].
Qed.

Lemma add_finalizer_content owners k u : u_content (add_finalizer owners k u) = u_content u.
Proof. unfold add_finalizer. by case_bool_decide. Qed.
Lemma add_finalizer_annotations owners k u :
  GetAnnotations (add_finalizer owners k u) = GetAnnotations u.
Proof. unfold add_finalizer. by case_bool_decide. Qed.
Lemma add_finalizer_status owners k k' u :
  status_of_view k' (add_finalizer owners k u) = status_of_view k' u.
Proof.
  unfold status_of_view. rewrite add_finalizer_content, (views_ext _ u); [done|].
  apply add_finalizer_annotations.
Qed.

Lemma keep_inv fs k subs view existing u' :
  keep fs k subs view existing = inr u' ->
  exists syncing u1 u2,
    GetSyncIntents (u_meta existing) = inr syncing /\ assigned k syncing = true /\
    syncer_finalizer k ∈ GetFinalizers view /\
    before_unpromotion syncing fs existing = inr u1 /\
    update_fields fs k subs syncing view u1 = inr u2 /\
    u' = add_finalizer (syncer_finalizers existing) k u2.
Proof.
  unfold keep. destruct (GetSyncIntents _) as [e|syncing] eqn:E; [done|].
  destruct (assigned k syncing) eqn:Ea; [|done]. simpl.
  destruct (bool_decide _) eqn:Ef; [apply bool_decide_eq_true in Ef|done]. simpl.
  destruct (before_unpromotion _ _ _) as [e|u1] eqn:E1; [done|].
  destruct (update_fields _ _ _ _ _ _) as [e|u2] eqn:E2; [done|]. intros [= <-].
  by exists syncing, u1, u2.
Qed.
End keep.

Section update.
Context {MO : MapOrder} {UL : UnstructuredLib} {SE : StatusErrorLib} {URL : UrlLib} {CL : ClusterLib}.

Lemma update_inv fs k subs syncing view u u2 :
  update_fields fs k subs syncing view u = inr u2 ->
  exists existing u1 out, getSyncerViewFields u k = inr existing /\
    summarize_fields (bool_decide (subs = ["status"])) (bool_decide (size syncing = 1)) existing
      view fs u ∅ = inr (u1, out) /\
    u2 = setSyncerViewFields u1 k (Some out).
Proof.
  unfold update_fields. destruct (getSyncerViewFields u k) as [e|existing]; cbn [internal]; [done|].
  destruct (summarize_fields _ _ _ _ _ _ _) as [e|[u1 out]] eqn:E; [done|]. intros [= <-].
  by exists existing, u1, out.
Qed.

(** What the writer reads back: the status it sent, or the one it had. *)
Lemma update_own k subs syncing view u u2 :
  (subs = ["status"] -> plain_status view) -> (subs <> ["status"] -> plain_views u) ->
  update_fields [status_field] k subs syncing view u = inr u2 ->
  status_of_view k u2 =
    if decide (subs = ["status"]) then u_content view !! "status" else status_of_view k u.
Proof.
  intros Hview Hu (existing & u1 & out & He & Hs & ->)%update_inv.
  apply summarize_status in Hs. destruct (decide (subs = ["status"])) as [E|E].
  - rewrite bool_decide_true in Hs by done. specialize (Hview E).
    destruct (u_content view !! "status") as [v|] eqn:Ev; simplify_eq.
    + destruct (Hview v Ev) as [Hp Hm]. case_bool_decide; simplify_eq.
      * rewrite status_after_set, decide_True, lookup_singleton_eq by
          first [done | apply plain_map_insert; [apply plain_map_empty|by vm_compute|apply plain_marker]].
        simpl. apply lookup_insert_eq.
      * rewrite status_after_set, decide_True, lookup_singleton_eq, Hm by
          first [done | apply plain_map_insert; [apply plain_map_empty|by vm_compute|done]].
        done.
    + rewrite status_after_set, decide_True by (apply plain_map_empty || done).
      by rewrite lookup_empty.
  - rewrite bool_decide_false in Hs by done. unfold status_of_view at 2. rewrite He.
    destruct existing as [m|]; cbn [index_field] in Hs.
    + destruct (m !! "status") as [v|] eqn:Ev; simplify_eq.
      * rewrite status_after_set, decide_True, lookup_singleton_eq; [done|done|].
        apply plain_map_insert; [apply plain_map_empty|by vm_compute|].
        by apply (Hu E k m He "status").
      * rewrite status_after_set, decide_True by (apply plain_map_empty || done).
        by rewrite lookup_empty.
    + simplify_eq. rewrite status_after_set, decide_True by (apply plain_map_empty || done).
      by rewrite lookup_empty.
Qed.

(** With several SyncTargets the object's own fields are left alone. *)
Lemma update_other k k' subs syncing view u u2 :
  size syncing <> 1 \/ subs <> ["status"] -> k <> k' ->
  update_fields [status_field] k subs syncing view u = inr u2 ->
  u_content u2 = u_content u /\ status_of_view k' u2 = status_of_view k' u.
Proof.
  intros Hsz Hne (existing & u1 & out & He & Hs & ->)%update_inv.
  assert (u1 = u) as ->.
  { apply summarize_status in Hs. case_bool_decide.
    - rewrite bool_decide_false in Hs by tauto.
      destruct (u_content view !! "status"); by simplify_eq.
    - destruct (index_field existing "status"); by simplify_eq. }
  split; [done|]. unfold status_of_view. rewrite content_set.
  by rewrite get_setSyncerViewFields_ne.
Qed.

(** Two SyncTargets with a label are two intents. *)
Lemma several_intents (o : ObjectMeta) syncing k k' :
  GetSyncIntents o = inr syncing -> assigned k syncing = true -> k <> k' ->
  is_Some (map_get (Labels o) (state_label k')) -> size syncing <> 1.
Proof.
  intros Hi Ha Hne Hl Hsz. apply (GetSyncIntents_dom o syncing k' Hi) in Hl as [i' Hi'].
  apply bool_decide_eq_true in Ha. destruct (syncing !! k) as [i|] eqn:Ei; [|done].
  apply Hne. rewrite <-size_dom in Hsz.
  apply (size_singleton_inv (dom syncing)); [done| |]; apply elem_of_dom; eauto.
Qed.
End update.

(** ** The whole write *)

Section before_write.
Context {MO : MapOrder} {UL : UnstructuredLib} {SE : StatusErrorLib} {URL : UrlLib} {CL : ClusterLib}.
Context {RI : ResourceInterface}.
Variable srt : SyncerResourceTransformer.

(** The view of an object that the syncer is done with. *)
Definition done_with (k : string) (view : Unstructured) (subs : list string) : bool :=
  bool_decide (is_Some (DeletionTimestamp (u_meta view)))
  && negb (bool_decide (syncer_finalizer k ∈ GetFinalizers view))
  && bool_decide (subs = []).
Definition get_event (view : Unstructured) : tev :=
  EvGet (GetName view) (ResourceVersion (u_meta view)).

Lemma BeforeWrite_inv ctx gvr view subs h h' u' :
  BeforeWrite srt ctx gvr view subs h = (h', Ok u') ->
  exists k existing fs, ctx_SyncTargetKey ctx = Some k /\
    client_Get (h ++ [get_event view]) = inr existing /\
    ResourceVersion (u_meta existing) = ResourceVersion (u_meta view) /\
    fields_to_summarize srt gvr existing = inr fs /\
    if done_with k view subs
    then removed_from_syncer fs k existing (h ++ [get_event view]) = (h', Ok u')
    else keep fs k subs view existing = inr u' /\ h' = h ++ [get_event view].
Proof.
  unfold BeforeWrite, SyncTargetKeyFrom. destruct (SplitMetaClusterNamespaceKey _); [done|].
  destruct (ctx_SyncTargetKey ctx) as [k|]; [|done]. cbv zeta. intros H.
  apply bind_inv in H as (h1 & existing & Hget & H). unfold call in Hget.
  change (EvGet (GetName view) (ResourceVersion (u_meta view))) with (get_event view) in Hget.
  destruct (client_Get _) as [e|u] eqn:Eg; simpl in Hget; [done|]. simplify_eq.
  destruct (bool_decide _) eqn:Ev in H; [apply bool_decide_eq_true in Ev|done]. simpl in H.
  destruct (fields_to_summarize _ _ _) as [e|fs] eqn:Ef; [done|].
  exists k, existing, fs. do 4 (split; [done|]). unfold done_with.
  destruct (bool_decide (is_Some _) && _ && _); [done|].
  unfold lift in H. destruct (keep _ _ _ _ _) eqn:Ek; simplify_eq/=. done.
Qed.

(** Objects of the server without rules of their own. *)
Definition default_server : Prop := default_provider srt /\
  forall h u, client_Get h = inr u -> default_rules u.

Lemma views_not_rules u fs k :
  map_index (GetAnnotations (setSyncerViewFields u k fs)) ExperimentalSummarizingRulesAnnotation
  = map_index (GetAnnotations u) ExperimentalSummarizingRulesAnnotation.
Proof.
  unfold map_index. rewrite map_get_setSyncerViewFields, decide_False; [done|].
  intros E. pose proof (HasPrefix_app InternalSyncerViewAnnotationPrefix k) as H.
  unfold view_annotation in E. rewrite E in H. by vm_compute in H.
Qed.

(** A kept object has no rules either. *)
Lemma keep_default k subs view existing u' :
  default_rules existing -> keep [status_field] k subs view existing = inr u' -> default_rules u'.
Proof.
  unfold default_rules. intros Hd (syncing & u1 & u2 & _ & _ & _ & H1 & H2 & ->)%keep_inv.
  apply update_inv in H2 as (fs & u3 & out & _ & Hs & ->).
  unfold map_index. rewrite add_finalizer_annotations. fold (map_index
    (GetAnnotations (setSyncerViewFields u3 k (Some out))) ExperimentalSummarizingRulesAnnotation).
  rewrite views_not_rules.
  assert (GetAnnotations u3 = GetAnnotations u1) as ->.
  { apply summarize_status in Hs. by repeat (case_match || case_bool_decide); simplify_eq. }
  unfold before_unpromotion in H1.
  destruct (set_list _) as [|owner []]; [by simplify_eq| |by simplify_eq].
  destruct (decide _) in H1; [|by simplify_eq].
  apply unpromote_inv in H1 as [->|(m & v & _ & _ & _ & ->)]; [done|]. by rewrite views_not_rules.
Qed.

Lemma keep_own k subs view existing u' :
  (subs = ["status"] -> plain_status view) ->
  (subs <> ["status"] -> plain_status existing /\ plain_views existing) ->
  keep [status_field] k subs view existing = inr u' ->
  status_of_view k u' =
    if decide (subs = ["status"]) then u_content view !! "status" else status_of_view k existing.
Proof.
  intros Hv He (syncing & u1 & u2 & _ & _ & _ & H1 & H2 & ->)%keep_inv.
  rewrite add_finalizer_status.
  rewrite (update_own k subs syncing view u1 u2 Hv); [|intros Hs; destruct (He Hs)|done].
  - destruct (decide _) as [|Hs]; [done|]. destruct (He Hs).
    by destruct (before_unpromotion_status _ _ _ ltac:(eassumption) ltac:(eassumption) H1) as (_ & _ & _ & ->).
  - by destruct (before_unpromotion_status _ _ _ ltac:(eassumption) ltac:(eassumption) H1) as (_ & _ & Hp & _).
Qed.

Lemma keep_other k k' subs view existing u' :
  plain_status existing -> plain_views existing ->
  k <> k' -> is_Some (map_get (GetLabels existing) (state_label k')) ->
  keep [status_field] k subs view existing = inr u' ->
  u_content u' = u_content existing /\ status_of_view k' u' = status_of_view k' existing.
Proof.
  intros Hs Hv Hne Hl (syncing & u1 & u2 & Hi & Ha & _ & H1 & H2 & ->)%keep_inv.
  destruct (before_unpromotion_status _ _ _ Hs Hv H1) as (Hc & _ & _ & Hk).
  rewrite add_finalizer_content, add_finalizer_status.
  pose proof (several_intents _ _ _ _ Hi Ha Hne Hl) as Hsz.
  destruct (update_other k k' subs syncing view u1 u2 (or_introl Hsz) Hne H2) as [-> ->].
  by rewrite Hc, Hk.
Qed.
End before_write.

(** ** The metadata of a view *)

Section view_meta.
Context {MO : MapOrder} {UL : UnstructuredLib} {SE : StatusErrorLib} {URL : UrlLib} {CL : ClusterLib}.
Context {JP : JsonPatchLib}.
Variable srt : SyncerResourceTransformer.

(** The providers of the virtual workspace: no transformation, or spec diffs. *)
Definition spec_diff_provider : Prop :=
  match srt_TransformationProvider srt with
  | None => True
  | Some p => p = SpecDiffTransformationFor
  end.

Lemma transformed_meta k gvr u fs syncing view :
  spec_diff_provider -> transformed srt k gvr u fs syncing = inr view ->
  u_meta view = u_meta (cleaned u).
Proof.
  unfold spec_diff_provider, transformed, TransformationFor. intros Hp.
  destruct (srt_TransformationProvider srt) as [p|]; [subst p|by intros [= <-]].
  cbn [SpecDiffTransformationFor internal]. unfold ToSyncerView. rewrite NestedField_top by done.
  destruct (decide _); [by intros [= <-]|]. destruct (u_content (cleaned u) !! "spec"); [|by intros [= <-]].
  destruct (patched_spec _ _) as [e|spec]; [done|]. rewrite SetNestedField_top by done. by intros [= <-].
Qed.

Lemma override_meta u fs view view' :
  override_fields u fs [status_field] view = inr view' -> u_meta view' = u_meta view.
Proof.
  cbn [override_fields]. unfold override_field. rewrite status_Get, status_Delete. cbv zeta.
  destruct (index_field fs _) as [v|]; [|by intros [= <-]].
  destruct (_ && _); cbn [internal]; [destruct (u_content u !! "status")|];
    rewrite ?status_Set; cbn [internal]; by intros [= <-].
Qed.

Lemma set_list_singleton x : set_list {[ x ]} = [x].
Proof. unfold set_list. by rewrite elements_singleton. Qed.

(** The deletion timestamp the view of [k] shows. *)
Definition view_deletion (k : string) (syncing : gmap string SyncIntent) : option Time :=
  match syncing !! k with
  | Some {| si_DeletionTimestamp := Some t; si_Finalizers := "" |} =>
      if IsZero t then None else Some (t - t mod Second)%Z
  | _ => None
  end.

Lemma propagate_finalizer_nil k u v :
  GetFinalizers v = [] ->
  propagate_finalizer k u v = SetFinalizers v
    (if decide (syncer_finalizer k ∈ GetFinalizers u) then [syncer_finalizer k] else []).
Proof.
  intros H. unfold propagate_finalizer. rewrite H. destruct (decide _).
  - rewrite bool_decide_true by done. f_equal. unfold string_set. cbn [list_to_set].
    by rewrite (left_id_L ∅ (∪)), set_list_singleton.
  - rewrite bool_decide_false by done. destruct v as [[] ? ?]. cbn in H. by rewrite H.
Qed.
(** The metadata but for the deletion timestamp. *)
Lemma propagate_deletion_meta k syncing v :
  DeletionTimestamp (u_meta v) = None ->
  u_meta (propagate_deletion k syncing v) =
  {| Name := GetName v; Namespace := GetNamespace v; UID := UID (u_meta v);
     ResourceVersion := ResourceVersion (u_meta v); Labels := GetLabels v;
     Annotations := GetAnnotations v; Finalizers := GetFinalizers v;
     DeletionTimestamp := view_deletion k syncing;
     CreationTimestamp := CreationTimestamp (u_meta v);
     OwnerReferences := OwnerReferences (u_meta v) |}.
Proof.
  intros H. unfold propagate_deletion, view_deletion. destruct v as [[] ? ?]. cbn in H. subst.
  unfold SetDeletionTimestamp. repeat case_match; simplify_eq/=; try done; by case_match.
Qed.

Lemma map_get_view u url n :
  map_get (Some (match without_views (GetAnnotations u) with
                 | Some annotations => <[ InternalWorkspaceURLAnnotationKey := url ]> annotations
                 | None => {[ InternalWorkspaceURLAnnotationKey := url ]}
                 end)) n =
    if decide (n = InternalWorkspaceURLAnnotationKey) then Some url
    else if HasPrefix n InternalSyncerViewAnnotationPrefix then None
    else map_get (GetAnnotations u) n.
Proof.
  unfold map_get. destruct (GetAnnotations u) as [a|]; cbn [without_views fmap option_fmap option_map entries default];
    destruct (decide (n = _)) as [->|Hn].
  - apply lookup_insert_eq.
  - cbn. rewrite lookup_insert_ne by done. rewrite map_lookup_filter.
    destruct (a !! n); simpl; [|by destruct (HasPrefix n _)].
    unfold guard. destruct (HasPrefix n _) eqn:Hn'; by case_decide.
  - apply lookup_singleton_eq.
  - trans (None : option string); [by apply lookup_singleton_ne|]. cbn.
    rewrite lookup_empty. by destruct (HasPrefix n _).
Qed.

Lemma AfterRead_inv ctx gvr u view :
  default_provider srt -> default_rules u -> spec_diff_provider ->
  AfterRead srt ctx gvr u = inr view ->
  exists k syncing url,
    ctx_SyncTargetKey ctx = Some k /\ GetSyncIntents (u_meta u) = inr syncing /\
    JoinPath (ShardExternalURL srt) (RequestPath (u_meta u)) = inr url /\
    GetName view = GetName u /\ GetNamespace view = GetNamespace u /\
    ResourceVersion (u_meta view) = ResourceVersion (u_meta u) /\ GetLabels view = GetLabels u /\
    GetFinalizers view =
      (if decide (syncer_finalizer k ∈ GetFinalizers u) then [syncer_finalizer k] else []) /\
    DeletionTimestamp (u_meta view) = view_deletion k syncing /\
    forall n, map_get (GetAnnotations view) n =
      if decide (n = InternalWorkspaceURLAnnotationKey) then Some url
      else if HasPrefix n InternalSyncerViewAnnotationPrefix then None
      else map_get (GetAnnotations u) n.
Proof.
  intros Hp Hu Ht. unfold AfterRead, SyncTargetKeyFrom.
  destruct (ctx_SyncTargetKey ctx) as [k|]; [|done].
  destruct (GetSyncIntents (u_meta u)) as [e|syncing]; [done|].
  destruct (internal _ _) as [e|fs]; [done|].
  destruct (transformed _ _ _ _ _ _) as [e|v1] eqn:E1; [done|]. rewrite fields_default by done.
  destruct (override_fields _ _ _ _) as [e|v2] eqn:E2; [done|].
  destruct (JoinPath _ _) as [e|url] eqn:E3; [done|]. cbn [internal].
  apply transformed_meta in E1; [|done]. apply override_meta in E2. rewrite E1 in E2.
  destruct v2 as [m2 more content]. simpl in E2. subst m2. intros [= <-].
  rewrite propagate_finalizer_nil by done.
  unfold with_workspace_URL, GetAnnotations, GetName, GetNamespace, GetLabels, GetFinalizers.
  cbn [u_meta on_meta SetAnnotations]. rewrite propagate_deletion_meta by done.
  exists k, syncing, url. do 9 (split; [done|]). intros n. exact (map_get_view u url n).
Qed.
End view_meta.

(** ** The removal of a SyncTarget *)

Section removal.
Context {MO : MapOrder} {UL : UnstructuredLib} {SE : StatusErrorLib} {URL : UrlLib} {CL : ClusterLib}.
Context {RI : ResourceInterface}.

Lemma remove_labels k u n :
  map_get (GetLabels (remove_sync_target k u)) n =
    if decide (state_label k = n) then None else map_get (GetLabels u) n.
Proof.
  unfold remove_sync_target. destruct u as [[] ? ?]. cbn [GetLabels u_meta Platform.Labels].
  destruct Labels as [l|]; simpl.
  - destruct (bool_decide _), Annotations; simpl; unfold map_get; simpl; by rewrite lookup_delete.
  - destruct (bool_decide _), Annotations; simpl; unfold map_get; simpl;
      rewrite lookup_empty; by case_decide.
Qed.
Lemma remove_annotations k u n :
  map_get (GetAnnotations (remove_sync_target k u)) n =
    if decide (n = view_annotation k \/ n = deletion_annotation k \/
               n = ClusterSpecDiffAnnotationPrefix) then None
    else map_get (GetAnnotations u) n.
Proof.
  unfold remove_sync_target. destruct u as [[] ? ?]. cbn [GetLabels u_meta Platform.Labels].
  unfold map_get.
  destruct Annotations as [a|], Labels; simpl; case_bool_decide; simpl;
    rewrite ?lookup_delete, ?lookup_empty; repeat (case_decide; simpl); try done; naive_solver.
Qed.
Lemma remove_finalizers k u f :
  f ∈ GetFinalizers (remove_sync_target k u) <->
  f ∈ GetFinalizers u /\ f <> syncer_finalizer k.
Proof.
  unfold remove_sync_target. destruct u as [[] ? ?]. cbn [GetLabels u_meta Platform.Labels].
  assert (H : f ∈ set_list (string_set Finalizers ∖ {[ syncer_finalizer k ]}) <->
    f ∈ Finalizers /\ f <> syncer_finalizer k).
  { rewrite elem_of_set_list, elem_of_difference, elem_of_singleton. unfold string_set.
    by rewrite elem_of_list_to_set. }
  assert (H' : syncer_finalizer k ∉ string_set Finalizers ->
    f ∈ Finalizers <-> f ∈ Finalizers /\ f <> syncer_finalizer k).
  { unfold string_set. rewrite elem_of_list_to_set. intros Hn. split; [|by intros []].
    intros Hf. split; [done|]. by intros ->. }
  destruct Annotations as [a|], Labels; simpl; case_bool_decide; simpl; auto.
Qed.
Lemma remove_content k u : u_content (remove_sync_target k u) = u_content u.
Proof.
  unfold remove_sync_target. destruct u as [[] ? ?]. cbn [GetLabels u_meta Platform.Labels].
  destruct Annotations as [a|], Labels; simpl; by case_bool_decide.
Qed.

Lemma removed_inv fs k existing h h' u' :
  removed_from_syncer fs k existing h = (h', Ok u') ->
  exists base, u' = remove_sync_target k base /\
    ((base = existing /\ h' = h) \/
     (exists single status u1, promote fs single existing = inr (u1, status) /\ single <> k /\
       if (status : bool) then h' = h ++ [EvUpdateStatus u1] /\ client_UpdateStatus h' = inr base
       else base = u1 /\ h' = h)).
Proof.
  unfold removed_from_syncer. destruct (GetSyncIntents _) as [e|syncing]; [done|]. intros H.
  apply bind_inv in H as (h1 & base & Hb & H). injection H as -> <-. exists base. split; [done|].
  assert (Hk : k ∉ elements (dom (delete k syncing))).
  { rewrite elem_of_elements, dom_delete. set_solver. }
  destruct (elements _) as [|single []];
    [injection Hb as <- <-; by left| |injection Hb as <- <-; by left].
  destruct (_ && _); [|injection Hb as <- <-; by left]. apply bind_inv in Hb as (h2 & [u1 status] & Hp & Hb).
  unfold lift in Hp. destruct (promote fs single existing) as [e|r] eqn:E; simplify_eq/=.
  right. exists single, status, u1. split; [done|]. split; [by intros ->; apply Hk, list_elem_of_here|].
  destruct status; [|by injection Hb as <- <-]. unfold call in Hb.
  destruct (client_UpdateStatus _) as [e|v] eqn:Eu; simplify_eq/=. done.
Qed.

(** Nothing is promoted unless exactly one other SyncTarget remains. *)
Lemma removed_alone fs k existing h syncing :
  GetSyncIntents (u_meta existing) = inr syncing -> size (delete k syncing) <> 1 ->
  removed_from_syncer fs k existing h = (h, Ok (remove_sync_target k existing)).
Proof.
  intros Hi Hsz. unfold removed_from_syncer. rewrite Hi.
  destruct (elements (dom (delete k syncing))) as [|x [|y l]] eqn:E; [done| |done].
  destruct Hsz. rewrite <-size_dom. unfold size, set_size. simpl. by rewrite E.
Qed.
End removal.

(** A remaining SyncTarget whose annotation holds no status (its syncer has not
    written one yet) has the absent value promoted: the status of the upstream
    object becomes null, and is marked as promoted. *)
Lemma promote_missing_status `{!MapOrder, !UnstructuredLib, !StatusErrorLib} u k m :
  getSyncerViewFields u k = inr (Some m) -> m !! "status" = None ->
  promote [status_field] k u =
    inr (setSyncerViewFields (SetContent "status" JNull u) k
           (Some (<[ "status" := JString promotedToUpstream ]> m)), true).
Proof.
  intros Hm Hs. unfold promote. rewrite Hm. cbn [internal promote_fields pr_fields].
  change (Path status_field) with "status". rewrite Hs.
  change (CanPromoteToUpstream status_field) with true. cbn [negb orb default is_promoted].
  rewrite status_Set. cbn [internal]. by rewrite status_IsStatus.
Qed.

Section forward.
Context {MO : MapOrder} {UL : UnstructuredLib} {SE : StatusErrorLib} {URL : UrlLib} {CL : ClusterLib}.
Context {RI : ResourceInterface}.
Lemma BeforeWrite_removed srt ctx gvr view subs h k r existing fs :
  SplitMetaClusterNamespaceKey (APIDomainKey ctx) = inr r -> ctx_SyncTargetKey ctx = Some k ->
  client_Get (h ++ [get_event view]) = inr existing ->
  ResourceVersion (u_meta existing) = ResourceVersion (u_meta view) ->
  fields_to_summarize srt gvr existing = inr fs -> done_with k view subs = true ->
  BeforeWrite srt ctx gvr view subs h =
    removed_from_syncer fs k existing (h ++ [get_event view]).
Proof.
  intros Hr Hk Hg Hrv Hfs Hw. unfold BeforeWrite, SyncTargetKeyFrom. rewrite Hr, Hk. cbv zeta.
  fold (get_event view). rewrite (bind_ok _ _ h (h ++ [get_event view]) existing);
    [|unfold call; by rewrite Hg].
  rewrite bool_decide_true by done. simpl. rewrite Hfs. unfold done_with in Hw. by rewrite Hw.
Qed.
End forward.

(** An object whose deletion was requested and that nothing holds. *)
Lemma view_deletion_requested `{!MapOrder} u syncing k a t :
  GetSyncIntents (u_meta u) = inr syncing ->
  is_Some (map_get (GetLabels u) (state_label k)) ->
  map_get (GetAnnotations u) (deletion_annotation k) = Some a ->
  Parse_RFC3339 a = Some t -> IsZero t = false ->
  map_index (GetAnnotations u) (cluster_finalizer_annotation k) = "" ->
  view_deletion k syncing = Some (t - t mod Second)%Z.
Proof.
  intros Hi [v Hl] Ha Hpar Hz Hcf. pose proof (GetSyncIntents_intent _ _ k Hi) as Hint.
  change (Labels (u_meta u)) with (GetLabels u) in Hint. rewrite Hl in Hint.
  destruct Hint as (i & Hint & Hsk). unfold view_deletion. rewrite Hsk. revert Hint.
  unfold intent_of, UnmarshalText. change (Annotations (u_meta u)) with (GetAnnotations u).
  rewrite Ha, Hpar, Hcf. intros [= <-]. by rewrite Hz.
Qed.

Lemma released_finalizers k u : syncer_finalizer k ∉ GetFinalizers (released k u).
Proof.
  intros H. apply list_elem_of_In in H. change (GetFinalizers (released k u)) with
    (without_finalizer k (GetFinalizers u)) in H. apply filter_In in H as [_ H].
  unfold syncer_finalizer in H. by rewrite (bool_decide_true _ eq_refl) in H.
Qed.

(** ** What a write leaves of the metadata *)

Section marks.
Context {MO : MapOrder} {UL : UnstructuredLib} {SE : StatusErrorLib} {URL : UrlLib} {CL : ClusterLib}.

(** The metadata up to annotations, the one of the rules apart. *)
Definition only_annotated (u u' : Unstructured) : Prop :=
  GetName u' = GetName u /\ GetLabels u' = GetLabels u /\ GetFinalizers u' = GetFinalizers u /\
  map_index (GetAnnotations u') ExperimentalSummarizingRulesAnnotation
  = map_index (GetAnnotations u) ExperimentalSummarizingRulesAnnotation.
#[local] Instance only_annotated_preorder : PreOrder only_annotated.
Proof. split; [by intros u|]. intros u v w (H1 & H2 & H3 & H4) (? & ? & ? & ?). split_and!; congruence. Qed.

Lemma only_annotated_views u k fs : only_annotated u (setSyncerViewFields u k fs).
Proof. split_and!; [done..|]. apply views_not_rules. Qed.
Lemma before_unpromotion_marks syncing u u1 :
  before_unpromotion syncing [status_field] u = inr u1 -> only_annotated u u1.
Proof.
  unfold before_unpromotion. destruct (set_list _) as [|owner []]; [by intros [= <-]| |by intros [= <-]].
  destruct (decide _); [|by intros [= <-]].
  intros [->|(m & v & _ & _ & _ & ->)]%unpromote_inv; [done|apply only_annotated_views].
Qed.
Lemma update_marks k subs syncing view u u2 :
  update_fields [status_field] k subs syncing view u = inr u2 -> only_annotated u u2.
Proof.
  intros (fs & u3 & out & _ & Hs & ->)%update_inv. trans u3; [|apply only_annotated_views].
  apply summarize_status in Hs. by repeat (case_match || case_bool_decide); simplify_eq.
Qed.
Lemma promote_marks k u u1 status :
  promote [status_field] k u = inr (u1, status) -> only_annotated u u1.
Proof.
  unfold promote. destruct (getSyncerViewFields u k) as [e|[m|]]; cbn [internal]; [done| |by intros [= <- _]].
  cbn [promote_fields pr_fields pr_object pr_promoted]. destruct (_ || _); [by intros [= <- _]|].
  rewrite status_Set. cbn [internal pr_promoted pr_object]. intros [= <- _].
  trans (SetContent "status" (default JNull (m !! Path status_field)) u); [done|apply only_annotated_views].
Qed.

(** A write that keeps the object adds at most the writer's finalizer. *)
Lemma keep_marks k subs view existing u' :
  keep [status_field] k subs view existing = inr u' ->
  exists u2, only_annotated existing u2 /\ u' = add_finalizer (syncer_finalizers existing) k u2 /\
    syncer_finalizer k ∈ GetFinalizers u' /\
    (forall f, f ∈ GetFinalizers existing -> f ∈ GetFinalizers u').
Proof.
  intros (syncing & u1 & u2 & _ & _ & _ & H1 & H2 & ->)%keep_inv. exists u2.
  assert (Hm : only_annotated existing u2).
  { trans u1; [by eapply before_unpromotion_marks|by eapply update_marks]. }
  split; [done|]. split; [done|]. destruct Hm as (_ & _ & E & _).
  unfold add_finalizer, syncer_finalizers, string_set. case_bool_decide as Hin.
  - rewrite E. apply elem_of_list_to_set, list_elem_of_In, filter_In in Hin as [Hin _].
    split; [by apply list_elem_of_In|done].
  - cbn [SetFinalizers on_meta GetFinalizers u_meta with_finalizers Platform.Finalizers].
    split; intros; rewrite elem_of_set_list, elem_of_list_to_set; setoid_rewrite E; apply elem_of_app; [right|by left].
    by apply list_elem_of_singleton.
Qed.
End marks.

(** * What the transformer promises *)

Section theorems.
Context {MO : MapOrder} {UL : UnstructuredLib} {SE : StatusErrorLib} {URL : UrlLib} {CL : ClusterLib}.
Context {RI : ResourceInterface} {JP : JsonPatchLib}.
Variable srt : SyncerResourceTransformer.

(** C12: the status that a syncer writes through the virtual workspace is the status
    it reads back there, whether it is promoted to the object (one SyncTarget)
    or kept in the annotation (several). *)
Theorem status_write_then_read ctx ctx' gvr view view' u' h h' :
  default_server srt -> plain_status view ->
  ctx_SyncTargetKey ctx' = ctx_SyncTargetKey ctx ->
  BeforeWrite srt ctx gvr view ["status"] h = (h', Ok u') ->
  AfterRead srt ctx' gvr u' = inr view' ->
  u_content view' !! "status" = u_content view !! "status".
Proof.
  intros [Hp Hd] Hv Hk (k & existing & fs & Hck & Hg & _ & Hfs & H)%BeforeWrite_inv Hr.
  specialize (Hd _ _ Hg). rewrite fields_default in Hfs by done. injection Hfs as <-.
  assert (Hw : done_with k view ["status"] = false) by (unfold done_with; by rewrite andb_false_r).
  rewrite Hw in H. destruct H as [H _].
  rewrite (AfterRead_status srt ctx' gvr k u' view' Hp); [|by eapply keep_default|congruence|done].
  by rewrite (keep_own k ["status"] view existing u' ltac:(auto) ltac:(done) H).
Qed.


(** C14: an update is accepted only at the object's current version, and only from a
    syncer that is assigned the object and claims it with its finalizer, or that
    reports it gone; the object then has the finalizer too and the only call was
    the read. *)
Theorem accepted_writes ctx gvr view subs u' h h' :
  default_server srt ->
  BeforeWrite srt ctx gvr view subs h = (h', Ok u') ->
  exists k existing, ctx_SyncTargetKey ctx = Some k /\
    client_Get (h ++ [get_event view]) = inr existing /\
    ResourceVersion (u_meta existing) = ResourceVersion (u_meta view) /\
    (done_with k view subs = true \/
     (map_get (GetLabels existing) (state_label k) = Some "Sync" /\
      syncer_finalizer k ∈ GetFinalizers view /\ syncer_finalizer k ∈ GetFinalizers u' /\
      (forall f, f ∈ GetFinalizers existing -> f ∈ GetFinalizers u') /\
      h' = h ++ [get_event view])).
Proof.
  intros [Hp Hd] (k & existing & fs & Hk & Hg & Hrv & Hfs & H)%BeforeWrite_inv.
  specialize (Hd _ _ Hg). rewrite fields_default in Hfs by done. injection Hfs as <-.
  exists k, existing. do 3 (split; [done|]). destruct (done_with k view subs); [by left|right].
  destruct H as [Hkeep ->]. pose proof Hkeep as (u2 & _ & _ & Hown & Hall)%keep_marks.
  apply keep_inv in Hkeep as (syncing & _ & _ & Hi & Ha & Hf & _).
  apply bool_decide_eq_true in Ha. rewrite (GetSyncIntents_state _ _ k Hi) in Ha. done.
Qed.

(** When a syncer reports an object gone, the object loses every key of that
    SyncTarget but one: its state label, its deletion and view annotations and
    its finalizer go, whoever remains; with no single SyncTarget left to promote,
    nothing else changes. The spec-diff annotation of the SyncTarget survives:
    the code deletes the prefix, not the key. *)
Theorem removal_forgets_the_sync_target ctx gvr view u' k h h' :
  ctx_SyncTargetKey ctx = Some k -> done_with k view [] = true ->
  BeforeWrite srt ctx gvr view [] h = (h', Ok u') ->
  map_get (GetLabels u') (state_label k) = None /\
  map_get (GetAnnotations u') (deletion_annotation k) = None /\
  map_get (GetAnnotations u') (view_annotation k) = None /\
  (syncer_finalizer k ∉ GetFinalizers u') /\
  forall existing syncing, client_Get (h ++ [get_event view]) = inr existing ->
    GetSyncIntents (u_meta existing) = inr syncing -> size (delete k syncing) <> 1 ->
    h' = h ++ [get_event view] /\ u_content u' = u_content existing /\
    (forall n, n <> state_label k -> map_get (GetLabels u') n = map_get (GetLabels existing) n) /\
    (forall f, f <> syncer_finalizer k -> (f ∈ GetFinalizers u' <-> f ∈ GetFinalizers existing)) /\
    (k <> "" -> map_get (GetAnnotations u') (ClusterSpecDiffAnnotationPrefix +:+ k)
                = map_get (GetAnnotations existing) (ClusterSpecDiffAnnotationPrefix +:+ k)).
Proof.
  intros Hk Hw (k2 & existing & fs & Hk2 & Hg & _ & _ & H)%BeforeWrite_inv.
  rewrite Hk in Hk2. injection Hk2 as <-. rewrite Hw in H.
  pose proof H as (base & -> & _)%removed_inv.
  split_and!.
  - by rewrite remove_labels, decide_True.
  - by rewrite remove_annotations, decide_True by auto.
  - by rewrite remove_annotations, decide_True by auto.
  - by intros []%remove_finalizers.
  - intros e2 syncing Hg2 Hi Hsz. rewrite Hg in Hg2. injection Hg2 as <-.
    rewrite (removed_alone fs k existing _ syncing Hi Hsz) in H.
    assert (E : h ++ [get_event view] = h' /\
      remove_sync_target k existing = remove_sync_target k base) by (split; congruence).
    destruct E as [<- <-]. rewrite remove_content. split_and!; try done.
    + intros n Hn. by rewrite remove_labels, decide_False.
    + intros f Hf. rewrite remove_finalizers. tauto.
    + intros Hne. rewrite remove_annotations, decide_False; [done|].
      intros [E|[E|E]]; [done|done|].
      rewrite <-(string_app_nil ClusterSpecDiffAnnotationPrefix) in E at 2.
      by apply (inj (String.append _)) in E.
Qed.

End theorems.

(** * Examples *)

Module Examples.
(** Fields of the content, at any depth; the metadata is out of reach. *)
Fixpoint nested_get (j : json) (path : list string) : result (option json) :=
  match path with
  | [] => inr (Some j)
  | k :: path =>
      match j with
      | JNull => inr None
      | JObject l => match map_of_members l !! k with
                     | Some v => nested_get v path
                     | None => inr None
                     end
      | _ => inl (ErrMsg "accessor error")
      end
  end.
Fixpoint nested_set (j : json) (path : list string) (v : json) : result json :=
  match path with
  | [] => inr v
  | k :: path =>
      match j with
      | JObject l =>
          let m := map_of_members l in
          match nested_set (default (JObject []) (m !! k)) path v with
          | inl e => inl e
          | inr w => inr (json_of_map (<[ k := w ]> m))
          end
      | _ => inl (ErrMsg "value cannot be set")
      end
  end.
Fixpoint nested_remove (j : json) (path : list string) : json :=
  match path, j with
  | [k], JObject l => json_of_map (delete k (map_of_members l))
  | k :: path, JObject l =>
      let m := map_of_members l in
      match m !! k with
      | Some w => json_of_map (<[ k := nested_remove w path ]> m)
      | None => j
      end
  | _, _ => j
  end.
Definition get_field (u : Unstructured) (p : list string) : result (option json) :=
  match p with
  | [] => inr None
  | k :: p =>
      if decide (k = "metadata") then inl (ErrMsg "metadata")
      else match u_content u !! k with Some j => nested_get j p | None => inr None end
  end.
Definition set_field (u : Unstructured) (v : json) (p : list string) : result Unstructured :=
  match p with
  | [] => inl (ErrMsg "no field")
  | k :: p =>
      if decide (k = "metadata") then inl (ErrMsg "metadata")
      else match nested_set (default (JObject []) (u_content u !! k)) p v with
           | inl e => inl e
           | inr w => inr (SetContent k w u)
           end
  end.
Definition remove_field (u : Unstructured) (p : list string) : Unstructured :=
  match p with
  | [] => u
  | k :: p =>
      if decide (k = "metadata") then u
      else match p with
           | [] => {| u_meta := u_meta u; u_more := u_more u; u_content := delete k (u_content u) |}
           | _ => match u_content u !! k with
                  | Some j => SetContent k (nested_remove j p) u
                  | None => u
                  end
           end
  end.
Program Definition simple_unstructured : UnstructuredLib := {|
  NestedField := get_field; SetNestedField := set_field; RemoveNestedField := remove_field |}.
Next Obligation. intros u k H. unfold get_field. rewrite decide_False by done. by destruct (_ !! k). Qed.
Next Obligation. intros u v k H. unfold set_field. by rewrite decide_False by done. Qed.
Next Obligation. intros u k H. unfold remove_field. by rewrite decide_False by done. Qed.

Definition simple_status_errors : StatusErrorLib := {|
  NewConflict gr n e := ErrLib "Conflict" n;
  NewInternalError e := ErrWrap "Internal error occurred" e |}.
Definition simple_urls : UrlLib := {|
  JoinPath base p := inr (base +:+ p);
  RequestPath o := "/clusters/" +:+ map_index (Annotations o) "kcp.io/cluster" |}.
Definition no_patch : JsonPatchLib := {| DecodePatch p := inr (fun s => inr s) |}.

(** A server that holds one object, and takes any status. *)
Definition holds (o : Unstructured) : ResourceInterface := {|
  client_Get _ := inr o;
  client_UpdateStatus h := match last h with
                           | Some (EvUpdateStatus u) => inr u
                           | _ => inl (ErrMsg "no update")
                           end |}.

Definition default_srt : SyncerResourceTransformer := {|
  ShardExternalURL := "https://kcp"; srt_TransformationProvider := None;
  srt_SummarizingRulesProvider := None |}.
Definition ctx_of (k : string) : Context :=
  {| APIDomainKey := "root:org|st"; ctx_SyncTargetKey := Some k |}.
Definition deployments : GroupVersionResource :=
  {| gvr_Group := "apps"; gvr_Version := "v1"; gvr_Resource := "deployments" |}.
Definition object (l a : gmap string string) (f : list string) (d : option Time)
    (status : option json) : Unstructured := {|
  u_meta := {| Name := "web"; Namespace := "ns"; UID := "u1"; ResourceVersion := "7";
               Labels := Some l; Annotations := Some a; Finalizers := f;
               DeletionTimestamp := d; CreationTimestamp := ZeroTime; OwnerReferences := [] |};
  u_more := ∅;
  u_content := match status with Some s => {[ "status" := s ]} | None => ∅ end |}.
Definition ready (n : string) : json := JObject [("ready", JNumber n)].

#[local] Existing Instances canonical_order simple_unstructured simple_status_errors simple_urls
  simple_clusters no_patch simple_errors.

(** The object and the view that an answer holds. *)
Definition result_or (d : Unstructured) (r : result Unstructured) : Unstructured :=
  match r with inr u => u | inl _ => d end.
Definition res_or (d : Unstructured) (r : res Unstructured) : Unstructured :=
  match r with Ok u => u | _ => d end.

Lemma plain_ready l a f d n :
  is_number n && forallb number_char (String.list_ascii_of_string n) = true ->
  plain_status (object l a f d (Some (ready n))).
Proof.
  intros Hn v. cbn [object u_content]. rewrite lookup_singleton_eq. intros [= <-].
  split; [|done]. split; [by vm_compute| |by vm_compute].
  unfold ready. cbn [ascii_json forallb]. by rewrite Hn.
Qed.

(** One SyncTarget. *)
Definition one : Unstructured :=
  object {[ state_label "k1" := "Sync" ]} ∅ [syncer_finalizer "k1"] None None.
Definition one_view : Unstructured :=
  object {[ state_label "k1" := "Sync" ]} ∅ [syncer_finalizer "k1"] None (Some (ready "3")).
Definition one_written : Unstructured :=
  res_or one (BeforeWrite (RI := holds one) default_srt (ctx_of "k1") deployments one_view ["status"] []).2.
Definition one_read : Unstructured :=
  result_or one (AfterRead default_srt (ctx_of "k1") deployments one_written).

Lemma status_write_then_read_witness :
  u_content one_read !! "status" = Some (ready "3").
Proof.
  rewrite (status_write_then_read (RI := holds one) default_srt (ctx_of "k1") (ctx_of "k1") deployments
    one_view one_read one_written [] [get_event one_view]).
  - reflexivity.
  - split; [exact I|]. intros h u [= <-]. reflexivity.
  - apply plain_ready. reflexivity.
  - reflexivity.
  - vm_compute. reflexivity.
  - vm_compute. reflexivity.
Defined.

(** A second SyncTarget takes the object: the status is moved back to the
    annotation of the first, which sees no difference. *)
Definition marker : string := marshal_map (Some {[ "status" := JString promotedToUpstream ]}).
Definition two : Unstructured :=
  object {[ state_label "k1" := "Sync"; state_label "k2" := "Sync" ]}
    {[ view_annotation "k1" := marker ]} [syncer_finalizer "k1"] None (Some (ready "3")).
Definition second_view : Unstructured :=
  object {[ state_label "k1" := "Sync"; state_label "k2" := "Sync" ]} ∅ [syncer_finalizer "k2"] None None.
Definition two_written : Unstructured :=
  res_or two (BeforeWrite (RI := holds two) default_srt (ctx_of "k2") deployments second_view [] []).2.
Definition read_as (k : string) (u : Unstructured) : Unstructured :=
  result_or u (AfterRead default_srt (ctx_of k) deployments u).

Lemma plain_views_two : plain_views two.
Proof.
  intros k m. rewrite getSyncerViewFields_lookup.
  destruct (decide (k = "k1")) as [->|Hne].
  - assert (E : map_get (GetAnnotations two) (view_annotation "k1") = Some marker) by reflexivity.
    rewrite E. unfold marker. rewrite unmarshal_marshal.
    + intros [= <-]. apply plain_map_insert; [apply plain_map_empty|by vm_compute|apply plain_marker].
    + apply plain_map_insert; [apply plain_map_empty|by vm_compute|apply plain_marker].
  - assert (E : map_get (GetAnnotations two) (view_annotation k) = None).
    { unfold map_get. apply lookup_singleton_ne. by intros ?%(inj (String.append _)). }
    by rewrite E.
Qed.


Lemma accepted_writes_witness :
  syncer_finalizer "k2" ∈ GetFinalizers two_written.
Proof.
  assert (Hd : default_server (RI := holds two) default_srt).
  { split; [exact I|]. intros h u [= <-]. reflexivity. }
  assert (Hb : BeforeWrite (RI := holds two) default_srt (ctx_of "k2") deployments second_view [] []
    = ([get_event second_view], Ok two_written)) by (vm_compute; reflexivity).
  destruct (accepted_writes (RI := holds two) default_srt _ _ _ _ _ _ _ Hd Hb)
    as (k & existing & Hk & Hg & Hrv & [Hw|(Hl & Hv & Hf & Hr & Hh)]).
  - injection Hk as <-. vm_compute in Hw. discriminate Hw.
  - injection Hk as <-. exact Hf.
Defined.

(** The end of the SyncTarget: its deletion was requested, the syncer releases
    its view. *)
Definition leaving : Unstructured :=
  object {[ state_label "k1" := "Sync" ]}
    {[ deletion_annotation "k1" := "1970-01-01T00:00:01Z";
       ClusterSpecDiffAnnotationPrefix +:+ "k1" := "[]" ]} [syncer_finalizer "k1"] None None.
Definition leaving_view : Unstructured := released "k1" (read_as "k1" leaving).
Definition left_object : Unstructured :=
  res_or one (BeforeWrite (RI := holds leaving) default_srt (ctx_of "k1") deployments leaving_view [] []).2.

Lemma removal_forgets_the_sync_target_witness :
  map_get (GetLabels left_object) (state_label "k1") = None /\
  map_get (GetAnnotations left_object) (ClusterSpecDiffAnnotationPrefix +:+ "k1") = Some "[]".
Proof.
  destruct (removal_forgets_the_sync_target (RI := holds leaving) default_srt (ctx_of "k1") deployments
    leaving_view left_object "k1" [] [get_event leaving_view]) as (Hl & _ & _ & _ & H).
  - reflexivity.
  - vm_compute. reflexivity.
  - vm_compute. reflexivity.
  - split; [exact Hl|].
    destruct (GetSyncIntents (u_meta leaving)) as [e|m] eqn:Em; [vm_compute in Em; discriminate Em|].
    assert (Hsz : size (delete "k1" m) <> 1).
    { vm_compute in Em. injection Em as <-. vm_compute. discriminate. }
    destruct (H leaving m eq_refl Em Hsz) as (_ & _ & _ & _ & E).
    assert (Hl' : map_get (GetAnnotations leaving) (ClusterSpecDiffAnnotationPrefix +:+ "k1")
      = Some "[]") by (vm_compute; reflexivity).
    assert (Hne : "k1" <> "") by discriminate.
    exact (eq_trans (E Hne) Hl').
Defined.

(** The syncer's caches hold the view. *)
Definition syncer_world : World := {|
  api_write _ := inr tt; api_get _ := inl (ErrMsg "unused"); getShardAccess _ _ := inr true;
  downstream_Informers _ := (∅, []); upstream_Informers _ _ := (∅, []);
  upstream_Get _ _ _ _ _ := inr (read_as "k1" leaving);
  downstream_Get _ _ _ _ := inl (ErrMsg "unused"); downstream_Namespaces _ := inr [] |}.
End Examples.
