(* ===== verification/Coordination.v ===== *)
(** * Coordination of deployments ([tmc/coordination],
    [pkg/reconciler/coordination/deployment])

    A deployment that is synced to several SyncTargets is shared out among them:
    the upstream view becomes a spec-diff annotation per SyncTarget, with its
    share of the replicas, and the statuses of the syncer views are summed up in
    the status of the deployment. *)

From S2P Require Import Prelude Platform GoTime ApiTypes SyncIntent Committer Workqueue Json JsonValue.
From stdpp Require Import pretty.
Local Open Scope Z_scope.

(** ** Views of an object ([helpers.go]) *)

Section views.
Context {MO : MapOrder}.

(** The loops that copy a part of the annotations into a new map. *)
Definition select (keep : string -> bool) (annotations : gomap) : gmap string string :=
  foldl (fun m kv => if keep kv.1 then <[ kv.1 := kv.2 ]> m else m) ∅
    (map_range (entries annotations)).
Definition is_view (name : string) : bool := HasPrefix name InternalSyncerViewAnnotationPrefix.

Definition FilteredSyncerViewsChanged (old new : ObjectMeta) (keepSyncTarget : string -> bool)
    : bool :=
  let views (o : ObjectMeta) := select (fun name => is_view name &&
    keepSyncTarget (TrimPrefix name InternalSyncerViewAnnotationPrefix)) (Annotations o) in
  negb (bool_decide (views old = views new)).
Definition AnySyncerViewChanged (old new : ObjectMeta) : bool :=
  FilteredSyncerViewsChanged old new (fun _ => true).
Definition SyncerViewChanged (old new : ObjectMeta) (syncTargetKey : string) : bool :=
  FilteredSyncerViewsChanged old new (fun key => bool_decide (syncTargetKey = key)).

(** The two loops differ: the second has lost its negation. *)
Definition UpstreamViewChanged {T} (meta : T -> ObjectMeta) (set_meta : T -> ObjectMeta -> T)
    (old new : T) (equality : T -> T -> bool) : bool :=
  let oldAnnotations := select (fun name => negb (is_view name)) (Annotations (meta old)) in
  let newAnnotations := select is_view (Annotations (meta new)) in
  negb (equality (set_meta old (with_annotations (meta old) (Some oldAnnotations)))
                 (set_meta new (with_annotations (meta new) (Some newAnnotations)))).
End views.

(** [type SyncerViewRetriever interface]: what the controller uses of it. *)
Class SyncerViewRetriever (T : Type) := {
  GetFilteredSyncerViews : GroupVersionResource -> T -> (string -> bool) ->
    result (gmap string T);
  GetAllSyncerViews (gvr : GroupVersionResource) (upstreamResource : T) :=
    GetFilteredSyncerViews gvr upstreamResource (fun _ => true);
}.

(** ** Deployments *)

(** [int32] addition wraps. *)
Definition wrap32 (z : Z) : Z := (z + 2 ^ 31) mod 2 ^ 32 - 2 ^ 31.
Definition int32 (z : Z) : Prop := - 2 ^ 31 <= z < 2 ^ 31.

(** [appsv1.DeploymentCondition], [appsv1.DeploymentStatus], [appsv1.Deployment]. *)
Record DeploymentCondition := {
  dc_Type : string;
  dc_Status : string;
  dc_LastUpdateTime : Time;
  dc_LastTransitionTime : Time;
  dc_Reason : string;
  dc_Message : string;
}.
#[global] Instance DeploymentCondition_eq_dec : EqDecision DeploymentCondition.
Proof. solve_decision. Defined.
Record DeploymentStatus := {
  ObservedGeneration : Z;
  Replicas : Z;
  UpdatedReplicas : Z;
  ReadyReplicas : Z;
  AvailableReplicas : Z;
  UnavailableReplicas : Z;
  dst_Conditions : list DeploymentCondition;
  CollisionCount : option Z;
}.
#[global] Instance DeploymentStatus_eq_dec : EqDecision DeploymentStatus.
Proof. solve_decision. Defined.
Record Deployment := {
  d_Meta : ObjectMeta;
  d_Replicas : option Z;
  d_Status : DeploymentStatus;
}.
Definition emptyStatus : DeploymentStatus := {|
  ObservedGeneration := 0; Replicas := 0; UpdatedReplicas := 0; ReadyReplicas := 0;
  AvailableReplicas := 0; UnavailableReplicas := 0; dst_Conditions := []; CollisionCount := None |}.
Definition set_d_meta (d : Deployment) (m : ObjectMeta) : Deployment :=
  {| d_Meta := m; d_Replicas := d_Replicas d; d_Status := d_Status d |}.

(** [filter] of this package, on the annotations, and [deploymentContentsEqual]. *)
Definition without_spec_diffs `{!MapOrder} (a : gomap) : gmap string string :=
  select (fun key => negb (HasPrefix key ClusterSpecDiffAnnotationPrefix)) a.
Definition deploymentContentsEqual `{!MapOrder} (old new : Deployment) : bool :=
  bool_decide (entries (Labels (d_Meta old)) = entries (Labels (d_Meta new))) &&
  bool_decide (without_spec_diffs (Annotations (d_Meta old))
               = without_spec_diffs (Annotations (d_Meta new))) &&
  bool_decide (d_Replicas old = d_Replicas new).

(** ** The event handlers ([NewController]) *)

Inductive view := UpstreamView | SyncerView.
Inductive handler_event :=
  | EvQueue (v : view) (key : string)
  | EvKeyError (e : error).
Section handlers.
Context {MO : MapOrder} {CL : ClusterLib}.
Definition enqueue (obj : Deployment) (v : view) : M handler_event unit :=
  match MetaClusterNamespaceKeyFunc (d_Meta obj) with
  | inl err => emit (EvKeyError err)
  | inr key => emit (EvQueue v key)
  end.
Definition AddFunc (obj : Deployment) : M handler_event unit :=
  enqueue obj UpstreamView;; enqueue obj SyncerView.
Definition UpdateFunc (old new : Deployment) : M handler_event unit :=
  (if AnySyncerViewChanged (d_Meta old) (d_Meta new) then enqueue new SyncerView else mret tt);;
  (if UpstreamViewChanged d_Meta set_d_meta old new deploymentContentsEqual
   then enqueue new UpstreamView else mret tt).
End handlers.

(** ** The controller *)

(** [fmt.Sprintf] of the patch that replaces the replicas. *)
Definition replicas_patch (n : Z) : string :=
  "[{ " +:+ quoted "op" +:+ ": " +:+ quoted "replace" +:+ ", " +:+ quoted "path" +:+ ": "
  +:+ quoted "/replicas" +:+ ", " +:+ quoted "value" +:+ ": " +:+ pretty n +:+ " }]".

(** The SyncTargets to share among, and the share of the [index]-th of them;
    Go's division truncates. *)
Definition syncer_views `{!MapOrder} (syncIntents : gmap string SyncIntent) : gset string :=
  foldl (fun s kv =>
    if bool_decide (si_ResourceState kv.2 = ResourceStateSync)
       && bool_decide (si_DeletionTimestamp kv.2 = None)
    then {[ kv.1 ]} ∪ s else s) ∅ (map_range syncIntents).
Definition share (replicas n : Z) (index : nat) : Z :=
  let replicasEach := Z.quot replicas n in
  let rest := Z.rem replicas n in
  if decide (index = 0%nat) then replicasEach + rest else replicasEach.
Definition spec_diff_annotation (k : string) : string := ClusterSpecDiffAnnotationPrefix +:+ k.
Definition new_spec_diffs (replicas : Z) (syncerViews : gset string) : gmap string string :=
  list_to_map (imap (fun index syncTargetKey =>
    (spec_diff_annotation syncTargetKey,
     replicas_patch (share replicas (Z.of_nat (size syncerViews)) index))) (set_list syncerViews)).
Definition updated_annotations (newSpecDiffAnnotation : gmap string string) (a : gomap) : gomap :=
  let kept := filter (fun kv => negb (bool_decide (newSpecDiffAnnotation !! kv.1 = None)
                && HasPrefix kv.1 ClusterSpecDiffAnnotationPrefix) = true) (entries a) in
  Some (newSpecDiffAnnotation ∪ kept).

(** The upstream view of a deployment, or a dereference of a nil pointer. *)
Definition upstream_update `{!MapOrder} (syncIntents : gmap string SyncIntent) (d : Deployment)
    : res ObjectMeta :=
  let syncerViews := syncer_views syncIntents in
  newSpecDiffAnnotation ←
    (if decide (syncerViews = ∅) then Ok ∅
     else match d_Replicas d with
          | None => Panic "invalid memory address or nil pointer dereference"
          | Some replicas => Ok (new_spec_diffs replicas syncerViews)
          end);
  mret (with_annotations (d_Meta d)
          (updated_annotations newSpecDiffAnnotation (Annotations (d_Meta d)))).

(** The summary of the syncer views. *)
Definition add_status (s v : DeploymentStatus) : DeploymentStatus := {|
  ObservedGeneration := ObservedGeneration s;
  Replicas := wrap32 (Replicas s + Replicas v);
  UpdatedReplicas := wrap32 (UpdatedReplicas s + UpdatedReplicas v);
  ReadyReplicas := wrap32 (ReadyReplicas s + ReadyReplicas v);
  AvailableReplicas := wrap32 (AvailableReplicas s + AvailableReplicas v);
  UnavailableReplicas := wrap32 (UnavailableReplicas s + UnavailableReplicas v);
  dst_Conditions := dst_Conditions s;
  CollisionCount := CollisionCount s |}.
Definition consolidate (consolidatedConditions : gmap string DeploymentCondition)
    (condition : DeploymentCondition) : gmap string DeploymentCondition :=
  match consolidatedConditions !! dc_Type condition with
  | None => <[ dc_Type condition := condition ]> consolidatedConditions
  | Some consolidated =>
      if bool_decide (dc_Status consolidated = "Unknown")
         || bool_decide (dc_Status consolidated = "False")
            && bool_decide (dc_Status condition = "True")
      then <[ dc_Type condition := condition ]> consolidatedConditions
      else consolidatedConditions
  end.
Definition add_view (x : DeploymentStatus * gmap string DeploymentCondition)
    (kv : string * Deployment) : DeploymentStatus * gmap string DeploymentCondition :=
  let status := d_Status kv.2 in
  if decide (status = emptyStatus) then x
  else (add_status x.1 status, foldl consolidate x.2 (dst_Conditions status)).
Definition with_conditions (s : DeploymentStatus) (l : list DeploymentCondition)
    : DeploymentStatus := {|
  ObservedGeneration := ObservedGeneration s; Replicas := Replicas s;
  UpdatedReplicas := UpdatedReplicas s; ReadyReplicas := ReadyReplicas s;
  AvailableReplicas := AvailableReplicas s; UnavailableReplicas := UnavailableReplicas s;
  dst_Conditions := l; CollisionCount := CollisionCount s |}.
Definition sorted_conditions (m : gmap string DeploymentCondition) : list DeploymentCondition :=
  omap (fun t => m !! t) (set_list (dom m)).
Definition summarize `{!MapOrder} (syncerViews : gmap string Deployment) : DeploymentStatus :=
  let x := foldl add_view (emptyStatus, ∅) (map_range syncerViews) in
  with_conditions x.1 (sorted_conditions x.2).

(** The patch calls of the committer. *)
Record patch_call := { pc_Cluster : string; pc_Namespace : string; pc_Name : string; pc_Patch : string }.
Abbreviation Ev := (event patch_call) (only parsing).
Definition deploymentsGVR : GroupVersionResource :=
  {| gvr_Group := "apps"; gvr_Version := "v1"; gvr_Resource := "deployments" |}.

Section controller.
Context {MO : MapOrder} {EL : ErrorLib} {CL : ClusterLib} {VR : SyncerViewRetriever Deployment}.
Context {DS : DeepEq (option DeploymentStatus)} {DU : DeepEq unit}.
(** [json.Marshal], [jsonpatch.CreateMergePatch], the lister and the server. *)
Variable Marshal : Resource unit (option DeploymentStatus) -> result string.
Variable CreateMergePatch : string -> string -> result string.
Variable getDeployment : string -> string -> string -> result Deployment.
Variable api_patch : list Ev -> result unit.

(** [committer(clusterName, namespace)]: neither pass sets the spec. *)
Definition commit (clusterName namespace : string)
    (old obj : Resource unit (option DeploymentStatus)) : M Ev unit :=
  NewCommitterScoped tt None Marshal CreateMergePatch
    (fun name patchBytes => call (EvCall {| pc_Cluster := clusterName; pc_Namespace := namespace;
                                            pc_Name := name; pc_Patch := patchBytes |}) api_patch)
    old obj.

Definition with_deployment (key : string) (f : string -> string -> Deployment -> M Ev unit)
    : M Ev bool :=
  match SplitMetaClusterNamespaceKey key with
  | inl _ => mret false
  | inr (clusterName, namespace, name) =>
      deployment ← read (getDeployment clusterName namespace name);
      f clusterName namespace deployment;;
      mret false
  end.
Definition processUpstreamView (key : string) : M Ev bool :=
  with_deployment key (fun clusterName namespace deployment =>
    syncIntents ← read (GetSyncIntents (d_Meta deployment));
    updated ← lift (upstream_update syncIntents deployment);
    commit clusterName namespace (mkResource (d_Meta deployment) tt None)
      (mkResource updated tt None)).
Definition processSyncerView (key : string) : M Ev bool :=
  with_deployment key (fun clusterName namespace deployment =>
    syncerViews ← read (GetAllSyncerViews deploymentsGVR deployment);
    commit clusterName namespace (mkResource (d_Meta deployment) tt (Some (d_Status deployment)))
      (mkResource (d_Meta deployment) tt (Some (summarize syncerViews)))).

(** The two workers; nothing is ever requeued without an error. *)
Definition processNextUpstreamView (key : string) : M Ev unit :=
  processNextWorkItem processUpstreamView key.
Definition processNextSyncerView (key : string) : M Ev unit :=
  processNextWorkItem processSyncerView key.
End controller.

(** * Lemmas *)

Section lemmas.
Context {MO : MapOrder}.

Lemma select_lookup keep a k :
  select keep a !! k = if keep k then map_get a k else None.
Proof.
  unfold select, map_get. 
  cut (forall (l : list (string * string)) m, NoDup l.*1 ->
    (foldl (fun m kv => if keep kv.1 then <[ kv.1 := kv.2 ]> m else m) m l : gmap string string) !! k =
      match (list_to_map l : gmap string string) !! k with
      | Some v => if keep k then Some v else m !! k
      | None => m !! k
      end).
  { intros H. rewrite H, lookup_empty by apply NoDup_map_range.
    assert (list_to_map (map_range (entries a)) = entries a) as ->.
    { rewrite <-(list_to_map_to_list (entries a)) at 2. apply list_to_map_proper.
      - apply NoDup_map_range.
      - apply map_range_perm. }
    destruct (entries a !! k); by destruct (keep k). }
  induction l as [|[n v] l IH]; intros m Hl; simpl; [by rewrite lookup_empty|].
  apply NoDup_cons in Hl as [Hn Hl]. rewrite IH by done.
  destruct (decide (n = k)) as [->|Hne].
  - rewrite lookup_insert_eq. rewrite not_elem_of_list_to_map_1 by done.
    destruct (keep k); [apply lookup_insert_eq|done].
  - rewrite lookup_insert_ne by done.
    assert (((if keep n then <[ n := v ]> m else m) : gmap string string) !! k = m !! k) as ->.
    { destruct (keep n); [by apply lookup_insert_ne|done]. }
    done.
Qed.

Lemma elem_of_syncer_views syncIntents k :
  k ∈ syncer_views syncIntents <->
  exists i, syncIntents !! k = Some i /\ si_ResourceState i = ResourceStateSync /\
    si_DeletionTimestamp i = None.
Proof.
  unfold syncer_views.
  cut (forall l s, k ∈ foldl (fun (s : gset string) (kv : string * SyncIntent) =>
    if bool_decide (si_ResourceState kv.2 = ResourceStateSync)
       && bool_decide (si_DeletionTimestamp kv.2 = None) then {[ kv.1 ]} ∪ s else s) s l <->
    k ∈ s \/ exists i, (k, i) ∈ l /\ si_ResourceState i = ResourceStateSync /\
      si_DeletionTimestamp i = None).
  { intros H. rewrite H. setoid_rewrite elem_of_map_range. split; [|by right].
    intros [Hk|Hk]; [by apply elem_of_empty in Hk|done]. }
  induction l as [|[n i] l IH]; intros s; simpl.
  { split; [by left|]. intros [Hs|(i & Hi%elem_of_nil & _)]; done. }
  rewrite IH. setoid_rewrite elem_of_cons. destruct (_ && _) eqn:E.
  - apply andb_prop in E as [E1%bool_decide_eq_true E2%bool_decide_eq_true].
    rewrite elem_of_union, elem_of_singleton. split.
    + intros [[->|Hs]|(j & Hj & Hp)]; [right; by exists i; eauto|by left|right; by exists j; eauto].
    + intros [Hs|(j & [[= -> ->]|Hj] & Hp)]; [by left; right|by left; left|right; by exists j].
  - split; [intros [Hs|(j & Hj & Hp)]; [by left|right; by exists j; eauto]|].
    intros [Hs|(j & [[= -> ->]|Hj] & Hp1 & Hp2)]; [by left| |right; by exists j].
    rewrite !bool_decide_true in E by done. done.
Qed.

(** *** The shares *)

Definition shares (replicas : Z) (n : nat) : list Z :=
  imap (fun i _ => share replicas (Z.of_nat n) i) (replicate n tt).
End lemmas.

Section share_lemmas.
Context {MO : MapOrder}.

Definition total (l : list Z) : Z := foldr Z.add 0 l.

Lemma total_const (q : Z) (l : list string) :
  total (imap (fun _ _ => q) l) = Z.of_nat (length l) * q.
Proof.
  induction l as [|x l IH]; [done|].
  change (total (imap (fun _ _ => q) (x :: l))) with (q + total (imap (fun _ _ => q) l)).
  rewrite IH. cbn [length]. lia.
Qed.

(** The first share takes the rest of the division, the others are equal. *)
Lemma total_shares r (l : list string) :
  l <> [] -> total (imap (fun i _ => share r (Z.of_nat (length l)) i) l) = r.
Proof.
  destruct l as [|x l]; [done|]. intros _. set (n := Z.of_nat (length (x :: l))).
  change (total (imap (fun i _ => share r n i) (x :: l))) with
    (share r n 0 + total (imap (fun _ _ => Z.quot r n) l)).
  rewrite total_const. unfold share. rewrite decide_True by done.
  assert (Hn : n = Z.of_nat (length l) + 1) by (unfold n; simpl; lia).
  pose proof (Z.quot_rem' r n). nia.
Qed.

Lemma share_bounds r n i :
  0 < n -> 0 <= r ->
  0 <= share r n i <= r /\ Z.quot r n <= share r n i < Z.quot r n + n.
Proof.
  intros Hn Hr. unfold share.
  pose proof (Z.quot_rem' r n). pose proof (Z.rem_bound_pos r n Hr Hn).
  pose proof (Z.quot_pos r n Hr Hn). case_decide; nia.
Qed.
Lemma share_int32 r n i : 0 < n -> int32 r -> int32 (share r n i).
Proof.
  intros Hn Hr. unfold int32 in *. destruct (Z_le_gt_dec 0 r).
  - pose proof (share_bounds r n i Hn ltac:(lia)). lia.
  - assert (H : share (- r) n i = - share r n i).
    { unfold share. rewrite Z.quot_opp_l, Z.rem_opp_l by lia. case_decide; lia. }
    pose proof (share_bounds (- r) n i Hn ltac:(lia)). lia.
Qed.

#[export] Instance spec_diff_inj : Inj (=) (=) spec_diff_annotation.
Proof. intros x y. apply (inj (String.append _)). Qed.

Lemma new_spec_diffs_fst r s :
  (imap (fun i k => (spec_diff_annotation k,
     replicas_patch (share r (Z.of_nat (size s)) i))) (set_list s)).*1 = spec_diff_annotation <$> set_list s.
Proof. rewrite fmap_imap. simpl. apply list_eq. intros i. by rewrite list_lookup_imap, list_lookup_fmap. Qed.

Lemma new_spec_diffs_lookup r s k :
  new_spec_diffs r s !! k =
    match list_find (fun x => k = spec_diff_annotation x) (set_list s) with
    | Some (i, _) => Some (replicas_patch (share r (Z.of_nat (size s)) i))
    | None => None
    end.
Proof.
  unfold new_spec_diffs. destruct (list_find _ _) as [[i x]|] eqn:E.
  - apply list_find_Some in E as (Hi & -> & _). apply elem_of_list_to_map_1.
    + rewrite new_spec_diffs_fst. apply NoDup_fmap_2; [apply _|apply NoDup_set_list].
    + apply list_elem_of_lookup. exists i. by rewrite list_lookup_imap, Hi.
  - apply list_find_None in E. apply not_elem_of_list_to_map_1. rewrite new_spec_diffs_fst.
    intros (x & -> & Hx)%list_elem_of_fmap. rewrite Forall_forall in E. by apply (E x).
Qed.

Lemma updated_lookup new a n :
  (forall k, is_Some (new !! k) -> HasPrefix k ClusterSpecDiffAnnotationPrefix = true) ->
  map_get (updated_annotations new a) n =
    if HasPrefix n ClusterSpecDiffAnnotationPrefix then new !! n else map_get a n.
Proof.
  intros Hnew. unfold updated_annotations, map_get, entries at 1. cbn [from_option id].
  rewrite lookup_union, map_lookup_filter. destruct (new !! n) as [v|] eqn:E.
  - rewrite (Hnew n) by eauto. destruct (entries a !! n); simpl; [|done]. unfold guard.
    case_decide; done.
  - rewrite (left_id_L None (∪)). destruct (entries a !! n) as [v|] eqn:Ev; cbn [mbind option_bind];
      [|by destruct (HasPrefix n _)].
    unfold guard. cbn [fst]. rewrite (bool_decide_true (new !! n = None)) by done.
    rewrite andb_true_l. case_decide as Hd; destruct (HasPrefix n _); by cbn in Hd |- *.
Qed.
End share_lemmas.

(** *** The upstream pass *)

Section upstream.
Context {MO : MapOrder}.

(** The shares, by SyncTarget. *)
Definition allotment (replicas : Z) (s : gset string) : list (string * Z) :=
  imap (fun i k => (k, share replicas (Z.of_nat (size s)) i)) (set_list s).

Lemma length_set_list (s : gset string) : length (set_list s) = size s.
Proof. unfold set_list, size, set_size. simpl. by rewrite merge_sort_Permutation. Qed.
Lemma allotment_fst r s : (allotment r s).*1 = set_list s.
Proof.
  unfold allotment. rewrite fmap_imap. apply list_eq. intros i. rewrite list_lookup_imap. simpl.
  by destruct (set_list s !! i).
Qed.
Lemma allotment_snd r s :
  (allotment r s).*2 = imap (fun i _ => share r (Z.of_nat (length (set_list s))) i) (set_list s).
Proof.
  unfold allotment. rewrite fmap_imap, length_set_list. apply list_eq. intros i.
  by rewrite !list_lookup_imap.
Qed.

Lemma new_spec_diffs_prefix r s k :
  is_Some (new_spec_diffs r s !! k) -> HasPrefix k ClusterSpecDiffAnnotationPrefix = true.
Proof.
  rewrite new_spec_diffs_lookup. destruct (list_find _ _) as [[i x]|] eqn:E; [|by intros []].
  apply list_find_Some in E as (_ & -> & _). intros _. apply HasPrefix_app.
Qed.
Lemma new_spec_diffs_allotment r s k n :
  (k, n) ∈ allotment r s ->
  new_spec_diffs r s !! spec_diff_annotation k = Some (replicas_patch n).
Proof.
  intros (i & Hi)%list_elem_of_lookup. unfold allotment in Hi. rewrite list_lookup_imap in Hi.
  destruct (set_list s !! i) as [x|] eqn:E; [|done]. injection Hi as <- <-.
  apply elem_of_list_to_map_1.
  - rewrite new_spec_diffs_fst. apply NoDup_fmap_2; [apply _|apply NoDup_set_list].
  - apply list_elem_of_lookup. exists i. by rewrite list_lookup_imap, E.
Qed.
Lemma new_spec_diffs_none r s k :
  k ∉ s -> new_spec_diffs r s !! spec_diff_annotation k = None.
Proof.
  intros Hk. rewrite new_spec_diffs_lookup. destruct (list_find _ _) as [[i x]|] eqn:E; [|done].
  apply list_find_Some in E as (Hi & Hx & _). apply (inj _) in Hx as ->.
  by apply list_elem_of_lookup_2, elem_of_set_list in Hi.
Qed.

(** The annotations do not matter to the intents, but for the deletion and
    finalizer annotations. *)
Lemma sync_intents_loop_ext a a' l m :
  (forall k, map_get a (deletion_annotation k) = map_get a' (deletion_annotation k)) ->
  (forall k, map_get a (cluster_finalizer_annotation k) = map_get a' (cluster_finalizer_annotation k)) ->
  sync_intents_loop a l m = sync_intents_loop a' l m.
Proof.
  intros Hd Hf. revert m. induction l as [|[n v] l IH]; intros m; simpl; [done|].
  destruct (HasPrefix n _); [|apply IH].
  assert (intent_of a (TrimPrefix n ClusterResourceStateLabelPrefix) v
    = intent_of a' (TrimPrefix n ClusterResourceStateLabelPrefix) v) as ->.
  { unfold intent_of, map_index. by rewrite Hd, Hf. }
  destruct (intent_of a' _ v); [done|apply IH].
Qed.

Lemma upstream_update_inv si d m :
  upstream_update si d = Ok m ->
  exists new, m = with_annotations (d_Meta d) (updated_annotations new (Annotations (d_Meta d))) /\
    (forall k, is_Some (new !! k) -> HasPrefix k ClusterSpecDiffAnnotationPrefix = true) /\
    ((syncer_views si = ∅ /\ new = ∅) \/
     (syncer_views si <> ∅ /\ exists r, d_Replicas d = Some r /\ new = new_spec_diffs r (syncer_views si))).
Proof.
  unfold upstream_update. destruct (decide (syncer_views si = ∅)) as [E|E].
  - simpl. intros [= <-]. exists ∅. split; [done|]. split; [|by left].
    intros k [v Hv]. by rewrite lookup_empty in Hv.
  - destruct (d_Replicas d) as [r|]; simpl; [|done]. intros [= <-].
    eexists. split; [done|]. split; [apply new_spec_diffs_prefix|]. right. eauto.
Qed.

(** A second pass changes nothing. *)
Lemma updated_annotations_again new a :
  (forall k, is_Some (new !! k) -> HasPrefix k ClusterSpecDiffAnnotationPrefix = true) ->
  updated_annotations new (updated_annotations new a) = updated_annotations new a.
Proof.
  intros Hnew. unfold updated_annotations at 1 3. f_equal. apply map_eq. intros n.
  pose proof (updated_lookup new a n Hnew) as H1.
  pose proof (updated_lookup new (updated_annotations new a) n Hnew) as H2.
  rewrite H1 in H2. unfold map_get, updated_annotations at 1, entries at 1 in H2.
  unfold map_get, updated_annotations at 1, entries at 1 in H1. cbn [from_option id] in H1, H2.
  rewrite H1, H2. by destruct (HasPrefix n _).
Qed.
End upstream.

(** The spec-diff annotation is a JSON patch that replaces the replicas. *)
Section patch_text.
Local Open Scope N_scope.
Lemma parse_replicas_patch n :
  parse (replicas_patch n) = inr (JArray [JObject
    [("op", JString "replace"); ("path", JString "/replicas"); ("value", JNumber (pretty n))]]).
Proof.
  pose proof (pretty_number n) as [Hn Hc].
  assert (Hread : forall f d, read_value (S f) d (String " " (pretty n +:+ " }]"))
    = Read (JNumber (pretty n)) " }]").
  { intros f d.
    assert (H : ascii_json (JNumber (pretty n)) = true) by (cbn [ascii_json]; by rewrite Hn, Hc).
    pose proof (read_print_value (JNumber (pretty n)) (S f) d " }]" H) as E.
    cbn [json_fuel json_depth print] in E. apply E; [done|lia|lia]. }
  unfold replicas_patch. revert Hread. generalize (pretty n). clear. intros p Hread.
  set (v3 := String " " (p +:+ " }]")) in *.
  set (m3 := quote "value" +:+ String ":" v3).
  set (v2 := String " " (quote "/replicas" +:+ String "," (String " " m3))).
  set (m2 := quote "path" +:+ String ":" v2).
  set (v1 := String " " (quote "replace" +:+ String "," (String " " m2))).
  set (m1 := quote "op" +:+ String ":" v1).
  assert (Hm : forall f d, read_members (4 + f)%nat d (String " " m1) = Read
    [("op", JString "replace"); ("path", JString "/replicas"); ("value", JNumber p)] "]").
  { intros f d.
    eapply (read_members_more (3 + f)); [reflexivity|reflexivity|reflexivity
      |by apply (read_value_string (2 + f) d v1 "replace")|reflexivity|].
    eapply (read_members_more (2 + f)); [reflexivity|reflexivity|reflexivity
      |by apply (read_value_string (1 + f) d v2 "/replicas")|reflexivity|].
    eapply (read_members_last (1 + f)); [reflexivity|reflexivity|reflexivity|apply Hread|reflexivity]. }
  change ("[{ " +:+ _) with (String "[" (String "{" (String " " m1))).
  unfold parse, parse_with.
  assert (exists f, parse_fuel (String "[" (String "{" (String " " m1))) = (7 + f)%nat) as [f ->].
  { exists (parse_fuel (String "[" (String "{" (String " " m1))) - 7)%nat. unfold parse_fuel. simpl. lia. }
  assert (Ho : read_value (5 + f) (max_depth - 2 + 1) (String "{" (String " " m1)) = Read
    (JObject [("op", JString "replace"); ("path", JString "/replicas"); ("value", JNumber p)]) "]").
  { eapply read_value_object; [reflexivity|apply Hm]. }
  assert (Ha := read_value_singleton (5 + f) _ (String "{" (String " " m1)) "{" (String " " m1) _ "]" ""
    eq_refl ltac:(done) Ho eq_refl).
  change (max_depth - 2 + 1 + 1) with max_depth in Ha. change (7 + f)%nat with (S (S (5 + f))).
  by rewrite Ha.
Qed.
End patch_text.

(** *** The summary *)

Section summary.
Context {MO : MapOrder}.

Lemma wrap32_add a b : wrap32 (wrap32 a + b) = wrap32 (a + b).
Proof.
  unfold wrap32.
  replace ((a + 2 ^ 31) mod 2 ^ 32 - 2 ^ 31 + b + 2 ^ 31)
    with ((a + 2 ^ 31) mod 2 ^ 32 + b) by lia.
  rewrite Z.add_mod_idemp_l by lia. f_equal. f_equal. lia.
Qed.
Lemma wrap32_small z : int32 z -> wrap32 z = z.
Proof. unfold int32, wrap32. intros H. rewrite Z.mod_small; lia. Qed.
Lemma wrap32_range z : int32 (wrap32 z).
Proof. unfold int32, wrap32. pose proof (Z.mod_pos_bound (z + 2 ^ 31) (2 ^ 32)). lia. Qed.

(** A counter of the summary is the sum of the views' counters, up to overflow. *)
Definition counters : list (DeploymentStatus -> Z) :=
  [Replicas; UpdatedReplicas; ReadyReplicas; AvailableReplicas; UnavailableReplicas].
Definition view_statuses (views : gmap string Deployment) : list DeploymentStatus :=
  (d_Status ∘ snd) <$> map_to_list views.

Lemma total_perm l l' : l ≡ₚ l' -> total l = total l'.
Proof. induction 1; simpl; lia. Qed.

Lemma add_view_counter f x kv :
  f ∈ counters -> f (add_view x kv).1 = wrap32 (f x.1 + f (d_Status kv.2)) \/
    (f (add_view x kv).1 = f x.1 /\ f (d_Status kv.2) = 0).
Proof.
  unfold counters, add_view. rewrite !elem_of_cons, elem_of_nil.
  intros Hf. destruct (decide (d_Status kv.2 = emptyStatus)) as [->|]; [right|left];
    naive_solver.
Qed.
Lemma summed f l x :
  f ∈ counters -> int32 (f x.1) ->
  f (foldl add_view x l).1 = wrap32 (f x.1 + total ((f ∘ d_Status ∘ snd) <$> l)).
Proof.
  intros Hf. revert x. induction l as [|kv l IH]; intros x Hx; simpl.
  { by rewrite Z.add_0_r, wrap32_small. }
  destruct (add_view_counter f x kv Hf) as [E|[E E0]].
  - rewrite IH, E, wrap32_add by (rewrite E; apply wrap32_range). by rewrite Z.add_assoc.
  - rewrite IH, E by (by rewrite E). by rewrite E0.
Qed.
Lemma summarize_counter f views :
  f ∈ counters -> f (summarize views) = wrap32 (total (f <$> view_statuses views)).
Proof.
  intros Hf. unfold summarize.
  assert (Hc : forall s l, f (with_conditions s l) = f s).
  { unfold counters in Hf. rewrite !elem_of_cons, elem_of_nil in Hf. naive_solver. }
  assert (H0 : f emptyStatus = 0).
  { unfold counters in Hf. rewrite !elem_of_cons, elem_of_nil in Hf. naive_solver. }
  rewrite Hc, summed; [|done|simpl; rewrite H0; unfold int32; lia]. cbn [fst]. rewrite H0.
  f_equal. unfold view_statuses. rewrite <-list_fmap_compose. simpl.
  apply total_perm. by rewrite (map_range_perm _ views).
Qed.

(** Conditions: True before False before Unknown. *)
Definition rank (status : string) : Z :=
  if decide (status = "True") then 2 else if decide (status = "False") then 1 else 0.
Definition valid_status (c : DeploymentCondition) : Prop :=
  dc_Status c = "True" \/ dc_Status c = "False" \/ dc_Status c = "Unknown".
Definition best_of (t : string) (l : list DeploymentCondition) (c : DeploymentCondition) : Prop :=
  c ∈ l /\ dc_Type c = t /\
  forall c', c' ∈ l -> dc_Type c' = t -> rank (dc_Status c') <= rank (dc_Status c).
Definition consolidates (l : list DeploymentCondition) (m : gmap string DeploymentCondition) : Prop :=
  forall t, match m !! t with
            | Some c => best_of t l c
            | None => forall c, c ∈ l -> dc_Type c <> t
            end.

Lemma consolidate_step l m c :
  valid_status c -> Forall valid_status l -> consolidates l m ->
  consolidates (l ++ [c]) (consolidate m c).
Proof.
  intros Hc Hl Hm t. unfold consolidate.
  assert (Hother : dc_Type c <> t -> forall m' : gmap string DeploymentCondition, m' !! t = m !! t ->
    match m' !! t with Some c0 => best_of t (l ++ [c]) c0
    | None => forall c0, c0 ∈ l ++ [c] -> dc_Type c0 <> t end).
  { intros Hne m' ->. specialize (Hm t). destruct (m !! t) as [d|].
    - destruct Hm as (H1 & H2 & H3). split; [apply elem_of_app; by left|]. split; [done|].
      intros c' [Hin| ->%list_elem_of_singleton]%elem_of_app Ht; [by apply H3|done].
    - intros c' [Hin| ->%list_elem_of_singleton]%elem_of_app; [by apply Hm|done]. }
  destruct (decide (dc_Type c = t)) as [<-|Hne].
  2:{ apply Hother; [done|]. destruct (m !! dc_Type c); [case_match; [by apply lookup_insert_ne|done]|].
      by apply lookup_insert_ne. }
  specialize (Hm (dc_Type c)). destruct (m !! dc_Type c) as [d|] eqn:E.
  - destruct Hm as (H1 & H2 & H3).
    assert (Hd : valid_status d) by (rewrite Forall_forall in Hl; by apply Hl).
    destruct (_ || _) eqn:Er.
    + rewrite lookup_insert_eq. split; [apply elem_of_app; right; by apply list_elem_of_singleton|].
      split; [done|]. assert (Hr : rank (dc_Status d) <= rank (dc_Status c)).
      { apply orb_prop in Er as [->%bool_decide_eq_true|
          [->%bool_decide_eq_true ->%bool_decide_eq_true]%andb_prop]; [|done].
        destruct Hc as [->|[->| ->]]; done. }
      intros c' [Hin| ->%list_elem_of_singleton]%elem_of_app Ht; [|lia].
      specialize (H3 _ Hin Ht). lia.
    + rewrite E. split; [apply elem_of_app; by left|]. split; [done|].
      assert (Hr : rank (dc_Status c) <= rank (dc_Status d)).
      { destruct Hd as [Hd|[Hd|Hd]], Hc as [Hc|[Hc|Hc]]; rewrite Hd, Hc in *; done. }
      intros c' [Hin| ->%list_elem_of_singleton]%elem_of_app Ht; [by apply H3|done].
  - rewrite lookup_insert_eq. split; [apply elem_of_app; right; by apply list_elem_of_singleton|].
    split; [done|]. intros c' [Hin| ->%list_elem_of_singleton]%elem_of_app Ht; [|lia].
    by destruct (Hm _ Hin).
Qed.
Lemma consolidate_all l l0 m :
  Forall valid_status (l0 ++ l) -> consolidates l0 m -> consolidates (l0 ++ l) (foldl consolidate m l).
Proof.
  revert l0 m. induction l as [|c l IH]; intros l0 m Hl Hm; simpl; [by rewrite app_nil_r|].
  rewrite cons_middle, app_assoc. apply IH.
  - by rewrite <-app_assoc.
  - apply Forall_app in Hl as [H1 H2]. apply Forall_cons in H2 as [H2 _]. by apply consolidate_step.
Qed.
End summary.

Section summary_conditions.
Context {MO : MapOrder}.

Definition all_conditions (views : gmap string Deployment) : list DeploymentCondition :=
  view_statuses views ≫= dst_Conditions.

Lemma add_views_conditions l x :
  (foldl add_view x l).2 = foldl consolidate x.2 ((d_Status ∘ snd <$> l) ≫= dst_Conditions).
Proof.
  revert x. induction l as [|kv l IH]; intros x; [done|]. cbn [foldl fmap list_fmap mbind list_bind].
  rewrite IH, foldl_app. f_equal. unfold add_view. cbn [compose].
  destruct (decide (d_Status kv.2 = emptyStatus)) as [->|]; done.
Qed.
Lemma best_of_perm t l l' c : l ≡ₚ l' -> best_of t l c -> best_of t l' c.
Proof.
  intros Hp (H1 & H2 & H3). split; [by rewrite <-Hp|]. split; [done|].
  intros c' Hc'. rewrite <-Hp in Hc'. by apply H3.
Qed.
Lemma consolidates_perm l l' m : l ≡ₚ l' -> consolidates l m -> consolidates l' m.
Proof.
  intros Hp Hm t. specialize (Hm t). destruct (m !! t); [by eapply best_of_perm|].
  intros c Hc. rewrite <-Hp in Hc. by apply Hm.
Qed.

Lemma sorted_conditions_types l m :
  consolidates l m -> dc_Type <$> sorted_conditions m = set_list (list_to_set (dc_Type <$> l)).
Proof.
  intros Hm.
  assert (dom m = list_to_set (dc_Type <$> l)) as <-.
  { apply set_eq. intros t. rewrite elem_of_dom, elem_of_list_to_set, list_elem_of_fmap.
    specialize (Hm t). split.
    - intros [c E]. rewrite E in Hm. destruct Hm as (H1 & H2 & _). by exists c.
    - intros (c & -> & Hc). destruct (m !! dc_Type c); [by eexists|]. by destruct (Hm c Hc). }
  unfold sorted_conditions.
  assert (Hl : forall k, k ∈ set_list (dom m) -> is_Some (m !! k)).
  { intros k Hk. by apply elem_of_dom, elem_of_set_list. }
  revert Hl. generalize (set_list (dom m)). induction l0 as [|k ks IH]; intros Hl; [done|].
  cbn [omap list_omap]. destruct (Hl k (list_elem_of_here _ _)) as [c E]. rewrite E.
  cbn [fmap list_fmap]. rewrite IH by (intros j Hj; by apply Hl, list_elem_of_further).
  f_equal. specialize (Hm k). rewrite E in Hm. apply Hm.
Qed.

Lemma summarize_consolidates views :
  Forall valid_status (all_conditions views) ->
  consolidates (all_conditions views) (foldl add_view (emptyStatus, ∅) (map_range views)).2.
Proof.
  intros Hv. rewrite add_views_conditions. cbn [snd].
  assert (Hp : (d_Status ∘ snd <$> map_range views) ≫= dst_Conditions ≡ₚ all_conditions views).
  { unfold all_conditions, view_statuses. by rewrite (map_range_perm _ views). }
  eapply consolidates_perm; [exact Hp|]. apply (consolidate_all _ []).
  - by rewrite Hp.
  - intros t. rewrite lookup_empty. by intros c Hc%elem_of_nil.
Qed.
End summary_conditions.

(** * What the controller promises *)

Section theorems.
Context {MO : MapOrder}.


(** The summarised status does not depend on the order in which the views are
    visited, but for which of two equal conditions is kept: the counters are the
    sums, modulo 2^32; there is one condition per type that some view has, in the
    order of the types, and it is a condition of a view whose status is the best
    of all (True before False before Unknown). *)
Theorem summary_spec views :
  Forall valid_status (all_conditions views) ->
  (forall f, f ∈ counters ->
     f (summarize views) = wrap32 (total (f <$> view_statuses views))) /\
  dc_Type <$> dst_Conditions (summarize views)
    = set_list (list_to_set (dc_Type <$> all_conditions views)) /\
  forall c, c ∈ dst_Conditions (summarize views) ->
    best_of (dc_Type c) (all_conditions views) c.
Proof.
  intros Hv. pose proof (summarize_consolidates views Hv) as Hm. split.
  - intros f Hf. by apply summarize_counter.
  - split; [by apply sorted_conditions_types|].
    intros c Hc. unfold summarize in Hc. cbn [with_conditions dst_Conditions] in Hc.
    unfold sorted_conditions in Hc. apply list_elem_of_omap in Hc as (t & _ & Ht).
    specialize (Hm t). rewrite Ht in Hm. by destruct Hm as (H1 & <- & H3).
Qed.
End theorems.

Section passes.
Context {MO : MapOrder} {EL : ErrorLib} {CL : ClusterLib}.
Context {DS : DeepEq (option DeploymentStatus)} {DU : DeepEq unit}.
Variable Marshal : Resource unit (option DeploymentStatus) -> result string.
Variable CreateMergePatch : string -> string -> result string.
Variable getDeployment : string -> string -> string -> result Deployment.
Variable api_patch : list Ev -> result unit.

Lemma intents_after_update si d m :
  GetSyncIntents (d_Meta d) = inr si -> upstream_update si d = Ok m -> GetSyncIntents m = inr si.
Proof.
  intros Hsi (new & -> & Hnew & _)%upstream_update_inv. rewrite <-Hsi. unfold GetSyncIntents.
  cbn [with_annotations Labels Annotations]. apply sync_intents_loop_ext; intros k;
    by rewrite updated_lookup by done.
Qed.
Lemma update_after_update si d m :
  upstream_update si d = Ok m -> upstream_update si (set_d_meta d m) = Ok m.
Proof.
  intros (new & -> & Hnew & Hcase)%upstream_update_inv. unfold upstream_update. cbn [set_d_meta d_Replicas d_Meta].
  assert (Hagain : with_annotations (with_annotations (d_Meta d) (updated_annotations new (Annotations (d_Meta d))))
      (updated_annotations new (updated_annotations new (Annotations (d_Meta d)))) =
    with_annotations (d_Meta d) (updated_annotations new (Annotations (d_Meta d)))).
  { by rewrite updated_annotations_again. }
  destruct Hcase as [[E ->]|(E & r & Hr & ->)].
  - rewrite decide_True by done. simpl. f_equal. exact Hagain.
  - rewrite decide_False by done. rewrite Hr. simpl. f_equal. exact Hagain.
Qed.
Lemma commit_unchanged cluster ns (r : Resource unit (option DeploymentStatus)) h :
  commit Marshal CreateMergePatch api_patch cluster ns r r h = (h, Ok tt).
Proof.
  unfold commit, NewCommitterScoped, withPatchAndSubResources, generatePatchAndSubResources,
    specChanged, objectMetaChanged, statusChanged.
  by rewrite !deep_equal_refl.
Qed.

(** The upstream pass converges in one step: on the deployment as it left it, a
    second pass sends nothing. *)
Theorem upstream_pass_converges key cluster ns name si d m h :
  SplitMetaClusterNamespaceKey key = inr (cluster, ns, name) ->
  GetSyncIntents (d_Meta d) = inr si -> upstream_update si d = Ok m ->
  getDeployment cluster ns name = inr (set_d_meta d m) ->
  processUpstreamView Marshal CreateMergePatch getDeployment api_patch key h = (h, Ok false).
Proof.
  intros Hkey Hsi Hm Hget. unfold processUpstreamView, with_deployment. rewrite Hkey, Hget.
  unfold read, mbind, M_bind, lift. cbn [of_result set_d_meta d_Meta].
  rewrite (intents_after_update si d m Hsi Hm). cbn [of_result].
  change {| d_Meta := m; d_Replicas := d_Replicas d; d_Status := d_Status d |} with (set_d_meta d m).
  rewrite (update_after_update si d m Hm). by rewrite commit_unchanged.
Qed.

(** A deployment that is gone is not dropped: its key is retried for ever. *)
Lemma deployment_gone_is_retried key cluster ns name err h :
  SplitMetaClusterNamespaceKey key = inr (cluster, ns, name) ->
  getDeployment cluster ns name = inl err ->
  processNextUpstreamView Marshal CreateMergePatch getDeployment api_patch key h =
    (h ++ [EvHandleError (ErrWrap "controller failed to sync" err); EvAddRateLimited key; EvDone key],
     Ok tt).
Proof.
  intros Hkey Hget. unfold processNextUpstreamView. rewrite processNextWorkItem_run.
  unfold processUpstreamView, with_deployment. by rewrite Hkey, Hget.
Qed.

Lemma select_empty keep a : select keep a = ∅ <-> forall n, keep n = true -> map_get a n = None.
Proof.
  split.
  - intros E n Hn. pose proof (select_lookup keep a n) as H. by rewrite Hn, E, lookup_empty in H.
  - intros H. apply map_eq. intros n. rewrite select_lookup, lookup_empty.
    destruct (keep n) eqn:Hn; [by apply H|done].
Qed.

(** The test whether the upstream view changed compares the annotations of the
    old object that are not syncer views with those of the new object that are:
    an unchanged deployment with any other annotation of its own always counts
    as changed, and when the old one had none, no annotation that a new one has
    (a requested deletion, say) is ever noticed. *)
Theorem upstream_change_inverted :
  (forall d n, is_view n = false -> HasPrefix n ClusterSpecDiffAnnotationPrefix = false ->
     is_Some (map_get (Annotations (d_Meta d)) n) ->
     UpstreamViewChanged d_Meta set_d_meta d d deploymentContentsEqual = true) /\
  (forall d d', (forall n, is_view n = false -> map_get (Annotations (d_Meta d)) n = None) ->
     (forall n, is_view n = true -> map_get (Annotations (d_Meta d')) n = None) ->
     entries (Labels (d_Meta d)) = entries (Labels (d_Meta d')) -> d_Replicas d = d_Replicas d' ->
     UpstreamViewChanged d_Meta set_d_meta d d' deploymentContentsEqual = false).
Proof.
  assert (Hsel : forall p (m : gmap string string) n, select p (Some m) !! n = if p n then m !! n else None).
  { intros p m n. apply (select_lookup p (Some m)). }
  split.
  - intros d n Hv Hs [v Hn]. unfold UpstreamViewChanged. apply negb_true_iff.
    unfold deploymentContentsEqual, without_spec_diffs. cbn [set_d_meta d_Meta with_annotations Labels Annotations].
    rewrite (bool_decide_true (entries _ = entries _)) by done. apply andb_false_iff. left.
    apply bool_decide_false. intros E. apply (f_equal (fun m => m !! n)) in E.
    by rewrite !Hsel, !select_lookup, Hs, Hv, Hn in E.
  - intros d d' Hd Hd' Hl Hr. unfold UpstreamViewChanged. apply negb_false_iff.
    unfold deploymentContentsEqual, without_spec_diffs. cbn [set_d_meta d_Meta d_Replicas with_annotations Labels Annotations].
    assert (E1 : select (fun name => negb (is_view name)) (Annotations (d_Meta d)) = ∅).
    { apply select_empty. intros n Hn. by apply Hd, negb_true_iff. }
    assert (E2 : select is_view (Annotations (d_Meta d')) = ∅) by by apply select_empty.
    rewrite E1, E2, Hl, Hr. by rewrite !bool_decide_true.
Qed.
End passes.

(** * Examples *)

Module Examples.
#[local] Existing Instances simple_clusters simple_errors.
#[local] Instance deep_unit : DeepEq unit := eq_DeepEq.
#[local] Instance deep_status : DeepEq (option DeploymentStatus) := eq_DeepEq.

Definition condition (t s m : string) : DeploymentCondition := {|
  dc_Type := t; dc_Status := s; dc_LastUpdateTime := ZeroTime; dc_LastTransitionTime := ZeroTime;
  dc_Reason := ""; dc_Message := m |}.
Definition status_of (replicas : Z) (cs : list DeploymentCondition) : DeploymentStatus := {|
  ObservedGeneration := 1; Replicas := replicas; UpdatedReplicas := replicas;
  ReadyReplicas := replicas; AvailableReplicas := replicas; UnavailableReplicas := 0;
  dst_Conditions := cs; CollisionCount := None |}.
Definition deployment (l a : gmap string string) (r : option Z) (s : DeploymentStatus) : Deployment :=
  {| d_Meta := mk_meta "web" "ns" (Some l) (Some a) []; d_Replicas := r; d_Status := s |}.

(** Seven replicas on two SyncTargets; a third is leaving. *)
Definition web : Deployment := deployment
  {[ state_label "a" := "Sync"; state_label "b" := "Sync"; state_label "c" := "Sync" ]}
  {[ deletion_annotation "c" := "1970-01-01T00:00:01Z"; spec_diff_annotation "c" := "old" ]}
  (Some 7) emptyStatus.
Definition intents : gmap string SyncIntent :=
  match @GetSyncIntents canonical_order (d_Meta web) with inr m => m | inl _ => ∅ end.
Definition web_after : ObjectMeta :=
  match @upstream_update canonical_order intents web with Ok m => m | _ => d_Meta web end.
Example web_shares :
  map_get (Annotations web_after) (spec_diff_annotation "a") = Some (replicas_patch 4) /\
  map_get (Annotations web_after) (spec_diff_annotation "b") = Some (replicas_patch 3) /\
  map_get (Annotations web_after) (spec_diff_annotation "c") = None.
Proof. vm_compute. done. Qed.

Lemma upstream_pass_converges_witness :
  @processUpstreamView canonical_order simple_clusters deep_status deep_unit
    (fun _ => inr "{}") (fun _ _ => inr "{}") (fun _ _ _ => inr (set_d_meta web web_after))
    (fun _ => inr tt) "root|ns/web" [] = ([], Ok false).
Proof.
  apply (@upstream_pass_converges canonical_order simple_clusters deep_status deep_unit
    (fun _ => inr "{}") (fun _ _ => inr "{}") (fun _ _ _ => inr (set_d_meta web web_after))
    (fun _ => inr tt) "root|ns/web" "root" "ns" "web" intents web web_after []).
  - vm_compute. reflexivity.
  - vm_compute. reflexivity.
  - vm_compute. reflexivity.
  - reflexivity.
Defined.

(** Two views that agree on the status of a condition: the message that is kept
    depends on the order of the visit. *)
Definition two_views : gmap string Deployment :=
  {[ "a" := deployment ∅ ∅ None (status_of 4 [condition "Available" "True" "from a"]);
     "b" := deployment ∅ ∅ None (status_of 3 [condition "Available" "True" "from b";
                                              condition "Progressing" "Unknown" "b"]) ]}.
Lemma summary_spec_witness :
  Replicas (@summarize canonical_order two_views) = 7 /\
  dc_Type <$> dst_Conditions (@summarize canonical_order two_views) = ["Available"; "Progressing"].
Proof.
  destruct (@summary_spec canonical_order two_views) as (Hc & Ht & _).
  - vm_compute. repeat constructor; by (left + right; left + right; right).
  - split.
    + rewrite (Hc Replicas); [vm_compute; reflexivity|]. apply list_elem_of_here.
    + rewrite Ht. vm_compute. reflexivity.
Defined.
Lemma summary_depends_on_the_order :
  @summarize canonical_order two_views <> @summarize reverse_order two_views.
Proof. vm_compute. discriminate. Qed.
End Examples.
