(* ===== verification/SyncerViews.v ===== *)
(** * The syncer views a coordinator reads ([tmc/coordination/helpers.go])

    The default implementation of the interface through which [Coordination]
    reads the views: the transformer of the virtual workspace, run on the object
    at hand for each SyncTarget that has a view annotation. *)

From S2P Require Import Prelude Platform GoTime ApiTypes SyncIntent Committer.
From S2P Require Import Workqueue Json JsonValue SyncerShared SpecSync Transformer Coordination.
Local Open Scope nat_scope.

Section retriever.
Context {MO : MapOrder} {UL : UnstructuredLib} {SE : StatusErrorLib} {URL : UrlLib} {CL : ClusterLib}.
Context {JP : JsonPatchLib}.
Variable T : Type.
Variable meta : T -> ObjectMeta.
(** [runtime.DefaultUnstructuredConverter], or the identity on an unstructured
    object. *)
Variable toUnstructured : T -> result Unstructured.
Variable fromUnstructured : Unstructured -> result T.
(** [syncerViewRetriever] embeds a transformer. *)
Variable svm : SyncerResourceTransformer.

(** [NewDefaultSyncerViewManager]. *)
Definition DefaultSyncerViewManager : SyncerResourceTransformer := {|
  ShardExternalURL := "";
  srt_TransformationProvider := Some SpecDiffTransformationFor;
  srt_SummarizingRulesProvider := Some DefaultSummarizingRulesFor |}.

(** The view of one SyncTarget. *)
Definition syncer_view (gvr : GroupVersionResource) (upstreamResource : T) (syncTargetKey : string)
    : result T :=
  match toUnstructured upstreamResource with
  | inl err => inl err
  | inr unstrResource =>
      match AfterRead svm {| APIDomainKey := ""; ctx_SyncTargetKey := Some syncTargetKey |} gvr
              unstrResource with
      | inl err => inl err
      | inr unstrSyncerView => fromUnstructured unstrSyncerView
      end
  end.
Fixpoint views_loop (gvr : GroupVersionResource) (upstreamResource : T)
    (keepSyncTarget : string -> bool) (annotations : list (string * string))
    (syncerViews : gmap string T) : result (gmap string T) :=
  match annotations with
  | [] => inr syncerViews
  | (name, _) :: annotations =>
      let syncTargetKey := TrimPrefix name InternalSyncerViewAnnotationPrefix in
      if negb (HasPrefix name InternalSyncerViewAnnotationPrefix)
         || negb (keepSyncTarget syncTargetKey)
      then views_loop gvr upstreamResource keepSyncTarget annotations syncerViews
      else
        match syncer_view gvr upstreamResource syncTargetKey with
        | inl err => inl err
        | inr syncerView =>
            views_loop gvr upstreamResource keepSyncTarget annotations
              (<[ syncTargetKey := syncerView ]> syncerViews)
        end
  end.
#[local] Instance syncerViewRetriever : SyncerViewRetriever T := {|
  Coordination.GetFilteredSyncerViews gvr upstreamResource keepSyncTarget :=
    views_loop gvr upstreamResource keepSyncTarget
      (map_range (entries (Annotations (meta upstreamResource)))) ∅;
|}.
(** [GetSyncerView]: the zero value when there is none. *)
Definition GetSyncerView (zero : T) (gvr : GroupVersionResource) (upstreamResource : T)
    (syncTargetKey : string) : result T :=
  match GetFilteredSyncerViews gvr upstreamResource
          (fun key => bool_decide (syncTargetKey = key)) with
  | inl err => inl err
  | inr views => inr (default zero (views !! syncTargetKey))
  end.

Lemma views_loop_spec gvr t keep l m0 m :
  NoDup l.*1 -> views_loop gvr t keep l m0 = inr m ->
  forall k, m !! k =
    if decide (view_annotation k ∈ l.*1 /\ keep k = true)
    then match syncer_view gvr t k with inr v => Some v | inl _ => None end
    else m0 !! k.
Proof.
  revert m0. induction l as [|[n x] l IH]; intros m0.
  { intros _ [= <-] k. destruct (decide (view_annotation k ∈ [].*1 /\ keep k = true))
      as [[?%elem_of_nil _]|]; done. }
  cbn [views_loop fmap list_fmap fst]. cbv zeta.
  intros [Hn Hl]%NoDup_cons. destruct (HasPrefix n _) eqn:P; simpl.
  - apply HasPrefix_Trim in P. set (k0 := TrimPrefix n _) in *.
    destruct (keep k0) eqn:Hk; simpl.
    + destruct (syncer_view gvr t k0) as [e|v] eqn:Ev; [done|]. intros Hm k.
      rewrite (IH _ Hl Hm). destruct (decide (k0 = k)) as [<-|Hne].
      * rewrite lookup_insert_eq, Ev. rewrite decide_False.
        { rewrite decide_True; [done|]. split; [|done]. apply elem_of_cons. by left. }
        intros [Hin _]. unfold view_annotation in Hin. by rewrite <-P in Hin.
      * rewrite lookup_insert_ne by done. apply decide_ext. rewrite elem_of_cons. split; [naive_solver|].
        intros [[E|Hin] Hkk]; [|done]. rewrite P in E. by apply (inj (String.append _)) in E.
    + intros Hm k. rewrite (IH _ Hl Hm). apply decide_ext. rewrite elem_of_cons. split; [naive_solver|].
      intros [[E|Hin] Hkk]; [|done]. rewrite P in E. apply (inj (String.append _)) in E as <-. congruence.
  - intros Hm k. rewrite (IH _ Hl Hm). apply decide_ext. rewrite elem_of_cons. split; [naive_solver|].
    intros [[E|Hin] Hkk]; [|done]. rewrite <-E in P. unfold view_annotation in P.
    by rewrite HasPrefix_app in P.
Qed.

End retriever.

(** * Examples *)

Module Examples.
Import Transformer.Examples.
#[local] Existing Instances canonical_order simple_unstructured simple_status_errors simple_urls
  simple_clusters no_patch.

(** The object of two SyncTargets, one of which has reported a status. *)
Definition views_of (u : Unstructured) : result (gmap string Unstructured) :=
  @GetAllSyncerViews Unstructured
    (syncerViewRetriever Unstructured u_meta inr inr DefaultSyncerViewManager) deployments u.
End Examples.
