(* ===== verification/Upsync.v ===== *)
(** * The upsyncer ([pkg/syncer/upsync])

    Some objects travel the other way: those of the downstream cluster labelled
    for it are copied to the workspace that their namespace's locator names. An
    annotation on the upstream copy holds the resource version of the downstream
    object when it was last copied. *)

From S2P Require Import Prelude Platform Digest ApiTypes Committer Json SyncerShared Dns SpecSync.
Local Open Scope nat_scope.

Definition ResourceVersionAnnotation : string := "workload.kcp.io/rv".

(** What the upsyncer asks in addition: the object that a write returns, the
    informers of the upsyncer virtual workspace, and its map of dirty keys. *)
Class UpsyncWorld := {
  api_object : list ev -> result Unstructured;
  upsyncer_Informers :
    list ev -> string -> list GroupVersionResource * list GroupVersionResource;
  upsyncer_Get : list ev -> string -> GroupVersionResource -> string -> string ->
    result Unstructured;
  upsyncer_List : list ev -> string -> GroupVersionResource -> string ->
    result (list Unstructured);
  LoadAndDelete : list ev -> bool;
}.

Section upsync.
Context {EL : ErrorLib} {CL : ClusterLib} {KL : KeyLib} {W : World} {UW : UpsyncWorld}.
Variable c : Controller.

(** ** Calls *)

Definition client_write (v : verb) (cluster : string) (gvr : GroupVersionResource) (ns : string)
    (u : Unstructured) : M ev Unstructured :=
  call (EvRequest (Upstream cluster) v gvr ns (GetName u) (Body u)) api_object.
Definition client_get (cluster : string) (gvr : GroupVersionResource) (ns name : string)
    : M ev Unstructured :=
  call (EvRequest (Upstream cluster) VGet gvr ns name NoBody) api_get.
Definition client_delete (cluster : string) (gvr : GroupVersionResource) (ns name : string)
    : M ev unit := request (Upstream cluster) VDelete gvr ns name NoBody.

(** The closures of [NewUpSyncer]. *)
Definition getUpstreamUpsyncerLister (clusterName : string) (gvr : GroupVersionResource)
    : M ev unit :=
  shard_of clusterName;;
  observe (fun h => let i := upsyncer_Informers h clusterName in
    informer_for "upstream upsyncer" (list_to_set i.1, i.2) gvr).
(** The resources that are synced come back beside the error when some are not. *)
Definition getUpsyncedGVRs (clusterName : string) : M ev (list GroupVersionResource) :=
  shard_of clusterName;;
  observe (fun h => let i := upsyncer_Informers h clusterName in
    match i.2 with
    | [] => inr i.1
    | _ => inl (ErrMsg "informers not synced in the upstream upsyncer informer factory")
    end).

(** ** Cleanup ([upsync_cleanup_reconcile.go]) *)

Definition get_downstream (gvr : GroupVersionResource) (downstreamNamespace upstreamName : string)
    : M ev (option Unstructured) :=
  getDownstreamLister gvr;;
  u ← observe (fun h => downstream_Get h gvr downstreamNamespace upstreamName);
  mret (Some u).
(** Nothing when the upstream namespace has no downstream namespace. *)
Definition getDownstreamResource (gvr : GroupVersionResource)
    (upstreamClusterName upstreamNamespace upstreamName : string) : M ev (option Unstructured) :=
  if decide (upstreamNamespace = "") then get_downstream gvr "" upstreamName
  else
    let locator := NewNamespaceLocator upstreamClusterName (c_syncTargetClusterName c)
      (c_syncTargetUID c) (c_syncTargetName c) upstreamNamespace in
    downstreamNamespaces ← observe (fun h => by_locator h (Marshal locator));
    match downstreamNamespaces with
    | [namespace] => get_downstream gvr (GetName namespace) upstreamName
    | _ :: _ :: _ => fail (ErrMsg "(namespace collision) found multiple downstream namespaces")
    | [] => mret None
    end.

Definition removeUpstreamResourceFinalizers (cluster : string) (gvr : GroupVersionResource)
    (namespace name : string) : M ev unit :=
  existingResource ← client_get cluster gvr namespace name;
  match GetFinalizers existingResource with
  | [] => mret tt
  | _ => client_write VUpdate cluster gvr namespace (SetFinalizers existingResource []);; mret tt
  end.
(** [client]: the client of the upstream cluster, of the shard for the upsyncer,
    of the connection at hand for the cleanup controller. *)
Definition deleteOrphanUpstreamResource (client : string -> M ev unit) (gvr : GroupVersionResource)
    (upstreamClusterName upstreamNamespace upstreamName : string) : M ev unit :=
  client upstreamClusterName;;
  removeUpstreamResourceFinalizers upstreamClusterName gvr upstreamNamespace upstreamName;;
  client_delete upstreamClusterName gvr upstreamNamespace upstreamName.
Definition delete_orphan (client : string -> M ev unit) (gvr : GroupVersionResource)
    (upstreamClusterName upstreamNamespace upstreamName : string) : M ev bool :=
  r ← try (deleteOrphanUpstreamResource client gvr upstreamClusterName upstreamNamespace upstreamName);
  match r with
  | inl err => if IsNotFound err then mret false else fail err
  | inr _ => mret false
  end.

(** The downstream object; an error that is not found counts as none. *)
Definition find_downstream (gvr : GroupVersionResource)
    (upstreamClusterName upstreamNamespace upstreamName : string) : M ev (option Unstructured) :=
  r ← try (getDownstreamResource gvr upstreamClusterName upstreamNamespace upstreamName);
  match r with
  | inl err => if IsNotFound err then mret None else fail err
  | inr o => mret o
  end.
Definition cleanup_reconcile (gvr : GroupVersionResource)
    (upstreamClusterName upstreamNamespace upstreamName : string) : M ev bool :=
  downstreamResource ← find_downstream gvr upstreamClusterName upstreamNamespace upstreamName;
  match downstreamResource with
  | Some _ => mret false
  | None => delete_orphan (fun _ => mret tt) gvr upstreamClusterName upstreamNamespace upstreamName
  end.

(** ** Copying ([upsync_reconcile.go]) *)

Definition SetResourceVersion (u : Unstructured) (v : string) : Unstructured :=
  SetIdentity u (GetName u) (UID (u_meta u)) v (GetNamespace u).
Definition prepareResourceForUpstream (upstreamNS : string) (downstreamObj : Unstructured)
    : Unstructured :=
  let u := SetAnnotations downstreamObj
    (map_delete (GetAnnotations downstreamObj) NamespaceLocatorAnnotation) in
  let u := SetLabels u (map_delete (GetLabels u) InternalDownstreamClusterLabel) in
  let u := SetIdentity u (GetName u) "" "" upstreamNS in
  let u := SetDeletionTimestamp_nil (RemoveMetaField "managedFields" u) in
  let u := SetOwnerReferences_nil (RemoveMetaField "deletionGracePeriodSeconds" u) in
  SetFinalizers u [SyncerFinalizerNamePrefix +:+ c_syncTargetKey c].
Definition addResourceVersionAnnotation (resourceVersion : string) (u : Unstructured)
    : Unstructured :=
  SetAnnotations u (Some (<[ ResourceVersionAnnotation := resourceVersion ]>
                            (entries (GetAnnotations u)))).

(** The object does not exist upstream. *)
Definition create_upstream (cluster : string) (gvr : GroupVersionResource) (ns downstreamRV : string)
    (preparedResource : Unstructured) (dirtyStatus : bool) : M ev bool :=
  if negb dirtyStatus then
    client_write VCreate cluster gvr ns (addResourceVersionAnnotation downstreamRV preparedResource);;
    mret false
  else
    createdResource ← client_write VCreate cluster gvr ns preparedResource;
    let preparedResource :=
      SetResourceVersion preparedResource (ResourceVersion (u_meta createdResource)) in
    updatedResource ← client_write VUpdateStatus cluster gvr ns preparedResource;
    let preparedResource := SetResourceVersion (addResourceVersionAnnotation downstreamRV preparedResource)
      (ResourceVersion (u_meta updatedResource)) in
    client_write VUpdate cluster gvr ns preparedResource;;
    mret false.
(** It exists, at another version of the downstream object. *)
Definition update_upstream (cluster : string) (gvr : GroupVersionResource)
    (ns downstreamRV resourceVersionUpstream : string)
    (preparedResource : Unstructured) (dirtyStatus markedForDeletionDownstream : bool) : M ev bool :=
  if negb dirtyStatus then
    let preparedResource := addResourceVersionAnnotation downstreamRV preparedResource in
    existingResource ← client_get cluster gvr ns (GetName preparedResource);
    client_write VUpdate cluster gvr ns
      (SetResourceVersion preparedResource (ResourceVersion (u_meta existingResource)));;
    mret markedForDeletionDownstream
  else
    let preparedResource := addResourceVersionAnnotation resourceVersionUpstream preparedResource in
    existingResource ← client_get cluster gvr ns (GetName preparedResource);
    let preparedResource :=
      SetResourceVersion preparedResource (ResourceVersion (u_meta existingResource)) in
    updatedResource ← client_write VUpdate cluster gvr ns preparedResource;
    let preparedResource :=
      SetResourceVersion preparedResource (ResourceVersion (u_meta updatedResource)) in
    updatedResource ← client_write VUpdateStatus cluster gvr ns preparedResource;
    let preparedResource := SetResourceVersion (addResourceVersionAnnotation downstreamRV preparedResource)
      (ResourceVersion (u_meta updatedResource)) in
    client_write VUpdate cluster gvr ns preparedResource;;
    mret markedForDeletionDownstream.

Definition upsync_object (gvr : GroupVersionResource) (cluster ns name : string)
    (upstreamObject : option Unstructured) (downstreamResource : Unstructured) (dirtyStatus : bool)
    : M ev bool :=
  getUpstreamClient cluster;;
  let downstreamRV := ResourceVersion (u_meta downstreamResource) in
  let markedForDeletionDownstream :=
    bool_decide (is_Some (DeletionTimestamp (u_meta downstreamResource))) in
  let preparedResource := prepareResourceForUpstream ns downstreamResource in
  match upstreamObject with
  | None =>
      if markedForDeletionDownstream then mret false
      else create_upstream cluster gvr ns downstreamRV preparedResource dirtyStatus
  | Some upstreamObject =>
      let resourceVersionUpstream :=
        map_index (GetAnnotations upstreamObject) ResourceVersionAnnotation in
      if negb (bool_decide (downstreamRV = resourceVersionUpstream))
      then update_upstream cluster gvr ns downstreamRV resourceVersionUpstream preparedResource
             dirtyStatus markedForDeletionDownstream
      else if markedForDeletionDownstream then
        r ← try (client_delete cluster gvr ns name);
        match r with
        | inl err => if negb (IsNotFound err) then fail err else mret false
        | inr _ => mret false
        end
      else mret false
  end.
Definition reconcile (upstreamObject : option Unstructured) (gvr : GroupVersionResource)
    (upstreamClusterName upstreamNamespace upstreamName : string) (dirtyStatus : bool) : M ev bool :=
  downstreamResource ← find_downstream gvr upstreamClusterName upstreamNamespace upstreamName;
  match downstreamResource with
  | None => delete_orphan getUpstreamClient gvr upstreamClusterName upstreamNamespace upstreamName
  | Some downstreamResource =>
      upsync_object gvr upstreamClusterName upstreamNamespace upstreamName upstreamObject
        downstreamResource dirtyStatus
  end.

(** ** Handlers ([upsync_controller.go]) *)

Definition enqueueUpstream (gvr : GroupVersionResource) (obj : ObjectMeta) (dirtyStatus : bool)
    : M ev unit :=
  match MetaClusterNamespaceKeyFunc obj with
  | inl err => emit (EvHandleError err)
  | inr key =>
      let qk := {| qk_gvr := gvr; qk_key := key |} in
      (if dirtyStatus then emit (EvStoreDirty qk) else mret tt);;
      emit (EvAdd qk)
  end.
(** The locator is one of this sync target. *)
Definition our_locator (l : NamespaceLocator) : bool :=
  bool_decide (stl_UID (nl_SyncTarget l) = c_syncTargetUID c)
  && bool_decide (stl_ClusterName (nl_SyncTarget l) = c_syncTargetClusterName c).

(** The listings of one resource after the other, until one fails. *)
Fixpoint enqueue_listed (cluster ns : string) (gvrs : list GroupVersionResource) : M ev unit :=
  match gvrs with
  | [] => mret tt
  | gvr :: gvrs =>
      l ← try (getUpstreamUpsyncerLister cluster gvr;; observe (fun h => upsyncer_List h cluster gvr ns));
      match l with
      | inl err => emit (EvHandleError err)
      | inr resources =>
          for_each resources (fun u => enqueueUpstream gvr (u_meta u) false);;
          enqueue_listed cluster ns gvrs
      end
  end.
Definition enqueueDeletedDownstreamNamespace (deletedNamespace : Unstructured) : M ev unit :=
  match LocatorFromAnnotations (GetAnnotations deletedNamespace) with
  | inl err => emit (EvHandleError err)
  | inr None => mret tt
  | inr (Some upstreamLocator) =>
      if negb (our_locator upstreamLocator) then mret tt
      else
        r ← try (getUpsyncedGVRs (nl_ClusterName upstreamLocator));
        match r with
        | inl err => emit (EvHandleError err)
        | inr upsyncedGVRs =>
            enqueue_listed (nl_ClusterName upstreamLocator) (nl_Namespace upstreamLocator) upsyncedGVRs
        end
  end.

(** The object whose annotations have the locator: the namespace, or the object. *)
Definition upsync_locator_holder (downstreamObj : Unstructured) : M ev (option Unstructured) :=
  let downstreamNamespace := GetNamespace downstreamObj in
  if decide (downstreamNamespace = "") then mret (Some downstreamObj)
  else
    l ← try (getDownstreamLister namespaceGVR);
    match l with
    | inl err => emit (EvHandleError err);; mret None
    | inr _ =>
        r ← try (observe (fun h => downstream_Get h namespaceGVR "" downstreamNamespace));
        match r with
        | inl err => if IsNotFound err then mret None else emit (EvHandleError err);; mret None
        | inr nsObj => mret (Some nsObj)
        end
    end.
Definition upsync_meta (l : NamespaceLocator) (downstreamObj : Unstructured) : ObjectMeta :=
  mk_meta (GetName downstreamObj) (nl_Namespace l) None
    (Some {[ AnnotationKey := nl_ClusterName l ]}) [].
Definition enqueueDownstream (gvr : GroupVersionResource) (downstreamObj : Unstructured)
    (dirtyStatus : bool) : M ev unit :=
  holder ← upsync_locator_holder downstreamObj;
  match holder with
  | None => mret tt
  | Some locatorHolder =>
      match LocatorFromAnnotations (GetAnnotations locatorHolder) with
      | inl err => emit (EvHandleError err)
      | inr None => mret tt
      | inr (Some upstreamLocator) =>
          if negb (our_locator upstreamLocator) then mret tt
          else enqueueUpstream gvr (upsync_meta upstreamLocator downstreamObj) dirtyStatus
      end
  end.

Definition upsynced_here (u : Unstructured) : bool :=
  bool_decide (map_index (GetLabels u) (ClusterResourceStateLabelPrefix +:+ c_syncTargetKey c)
               = ResourceStateUpsync).
(** [UnstructuredContent()["status"] != nil]. *)
Definition status_of (u : Unstructured) : option json :=
  match u_content u !! "status" with Some JNull => None | o => o end.
Definition upsync_AddFunc (gvr : GroupVersionResource) (new : Unstructured) : M ev unit :=
  if decide (gvr = namespaceGVR) then mret tt
  else if negb (upsynced_here new) then mret tt
  else enqueueDownstream gvr new (bool_decide (is_Some (status_of new))).
Definition upsync_UpdateFunc {DV : DeepEq (option json)} (gvr : GroupVersionResource)
    (old new : Unstructured) : M ev unit :=
  if decide (gvr = namespaceGVR) then mret tt
  else if negb (upsynced_here new) then mret tt
  else enqueueDownstream gvr new
    (bool_decide (is_Some (status_of new)) && negb (deep_equal (status_of old) (status_of new))).
Definition upsync_DeleteFunc (gvr : GroupVersionResource) (obj : Unstructured) : M ev unit :=
  if decide (gvr = namespaceGVR) then enqueueDeletedDownstreamNamespace obj
  else if negb (upsynced_here obj) then mret tt
  else enqueueDownstream gvr obj false.
(** The cleanup controller's handler. *)
Definition cleanup_AddFunc (gvr : GroupVersionResource) (obj : Unstructured) : M ev unit :=
  if decide (gvr = namespaceGVR) then mret tt
  else match MetaClusterNamespaceKeyFunc (u_meta obj) with
       | inl err => emit (EvHandleError err)
       | inr key => emit (EvAdd {| qk_gvr := gvr; qk_key := key |})
       end.

(** ** One pass *)

(** The upstream object: none when it is not found. *)
Definition upstream_object (gvr : GroupVersionResource) (clusterName namespace name : string)
    : M ev (option Unstructured) :=
  getUpstreamUpsyncerLister clusterName gvr;;
  r ← try (observe (fun h => upsyncer_Get h clusterName gvr namespace name));
  match r with
  | inl err => if negb (IsNotFound err) then fail err else mret None
  | inr u => mret (Some u)
  end.
(** [resetDirty]: a pass that fails puts the key's mark back. *)
Definition resetDirty (qk : queueKey) (dirtyStatus : bool) (m : M ev bool) : M ev bool :=
  r ← try m;
  match r with
  | inl err => (if dirtyStatus then emit (EvStoreDirty qk) else mret tt);; fail err
  | inr requeue => mret requeue
  end.
(** [utilerrors.NewAggregate] of the error of the reconciler. *)
Definition aggregated {A} (m : M ev A) : M ev A :=
  r ← try m;
  match r with
  | inl err => fail (default err (NewAggregate [err]))
  | inr a => mret a
  end.
Definition upsync_process (qk : queueKey) : M ev bool :=
  match SplitMetaClusterNamespaceKey (qk_key qk) with
  | inl err => emit (EvHandleError err);; mret false
  | inr (clusterName, namespace, name) =>
      dirtyStatus ← call (EvTakeDirty qk) (fun h => inr (LoadAndDelete h));
      resetDirty qk dirtyStatus
        (upstreamResource ← upstream_object (qk_gvr qk) clusterName namespace name;
         aggregated (reconcile upstreamResource (qk_gvr qk) clusterName namespace name dirtyStatus))
  end.
Definition cleanup_process (qk : queueKey) : M ev bool :=
  match SplitMetaClusterNamespaceKey (qk_key qk) with
  | inl err => emit (EvHandleError err);; mret false
  | inr (clusterName, namespace, name) =>
      aggregated (cleanup_reconcile (qk_gvr qk) clusterName namespace name)
  end.

(** [processNextWorkItem] of both controllers. *)
Definition upsync_processNextWorkItem (process : queueKey -> M ev bool) (qk : queueKey)
    : M ev unit := fun h =>
  let '(h, r) :=
    (r ← try (process qk);
     match r with
     | inl err =>
         emit (EvHandleError (ErrWrap "failed to sync" err));; emit (EvAddRateLimited qk)
     | inr true => emit (EvAdd qk)
     | inr false => emit (EvForget qk)
     end) h in
  (h ++ [EvDone qk], r).
End upsync.

(** * Lemmas *)

Section lemmas.
Context {EL : ErrorLib} {CL : ClusterLib} {KL : KeyLib} {W : World} {UW : UpsyncWorld}.
Variable c : Controller.

Lemma quiet_bind {A B} (m : M ev A) (f : A -> M ev B) h :
  (m h).1 = h -> (forall a, (f a h).1 = h) -> ((m ≫= f) h).1 = h.
Proof.
  intros Hm Hf. unfold mbind, M_bind. destruct (m h) as [h' [a|e|s]]; simpl in *; subst; [|done|done].
  apply Hf.
Qed.
Lemma get_downstream_quiet gvr ns n h : (get_downstream gvr ns n h).1 = h.
Proof.
  unfold get_downstream. apply quiet_bind; [done|]. intros _. by apply quiet_bind.
Qed.
Lemma getDownstreamResource_quiet gvr cl ns n h : (getDownstreamResource c gvr cl ns n h).1 = h.
Proof.
  unfold getDownstreamResource. destruct (decide (ns = "")); [apply get_downstream_quiet|].
  apply quiet_bind; [done|]. intros [|x [|y l]]; [done|apply get_downstream_quiet|done].
Qed.
Lemma find_downstream_quiet gvr cl ns n h : (find_downstream c gvr cl ns n h).1 = h.
Proof.
  unfold find_downstream. apply quiet_bind.
  - unfold try. pose proof (getDownstreamResource_quiet gvr cl ns n h) as H.
    by destruct (getDownstreamResource c gvr cl ns n h) as [h' []].
  - intros [e|o]; [by destruct (IsNotFound e)|done].
Qed.
Lemma getUpstreamClient_quiet cl h : (getUpstreamClient cl h).1 = h.
Proof. unfold getUpstreamClient, shard_of. apply quiet_bind; [done|]. by intros [|]. Qed.

(** What a write of the upsyncer carries. *)
Lemma prepare_content ns d : u_content (prepareResourceForUpstream c ns d) = u_content d.
Proof. done. Qed.
Lemma add_rv_annotation rv u :
  map_get (GetAnnotations (addResourceVersionAnnotation rv u)) ResourceVersionAnnotation = Some rv.
Proof. unfold map_get. simpl. apply lookup_insert_eq. Qed.
Lemma prepare_annotations ns d n :
  map_get (GetAnnotations (prepareResourceForUpstream c ns d)) n =
    if decide (NamespaceLocatorAnnotation = n) then None else map_get (GetAnnotations d) n.
Proof. apply (map_get_delete (GetAnnotations d)). Qed.

(** Walk through a successful run of writes. *)
Lemma write_inv v cl gvr ns u h h' r :
  client_write v cl gvr ns u h = (h', Ok r) ->
  h' = h ++ [EvRequest (Upstream cl) v gvr ns (GetName u) (Body u)] /\ api_object h' = inr r.
Proof.
  unfold client_write, call. intros H. injection H as <- H. split; [done|].
  destruct (api_object _); simpl in H; by simplify_eq.
Qed.
Lemma get_inv cl gvr ns n h h' r :
  client_get cl gvr ns n h = (h', Ok r) ->
  h' = h ++ [EvRequest (Upstream cl) VGet gvr ns n NoBody].
Proof. unfold client_get, call. intros H. by injection H as <- _. Qed.
End lemmas.

(** * What the upsyncer promises *)

Section theorems.
Context {EL : ErrorLib} {CL : ClusterLib} {KL : KeyLib} {W : World} {UW : UpsyncWorld}.
Variable c : Controller.

(** The upstream object is not a copy of this version of the downstream object. *)
Definition needs_copy (upstreamObject : option Unstructured) (d : Unstructured) : bool :=
  match upstreamObject with
  | None => bool_decide (DeletionTimestamp (u_meta d) = None)
  | Some u => negb (bool_decide (ResourceVersion (u_meta d)
                      = map_index (GetAnnotations u) ResourceVersionAnnotation))
  end.
(** A write of the main resource that marks it as copied from version [rv]. *)
Definition marks (rv : string) (e : ev) : option Unstructured :=
  match e with
  | EvRequest (Upstream _) (VCreate | VUpdate) _ _ _ (Body u) =>
      if decide (map_get (GetAnnotations u) ResourceVersionAnnotation = Some rv)
      then Some u else None
  | _ => None
  end.
(** Between the two histories the server accepted a status like that of [d]. *)
Definition status_accepted (cluster : string) (gvr : GroupVersionResource) (ns : string)
    (d : Unstructured) (h h' : list ev) : Prop :=
  exists t1 t2 u r,
    h' = h ++ t1 ++ [EvRequest (Upstream cluster) VUpdateStatus gvr ns (GetName u) (Body u)] ++ t2 /\
    u_content u = u_content d /\
    api_object (h ++ t1 ++ [EvRequest (Upstream cluster) VUpdateStatus gvr ns (GetName u) (Body u)]) = inr r.
Definition honest (cluster : string) (gvr : GroupVersionResource) (ns : string) (d : Unstructured)
    (dirtyStatus : bool) (h : list ev) (h' : list ev) (e : ev) : Prop :=
  forall u, marks (ResourceVersion (u_meta d)) e = Some u ->
    u_content u = u_content d /\ (dirtyStatus = true -> status_accepted cluster gvr ns d h h').

Lemma write_guarded P v cl gvr ns u h :
  P h (EvRequest (Upstream cl) v gvr ns (GetName u) (Body u)) ->
  guarded P (client_write v cl gvr ns u) h.
Proof. apply guarded_call. Qed.
Lemma accepted_status cl gvr ns d u h h1 h2 r :
  client_write VUpdateStatus cl gvr ns u h1 = (h2, Ok r) -> u_content u = u_content d ->
  (exists t, h1 = h ++ t) -> status_accepted cl gvr ns d h h2.
Proof.
  intros [-> Hr]%write_inv Hu [t ->]. rewrite <-app_assoc in *. exists t, [], u, r.
  by rewrite app_nil_r.
Qed.
Lemma no_mark rv v cl gvr ns n u :
  map_get (GetAnnotations u) ResourceVersionAnnotation <> Some rv ->
  marks rv (EvRequest (Upstream cl) v gvr ns n (Body u)) = None.
Proof. intros H. unfold marks. destruct v; try done; by rewrite decide_False. Qed.

Lemma create_honest cl gvr ns d p dirty h :
  u_content p = u_content d ->
  map_get (GetAnnotations p) ResourceVersionAnnotation = None ->
  guarded (honest cl gvr ns d dirty h)
    (create_upstream cl gvr ns (ResourceVersion (u_meta d)) p dirty) h.
Proof.
  intros Hp Hn. unfold create_upstream. destruct dirty; simpl.
  - apply guarded_bind; [apply write_guarded; intros u; by rewrite no_mark by (rewrite Hn; done)|].
    intros h1 created [-> _]%write_inv.
    apply guarded_bind; [apply write_guarded; by intros u|].
    intros h2 updated H2. apply guarded_bind; [apply write_guarded|intros; apply guarded_ret].
    intros u Hu. pose proof (accepted_status cl gvr ns d _ h _ h2 updated H2 Hp (ex_intro _ _ eq_refl)).
    unfold marks in Hu. case_decide; [|done]. by injection Hu as <-.
  - apply guarded_bind; [apply write_guarded|intros; apply guarded_ret].
    intros u Hu. unfold marks in Hu. case_decide; [|done]. by injection Hu as <-.
Qed.
Lemma update_honest cl gvr ns d p rvu dirty marked h :
  u_content p = u_content d -> ResourceVersion (u_meta d) <> rvu ->
  guarded (honest cl gvr ns d dirty h)
    (update_upstream cl gvr ns (ResourceVersion (u_meta d)) rvu p dirty marked) h.
Proof.
  intros Hp Hn. unfold update_upstream. destruct dirty; simpl.
  - apply guarded_bind; [apply guarded_call; by intros u|].
    intros h1 existing ->%get_inv. apply guarded_bind.
    { apply write_guarded. intros u. rewrite no_mark; [done|].
      change (map_get (GetAnnotations (addResourceVersionAnnotation rvu p)) ResourceVersionAnnotation
        <> Some (ResourceVersion (u_meta d))). rewrite add_rv_annotation. congruence. }
    intros h2 updated [-> _]%write_inv.
    apply guarded_bind; [apply write_guarded; by intros u|].
    intros h3 updated2 H3. apply guarded_bind; [apply write_guarded|intros; apply guarded_ret].
    intros u Hu.
    assert (Ht : exists t, (h ++ [EvRequest (Upstream cl) VGet gvr ns
      (GetName (addResourceVersionAnnotation rvu p)) NoBody]) ++ [EvRequest (Upstream cl) VUpdate gvr ns
      (GetName (SetResourceVersion (addResourceVersionAnnotation rvu p) (ResourceVersion (u_meta existing))))
      (Body (SetResourceVersion (addResourceVersionAnnotation rvu p) (ResourceVersion (u_meta existing))))]
      = h ++ t) by (rewrite <-app_assoc; by eexists).
    pose proof (accepted_status cl gvr ns d _ h _ h3 updated2 H3 Hp Ht).
    unfold marks in Hu. case_decide; [|done]. by injection Hu as <-.
  - apply guarded_bind; [apply guarded_call; by intros u|].
    intros h1 existing _. apply guarded_bind; [apply write_guarded|intros; apply guarded_ret].
    intros u Hu. unfold marks in Hu. case_decide; [|done]. by injection Hu as <-.
Qed.

(** The last write of a pass. *)
Definition copied (cluster : string) (gvr : GroupVersionResource) (ns : string) (d : Unstructured)
    (dirtyStatus : bool) (h h' : list ev) : Prop :=
  exists h1 e u r, h' = h1 ++ [e] /\ marks (ResourceVersion (u_meta d)) e = Some u /\
    api_object h' = inr r /\ u_content u = u_content d /\
    GetFinalizers u = [SyncerFinalizerNamePrefix +:+ c_syncTargetKey c] /\
    (dirtyStatus = true -> status_accepted cluster gvr ns d h h1).

Lemma set_rv_annotation rv u v :
  map_get (GetAnnotations (SetResourceVersion (addResourceVersionAnnotation rv u) v))
    ResourceVersionAnnotation = Some rv.
Proof. exact (add_rv_annotation rv u). Qed.
Lemma copied_last v cl gvr ns d u dirty h h1 h2 r :
  v = VCreate \/ v = VUpdate ->
  map_get (GetAnnotations u) ResourceVersionAnnotation = Some (ResourceVersion (u_meta d)) ->
  u_content u = u_content d ->
  GetFinalizers u = [SyncerFinalizerNamePrefix +:+ c_syncTargetKey c] ->
  (dirty = true -> status_accepted cl gvr ns d h h1) ->
  client_write v cl gvr ns u h1 = (h2, Ok r) -> copied cl gvr ns d dirty h h2.
Proof.
  intros Hv Ha Hp Hf Hs [-> Hr]%write_inv. eexists h1, _, u, r. split_and!; try done.
  unfold marks. by destruct Hv as [->| ->]; rewrite decide_True.
Qed.

Lemma create_copies cl gvr ns d dirty h h' b :
  create_upstream cl gvr ns (ResourceVersion (u_meta d)) (prepareResourceForUpstream c ns d) dirty h
    = (h', Ok b) -> copied cl gvr ns d dirty h h'.
Proof.
  unfold create_upstream. destruct dirty; simpl; intros H.
  - unbind H. unbind H. unbind H. injection H as <- _. apply write_inv in Hm as [-> _].
    eapply copied_last; [by right| | | | |exact Hm1]; [apply set_rv_annotation|done|done|].
    intros _. eapply accepted_status; [exact Hm0|done|]. by eexists.
  - unbind H. injection H as <- _.
    eapply copied_last; [by left| | | | |exact Hm]; [apply add_rv_annotation|done|done|done].
Qed.
Lemma update_copies cl gvr ns d rvu dirty marked h h' b :
  update_upstream cl gvr ns (ResourceVersion (u_meta d)) rvu (prepareResourceForUpstream c ns d) dirty
    marked h = (h', Ok b) -> copied cl gvr ns d dirty h h'.
Proof.
  unfold update_upstream. destruct dirty; simpl; intros H.
  - unbind H. unbind H. unbind H. unbind H. injection H as <- _.
    apply get_inv in Hm as ->. apply write_inv in Hm0 as [-> _].
    eapply copied_last; [by right| | | | |exact Hm2]; [apply set_rv_annotation|done|done|].
    intros _. eapply accepted_status; [exact Hm1|done|]. rewrite <-app_assoc. by eexists.
  - unbind H. unbind H. injection H as <- _.
    eapply copied_last; [by right| | | | |exact Hm0]; [apply set_rv_annotation|done|done|done].
Qed.

(** C9: the resource-version mark never lies: whatever the servers answer, a write
    that marks the upstream object as a copy of the downstream object's version
    carries its content, and when its status had to be copied, the server had
    accepted that status before. *)
Theorem copy_mark_is_honest upstreamObject gvr cluster ns name d dirtyStatus h :
  find_downstream c gvr cluster ns name h = (h, Ok (Some d)) ->
  map_get (GetAnnotations d) ResourceVersionAnnotation = None ->
  guarded (honest cluster gvr ns d dirtyStatus h)
    (reconcile c upstreamObject gvr cluster ns name dirtyStatus) h.
Proof.
  intros Hd Hn. unfold reconcile. apply guarded_quiet_bind; [by rewrite Hd|].
  intros o Ho. rewrite Hd in Ho. injection Ho as <-. unfold upsync_object.
  apply guarded_quiet_bind; [apply getUpstreamClient_quiet|]. intros _ _. cbv zeta.
  destruct upstreamObject as [u|].
  - destruct (bool_decide_reflect (ResourceVersion (u_meta d)
      = map_index (GetAnnotations u) ResourceVersionAnnotation)) as [E|E]; simpl.
    + unfold client_delete, request. repeat (guarded_step || done).
    + by apply update_honest.
  - case_bool_decide; [apply guarded_ret|]. apply create_honest; [done|].
    rewrite prepare_annotations, Hn. by case_decide.
Qed.

(** A pass that succeeds on an object to copy ends with an accepted write that
    carries the content of the downstream object and marks its version; when the
    status had to be copied, it was accepted. *)
Theorem copy_is_complete upstreamObject gvr cluster ns name d dirtyStatus requeue h h' :
  find_downstream c gvr cluster ns name h = (h, Ok (Some d)) ->
  needs_copy upstreamObject d = true ->
  reconcile c upstreamObject gvr cluster ns name dirtyStatus h = (h', Ok requeue) ->
  copied cluster gvr ns d dirtyStatus h h'.
Proof.
  intros Hd Hneed H. unfold reconcile in H. unbind H. rewrite Hd in Hm. injection Hm as <- <-.
  unfold upsync_object in H. unbind H.
  pose proof (getUpstreamClient_quiet cluster h) as Hq. rewrite Hm in Hq. simpl in Hq. subst h0.
  cbv zeta in H. destruct upstreamObject as [u|]; simpl in Hneed.
  - rewrite Hneed in H. by apply update_copies in H.
  - apply bool_decide_eq_true in Hneed. rewrite Hneed in H. simpl in H.
    by apply create_copies in H.
Qed.

Lemma resetDirty_run qk m h :
  resetDirty qk true m h =
    match m h with
    | (h', Err e) => (h' ++ [EvStoreDirty qk], Err e)
    | r => r
    end.
Proof.
  unfold resetDirty, mbind, M_bind, try, emit, fail, lift. by destruct (m h) as [h' [b|e|s]].
Qed.
Lemma aggregated_ok {A} (m : M ev A) h h' a : aggregated m h = (h', Ok a) -> m h = (h', Ok a).
Proof.
  unfold aggregated, mbind, M_bind, try. by destruct (m h) as [h1 [b|e|s]].
Qed.
Lemma find_downstream_safe gvr cl ns n : safe (find_downstream c gvr cl ns n).
Proof.
  unfold find_downstream, getDownstreamResource, get_downstream, getDownstreamLister.
  repeat (safe_step || apply safe_observe).
Qed.
Lemma upsync_body_safe gvr cl ns n dirty :
  safe (upstreamResource ← upstream_object gvr cl ns n;
        aggregated (reconcile c upstreamResource gvr cl ns n dirty)).
Proof.
  unfold upstream_object, aggregated, reconcile, upsync_object, delete_orphan,
    deleteOrphanUpstreamResource, removeUpstreamResourceFinalizers, create_upstream,
    update_upstream, client_write, client_get, client_delete, request, getUpstreamUpsyncerLister,
    getUpstreamClient, shard_of. cbv zeta.
  repeat (apply find_downstream_safe || safe_step || apply safe_observe).
Qed.

(** A pass whose key was marked dirty either ends in an error, and puts the mark
    back before anything else can happen, or has dealt with the status: with a
    downstream object at hand that needed a copy, the server accepted its status
    and then the write that marks its version. *)
Theorem dirty_mark_is_kept qk cluster ns name h h' out :
  SplitMetaClusterNamespaceKey (qk_key qk) = inr (cluster, ns, name) ->
  LoadAndDelete (h ++ [EvTakeDirty qk]) = true ->
  upsync_process c qk h = (h', out) ->
  match out with
  | Err _ => exists h1, h' = h1 ++ [EvStoreDirty qk]
  | Panic _ => False
  | Ok _ =>
      forall uo d,
        upstream_object (qk_gvr qk) cluster ns name (h ++ [EvTakeDirty qk])
          = (h ++ [EvTakeDirty qk], Ok uo) ->
        find_downstream c (qk_gvr qk) cluster ns name (h ++ [EvTakeDirty qk])
          = (h ++ [EvTakeDirty qk], Ok (Some d)) ->
        needs_copy uo d = true ->
        copied cluster (qk_gvr qk) ns d true (h ++ [EvTakeDirty qk]) h'
  end.
Proof.
  intros Hk Hdirty. unfold upsync_process. rewrite Hk.
  rewrite (bind_ok _ _ h (h ++ [EvTakeDirty qk]) true) by (unfold call; by rewrite Hdirty).
  set (h0 := h ++ [EvTakeDirty qk]). rewrite resetDirty_run.
  match goal with |- match ?m h0 with _ => _ end = _ -> _ =>
    destruct (m h0) as [h1 [b|e|s]] eqn:E end; intros Hout; inversion Hout; subst; clear Hout.
  - intros uo d Hu Hd Hneed. unbind E. rewrite Hu in Hm. injection Hm as <- <-.
    apply aggregated_ok in E. by eapply copy_is_complete.
  - by exists h1.
  - pose proof (upsync_body_safe (qk_gvr qk) cluster ns name true h0) as Hs.
    by rewrite E in Hs.
Qed.

Lemma delete_orphan_inv cluster gvr ns name h h' b :
  let get := EvRequest (Upstream cluster) VGet gvr ns name NoBody in
  getUpstreamClient cluster h = (h, Ok tt) ->
  delete_orphan getUpstreamClient gvr cluster ns name h = (h', Ok b) ->
  b = false /\
  match api_get (h ++ [get]) with
  | inl e => IsNotFound e = true /\ h' = h ++ [get]
  | inr u =>
      let w := if decide (GetFinalizers u = []) then []
               else [EvRequest (Upstream cluster) VUpdate gvr ns (GetName u)
                       (Body (SetFinalizers u []))] in
      h' = h ++ [get] ++ w ++ [EvRequest (Upstream cluster) VDelete gvr ns name NoBody] \/
      (h' = h ++ [get] ++ w /\ exists e, api_object h' = inl e /\ IsNotFound e = true)
  end.
Proof.
  intros get Hc. unfold delete_orphan, deleteOrphanUpstreamResource, removeUpstreamResourceFinalizers.
  intros H. unbind H. apply try_inv in Hm. rewrite (bind_ok _ _ _ _ _ Hc) in Hm.
  assert (Hb : b = false /\ h' = h0 /\ match a with inl e => IsNotFound e = true | inr _ => True end).
  { destruct a as [e|[]]; [destruct (IsNotFound e) eqn:E|]; by inversion H. }
  destruct Hb as (-> & -> & Ha). split; [done|]. clear H Hc. revert Hm.
  unfold client_get, client_delete, client_write, request, call, mbind, M_bind. fold get.
  destruct (api_get (h ++ [get])) as [e|u]; cbn [of_result].
  { intros H. destruct a; inversion H; by subst. }
  cbv zeta. destruct (GetFinalizers u) as [|f fs]; [rewrite decide_True by done|rewrite decide_False by done].
  - unfold mret, M_ret. intros H. left. rewrite <-!app_assoc in H. by inversion H.
  - unfold mret, M_ret.
    match goal with |- context [api_object ?x] => destruct (api_object x) as [e|r] eqn:Eo end; cbn [of_result].
    + intros H. right. rewrite <-!app_assoc in H, Eo. destruct a; inversion H; subst.
      split; [done|]. eexists. split; [exact Eo|done].
    + intros H. left. rewrite <-!app_assoc in H. by inversion H.
Qed.

(** When the downstream object is gone the upstream copy is removed for good: a
    pass that succeeds has found it gone already, or its finalizers were removed
    and it was deleted. While the downstream object is there and not leaving, no
    pass of the upsyncer or of the cleanup controller deletes anything. *)
Theorem orphans_are_deleted uo gvr cluster ns name dirtyStatus h o :
  find_downstream c gvr cluster ns name h = (h, Ok o) ->
  match o with
  | Some d =>
      DeletionTimestamp (u_meta d) = None ->
      guarded (fun _ e => forall cl g n x b, e <> EvRequest cl VDelete g n x b)
        (reconcile c uo gvr cluster ns name dirtyStatus) h /\
      cleanup_reconcile c gvr cluster ns name h = (h, Ok false)
  | None =>
      let get := EvRequest (Upstream cluster) VGet gvr ns name NoBody in
      getUpstreamClient cluster h = (h, Ok tt) ->
      forall h' b, reconcile c uo gvr cluster ns name dirtyStatus h = (h', Ok b) ->
        b = false /\
        match api_get (h ++ [get]) with
        | inl e => IsNotFound e = true /\ h' = h ++ [get]
        | inr u =>
            let w := if decide (GetFinalizers u = []) then []
                     else [EvRequest (Upstream cluster) VUpdate gvr ns (GetName u)
                             (Body (SetFinalizers u []))] in
            h' = h ++ [get] ++ w ++ [EvRequest (Upstream cluster) VDelete gvr ns name NoBody] \/
            (h' = h ++ [get] ++ w /\ exists e, api_object h' = inl e /\ IsNotFound e = true)
        end
  end.
Proof.
  intros Ho. destruct o as [d|].
  - intros Hdel. split.
    + unfold reconcile. apply guarded_quiet_bind; [by rewrite Ho|]. intros o E. rewrite Ho in E.
      injection E as <-. unfold upsync_object. apply guarded_quiet_bind; [apply getUpstreamClient_quiet|].
      intros _ _. cbv zeta. rewrite (bool_decide_false (is_Some _)) by (rewrite Hdel; by intros []).
      unfold create_upstream, update_upstream, client_write, client_get.
      repeat (guarded_step || done).
    + unfold cleanup_reconcile. by rewrite (bind_ok _ _ _ _ _ Ho).
  - intros get Hc h' b H. unfold reconcile in H. rewrite (bind_ok _ _ _ _ _ Ho) in H.
    by apply delete_orphan_inv in H.
Qed.
End theorems.

(** ** Keys lead back *)

Section keys.
Context {EL : ErrorLib} {CL : ClusterLib} {KL : KeyLib} {W : World} {UW : UpsyncWorld}.
Variable c : Controller.

Lemma filter_unique (P : Unstructured -> bool) l x :
  NoDup l -> x ∈ l -> P x = true -> (forall y, y ∈ l -> P y = true -> y = x) ->
  List.filter P l = [x].
Proof.
  induction l as [|y l IH]; [by intros _ ?%elem_of_nil|].
  intros [Hy Hl]%NoDup_cons Hx Px Hu. simpl. destruct (P y) eqn:Py.
  - assert (y = x) as -> by (apply Hu; [apply list_elem_of_here|done]). f_equal.
    clear IH Hx. induction l as [|z l IH]; [done|]. simpl.
    apply not_elem_of_cons in Hy as [Hne Hy]. apply NoDup_cons in Hl as [Hz Hl].
    destruct (P z) eqn:Pz.
    + destruct Hne. symmetry. apply Hu; [|done]. apply list_elem_of_further, list_elem_of_here.
    + apply IH; [done|done|]. intros w Hw Pw. apply Hu; [|done].
      apply elem_of_cons in Hw as [->|Hw]; [apply list_elem_of_here|].
      by apply list_elem_of_further, list_elem_of_further.
  - apply elem_of_cons in Hx as [->|Hx]; [congruence|]. apply IH; [done|done|done|].
    intros z Hz. by apply Hu, list_elem_of_further.
Qed.

(** An object in the namespace of a locator of ours is queued under its upstream key. *)
Lemma enqueueDownstream_adds gvr d dirtyStatus loc nsObj key h :
  GetNamespace d <> "" -> getDownstreamLister namespaceGVR h = (h, Ok tt) ->
  downstream_Get h namespaceGVR "" (GetNamespace d) = inr nsObj ->
  LocatorFromAnnotations (GetAnnotations nsObj) = inr (Some loc) -> our_locator c loc = true ->
  MetaClusterNamespaceKeyFunc (upsync_meta loc d) = inr key ->
  let qk := {| qk_gvr := gvr; qk_key := key |} in
  enqueueDownstream c gvr d dirtyStatus h =
    (h ++ (if dirtyStatus then [EvStoreDirty qk] else []) ++ [EvAdd qk], Ok tt).
Proof.
  intros Hns Hlister Hget Hloc Hour Hkey qk.
  unfold enqueueDownstream, upsync_locator_holder. rewrite decide_False by done.
  rewrite (bind_ok _ _ h h (Some nsObj)).
  2:{ unfold try, mbind, M_bind, observe. by rewrite Hlister, Hget. }
  rewrite Hloc, Hour. simpl. unfold enqueueUpstream. rewrite Hkey. fold qk.
  destruct dirtyStatus; unfold mbind, M_bind, emit, mret, M_ret; simpl; by rewrite <-?app_assoc.
Qed.

(** The key that a downstream object is queued under leads back to it: the pass
    on that key looks the object up in the namespace it came from, when that
    namespace carries the locator of this sync target (of this version or of
    v0.6.0) and no other namespace has the same. *)
Theorem upsync_key_leads_back gvr d dirtyStatus workspace upstreamNS l nsObj namespaces key h :
  let loc := NewNamespaceLocator workspace (c_syncTargetClusterName c) (c_syncTargetUID c)
               (c_syncTargetName c) upstreamNS in
  GetNamespace d <> "" -> upstreamNS <> "" ->
  getDownstreamLister namespaceGVR h = (h, Ok tt) ->
  downstream_Get h namespaceGVR "" (GetNamespace d) = inr nsObj ->
  GetName nsObj = GetNamespace d ->
  map_get (GetAnnotations nsObj) NamespaceLocatorAnnotation = Some (Marshal l) ->
  ascii_locator l = true -> upgrade_locator l = loc ->
  downstream_Namespaces h = inr namespaces -> NoDup namespaces -> nsObj ∈ namespaces ->
  (forall n, n ∈ namespaces -> IndexByNamespaceLocator (u_meta n) = inr [Marshal loc] -> n = nsObj) ->
  MetaClusterNamespaceKeyFunc (upsync_meta loc d) = inr key ->
  SplitMetaClusterNamespaceKey key = inr (workspace, upstreamNS, GetName d) ->
  let qk := {| qk_gvr := gvr; qk_key := key |} in
  enqueueDownstream c gvr d dirtyStatus h =
    (h ++ (if dirtyStatus then [EvStoreDirty qk] else []) ++ [EvAdd qk], Ok tt) /\
  getDownstreamResource c gvr workspace upstreamNS (GetName d) h =
    get_downstream gvr (GetNamespace d) (GetName d) h.
Proof.
  intros loc Hns Hup Hlister Hget Hname Hann Hascii Hl Hall Hnd Hin Huniq Hkey Hsplit qk.
  assert (Hloc : LocatorFromAnnotations (GetAnnotations nsObj) = inr (Some loc)).
  { unfold LocatorFromAnnotations. by rewrite Hann, Unmarshal_Marshal, Hl by done. }
  split.
  - by apply (enqueueDownstream_adds gvr d dirtyStatus loc nsObj);
      [| | | |unfold our_locator; simpl; rewrite !bool_decide_true|].
  - unfold getDownstreamResource. rewrite decide_False by done.
    unfold by_locator, observe, mbind, M_bind. rewrite Hall. cbn [of_result].
    rewrite (filter_unique _ namespaces nsObj); [by rewrite Hname|done|done| |].
    + unfold IndexByNamespaceLocator. change (Annotations (u_meta nsObj)) with (GetAnnotations nsObj).
      rewrite Hloc. apply bool_decide_true. fold loc. apply list_elem_of_here.
    + intros n Hn Hp. apply Huniq; [done|]. fold loc in Hp.
      unfold IndexByNamespaceLocator in *.
      destruct (LocatorFromAnnotations (Annotations (u_meta n))) as [e|[l'|]]; [done| |done].
      apply bool_decide_eq_true in Hp. apply list_elem_of_singleton in Hp. by rewrite Hp.
Qed.
End keys.

(** * Examples *)

Module Examples.
#[local] Existing Instances simple_errors simple_clusters.
Definition keys : KeyLib := {|
  AnnotationKey := "kcp.io/cluster"; KCPOriginalAPIVersionAnnotation := "kcp.io/original-api-version";
  ServiceAccountNameKey := "kubernetes.io/service-account.name";
  ServiceAccountUIDKey := "kubernetes.io/service-account.uid" |}.
#[local] Existing Instance keys.
Definition config : Controller := {|
  mutators := ∅; c_syncTargetName := "st"; c_syncTargetClusterName := "org"; c_syncTargetUID := "uid";
  c_syncTargetKey := "k1"; advancedSchedulingEnabled := false; c_dnsNamespace := "dns"; c_dnsImage := "image" |}.
Definition pods : GroupVersionResource := core_v1 "pods".
Definition obj (name ns rv : string) (a : gmap string string) (f : list string) : Unstructured := {|
  u_meta := {| Name := name; Namespace := ns; UID := "u"; ResourceVersion := rv;
               Labels := Some {[ state_label "k1" := "Upsync" ]}; Annotations := Some a;
               Finalizers := f; DeletionTimestamp := None; CreationTimestamp := ZeroTime;
               OwnerReferences := [] |};
  u_more := ∅; u_content := {[ "status" := JString "Running" ]} |}.
Definition pod : Unstructured := obj "p" "kcp-x" "5" ∅ [].
Definition copy : Unstructured := obj "p" "ns" "9" {[ ResourceVersionAnnotation := "4" ]} ["f"].
Definition locator : NamespaceLocator := NewNamespaceLocator "ws" "org" "uid" "st" "ns".
Definition the_namespace : Unstructured :=
  obj "kcp-x" "" "1" {[ NamespaceLocatorAnnotation := Marshal locator ]} [].
(** A downstream cluster with one namespace, and the pod if [there]; a server that
    takes writes. *)
Definition world (there : bool) : World := {|
  api_write _ := inr tt; api_get _ := inr copy; getShardAccess _ _ := inr true;
  downstream_Informers _ := ({[ pods; namespaceGVR ]}, []); upstream_Informers _ _ := (∅, []);
  upstream_Get _ _ _ _ _ := inl (ErrMsg "unused");
  downstream_Get _ gvr _ _ := if decide (gvr = namespaceGVR) then inr the_namespace
    else if there then inr pod else inl (ErrLib "NotFound" "p");
  downstream_Namespaces _ := inr [the_namespace] |}.
Definition upsync_world : UpsyncWorld := {|
  api_object _ := inr copy; upsyncer_Informers _ _ := ([pods], []);
  upsyncer_Get _ _ _ _ _ := inr copy; upsyncer_List _ _ _ _ := inr [copy];
  LoadAndDelete _ := true |}.
#[local] Existing Instance upsync_world.

Lemma found (t : bool) h :
  @find_downstream simple_errors (world t) config pods "ws" "ns" "p" h
    = (h, Ok (if t then Some pod else None)).
Proof. destruct t; vm_compute; reflexivity. Qed.

Lemma copy_mark_is_honest_witness :
  let W : World := world true in
  guarded (honest "ws" pods "ns" pod true [])
    (reconcile config (Some copy) pods "ws" "ns" "p" true) [].
Proof.
  apply (@copy_mark_is_honest simple_errors (world true) upsync_world config (Some copy) pods
    "ws" "ns" "p" pod true []).
  - exact (found true []).
  - vm_compute. reflexivity.
Defined.

Definition passed (there : bool) : list ev * res bool :=
  @reconcile simple_errors (world there) upsync_world config (Some copy) pods "ws" "ns" "p" true [].
Lemma copy_is_complete_witness :
  let W : World := world true in copied config "ws" pods "ns" pod true [] (passed true).1.
Proof.
  apply (@copy_is_complete simple_errors (world true) upsync_world config (Some copy) pods
    "ws" "ns" "p" pod true false [] (passed true).1).
  - exact (found true []).
  - vm_compute. reflexivity.
  - vm_compute. reflexivity.
Defined.

Definition the_key : queueKey := {| qk_gvr := pods; qk_key := "ws|ns/p" |}.
Lemma dirty_mark_is_kept_witness :
  let W : World := world true in
  copied config "ws" pods "ns" pod true [EvTakeDirty the_key] (upsync_process config the_key []).1.
Proof.
  intros W.
  assert (E : exists b, upsync_process config the_key [] = ((upsync_process config the_key []).1, Ok b))
    by (exists false; vm_compute; reflexivity).
  destruct E as [b E].
  pose proof (@dirty_mark_is_kept simple_errors simple_clusters (world true) upsync_world config the_key
    "ws" "ns" "p" [] _ _ ltac:(vm_compute; reflexivity) eq_refl E (Some copy) pod) as H.
  apply H.
  - vm_compute. reflexivity.
  - exact (found true _).
  - vm_compute. reflexivity.
Defined.

Lemma orphans_are_deleted_witness :
  (passed false).1 = [EvRequest (Upstream "ws") VGet pods "ns" "p" NoBody;
                      EvRequest (Upstream "ws") VUpdate pods "ns" "p" (Body (SetFinalizers copy []));
                      EvRequest (Upstream "ws") VDelete pods "ns" "p" NoBody].
Proof.
  pose proof (@orphans_are_deleted simple_errors (world false) upsync_world config (Some copy) pods
    "ws" "ns" "p" true [] None (found false [])) as H.
  destruct (H ltac:(vm_compute; reflexivity) (passed false).1 false ltac:(vm_compute; reflexivity))
    as [_ [H1|[H1 (e & He & _)]]].
  - rewrite H1. vm_compute. reflexivity.
  - discriminate He.
Defined.

Lemma upsync_key_leads_back_witness :
  let W : World := world true in
  getDownstreamResource config pods "ws" "ns" "p" [] = ([], Ok (Some pod)).
Proof.
  intros W.
  refine (eq_trans (proj2 (@upsync_key_leads_back simple_errors simple_clusters keys W config pods
    pod true "ws" "ns" locator the_namespace [the_namespace] "ws|ns/p" [] _ _ _ _ _ _ _ _ _ _ _ _ _ _)) _).
  - discriminate.
  - discriminate.
  - vm_compute. reflexivity.
  - vm_compute. reflexivity.
  - reflexivity.
  - vm_compute. reflexivity.
  - vm_compute. reflexivity.
  - vm_compute. reflexivity.
  - reflexivity.
  - apply NoDup_singleton.
  - apply list_elem_of_here.
  - intros n Hn%list_elem_of_singleton _. exact Hn.
  - vm_compute. reflexivity.
  - vm_compute. reflexivity.
  - vm_compute. reflexivity.
Defined.
End Examples.
