(* ===== verification/Endpoints.v ===== *)
(** * The endpoints controller of the syncer ([pkg/syncer/endpoints])

    It labels the Endpoints of a synced Service, so that the upsyncer copies them
    to the workspace of the Service. *)

From S2P Require Import Prelude Platform Digest ApiTypes Committer.
From S2P Require Import Json JsonValue SyncerShared Dns SpecSync Upsync.
Local Open Scope nat_scope.

Definition servicesGVR : GroupVersionResource := core_v1 "services".

Section endpoints.
Context {EL : ErrorLib} {NK : NamespaceKeyLib} {W : World}.
(** The sync target's identity, from the syncer's configuration. *)
Variable c : Controller.

(** ** Caches and the patch ([endpoint_downstream_controller.go]) *)

Definition getDownstreamResource (gvr : GroupVersionResource) (namespace name : string)
    : M ev Unstructured :=
  getDownstreamLister gvr;;
  observe (fun h => downstream_Get h gvr namespace name).
Definition getDownstreamNamespace (name : string) : M ev Unstructured :=
  getDownstreamLister namespaceGVR;;
  observe (fun h => downstream_Get h namespaceGVR "" name).
Definition StrategicMergePatchType : string := "application/strategic-merge-patch+json".
Definition patchEndpoint (namespace name text : string) : M ev unit :=
  request Downstream VPatch endpointsGVR namespace name (PatchBody StrategicMergePatchType text).

(** ** One pass ([endpoint_downstream_process.go]) *)

(** The locator is one of this very sync target. *)
Definition same_sync_target (l : NamespaceLocator) : bool :=
  bool_decide (stl_UID (nl_SyncTarget l) = c_syncTargetUID c)
  && bool_decide (stl_Name (nl_SyncTarget l) = c_syncTargetName c)
  && bool_decide (stl_ClusterName (nl_SyncTarget l) = c_syncTargetClusterName c).
Definition upsync_label : string := ClusterResourceStateLabelPrefix +:+ c_syncTargetKey c.
Definition is_labelled (endpoints : Unstructured) : bool :=
  bool_decide (map_index (GetLabels endpoints) upsync_label = ResourceStateUpsync).
(** The Service's annotation lists the resources to upsync; a core resource is
    named without a group. *)
Definition derivedResourcesToUpsync (service : Unstructured) : list string :=
  Split (map_index (GetAnnotations service) ExperimentalUpsyncDerivedResourcesAnnotationKey) ",".
Definition asks_for_endpoints (service : Unstructured) : bool :=
  bool_decide (gvr_Resource endpointsGVR ∈ derivedResourcesToUpsync service).
Definition label_patch : string :=
  "{" +:+ quoted "metadata" +:+ ": {" +:+ quoted "labels" +:+ ": {" +:+ quoted upsync_label +:+ ":"
  +:+ quoted ResourceStateUpsync +:+ "}}}".
Definition unless_missing (r : result unit) : M ev unit :=
  match r with
  | inl err => if IsNotFound err then mret tt else fail err
  | inr _ => mret tt
  end.

(** The last checks, on the Service, and the patch. *)
Definition process_service (namespace name : string) : M ev unit :=
  r ← try (getDownstreamResource servicesGVR namespace name);
  match r with
  | inl err => if IsNotFound err then mret tt else fail err
  | inr service =>
      if negb (bool_decide (OwnerReferences (u_meta service) = [])) then mret tt
      else if negb (asks_for_endpoints service) then mret tt
      else r ← try (patchEndpoint namespace name label_patch); unless_missing r
  end.
Definition process_endpoints (namespace name : string) : M ev unit :=
  r ← try (getDownstreamResource endpointsGVR namespace name);
  match r with
  | inl err => if IsNotFound err then mret tt else fail err
  | inr endpoints =>
      if is_labelled endpoints then mret tt else process_service namespace name
  end.
Definition process (key : string) : M ev unit :=
  match SplitMetaNamespaceKey key with
  | inl err => fail err
  | inr (namespace, name) =>
      r ← try (getDownstreamNamespace namespace);
      match r with
      | inl err => if IsNotFound err then mret tt else fail err
      | inr namespaceObj =>
          match LocatorFromAnnotations (GetAnnotations namespaceObj) with
          | inl err => fail err
          | inr None => mret tt
          | inr (Some locator) =>
              if negb (same_sync_target locator) then mret tt else process_endpoints namespace name
          end
      end
  end.

(** ** Handlers and queue *)

Definition endpoints_key (key : string) : queueKey := {| qk_gvr := endpointsGVR; qk_key := key |}.
Definition enqueueEndpoints (obj : ObjectMeta) : M ev unit :=
  match MetaNamespaceKeyFunc obj with
  | inl err => emit (EvHandleError err)
  | inr key => emit (EvAdd (endpoints_key key))
  end.
(** The errors that it only logs do not stop it: a key that does not split looks
    the empty names up. *)
Definition enqueueService (obj : ObjectMeta) : M ev unit :=
  match MetaNamespaceKeyFunc obj with
  | inl err => emit (EvHandleError err)
  | inr key =>
      let '(namespace, name) :=
        match SplitMetaNamespaceKey key with inl _ => ("", "") | inr p => p end in
      r ← try (getDownstreamResource endpointsGVR namespace name);
      match r with
      | inl err => if IsNotFound err then mret tt else emit (EvAdd (endpoints_key key))
      | inr _ => emit (EvAdd (endpoints_key key))
      end
  end.
Definition processNextWorkItem (key : string) : M ev unit := fun h =>
  let '(h, r) :=
    (r ← try (process key);
     match r with
     | inl err =>
         emit (EvHandleError (ErrWrap "failed to sync" err));;
         emit (EvAddRateLimited (endpoints_key key))
     | inr _ => emit (EvForget (endpoints_key key))
     end) h in
  (h ++ [EvDone (endpoints_key key)], r).

End endpoints.

(** * Lemmas *)

Local Open Scope N_scope.
(** The text of the patch, which the code writes by hand, is the JSON of the
    label: the key of a sync target needs no escape. *)
Lemma label_patch_print c :
  simple_text (c_syncTargetKey c) = true ->
  parse (label_patch c) = inr (JObject [("metadata", JObject [("labels",
    JObject [(upsync_label c, JString ResourceStateUpsync)])])]).
Proof.
  intros Hk. assert (Hl : simple_text (upsync_label c) = true)
    by (unfold upsync_label; by rewrite simple_app, Hk).
  unfold label_patch. rewrite (quoted_simple _ Hl). generalize (simple_ascii _ Hl).
  generalize (upsync_label c). clear. intros k Hk.
  set (m3 := quote k +:+ String ":" (quote ResourceStateUpsync +:+ "}}}")).
  set (m2 := quote "labels" +:+ String ":" (String " " (String "{" m3))).
  set (m1 := quote "metadata" +:+ String ":" (String " " (String "{" m2))).
  change ("{" +:+ _) with (String "{" m1).
  unfold parse, parse_with.
  assert (exists f, parse_fuel (String "{" m1) = (9 + f)%nat) as [f ->].
  { exists (parse_fuel (String "{" m1) - 9)%nat. unfold parse_fuel. simpl. lia. }
  assert (H3 : forall f d, read_members (2 + f)%nat d m3
    = Read [(k, JString ResourceStateUpsync)] "}}").
  { intros g d. eapply (read_members_last (1 + g));
      [reflexivity|done|reflexivity|by apply (read_value_string g d _ ResourceStateUpsync)|reflexivity]. }
  assert (H2 : forall f d, read_members (5 + f)%nat (d + 1) m2
    = Read [("labels", JObject [(k, JString ResourceStateUpsync)])] "}").
  { intros g d. eapply (read_members_last (4 + g)); [reflexivity|done|reflexivity
      |etrans; [apply (read_value_space (3 + g))|]; eapply (read_value_object (3 + g)); [reflexivity|apply (H3 (1 + g)%nat)]
      |reflexivity]. }
  assert (H1 : forall f d, read_members (7 + f)%nat (d + 1 + 1) m1
    = Read [("metadata", JObject [("labels", JObject [(k, JString ResourceStateUpsync)])])] "").
  { intros g d. eapply (read_members_last (6 + g)); [reflexivity|done|reflexivity
      |etrans; [apply (read_value_space (5 + g))|]; eapply (read_value_object (5 + g)); [reflexivity|apply H2]
      |reflexivity]. }
  assert (H := read_value_object (8 + f) (max_depth - 1) m1 _ _ _ eq_refl (H1 (1 + f)%nat (max_depth - 3))).
  change (max_depth - 1 + 1) with max_depth in H. change (9 + f)%nat with (S (8 + f)).
  by rewrite H.
Qed.

Section theorems.
Context {EL : ErrorLib} {NK : NamespaceKeyLib} {W : World}.
Variable c : Controller.

(** What the controller looks for, in the caches after [h]. *)
Record wants (h : list ev) (ns name : string) : Prop := {
  w_namespace : exists nsObj l,
    getDownstreamNamespace ns h = (h, Ok nsObj) /\
    LocatorFromAnnotations (GetAnnotations nsObj) = inr (Some l) /\ same_sync_target c l = true;
  w_endpoints : exists endpoints,
    getDownstreamResource endpointsGVR ns name h = (h, Ok endpoints) /\
    map_index (GetLabels endpoints) (upsync_label c) <> ResourceStateUpsync;
  w_service : exists service,
    getDownstreamResource servicesGVR ns name h = (h, Ok service) /\
    OwnerReferences (u_meta service) = [] /\
    "endpoints" ∈ Split (map_index (GetAnnotations service)
                           ExperimentalUpsyncDerivedResourcesAnnotationKey) ",";
}.
Definition label_request (ns name : string) : ev :=
  EvRequest Downstream VPatch endpointsGVR ns name
    (PatchBody StrategicMergePatchType (label_patch c)).

Lemma lookup_quiet gvr ns name h : (getDownstreamResource gvr ns name h).1 = h.
Proof.
  unfold getDownstreamResource, getDownstreamLister, observe, mbind, M_bind.
  by destruct (informer_for _ _ _).
Qed.
Lemma namespace_quiet name h : (getDownstreamNamespace name h).1 = h.
Proof. apply (lookup_quiet namespaceGVR "" name). Qed.
Lemma lookup_not_panic gvr ns name h : is_panic (getDownstreamResource gvr ns name h).2 = false.
Proof.
  unfold getDownstreamResource, getDownstreamLister, observe, mbind, M_bind.
  destruct (informer_for _ _ _); [done|]. simpl. by destruct (downstream_Get _ _ _ _).
Qed.
(** A look-up, and what is done with its answer. *)
Lemma try_lookup {B} gvr ns name (f : result Unstructured -> M ev B) h :
  (try (getDownstreamResource gvr ns name) ≫= f) h =
  f (match (getDownstreamResource gvr ns name h).2 with Ok u => inr u | Err e => inl e
     | Panic s => inl (ErrMsg s) end) h.
Proof.
  pose proof (lookup_quiet gvr ns name h) as Hq. pose proof (lookup_not_panic gvr ns name h) as Hp.
  unfold mbind at 1, M_bind, try.
  by destruct (getDownstreamResource gvr ns name h) as [h' [u|e|s]]; simplify_eq/=.
Qed.

(** The patch is sent exactly when it is wanted. *)
Definition patched (h : list ev) (ns name : string) (m : M ev unit) (P : Prop) : Prop :=
  (P /\ (m h).1 = h ++ [label_request ns name]) \/ (~ P /\ (m h).1 = h).
Lemma service_patched h ns name :
  patched h ns name (process_service c ns name) (exists service,
    getDownstreamResource servicesGVR ns name h = (h, Ok service) /\
    OwnerReferences (u_meta service) = [] /\
    "endpoints" ∈ Split (map_index (GetAnnotations service)
                           ExperimentalUpsyncDerivedResourcesAnnotationKey) ",").
Proof.
  unfold patched, process_service. rewrite try_lookup.
  pose proof (lookup_quiet servicesGVR ns name h) as Hq.
  destruct (getDownstreamResource servicesGVR ns name h) as [h' [u|e|s]]; simpl in *; subst.
  - destruct (bool_decide (OwnerReferences (u_meta u) = [])) eqn:Ho; simpl.
    + apply bool_decide_eq_true in Ho. unfold asks_for_endpoints.
      destruct (bool_decide _) eqn:Hd; simpl.
      * apply bool_decide_eq_true in Hd. left. split; [by exists u|].
        unfold try, patchEndpoint, request, call, mbind, M_bind, unless_missing. simpl.
        destruct (api_write _); simpl; [|done]. by case_match.
      * apply bool_decide_eq_false in Hd. right. split; [|done].
        intros (u' & [= <-] & _ & H). by apply Hd.
    + apply bool_decide_eq_false in Ho. right. split; [|done]. by intros (u' & [= <-] & H & _).
  - right. split; [by intros (? & ? & _)|]. by destruct (IsNotFound e).
  - right. split; [by intros (? & ? & _)|]. by destruct (IsNotFound _).
Qed.

Lemma endpoints_request key ns name h :
  SplitMetaNamespaceKey key = inr (ns, name) ->
  (wants h ns name /\ (process c key h).1 = h ++ [label_request ns name]) \/
  (~ wants h ns name /\ (process c key h).1 = h).
Proof.
  intros Hk. unfold process. rewrite Hk.
  change (getDownstreamNamespace ns) with (getDownstreamResource namespaceGVR "" ns).
  rewrite try_lookup. pose proof (lookup_quiet namespaceGVR "" ns h) as Hq.
  assert (Hno : forall r, (getDownstreamNamespace ns h) = (h, r) -> (forall u, r <> Ok u) -> ~ wants h ns name).
  { intros r Hr Hu [(u & l & H & _) _ _]. rewrite Hr in H. by injection H as ->; eapply Hu. }
  change (getDownstreamNamespace ns) with (getDownstreamResource namespaceGVR "" ns) in Hno.
  destruct (getDownstreamResource namespaceGVR "" ns h) as [h' [u|e|s]] eqn:E; simpl in *; subst;
    [|right; split; [by eapply Hno|by destruct (IsNotFound e)]
     |right; split; [by eapply Hno|by destruct (IsNotFound _)]].
  assert (Hl : forall l, wants h ns name -> LocatorFromAnnotations (GetAnnotations u) = l ->
    exists l', l = inr (Some l') /\ same_sync_target c l' = true).
  { intros l [(u' & l' & H & Hl & Hs) _ _] <-. exists l'. split; [|done].
    change (getDownstreamNamespace ns) with (getDownstreamResource namespaceGVR "" ns) in H.
    rewrite E in H. by injection H as <-. }
  destruct (LocatorFromAnnotations (GetAnnotations u)) as [e|[l|]] eqn:El.
  1: by right; split; [|done]; intros Hw; destruct (Hl _ Hw eq_refl) as (? & ? & _).
  2: by right; split; [|done]; intros Hw; destruct (Hl _ Hw eq_refl) as (? & ? & _).
  destruct (same_sync_target c l) eqn:Es; simpl.
  2: { right; split; [|done]; intros Hw. destruct (Hl _ Hw eq_refl) as (? & [= <-] & ?). congruence. }
  unfold process_endpoints. rewrite try_lookup. pose proof (lookup_quiet endpointsGVR ns name h) as Hq.
  destruct (getDownstreamResource endpointsGVR ns name h) as [h' [p|e|s]] eqn:Ee; simpl in *; subst.
  2,3: right; split; [intros [_ (? & H & _) _]; congruence|by case_match].
  unfold is_labelled. destruct (bool_decide _) eqn:Hb.
  { apply bool_decide_eq_true in Hb. right. split; [|done]. intros [_ (p' & H & Hn) _].
    by injection (eq_trans (eq_sym Ee) H) as <-. }
  apply bool_decide_eq_false in Hb.
  destruct (service_patched h ns name) as [[Hs ->]|[Hs ->]]; [left|right]; (split; [|done]).
  - split; [|by exists p|done]. exists u, l. by split.
  - by intros [_ _ ?].
Qed.

(** A pass sends at most one request, the patch that labels the Endpoints of
    the key, and it sends it exactly when the namespace was made by this sync
    target, the Endpoints exist without the label, and their Service exists,
    has no owner and asks for its Endpoints to be upsynced. *)
Theorem endpoints_labelled key ns name h :
  SplitMetaNamespaceKey key = inr (ns, name) ->
  (wants h ns name /\ (process c key h).1 = h ++ [label_request ns name]) \/
  (~ wants h ns name /\ (process c key h).1 = h).
Proof. apply endpoints_request. Qed.
End theorems.

Section upstream.
Context {EL : ErrorLib} {CL : ClusterLib} {KL : KeyLib} {NK : NamespaceKeyLib} {W : World} {UW : UpsyncWorld}.
Variable c : Controller.
(** The server's strategic merge patch: it sets the labels that the patch lists, and
    leaves the name and namespace of the object alone. *)
Variable strategic_merge : string -> Unstructured -> Unstructured.
Hypothesis strategic_merge_labels : forall text u l k v,
  parse text = inr (JObject [("metadata", JObject [("labels", JObject l)])]) ->
  l = [(k, JString v)] -> map_get (GetLabels (strategic_merge text u)) k = Some v.
Hypothesis strategic_merge_identity : forall text u,
  GetName (strategic_merge text u) = GetName u /\ GetNamespace (strategic_merge text u) = GetNamespace u.

(** The label takes the Endpoints upstream: once the server has applied the
    patch, the controller leaves them alone, and the upsyncer's handlers queue them
    under the upstream namespace that their downstream namespace was made for. *)
Theorem labelled_endpoints_are_upsynced ns name h endpoints h' nsObj l key upstreamKey :
  c_syncTargetKey c = ToSyncTargetKey (c_syncTargetClusterName c) (c_syncTargetName c) ->
  SplitMetaNamespaceKey key = inr (ns, name) -> ns <> "" -> wants c h ns name ->
  getDownstreamResource endpointsGVR ns name h = (h, Ok endpoints) -> GetNamespace endpoints = ns ->
  let endpoints' := strategic_merge (label_patch c) endpoints in
  getDownstreamResource endpointsGVR ns name h' = (h', Ok endpoints') ->
  getDownstreamNamespace ns h' = (h', Ok nsObj) ->
  LocatorFromAnnotations (GetAnnotations nsObj) = inr (Some l) -> same_sync_target c l = true ->
  MetaClusterNamespaceKeyFunc (upsync_meta l endpoints) = inr upstreamKey ->
  (process c key h).1 = h ++ [label_request c ns name] /\ process c key h' = (h', Ok tt) /\
  exists marks, (upsync_AddFunc c endpointsGVR endpoints' h') =
    (h' ++ marks ++ [EvAdd {| qk_gvr := endpointsGVR; qk_key := upstreamKey |}], Ok tt).
Proof.
  intros Hc Hk Hne Hw He Hns endpoints' He' Hn Hl Hs Hkey.
  assert (Hlab : map_index (GetLabels endpoints') (upsync_label c) = ResourceStateUpsync).
  { unfold map_index. unfold endpoints'. erewrite strategic_merge_labels; [done| |done].
    apply label_patch_print. rewrite Hc. apply toBase62_simple. }
  destruct (strategic_merge_identity (label_patch c) endpoints) as [Hname Hnspc].
  split; [|split].
  - destruct (endpoints_request c key ns name h Hk) as [[_ H]|[H _]]; [done|by destruct H].
  - unfold process. rewrite Hk.
    rewrite (bind_ok _ _ h' h' (inr nsObj)) by (unfold try; by rewrite Hn).
    rewrite Hl, Hs. simpl. unfold process_endpoints.
    rewrite (bind_ok _ _ h' h' (inr endpoints')) by (unfold try; by rewrite He').
    unfold is_labelled. by rewrite Hlab, bool_decide_true.
  - unfold upsync_AddFunc. rewrite decide_False by done.
    unfold upsynced_here. fold (upsync_label c). rewrite Hlab, bool_decide_true by done. simpl.
    unfold getDownstreamNamespace in Hn. unbind Hn. unfold observe in Hn.
    assert (h0 = h') as ->.
    { unfold getDownstreamLister, observe in Hm. by injection Hm as <- _. }
    destruct a. eexists. apply (enqueueDownstream_adds c endpointsGVR endpoints' _ l nsObj).
    + unfold endpoints'. by rewrite Hnspc, Hns.
    + done.
    + unfold endpoints'. rewrite Hnspc, Hns. destruct (downstream_Get h' namespaceGVR "" ns); [done|].
      by injection Hn as ->.
    + done.
    + unfold same_sync_target in Hs. apply andb_prop in Hs as [Hs Hcl]. apply andb_prop in Hs as [Hu _].
      unfold our_locator. by rewrite Hu, Hcl.
    + unfold upsync_meta, endpoints'. by rewrite Hname.
Qed.
End upstream.

(** * Examples *)

Module Examples.
#[local] Existing Instances simple_errors simple_clusters.
#[local] Instance key_names : KeyLib := Upsync.Examples.keys.
#[local] Instance namespace_keys : NamespaceKeyLib := {|
  MetaNamespaceKeyFunc o :=
    inr (if decide (Namespace o = "") then Name o else Namespace o +:+ "/" +:+ Name o);
  SplitMetaNamespaceKey k :=
    match Split k "/" with [n] => inr ("", n) | [ns; n] => inr (ns, n)
                         | _ => inl (ErrMsg "unexpected key format") end |}.
Definition config : Controller := {|
  mutators := ∅; c_syncTargetName := "st"; c_syncTargetClusterName := "org"; c_syncTargetUID := "uid";
  c_syncTargetKey := ToSyncTargetKey "org" "st"; advancedSchedulingEnabled := false;
  c_dnsNamespace := "dns"; c_dnsImage := "image" |}.
Definition obj (name ns : string) (a : gmap string string) : Unstructured := {|
  u_meta := mk_meta name ns None (Some a) []; u_more := ∅; u_content := ∅ |}.
Definition the_namespace : Unstructured := obj "kcp-x" ""
  {[ NamespaceLocatorAnnotation := Marshal (NewNamespaceLocator "ws" "org" "uid" "st" "ns") ]}.
Definition service : Unstructured := obj "web" "kcp-x"
  {[ ExperimentalUpsyncDerivedResourcesAnnotationKey := "pods,endpoints" ]}.
Definition endpoints : Unstructured := obj "web" "kcp-x" ∅.
(** A server that reads the labels of a patch. *)
Definition merge (text : string) (u : Unstructured) : Unstructured :=
  match parse text with
  | inr (JObject [("metadata", JObject [("labels", JObject [(k, JString v)])])]) =>
      SetLabels u (Some (<[k := v]> (entries (GetLabels u))))
  | _ => u
  end.
(** After the patch the cache has the labelled Endpoints. *)
Definition world : World := {|
  api_write _ := inr tt; api_get _ := inr endpoints; getShardAccess _ _ := inr true;
  downstream_Informers _ := ({[ endpointsGVR; servicesGVR; namespaceGVR ]}, []);
  upstream_Informers _ _ := (∅, []);
  upstream_Get _ _ _ _ _ := inl (ErrMsg "unused");
  downstream_Get h gvr _ _ :=
    if decide (gvr = namespaceGVR) then inr the_namespace
    else if decide (gvr = servicesGVR) then inr service
    else match h with [] => inr endpoints | _ => inr (merge (label_patch config) endpoints) end;
  downstream_Namespaces _ := inr [the_namespace] |}.

Lemma wanted : @wants world config [] "kcp-x" "web".
Proof.
  split.
  - exists the_namespace, (NewNamespaceLocator "ws" "org" "uid" "st" "ns").
    by vm_compute.
  - exists endpoints. split; [by vm_compute|discriminate].
  - exists service. split; [by vm_compute|]. split; [done|]. apply (bool_decide_unpack _). by vm_compute.
Qed.

Lemma endpoints_labelled_witness :
  (@process simple_errors namespace_keys world config "kcp-x/web" []).1
    = [label_request config "kcp-x" "web"].
Proof.
  destruct (@endpoints_labelled simple_errors namespace_keys world config "kcp-x/web" "kcp-x" "web" []
    ltac:(vm_compute; reflexivity)) as [[_ H]|[H _]]; [exact H|exfalso; exact (H wanted)].
Defined.

Lemma labelled_endpoints_are_upsynced_witness :
  let W : World := world in
  exists marks, upsync_AddFunc config endpointsGVR (merge (label_patch config) endpoints)
    [label_request config "kcp-x" "web"] =
    ([label_request config "kcp-x" "web"] ++ marks ++
      [EvAdd {| qk_gvr := endpointsGVR; qk_key := "ws|ns/web" |}], Ok tt).
Proof.
  intros W.
  refine (proj2 (proj2 (@labelled_endpoints_are_upsynced simple_errors simple_clusters key_names
    namespace_keys W config merge _ _ "kcp-x" "web" [] endpoints [label_request config "kcp-x" "web"]
    the_namespace (NewNamespaceLocator "ws" "org" "uid" "st" "ns") "kcp-x/web" "ws|ns/web"
    _ _ _ _ _ _ _ _ _ _ _))).
  - intros text u l k v H ->. unfold merge. rewrite H. apply lookup_insert_eq.
  - intros text u. unfold merge. repeat case_match; done.
  - reflexivity.
  - vm_compute. reflexivity.
  - discriminate.
  - exact wanted.
  - vm_compute. reflexivity.
  - reflexivity.
  - vm_compute. reflexivity.
  - vm_compute. reflexivity.
  - vm_compute. reflexivity.
  - vm_compute. reflexivity.
  - vm_compute. reflexivity.
Defined.
End Examples.
