(* ===== verification/Mutators.v ===== *)
(** * The mutators of the spec syncer ([pkg/syncer/spec/mutators])

    What the spec syncer changes in an object before it sends it downstream: pod
    templates talk to the workspace instead of to the physical cluster, and the
    tokens of service accounts become opaque secrets. *)

From S2P Require Import Prelude Platform GoTime Digest ApiTypes Committer Json JsonValue SyncerShared Dns SpecSync.
Local Open Scope nat_scope.

(** ** Libraries *)

(** [sort.Slice]: a permutation, sorted when the comparison is a strict weak
    order; the order of equal elements is not specified. *)
Definition strict_weak_order {A} (less : A -> A -> bool) : Prop :=
  (forall x y, less x y = true -> less y x = false) /\
  (forall x y z, less x y = false -> less y z = false -> less x z = false).
Class SliceSort := {
  SortSlice : forall {A}, (A -> A -> bool) -> list A -> list A;
  SortSlice_perm : forall A (less : A -> A -> bool) l, SortSlice less l ≡ₚ l;
  SortSlice_sorted : forall A (less : A -> A -> bool) l,
    strict_weak_order less -> StronglySorted (fun x y => less y x = false) (SortSlice less l);
}.
(** [unstructured.NestedMap], which copies, and [unstructured.SetNestedMap], which
    changes nothing outside of the field. *)
Class NestedMapLib := {
  NestedMap : Unstructured -> list string -> result (option (gmap string json));
  SetNestedMap : Unstructured -> gmap string json -> list string -> result Unstructured;
  SetNestedMap_frame : forall u m k path u', SetNestedMap u m (k :: path) = inr u' -> k <> "metadata" ->
    u_meta u' = u_meta u /\ u_more u' = u_more u /\
    (forall k', k' <> k -> u_content u' !! k' = u_content u !! k');
  SetNestedMap_get : forall u m path u', SetNestedMap u m path = inr u' -> NestedMap u' path = inr (Some m);
}.
(** [url.Parse], with [URL.Hostname] and [URL.Port]. *)
Record URL := { Hostname : string; Port : string }.
Class UrlParseLib := { url_Parse : string -> result URL }.

(** ** Pod templates ([k8s.io/api/core/v1])

    The fields that the code reads or writes; each [_more] is the others. *)

Record EnvVarSource := { FieldRef : option string; evs_more : gmap string json }.
Record EnvVar := { env_Name : string; env_Value : string; ValueFrom : option EnvVarSource }.
Record VolumeMount := {
  vm_Name : string; MountPath : string; ReadOnly : bool; vm_more : gmap string json }.
Record PodContainer := {
  Env : list EnvVar; VolumeMounts : list VolumeMount; pc_more : gmap string json }.
Record KeyToPath := { ktp_Key : string; ktp_Path : string }.
Inductive VolumeProjection :=
  | SecretProjection (name : string) (items : list KeyToPath)
  | ConfigMapProjection (name : string) (items : list KeyToPath)
  | OtherProjection (source : json).
Inductive VolumeSource :=
  | Projected (DefaultMode : option Z) (sources : list VolumeProjection)
  | OtherSource (source : json).
Record Volume := { vol_Name : string; vol_Source : VolumeSource }.
Record PodDNSConfig := {
  Nameservers : list string; Searches : list string; Options : list (string * option string) }.
Record PodSpec := {
  ServiceAccountName : string;
  AutomountServiceAccountToken : option bool;
  Containers : list PodContainer;
  InitContainers : list PodContainer;
  EphemeralContainers : list PodContainer;
  Volumes : list Volume;
  DNSPolicy : string;
  DNSConfig : option PodDNSConfig;
  ps_more : gmap string json;
}.
Record PodTemplateSpec := {
  pt_Labels : gomap; pt_Spec : PodSpec; pt_more : gmap string json }.
(** [runtime.DefaultUnstructuredConverter] at this type. *)
Class PodTemplateLib := {
  PodTemplate_FromUnstructured : gmap string json -> result PodTemplateSpec;
  PodTemplate_ToUnstructured : PodTemplateSpec -> result (gmap string json);
}.

(** ** Lists of environment variables and mounts ([podspecable.go]) *)

(** [findEnv], [findVolumeMount]: the first index. *)
Definition findEnv (envs : list EnvVar) (name : string) : option nat :=
  fst <$> list_find (fun e => env_Name e = name) envs.
Definition updateEnv (envs : list EnvVar) (overrideEnv : EnvVar) : list EnvVar :=
  match findEnv envs (env_Name overrideEnv) with
  | Some i =>
      alter (fun e => {| env_Name := env_Name e; env_Value := env_Value overrideEnv;
                         ValueFrom := ValueFrom e |}) i envs
  | None => envs ++ [overrideEnv]
  end.
Definition resolve_env (namespace : string) (env : EnvVar) : EnvVar :=
  match ValueFrom env with
  | Some {| FieldRef := Some path |} =>
      if decide (path = "metadata.namespace")
      then {| env_Name := env_Name env; env_Value := namespace; ValueFrom := None |}
      else env
  | _ => env
  end.
Definition resolveDownwardAPIFieldRefEnv (envs : list EnvVar) (podspecable : Unstructured)
    : list EnvVar := resolve_env (GetNamespace podspecable) <$> envs.
Definition findVolumeMount (volumeMounts : list VolumeMount) (name : string) : option nat :=
  fst <$> list_find (fun v => vm_Name v = name) volumeMounts.
Definition updateVolumeMount (volumeMounts : list VolumeMount) (overrideVolumeMount : VolumeMount)
    : list VolumeMount :=
  match findVolumeMount volumeMounts (vm_Name overrideVolumeMount) with
  | Some i => <[i := overrideVolumeMount]> volumeMounts
  | None => volumeMounts ++ [overrideVolumeMount]
  end.

Definition override_env (name value : string) : EnvVar :=
  {| env_Name := name; env_Value := value; ValueFrom := None |}.
Definition overrideEnvs (workspaceURL : URL) : list EnvVar :=
  [override_env "KUBERNETES_SERVICE_PORT" (Port workspaceURL);
   override_env "KUBERNETES_SERVICE_PORT_HTTPS" (Port workspaceURL);
   override_env "KUBERNETES_SERVICE_HOST" (Hostname workspaceURL)].
Definition serviceAccountMount : VolumeMount := {|
  vm_Name := "kcp-api-access"; MountPath := "/var/run/secrets/kubernetes.io/serviceaccount";
  ReadOnly := true; vm_more := ∅ |}.
Definition serviceAccountVolume (desiredSecretName : string) : Volume := {|
  vol_Name := "kcp-api-access";
  vol_Source := Projected (Some 420%Z)
    [SecretProjection desiredSecretName
       [{| ktp_Key := "token"; ktp_Path := "token" |};
        {| ktp_Key := "namespace"; ktp_Path := "namespace" |}];
     ConfigMapProjection "kcp-root-ca.crt" [{| ktp_Key := "ca.crt"; ktp_Path := "ca.crt" |}]] |}.
(** One container: the variables in their order, then the mount. *)
Definition mutate_env (obj : Unstructured) (workspaceURL : URL) (envs : list EnvVar) : list EnvVar :=
  resolveDownwardAPIFieldRefEnv (foldl updateEnv envs (overrideEnvs workspaceURL)) obj.
Definition mutate_container (obj : Unstructured) (workspaceURL : URL) (ctr : PodContainer)
    : PodContainer := {|
  Env := mutate_env obj workspaceURL (Env ctr);
  VolumeMounts := updateVolumeMount (VolumeMounts ctr) serviceAccountMount;
  pc_more := pc_more ctr |}.
(** Every volume of the name is replaced. *)
Definition updateVolumes (volumes : list Volume) (v : Volume) : list Volume :=
  if existsb (fun x => bool_decide (vol_Name x = "kcp-api-access")) volumes
  then (fun x => if decide (vol_Name x = "kcp-api-access") then v else x) <$> volumes
  else volumes ++ [v].
Definition dns_config (dnsIP namespace : string) : PodDNSConfig := {|
  Nameservers := [dnsIP];
  Searches := [namespace +:+ ".svc.cluster.local"; "svc.cluster.local"; "cluster.local"];
  Options := [("ndots", Some "5")] |}.

(** ** The pod mutator *)

(** The informer factory of a cluster: its synced and its other resources, and
    the secrets of a namespace. *)
Record DDSIF := {
  ddsif_Informers : gset GroupVersionResource * list GroupVersionResource;
  ddsif_Secrets : string -> result (list Unstructured);
}.
(** [type PodSpecableMutator struct], with what its closures capture;
    [serviceLister] gives the cluster IP of a service. *)
Record PodSpecableMutator := {
  ddsifForUpstreamSyncer : string -> result DDSIF;
  serviceLister : string -> string -> result string;
  dm_syncTargetClusterName : string;
  dm_syncTargetUID : string;
  dm_syncTargetName : string;
  dm_dnsNamespace : string;
  upsyncPods : bool;
}.

Section podspecable.
Context {CL : ClusterLib} {KL : KeyLib} {B36 : Base36Lib} {SS : SliceSort} {NM : NestedMapLib}
        {UP : UrlParseLib} {PT : PodTemplateLib}.
Variable dm : PodSpecableMutator.

Definition apps_v1 (r : string) : GroupVersionResource :=
  {| gvr_Group := "apps"; gvr_Version := "v1"; gvr_Resource := r |}.
Definition PodSpecableMutator_GVRs : list GroupVersionResource :=
  [apps_v1 "deployments"; apps_v1 "statefulsets"; apps_v1 "replicasets"].

Definition getWorkspaceURL (obj : Unstructured) : result URL :=
  match map_get (GetAnnotations obj) InternalWorkspaceURLAnnotationKey with
  | None => inl (ErrMsg "annotation not found")
  | Some workspaceURL => url_Parse workspaceURL
  end.
Definition listSecrets (clusterName namespace : string) : result (list Unstructured) :=
  ddsif ← ddsifForUpstreamSyncer dm clusterName;
  informer_for "upstream syncer" (ddsif_Informers ddsif) secretGVR;;
  ddsif_Secrets ddsif namespace.

Definition created_before (a b : Unstructured) : bool :=
  bool_decide (CreationTimestamp (u_meta a) < CreationTimestamp (u_meta b))%Z.
Definition token_of (serviceAccount : string) (secret : Unstructured) : bool :=
  bool_decide (map_get (GetAnnotations secret) ServiceAccountNameKey = Some serviceAccount).
Definition downstream_secret_name (serviceAccount : string) (secret : Unstructured) : string :=
  if decide (serviceAccount = "default") then "kcp-" +:+ GetName secret else GetName secret.
(** The first token of the service account, the oldest first. *)
Definition find_token (serviceAccount : string) (secrets : list Unstructured) : option Unstructured :=
  snd <$> list_find (fun s => token_of serviceAccount s = true) (SortSlice created_before secrets).
(** The code's [desiredSecretName]: empty when there is none. *)
Definition desiredSecretName (serviceAccount : string) (secrets : list Unstructured) : string :=
  match find_token serviceAccount secrets with
  | Some s => downstream_secret_name serviceAccount s
  | None => ""
  end.
Definition desiredServiceAccountName (podTemplate : PodTemplateSpec) : string :=
  let name := ServiceAccountName (pt_Spec podTemplate) in
  if decide (name = "") then "default" else name.

Definition getDNSIPForWorkspace (workspace : string) : res string :=
  dnsServiceName ← GetDNSID workspace (dm_syncTargetUID dm) (dm_syncTargetName dm);
  match serviceLister dm (dm_dnsNamespace dm) dnsServiceName with
  | inl err => Err (ErrWrap "failed to get DNS service" err)
  | inr ip =>
      if decide (ip = "") then Err (ErrMsg "DNS service IP address not found") else Ok ip
  end.

Definition pod_labels (labels : gomap) : gomap :=
  let syncTargetKey := ToSyncTargetKey (dm_syncTargetClusterName dm) (dm_syncTargetName dm) in
  Some (<[InternalDownstreamClusterLabel := syncTargetKey]>
         (<[ClusterResourceStateLabelPrefix +:+ syncTargetKey := ResourceStateUpsync]>
           (entries labels))).
Definition mutate_spec (obj : Unstructured) (secretName dnsIP : string) (workspaceURL : URL)
    (spec : PodSpec) : PodSpec := {|
  ServiceAccountName := "";
  AutomountServiceAccountToken := Some false;
  Containers := mutate_container obj workspaceURL <$> Containers spec;
  InitContainers := mutate_container obj workspaceURL <$> InitContainers spec;
  EphemeralContainers := mutate_container obj workspaceURL <$> EphemeralContainers spec;
  Volumes := updateVolumes (Volumes spec) (serviceAccountVolume secretName);
  DNSPolicy := "None";
  DNSConfig := Some (dns_config dnsIP (GetNamespace obj));
  ps_more := ps_more spec |}.
Definition mutate_template (obj : Unstructured) (secretName dnsIP : string) (workspaceURL : URL)
    (podTemplate : PodTemplateSpec) : PodTemplateSpec := {|
  pt_Labels := if upsyncPods dm then pod_labels (pt_Labels podTemplate) else pt_Labels podTemplate;
  pt_Spec := mutate_spec obj secretName dnsIP workspaceURL (pt_Spec podTemplate);
  pt_more := pt_more podTemplate |}.

Definition get_template (obj : Unstructured) : result PodTemplateSpec :=
  podTemplateUnstr ← NestedMap obj ["spec"; "template"];
  match podTemplateUnstr with
  | None => inl (ErrMsg "object should have a PodTemplate.Spec 'spec.template', but doesn't")
  | Some m => PodTemplate_FromUnstructured m
  end.
Definition token_secret (obj : Unstructured) (podTemplate : PodTemplateSpec) : result string :=
  match listSecrets (ClusterFrom (u_meta obj)) (GetNamespace obj) with
  | inl err => inl (ErrWrap "error listing secrets for workspace" err)
  | inr secretList =>
      let name := desiredSecretName (desiredServiceAccountName podTemplate) secretList in
      if decide (name = "") then inl (ErrMsg "couldn't find a token upstream for the serviceaccount")
      else inr name
  end.
Definition Mutate (obj : Unstructured) : res Unstructured :=
  podTemplate ← of_result (get_template obj);
  secretName ← of_result (token_secret obj podTemplate);
  workspaceURL ← of_result (getWorkspaceURL obj);
  dnsIP ← getDNSIPForWorkspace (ClusterFrom (u_meta obj));
  let podTemplate := mutate_template obj secretName dnsIP workspaceURL podTemplate in
  newPodTemplateUnstr ← of_result (PodTemplate_ToUnstructured podTemplate);
  of_result (SetNestedMap obj newPodTemplateUnstr ["spec"; "template"]).
End podspecable.

(** ** The secret mutator ([secrets.go]) *)

Section secret.
Context {KL : KeyLib}.
Definition SecretMutator_GVRs : list GroupVersionResource := [secretGVR].
(** [SetAnnotations(nil)] for the empty map, too. *)
Definition SecretMutator_Mutate (obj : Unstructured) : res Unstructured :=
  match map_get (GetAnnotations obj) ServiceAccountNameKey with
  | None => Ok obj
  | Some _ =>
      let obj := SetContent "type" (JString "Opaque") obj in
      let annotations := map_delete (map_delete (GetAnnotations obj) ServiceAccountNameKey)
                           ServiceAccountUIDKey in
      Ok (SetAnnotations obj (if decide (entries annotations = ∅) then None else annotations))
  end.
End secret.

(** ** The table of the spec syncer ([spec_controller.go]) *)

Definition mutator_table (mutators : list (list GroupVersionResource * (Unstructured -> res Unstructured)))
    : gmap GroupVersionResource (Unstructured -> res Unstructured) :=
  foldl (fun table m => foldl (fun table gvr => <[gvr := m.2]> table) table m.1) ∅ mutators.

(** * Lemmas *)

(** ** Environment variables *)

Section env.
(** The variable of a name: the first one. *)
Definition env_at (envs : list EnvVar) (name : string) : option EnvVar :=
  snd <$> list_find (fun e => env_Name e = name) envs.
Definition with_value (v : string) (e : EnvVar) : EnvVar :=
  {| env_Name := env_Name e; env_Value := v; ValueFrom := ValueFrom e |}.

Lemma env_at_cons e envs k :
  env_at (e :: envs) k = if decide (env_Name e = k) then Some e else env_at envs k.
Proof.
  unfold env_at. simpl. destruct (decide (env_Name e = k)); [done|].
  by destruct (list_find _ envs) as [[i x]|].
Qed.
Lemma updateEnv_cons e envs o :
  updateEnv (e :: envs) o =
    if decide (env_Name e = env_Name o) then with_value (env_Value o) e :: envs
    else e :: updateEnv envs o.
Proof.
  unfold updateEnv, findEnv. simpl. destruct (decide (env_Name e = env_Name o)); [done|].
  by destruct (list_find _ envs) as [[i x]|].
Qed.
Lemma env_at_update envs o k :
  env_at (updateEnv envs o) k =
    if decide (k = env_Name o)
    then Some (from_option (with_value (env_Value o)) o (env_at envs k)) else env_at envs k.
Proof.
  induction envs as [|e envs IH].
  { unfold updateEnv, findEnv. simpl. rewrite env_at_cons. by repeat case_decide; simplify_eq/=. }
  rewrite updateEnv_cons, !env_at_cons. destruct (decide (env_Name e = env_Name o)) as [E|E].
  - rewrite env_at_cons. unfold with_value at 1. simpl. by repeat case_decide; simplify_eq/=.
  - rewrite env_at_cons, IH. by repeat case_decide; simplify_eq/=.
Qed.
(** The names that were there stay in their order, and a new one comes last. *)
Lemma update_names envs o :
  env_Name <$> updateEnv envs o =
    (env_Name <$> envs) ++ (if decide (env_Name o ∈ env_Name <$> envs) then [] else [env_Name o]).
Proof.
  induction envs as [|e envs IH].
  { change (updateEnv [] o) with [o]. reflexivity. }
  rewrite updateEnv_cons, fmap_cons.
  destruct (decide (env_Name e = env_Name o)) as [E|E].
  - rewrite decide_True by (rewrite E; apply list_elem_of_here). by rewrite app_nil_r.
  - rewrite fmap_cons, IH. simpl. f_equal. f_equal.
    pose proof (elem_of_cons (env_Name <$> envs) (env_Name o) (env_Name e)).
    destruct (decide (env_Name o ∈ env_Name <$> envs)), (decide (env_Name o ∈ env_Name e :: (env_Name <$> envs)));
      try done; exfalso; naive_solver.
Qed.
Lemma env_at_fmap (f : EnvVar -> EnvVar) envs k :
  (forall e, env_Name (f e) = env_Name e) -> env_at (f <$> envs) k = f <$> env_at envs k.
Proof.
  intros Hf. induction envs as [|e envs IH]; [done|]. rewrite fmap_cons, !env_at_cons, IH, Hf.
  by case_decide.
Qed.
Lemma resolve_name ns e : env_Name (resolve_env ns e) = env_Name e.
Proof. unfold resolve_env. by repeat case_match. Qed.

(** The value that the workspace gives to a variable. *)
Definition override_of (url : URL) (k : string) : option string :=
  if decide (k = "KUBERNETES_SERVICE_PORT") then Some (Port url)
  else if decide (k = "KUBERNETES_SERVICE_PORT_HTTPS") then Some (Port url)
  else if decide (k = "KUBERNETES_SERVICE_HOST") then Some (Hostname url) else None.
Lemma mutate_env_at obj url envs k :
  env_at (mutate_env obj url envs) k =
    match override_of url k with
    | Some v => Some (resolve_env (GetNamespace obj)
                  (from_option (with_value v) (override_env k v) (env_at envs k)))
    | None => resolve_env (GetNamespace obj) <$> env_at envs k
    end.
Proof.
  unfold mutate_env, resolveDownwardAPIFieldRefEnv. rewrite env_at_fmap by apply resolve_name.
  unfold overrideEnvs. cbn [foldl]. rewrite !env_at_update. unfold override_of. cbn [env_Name override_env].
  by repeat case_decide; simplify_eq/=.
Qed.
Lemma mutate_env_names obj url envs :
  exists new, env_Name <$> mutate_env obj url envs = (env_Name <$> envs) ++ new /\
    (NoDup (env_Name <$> envs) -> NoDup (env_Name <$> mutate_env obj url envs)).
Proof.
  assert (Hr : forall l, env_Name <$> resolveDownwardAPIFieldRefEnv l obj = env_Name <$> l).
  { intros l. unfold resolveDownwardAPIFieldRefEnv. rewrite <-list_fmap_compose.
    apply list_fmap_ext. intros i e _. apply resolve_name. }
  assert (Hu : forall l o, exists new, env_Name <$> updateEnv l o = (env_Name <$> l) ++ new /\
    (NoDup (env_Name <$> l) -> NoDup (env_Name <$> updateEnv l o))).
  { intros l o. rewrite update_names. eexists. split; [done|]. intros Hl.
    destruct (decide _) as [|Hn]; [by rewrite app_nil_r|]. apply NoDup_app. split; [done|].
    split; [|apply NoDup_singleton]. by intros x Hx ->%list_elem_of_singleton. }
  unfold mutate_env. rewrite Hr. generalize (overrideEnvs url) as os. intros os. revert envs.
  induction os as [|o os IH]; intros envs; simpl; [exists []; by rewrite app_nil_r|].
  destruct (Hu envs o) as (n1 & H1 & D1), (IH (updateEnv envs o)) as (n2 & H2 & D2).
  exists (n1 ++ n2). rewrite H2, H1, app_assoc. split; [done|]. rewrite <-H1, <-H2. auto.
Qed.
End env.

(** ** Mounts and volumes *)

Lemma mount_update mounts :
  snd <$> list_find (fun v => vm_Name v = "kcp-api-access") (updateVolumeMount mounts serviceAccountMount)
    = Some serviceAccountMount.
Proof.
  induction mounts as [|m mounts IH]; [reflexivity|].
  assert (updateVolumeMount (m :: mounts) serviceAccountMount =
    if decide (vm_Name m = "kcp-api-access") then serviceAccountMount :: mounts
    else m :: updateVolumeMount mounts serviceAccountMount) as ->.
  { unfold updateVolumeMount, findVolumeMount. cbn [list_find vm_Name serviceAccountMount].
    destruct (decide (vm_Name m = "kcp-api-access")); [done|].
    by destruct (list_find _ mounts) as [[i x]|]. }
  destruct (decide (vm_Name m = "kcp-api-access")) as [E|E].
  - reflexivity.
  - cbn [list_find]. rewrite decide_False by done. destruct (list_find _ _) as [[i x]|]; [exact IH|done].
Qed.
Lemma updateVolumes_spec volumes v :
  vol_Name v = "kcp-api-access" ->
  v ∈ updateVolumes volumes v /\
  (forall x, x ∈ updateVolumes volumes v -> vol_Name x = "kcp-api-access" -> x = v) /\
  (forall x, vol_Name x <> "kcp-api-access" -> x ∈ updateVolumes volumes v <-> x ∈ volumes).
Proof.
  intros Hv. unfold updateVolumes. destruct (existsb _ volumes) eqn:E.
  - apply existsb_exists in E as (y & Hy%list_elem_of_In & Hn%bool_decide_eq_true).
    split; [|split].
    + apply list_elem_of_fmap. exists y. by rewrite decide_True.
    + intros x (z & -> & Hz)%list_elem_of_fmap. by case_decide.
    + intros x Hx. rewrite list_elem_of_fmap. split.
      * intros (z & E & Hz). destruct (decide (vol_Name z = "kcp-api-access")); [by subst|by subst].
      * intros Hin. exists x. by rewrite decide_False.
  - assert (Hno : forall x, x ∈ volumes -> vol_Name x <> "kcp-api-access").
    { intros x Hx Hn. apply not_true_iff_false in E. apply E. apply existsb_exists. exists x.
      split; [by apply list_elem_of_In|]. by apply bool_decide_eq_true. }
    split; [|split].
    + apply elem_of_app. right. apply list_elem_of_here.
    + intros x [Hx| ->%list_elem_of_singleton]%elem_of_app Hn; [by apply Hno in Hx|done].
    + intros x Hx. rewrite elem_of_app, list_elem_of_singleton. split; [|by left].
      intros [H| ->]; [done|]. by rewrite Hv in Hx.
Qed.

(** ** The token of a service account *)

Section token.
Context {KL : KeyLib} {SS : SliceSort}.
Lemma created_before_order : strict_weak_order created_before.
Proof.
  unfold created_before. split.
  - intros x y H%bool_decide_eq_true. apply bool_decide_eq_false. lia.
  - intros x y z H1%bool_decide_eq_false H2%bool_decide_eq_false. apply bool_decide_eq_false. lia.
Qed.
(** The oldest token, or one of the oldest. *)
Definition oldest_token (serviceAccount : string) (secrets : list Unstructured) (s : Unstructured) : Prop :=
  s ∈ secrets /\ token_of serviceAccount s = true /\
  forall s', s' ∈ secrets -> token_of serviceAccount s' = true ->
    (CreationTimestamp (u_meta s) <= CreationTimestamp (u_meta s'))%Z.
Lemma find_token_spec serviceAccount secrets :
  match find_token serviceAccount secrets with
  | Some s => oldest_token serviceAccount secrets s
  | None => forall s, s ∈ secrets -> token_of serviceAccount s = false
  end.
Proof.
  unfold find_token. pose proof (SortSlice_perm _ created_before secrets) as Hp.
  pose proof (SortSlice_sorted _ created_before secrets created_before_order) as Hs.
  revert Hp Hs. generalize (SortSlice created_before secrets) as l. intros l Hp Hs.
  destruct (list_find _ l) as [[i s]|] eqn:E; simpl.
  - apply list_find_Some in E as (Hi & Ht & Hb). split; [|split; [done|]].
    { rewrite <-Hp. by eapply list_elem_of_lookup_2. }
    intros s' Hs' Ht'. rewrite <-Hp in Hs'. apply list_elem_of_lookup_1 in Hs' as [j Hj].
    destruct (decide (j < i)) as [Hlt|Hge]; [by destruct (Hb j s' Hj Hlt)|].
    destruct (decide (j = i)) as [->|Hne]; [by simplify_eq|].
    assert (created_before s' s = false) as H%bool_decide_eq_false; [|lia].
    rewrite <-(take_drop (S i) l) in Hs.
    apply (StronglySorted_app_1_elem_of _ _ _ s s' Hs).
    + apply list_elem_of_lookup. exists i. by rewrite lookup_take_lt by lia.
    + apply list_elem_of_lookup. exists (j - S i). rewrite lookup_drop. by replace (S i + (j - S i)) with j by lia.
  - apply list_find_None in E. intros s Hin. rewrite <-Hp in Hin. rewrite Forall_forall in E.
    specialize (E s Hin). by destruct (token_of _ s).
Qed.
End token.

(** * Properties *)

Section pod.
Context {CL : ClusterLib} {SL : SchemaLib} {KL : KeyLib} {B36 : Base36Lib} {SS : SliceSort}
        {NM : NestedMapLib} {UP : UrlParseLib} {PT : PodTemplateLib}.
Variable dm : PodSpecableMutator.

Definition refers_to_namespace (e : EnvVar) : bool :=
  bool_decide (ValueFrom e ≫= FieldRef = Some "metadata.namespace").
Lemma resolve_refers ns e :
  resolve_env ns e = if refers_to_namespace e then override_env (env_Name e) ns else e.
Proof.
  unfold resolve_env, refers_to_namespace. destruct (ValueFrom e) as [[[p|] more]|]; simpl; [|done|done].
  by destruct (decide (p = "metadata.namespace")) as [->|H];
    [rewrite bool_decide_true|rewrite bool_decide_false by congruence].
Qed.

(** What a container finds in its environment. Every variable that was there
    stays, in its place, and no name is doubled; the addresses of the API server
    have the values of the workspace, a reference to the namespace of the pod has
    the upstream namespace, any other variable is as it was. A reference to the
    namespace wins over the address of the API server. *)
Theorem container_environment obj url envs k :
  let e := env_at envs k in
  let e' := env_at (mutate_env obj url envs) k in
  match override_of url k with
  | Some v =>
      if from_option refers_to_namespace false e
      then e' = Some (override_env k (GetNamespace obj))
      else env_Value <$> e' = Some v /\ (e' ≫= ValueFrom) = (e ≫= ValueFrom)
  | None =>
      e' = (fun x => if refers_to_namespace x then override_env k (GetNamespace obj) else x) <$> e
  end /\
  (env_Name <$> envs) `prefix_of` (env_Name <$> mutate_env obj url envs) /\
  (NoDup (env_Name <$> envs) -> NoDup (env_Name <$> mutate_env obj url envs)).
Proof.
  intros e e'. assert (Hname : forall x, e = Some x -> env_Name x = k).
  { intros x. unfold e, env_at. destruct (list_find _ envs) as [[i y]|] eqn:E; [|done].
    intros [= <-]. by apply list_find_Some in E as (_ & ? & _). }
  destruct (mutate_env_names obj url envs) as (new & Hn & Hd). split; [|split; [by exists new|done]].
  unfold e'. rewrite mutate_env_at. fold e. destruct (override_of url k) as [v|].
  - rewrite resolve_refers. destruct e as [x|]; simpl; [|done].
    assert (refers_to_namespace (with_value v x) = refers_to_namespace x) as -> by done.
    destruct (refers_to_namespace x); [|done]. simpl. by rewrite Hname.
  - destruct e as [x|]; [|done]. simpl. rewrite resolve_refers. by rewrite Hname.
Qed.

(** A container of a mutated pod. *)
Record workspace_container (obj : Unstructured) (url : URL) (before after : PodContainer) : Prop := {
  wc_env : Env after = mutate_env obj url (Env before);
  wc_mount : snd <$> list_find (fun v => vm_Name v = "kcp-api-access") (VolumeMounts after)
    = Some serviceAccountMount;
  wc_more : pc_more after = pc_more before;
}.
(** A mutated pod: no account of the physical cluster, the token and the
    certificate of the workspace in every container, the name server of the
    workspace. *)
Record workspace_pod (obj : Unstructured) (url : URL) (secretName dnsIP : string)
    (before after : PodSpec) : Prop := {
  wp_account : ServiceAccountName after = "" /\ AutomountServiceAccountToken after = Some false;
  wp_containers : Forall2 (workspace_container obj url) (Containers before) (Containers after);
  wp_init : Forall2 (workspace_container obj url) (InitContainers before) (InitContainers after);
  wp_ephemeral :
    Forall2 (workspace_container obj url) (EphemeralContainers before) (EphemeralContainers after);
  wp_volume : forall v, vol_Name v = "kcp-api-access" ->
    v ∈ Volumes after <-> v = serviceAccountVolume secretName;
  wp_volumes : forall v, vol_Name v <> "kcp-api-access" -> v ∈ Volumes after <-> v ∈ Volumes before;
  wp_dns : DNSPolicy after = "None" /\ Nameservers <$> DNSConfig after = Some [dnsIP];
  wp_more : ps_more after = ps_more before;
}.
Lemma mutate_containers obj url l :
  Forall2 (workspace_container obj url) l (mutate_container obj url <$> l).
Proof.
  apply Forall2_fmap_r, Forall_Forall2_diag, Forall_forall. intros x _.
  split; [done|apply mount_update|done].
Qed.
Lemma mutate_spec_pod obj secretName dnsIP url spec :
  workspace_pod obj url secretName dnsIP spec (mutate_spec obj secretName dnsIP url spec).
Proof.
  destruct (updateVolumes_spec (Volumes spec) (serviceAccountVolume secretName) eq_refl) as (H1 & H2 & H3).
  split; try apply mutate_containers; try done. intros v Hv. split; [by intros ?%H2|by intros ->].
Qed.


(** The secret that a mutated pod mounts is the one that the spec syncer
    creates downstream for the token: always when the pod has a service account of
    its own, and for the default account when the token has the name that
    Kubernetes gives it. *)
Theorem mounted_secret_is_synced token serviceAccount :
  GetGroupVersionKind token = secretGVK -> token_of serviceAccount token = true ->
  (serviceAccount = "default" -> HasPrefix (GetName token) "default-token-" = true) ->
  downstream_secret_name serviceAccount token = getTransformedName token.
Proof.
  intros Hk Ht%bool_decide_eq_true Hp. unfold downstream_secret_name, getTransformedName. rewrite Hk, Ht.
  rewrite (bool_decide_false (secretGVK = configMapGVK)) by done.
  rewrite (bool_decide_true (secretGVK = secretGVK)) by done. simpl.
  destruct (decide (serviceAccount = "default")) as [->|Hne].
  - by rewrite Hp, bool_decide_true.
  - rewrite (bool_decide_false (Some serviceAccount = Some "default")) by congruence. by rewrite andb_false_r.
Qed.

(** A token of the default account with another name is mounted under a name that
    no object has downstream. *)
Lemma mounted_secret_is_missing token :
  GetGroupVersionKind token = secretGVK -> token_of "default" token = true ->
  HasPrefix (GetName token) "default-token-" = false ->
  downstream_secret_name "default" token = "kcp-" +:+ getTransformedName token.
Proof.
  intros Hk Ht Hp. unfold downstream_secret_name, getTransformedName. rewrite Hk, Hp.
  rewrite (bool_decide_false (secretGVK = configMapGVK)) by done.
  rewrite (bool_decide_true (secretGVK = secretGVK)) by done. simpl. done.
Qed.
End pod.

Section secrets.
Context {KL : KeyLib}.
(** The secret mutator makes a service account's token an opaque secret
    without any reference to the account, keeps the other annotations, its labels
    and its data, and leaves every other secret alone. Doing it again changes nothing. *)
Theorem secret_mutator_spec obj :
  exists obj', SecretMutator_Mutate obj = Ok obj' /\ SecretMutator_Mutate obj' = Ok obj' /\
    match map_get (GetAnnotations obj) ServiceAccountNameKey with
    | None => obj' = obj
    | Some _ =>
        u_content obj' = <["type" := JString "Opaque"]> (u_content obj) /\
        u_meta obj' = with_annotations (u_meta obj) (GetAnnotations obj') /\ u_more obj' = u_more obj /\
        (forall k, map_get (GetAnnotations obj') k =
           if decide (k = ServiceAccountNameKey \/ k = ServiceAccountUIDKey) then None
           else map_get (GetAnnotations obj) k)
    end.
Proof.
  unfold SecretMutator_Mutate at 1. destruct (map_get (GetAnnotations obj) ServiceAccountNameKey) as [v|] eqn:E.
  2: { exists obj. unfold SecretMutator_Mutate. by rewrite E. }
  set (a := map_delete (map_delete (GetAnnotations (SetContent "type" (JString "Opaque") obj))
              ServiceAccountNameKey) ServiceAccountUIDKey).
  assert (Ha : forall k, map_get (if decide (entries a = ∅) then None else a) k =
    if decide (k = ServiceAccountNameKey \/ k = ServiceAccountUIDKey) then None
    else map_get (GetAnnotations obj) k).
  { intros k. assert (map_get (if decide (entries a = ∅) then None else a) k = map_get a k) as ->.
    { destruct (decide (entries a = ∅)) as [H|]; [|done]. unfold map_get at 2. by rewrite H. }
    unfold a. rewrite !map_get_delete.
    change (GetAnnotations (SetContent _ _ obj)) with (GetAnnotations obj).
    destruct (decide (ServiceAccountUIDKey = k)), (decide (ServiceAccountNameKey = k)),
      (decide (k = ServiceAccountNameKey \/ k = ServiceAccountUIDKey)); try done; exfalso; naive_solver. }
  eexists. split; [done|]. split.
  - unfold SecretMutator_Mutate. cbn [GetAnnotations SetAnnotations on_meta u_meta with_annotations Annotations].
    rewrite Ha, decide_True by (by left). done.
  - split; [done|]. split; [done|]. split; [done|]. exact Ha.
Qed.
End secrets.

(** * Examples *)

Module Examples.
#[local] Existing Instances simple_clusters simple_schema.
#[local] Instance keys : KeyLib := {|
  AnnotationKey := "kcp.io/cluster"; KCPOriginalAPIVersionAnnotation := "kcp.io/original-api-version";
  ServiceAccountNameKey := "kubernetes.io/service-account.name";
  ServiceAccountUIDKey := "kubernetes.io/service-account.uid" |}.
#[local] Instance b36 : Base36Lib := {| EncodeBytes l := Text62 (SetBytes l) |}.
#[local] Instance urls : UrlParseLib := {| url_Parse s :=
  match Split s ":" with [h; p] => inr {| Hostname := h; Port := p |} | _ => inl (ErrMsg "bad URL") end |}.

(** A sort: insertion before the first larger element. *)
Fixpoint insert_sorted {A} (less : A -> A -> bool) (x : A) (l : list A) : list A :=
  match l with
  | [] => [x]
  | y :: l => if less y x then y :: insert_sorted less x l else x :: y :: l
  end.
Definition insertion_sort {A} (less : A -> A -> bool) (l : list A) : list A :=
  foldr (insert_sorted less) [] l.
Lemma insert_sorted_perm {A} (less : A -> A -> bool) x l : insert_sorted less x l ≡ₚ x :: l.
Proof.
  induction l as [|y l IH]; simpl; [done|]. destruct (less y x); [|done]. rewrite IH. apply perm_swap.
Qed.
Lemma insertion_sort_perm {A} (less : A -> A -> bool) l : insertion_sort less l ≡ₚ l.
Proof. induction l as [|x l IH]; simpl; [done|]. by rewrite insert_sorted_perm, IH. Qed.
Lemma insertion_sort_sorted {A} (less : A -> A -> bool) l :
  strict_weak_order less -> StronglySorted (fun x y => less y x = false) (insertion_sort less l).
Proof.
  intros [Ha Ht]. induction l as [|x l IH]; simpl; [constructor|].
  revert IH. generalize (insertion_sort less l) as s. clear l. intros s Hs.
  induction Hs as [|y s Hs IH Hy]; simpl; [by repeat constructor|].
  destruct (less y x) eqn:E.
  - constructor; [done|]. apply Forall_forall. intros z Hz. rewrite Forall_forall in Hy.
    rewrite insert_sorted_perm in Hz. apply elem_of_cons in Hz as [->|Hz]; [by apply Ha|by apply Hy].
  - constructor; [by constructor|]. constructor; [done|]. rewrite Forall_forall in *. intros z Hz.
    by apply (Ht z y x); [apply Hy|].
Qed.
#[local] Instance sorts : SliceSort := {|
  SortSlice A less l := insertion_sort less l;
  SortSlice_perm A less l := insertion_sort_perm less l;
  SortSlice_sorted A less l := insertion_sort_sorted less l |}.

(** Fields of fields of the content. *)
Definition get_in (u : Unstructured) (path : list string) : result (option (gmap string json)) :=
  match path with
  | [a; b] =>
      match u_content u !! a with
      | Some (JObject l) =>
          match map_of_members l !! b with
          | Some (JObject l) => inr (Some (map_of_members l))
          | None => inr None
          | _ => inl (ErrMsg "not a map")
          end
      | None => inr None
      | _ => inl (ErrMsg "not a map")
      end
  | _ => inl (ErrMsg "path")
  end.
Definition set_in (u : Unstructured) (m : gmap string json) (path : list string) : result Unstructured :=
  match path with
  | [a; b] =>
      match u_content u !! a with
      | Some (JObject l) => inr (SetContent a (json_of_map (<[b := json_of_map m]> (map_of_members l))) u)
      | None => inr (SetContent a (json_of_map {[ b := json_of_map m ]}) u)
      | _ => inl (ErrMsg "not a map")
      end
  | _ => inl (ErrMsg "path")
  end.
#[local] Program Instance nested : NestedMapLib := {| NestedMap := get_in; SetNestedMap := set_in |}.
Next Obligation.
  intros u m k path u' H _. unfold set_in in H. destruct path as [|b [|]]; try done.
  destruct (u_content u !! k) as [[]|]; simplify_eq; (split; [done|]; split; [done|]);
    intros k' Hk'; simpl; by rewrite lookup_insert_ne.
Qed.
Next Obligation.
  intros u m path u' H. unfold set_in, get_in in *. destruct path as [|a [|b [|]]]; try done.
  destruct (u_content u !! a) as [[]|]; simplify_eq; unfold SetContent, json_of_map;
    cbn [u_content]; rewrite lookup_insert_eq, map_of_members_members;
    rewrite ?lookup_insert_eq, ?lookup_singleton_eq; by rewrite map_of_members_members.
Qed.

(** Templates of one container. *)
Definition template (account : string) (envs : list EnvVar) : PodTemplateSpec := {|
  pt_Labels := None;
  pt_Spec := {|
    ServiceAccountName := account; AutomountServiceAccountToken := None;
    Containers := [{| Env := envs; VolumeMounts := []; pc_more := ∅ |}];
    InitContainers := []; EphemeralContainers := []; Volumes := []; DNSPolicy := "";
    DNSConfig := None; ps_more := ∅ |};
  pt_more := ∅ |}.
Definition string_in (k : string) (m : gmap string json) : string :=
  match m !! k with Some (JString s) => s | _ => "" end.
#[local] Instance templates : PodTemplateLib := {|
  PodTemplate_FromUnstructured m := inr (template (string_in "account" m) []);
  PodTemplate_ToUnstructured t := inr {[ "account" := JString (ServiceAccountName (pt_Spec t));
                                         "dns" := JString (DNSPolicy (pt_Spec t)) ]} |}.

Definition token (name account : string) (created : Time) : Unstructured := {|
  u_meta := {| Name := name; Namespace := "ns"; UID := ""; ResourceVersion := ""; Labels := None;
    Annotations := Some {[ "kubernetes.io/service-account.name" := account ]}; Finalizers := [];
    DeletionTimestamp := None; CreationTimestamp := created; OwnerReferences := [] |};
  u_more := ∅; u_content := {[ "apiVersion" := JString "v1"; "kind" := JString "Secret" ]} |}.
Definition mutator : PodSpecableMutator := {|
  ddsifForUpstreamSyncer _ := inr {| ddsif_Informers := ({[ secretGVR ]}, []);
    ddsif_Secrets _ := inr [token "default-token-b" "default" 20; token "default-token-a" "default" 10] |};
  serviceLister _ _ := inr "10.0.0.1";
  dm_syncTargetClusterName := "org"; dm_syncTargetUID := "uid"; dm_syncTargetName := "st";
  dm_dnsNamespace := "dns"; upsyncPods := true |}.
Definition deployment : Unstructured := {|
  u_meta := mk_meta "web" "ns" None
    (Some {[ InternalWorkspaceURLAnnotationKey := "kcp.dev:6443" ]}) [];
  u_more := ∅;
  u_content := {[ "spec" := JObject [("template", JObject [("account", JString "default")])] ]} |}.
Definition mutated : Unstructured :=
  match Mutate mutator deployment with Ok o => o | _ => deployment end.


Lemma mounted_secret_is_synced_witness :
  downstream_secret_name "default" (token "default-token-a" "default" 10) = "kcp-default-token-a" /\
  getTransformedName (token "default-token-a" "default" 10) = "kcp-default-token-a".
Proof.
  split; [vm_compute; reflexivity|].
  rewrite <-(mounted_secret_is_synced (token "default-token-a" "default" 10) "default");
    vm_compute; reflexivity.
Defined.

(** A pod that takes its host from the downward API keeps it. *)
Example override_is_lost (url : URL) :
  let e := {| env_Name := "KUBERNETES_SERVICE_HOST"; env_Value := "";
    ValueFrom := Some {| FieldRef := Some "metadata.namespace"; evs_more := ∅ |} |} in
  env_at (mutate_env deployment url [e]) "KUBERNETES_SERVICE_HOST"
    = Some (override_env "KUBERNETES_SERVICE_HOST" "ns").
Proof. reflexivity. Qed.
(** A token that an administrator made for the default account. *)
Example missing_secret :
  downstream_secret_name "default" (token "my-token" "default" 10) = "kcp-my-token" /\
  getTransformedName (token "my-token" "default" 10) = "my-token".
Proof. split; vm_compute; reflexivity. Qed.
End Examples.
