(* ===== verification/ApiResource.v ===== *)
(** * API resources and their negotiation: the data ([apis/apiresource/v1alpha1])

    Imports of API resources from physical clusters, the API resource negotiated
    from them, and the custom resource definitions (of the API machinery) that it
    is published as; with the helpers on conditions, columns and schemas. *)

From S2P Require Import Prelude Platform GoTime ApiTypes.
Local Open Scope nat_scope.

(** ** Conditions

    [APIResourceImportCondition] and [NegotiatedAPIResourceCondition] have the same
    fields, and the same helpers are written for both. *)

Record ResourceCondition := {
  rc_Type : string;
  rc_Status : ConditionStatus;
  rc_LastTransitionTime : Time;
  rc_Reason : string;
  rc_Message : string;
}.
#[global] Instance ResourceCondition_eq_dec : EqDecision ResourceCondition.
Proof. solve_decision. Defined.
(** A condition as the callers of [SetCondition] write it, without a time. *)
Definition new_condition (type : string) (status : ConditionStatus) (reason message : string)
    : ResourceCondition := {|
  rc_Type := type; rc_Status := status; rc_LastTransitionTime := ZeroTime;
  rc_Reason := reason; rc_Message := message |}.

Definition FindCondition (cs : list ResourceCondition) (conditionType : string)
    : option ResourceCondition :=
  snd <$> list_find (fun c => rc_Type c = conditionType) cs.
(** The existing condition takes the new status, reason and message, and the time
    when its status changes or it had none. *)
Definition overwrite_condition (now : Time) (newCondition existing : ResourceCondition)
    : ResourceCondition := {|
  rc_Type := rc_Type existing;
  rc_Status := rc_Status newCondition;
  rc_LastTransitionTime :=
    if negb (bool_decide (rc_Status existing = rc_Status newCondition))
       || IsZero (rc_LastTransitionTime existing)
    then now else rc_LastTransitionTime existing;
  rc_Reason := rc_Reason newCondition;
  rc_Message := rc_Message newCondition |}.
Definition at_time (now : Time) (c : ResourceCondition) : ResourceCondition := {|
  rc_Type := rc_Type c; rc_Status := rc_Status c; rc_LastTransitionTime := now;
  rc_Reason := rc_Reason c; rc_Message := rc_Message c |}.
Definition SetCondition (now : Time) (newCondition : ResourceCondition)
    (cs : list ResourceCondition) : list ResourceCondition :=
  match list_find (fun c => rc_Type c = rc_Type newCondition) cs with
  | None => cs ++ [at_time now newCondition]
  | Some (i, _) => alter (overwrite_condition now newCondition) i cs
  end.
Definition RemoveCondition (conditionType : string) (cs : list ResourceCondition)
    : list ResourceCondition := List.filter (fun c => negb (bool_decide (rc_Type c = conditionType))) cs.
Definition IsConditionPresentAndEqual (cs : list ResourceCondition) (conditionType : string)
    (status : ConditionStatus) : bool :=
  match FindCondition cs conditionType with
  | Some c => bool_decide (rc_Status c = status)
  | None => false
  end.
Definition IsConditionTrue (cs : list ResourceCondition) (conditionType : string) : bool :=
  IsConditionPresentAndEqual cs conditionType ConditionTrue.
Definition IsConditionFalse (cs : list ResourceCondition) (conditionType : string) : bool :=
  IsConditionPresentAndEqual cs conditionType ConditionFalse.
(** [IsAPIResourceImportConditionEquivalent], [IsNegotiatedAPIResourceConditionEquivalent]:
    equal except for times. *)
Definition IsConditionEquivalent (lhs rhs : option ResourceCondition) : bool :=
  match lhs, rhs with
  | None, None => true
  | Some l, Some r =>
      bool_decide (rc_Message l = rc_Message r) && bool_decide (rc_Reason l = rc_Reason r)
      && bool_decide (rc_Status l = rc_Status r) && bool_decide (rc_Type l = rc_Type r)
  | _, _ => false
  end.

Definition Compatible : string := "Compatible".
Definition Available : string := "Available".
Definition Submitted : string := "Submitted".
Definition Published : string := "Published".
Definition Enforced : string := "Enforced".

(** [SchemaUpdateStrategyType]: any other text never allows an update. *)
Definition UpdateNever : string := "UpdateNever".
Definition UpdateUnpublished : string := "UpdateUnpublished".
Definition UpdatePublished : string := "UpdatePublished".
Definition CanUpdate (strategy : string) (negotiatedAPIResourceIsPublished : bool) : bool :=
  if decide (strategy = UpdateNever) then false
  else if decide (strategy = UpdateUnpublished) then negb negotiatedAPIResourceIsPublished
  else bool_decide (strategy = UpdatePublished).

(** ** Custom resource definitions ([apiextensionsv1])

    The fields the code reads or writes; each [_more] is the others. *)

Record CRDColumn := {
  col_Name : string; col_Type : string; col_Format : string; col_Description : string;
  col_Priority : Z; col_JSONPath : string }.
#[global] Instance CRDColumn_eq_dec : EqDecision CRDColumn.
Proof. solve_decision. Defined.
Record CRDSubresources := { sub_Status : bool; sub_Scale : option (string * string) }.
#[global] Instance CRDSubresources_eq_dec : EqDecision CRDSubresources.
Proof. solve_decision. Defined.
Record CRDNames := {
  Plural : string; Singular : string; ShortNames : list string; Kind : string;
  ListKind : string; Categories : list string }.
#[global] Instance CRDNames_eq_dec : EqDecision CRDNames.
Proof. solve_decision. Defined.

(** The schemas of the API machinery ([JSONSchemaProps]), their JSON, and the
    comparison of two of them ([schemacompat]), which may narrow the existing
    one; the API server's helpers on definitions and versions. *)
Class SchemaCompatLib := {
  JSONSchemaProps : Type;
  MarshalSchema : option JSONSchemaProps -> result string;
  UnmarshalSchema : string -> result JSONSchemaProps;
  EnsureStructuralSchemaCompatibility :
    string -> JSONSchemaProps -> JSONSchemaProps -> bool -> result JSONSchemaProps;
  CompareKubeAwareVersionStrings : string -> string -> Z;
  IsProtectedCommunityGroup : string -> bool;
  IsCRDConditionTrue : list (string * ConditionStatus) -> string -> bool;
  IsCRDConditionFalse : list (string * ConditionStatus) -> string -> bool;
  (** [metav1.GroupVersion.String], [metav1.GroupVersionResource.String]. *)
  GroupVersionString : string -> string -> string;
  MetaGVRString : GroupVersionResource -> string;
}.

Section types.
Context {SC : SchemaCompatLib}.

(** [Schema] is a pointer to a struct with a pointer to the schema. *)
Record CRDVersion := {
  v_Name : string;
  v_Served : bool;
  v_Storage : bool;
  v_Schema : option (option JSONSchemaProps);
  v_Subresources : option CRDSubresources;
  v_AdditionalPrinterColumns : list CRDColumn;
  v_Deprecated : bool;
}.
Record CustomResourceDefinition := {
  crd_Meta : ObjectMeta;
  crd_Generation : Z;
  crd_Group : string;
  crd_Names : CRDNames;
  crd_Scope : string;
  crd_Versions : list CRDVersion;
  crd_Conditions : list (string * ConditionStatus);
}.

(** ** Common specs ([common_types.go]) *)

Record GroupVersion := { gv_Group : string; gv_Version : string }.
Definition APIGroup (v : GroupVersion) : string :=
  if decide (gv_Group v = "core") then "" else gv_Group v.
Definition APIVersion (v : GroupVersion) : string := GroupVersionString (APIGroup v) (gv_Version v).

Record ColumnDefinition := {
  cd_Name : string; cd_Type : string; cd_Format : string; cd_Description : string;
  cd_Priority : Z; cd_JSONPath : option string }.
Definition import_column (apc : CRDColumn) : ColumnDefinition := {|
  cd_Name := col_Name apc; cd_Type := col_Type apc; cd_Format := col_Format apc;
  cd_Description := col_Description apc; cd_Priority := col_Priority apc;
  cd_JSONPath := Some (col_JSONPath apc) |}.
Definition add_column (cd : list ColumnDefinition) (apc : CRDColumn) : list ColumnDefinition :=
  if existsb (fun c => bool_decide (cd_Name c = col_Name apc)) cd then cd else cd ++ [import_column apc].
Definition ColumnDefinitions_ImportFromCRDVersion (cd : list ColumnDefinition) (crdVersion : CRDVersion)
    : list ColumnDefinition := foldl add_column cd (v_AdditionalPrinterColumns crdVersion).
Definition ToCustomResourceColumnDefinitions (cd : list ColumnDefinition) : list CRDColumn :=
  omap (fun c => path ← cd_JSONPath c;
    Some {| col_Name := cd_Name c; col_Type := cd_Type c; col_Format := cd_Format c;
            col_Description := cd_Description c; col_Priority := cd_Priority c;
            col_JSONPath := path |}) cd.

(** A subresource is its name. *)
Definition ScaleSubResourceName : string := "scale".
Definition StatusSubResourceName : string := "status".
Definition SubResources_Contains (sr : list string) (name : string) : bool :=
  existsb (fun r => bool_decide (r = name)) sr.
Definition add_subresource (sr : list string) (present : bool) (name : string) : list string :=
  if present && negb (SubResources_Contains sr name) then sr ++ [name] else sr.
Definition SubResources_ImportFromCRDVersion (sr : list string) (crdVersion : CRDVersion) : list string :=
  match v_Subresources crdVersion with
  | None => sr
  | Some s =>
      let sr := add_subresource sr (bool_decide (is_Some (sub_Scale s))) ScaleSubResourceName in
      add_subresource sr (sub_Status s) StatusSubResourceName
  end.

Record CommonAPIResourceSpec := {
  cs_GroupVersion : GroupVersion;
  cs_Scope : string;
  cs_Names : CRDNames;
  cs_OpenAPIV3Schema : string;
  cs_SubResources : list string;
  cs_ColumnDefinitions : list ColumnDefinition;
}.
Definition GetSchema (spec : CommonAPIResourceSpec) : result JSONSchemaProps :=
  UnmarshalSchema (cs_OpenAPIV3Schema spec).
Definition SetSchema (spec : CommonAPIResourceSpec) (s : option JSONSchemaProps)
    : result CommonAPIResourceSpec :=
  bytes ← MarshalSchema s;
  mret {| cs_GroupVersion := cs_GroupVersion spec; cs_Scope := cs_Scope spec; cs_Names := cs_Names spec;
          cs_OpenAPIV3Schema := bytes; cs_SubResources := cs_SubResources spec;
          cs_ColumnDefinitions := cs_ColumnDefinitions spec |}.

Record APIResourceImport := {
  i_Meta : ObjectMeta;
  i_Generation : Z;
  i_Spec : CommonAPIResourceSpec;
  SchemaUpdateStrategy : string;
  i_Location : string;
  i_Conditions : list ResourceCondition;
}.
Record NegotiatedAPIResource := {
  n_Meta : ObjectMeta;
  n_Generation : Z;
  n_Spec : CommonAPIResourceSpec;
  Publish : bool;
  n_Conditions : list ResourceCondition;
}.
Definition spec_GVR (spec : CommonAPIResourceSpec) : GroupVersionResource := {|
  gvr_Group := gv_Group (cs_GroupVersion spec); gvr_Version := gv_Version (cs_GroupVersion spec);
  gvr_Resource := Plural (cs_Names spec) |}.
Definition APIResourceImport_GVR (i : APIResourceImport) : GroupVersionResource := spec_GVR (i_Spec i).
Definition NegotiatedAPIResource_GVR (n : NegotiatedAPIResource) : GroupVersionResource :=
  spec_GVR (n_Spec n).

Definition with_i_conditions (f : list ResourceCondition -> list ResourceCondition)
    (i : APIResourceImport) : APIResourceImport := {|
  i_Meta := i_Meta i; i_Generation := i_Generation i; i_Spec := i_Spec i;
  SchemaUpdateStrategy := SchemaUpdateStrategy i; i_Location := i_Location i;
  i_Conditions := f (i_Conditions i) |}.
Definition with_n_conditions (f : list ResourceCondition -> list ResourceCondition)
    (n : NegotiatedAPIResource) : NegotiatedAPIResource := {|
  n_Meta := n_Meta n; n_Generation := n_Generation n; n_Spec := n_Spec n; Publish := Publish n;
  n_Conditions := f (n_Conditions n) |}.
Definition with_n_spec (n : NegotiatedAPIResource) (spec : CommonAPIResourceSpec)
    : NegotiatedAPIResource := {|
  n_Meta := n_Meta n; n_Generation := n_Generation n; n_Spec := spec; Publish := Publish n;
  n_Conditions := n_Conditions n |}.
End types.

(** * Lemmas *)

(** ** Conditions *)

Lemma FindCondition_cons c cs t :
  FindCondition (c :: cs) t = if decide (rc_Type c = t) then Some c else FindCondition cs t.
Proof.
  unfold FindCondition. simpl. destruct (decide (rc_Type c = t)); [done|].
  by destruct (list_find _ cs) as [[i x]|].
Qed.
Lemma SetCondition_cons now n c cs :
  SetCondition now n (c :: cs) =
    if decide (rc_Type c = rc_Type n) then overwrite_condition now n c :: cs
    else c :: SetCondition now n cs.
Proof.
  unfold SetCondition. simpl. destruct (decide (rc_Type c = rc_Type n)); [done|].
  by destruct (list_find _ cs) as [[i x]|].
Qed.
Lemma SetCondition_nil now n : SetCondition now n [] = [at_time now n].
Proof. done. Qed.
Lemma FindCondition_Set now n cs t :
  FindCondition (SetCondition now n cs) t =
    if decide (t = rc_Type n)
    then Some (from_option (overwrite_condition now n) (at_time now n) (FindCondition cs t))
    else FindCondition cs t.
Proof.
  induction cs as [|c cs IH].
  { rewrite SetCondition_nil, FindCondition_cons. by repeat case_decide; simplify_eq/=. }
  rewrite SetCondition_cons, FindCondition_cons.
  destruct (decide (rc_Type c = rc_Type n)) as [E|E]; rewrite FindCondition_cons.
  - simpl. by repeat case_decide; simplify_eq/=.
  - rewrite IH. by repeat case_decide; simplify_eq/=.
Qed.
Lemma SetCondition_types now n cs :
  rc_Type <$> SetCondition now n cs =
    (rc_Type <$> cs) ++ (if decide (rc_Type n ∈ rc_Type <$> cs) then [] else [rc_Type n]).
Proof.
  induction cs as [|c cs IH]; [reflexivity|].
  rewrite SetCondition_cons, fmap_cons. destruct (decide (rc_Type c = rc_Type n)) as [E|E].
  - rewrite decide_True by (rewrite E; apply list_elem_of_here). by rewrite app_nil_r.
  - rewrite fmap_cons, IH. simpl. f_equal. f_equal.
    pose proof (elem_of_cons (rc_Type <$> cs) (rc_Type n) (rc_Type c)).
    destruct (decide (rc_Type n ∈ rc_Type <$> cs)), (decide (rc_Type n ∈ rc_Type c :: (rc_Type <$> cs)));
      try done; exfalso; naive_solver.
Qed.
Lemma SetCondition_NoDup now n cs :
  NoDup (rc_Type <$> cs) -> NoDup (rc_Type <$> SetCondition now n cs).
Proof.
  intros H. rewrite SetCondition_types. destruct (decide _) as [|Hn]; [by rewrite app_nil_r|].
  apply NoDup_app. split; [done|]. split; [|apply NoDup_singleton].
  by intros x Hx ->%list_elem_of_singleton.
Qed.
Lemma FindCondition_Remove t cs t' :
  FindCondition (RemoveCondition t cs) t' = if decide (t' = t) then None else FindCondition cs t'.
Proof.
  induction cs as [|c cs IH]; simpl; [by case_decide|].
  destruct (decide (rc_Type c = t)) as [E|E].
  - rewrite bool_decide_true by done. simpl. rewrite IH, FindCondition_cons.
    by repeat case_decide; simplify_eq/=.
  - rewrite bool_decide_false by done. simpl. rewrite !FindCondition_cons, IH.
    by repeat case_decide; simplify_eq/=.
Qed.
(** What the status of a condition is after a change. *)
Lemma PresentAndEqual_Set now n cs t s :
  IsConditionPresentAndEqual (SetCondition now n cs) t s =
    if decide (t = rc_Type n) then bool_decide (rc_Status n = s) else IsConditionPresentAndEqual cs t s.
Proof.
  unfold IsConditionPresentAndEqual. rewrite FindCondition_Set. case_decide; [|done].
  by destruct (FindCondition cs t).
Qed.
Lemma PresentAndEqual_Remove t cs t' s :
  IsConditionPresentAndEqual (RemoveCondition t cs) t' s =
    if decide (t' = t) then false else IsConditionPresentAndEqual cs t' s.
Proof. unfold IsConditionPresentAndEqual. rewrite FindCondition_Remove. by case_decide. Qed.

(** The time of a condition is that of its last transition. *)
Lemma Set_transition now n cs c :
  FindCondition cs (rc_Type n) = Some c -> rc_LastTransitionTime c <> ZeroTime ->
  exists c', FindCondition (SetCondition now n cs) (rc_Type n) = Some c' /\
    rc_Status c' = rc_Status n /\
    rc_LastTransitionTime c' = (if decide (rc_Status c = rc_Status n) then rc_LastTransitionTime c else now).
Proof.
  intros Hc Ht. rewrite FindCondition_Set, decide_True, Hc by done. eexists. split; [done|].
  split; [done|]. simpl. unfold IsZero. rewrite (bool_decide_false (_ = ZeroTime)) by done.
  rewrite orb_false_r. case_decide; [by rewrite bool_decide_true|by rewrite bool_decide_false].
Qed.

(** ** Columns *)

Section columns.
Context {SC : SchemaCompatLib}.
Lemma add_columns_new (l : list CRDColumn) (cd : list ColumnDefinition) :
  NoDup ((cd_Name <$> cd) ++ (col_Name <$> l)) ->
  foldl add_column cd l = cd ++ (import_column <$> l).
Proof.
  revert cd. induction l as [|c l IH]; intros cd H; simpl; [by rewrite app_nil_r|].
  assert (add_column cd c = cd ++ [import_column c]) as ->.
  { unfold add_column. destruct (existsb _ cd) eqn:E; [|done].
    apply existsb_exists in E as (d & Hd%list_elem_of_In & Hn%bool_decide_eq_true).
    apply NoDup_app in H as (_ & H & _). destruct (H (cd_Name d)).
    - by apply list_elem_of_fmap_2.
    - rewrite Hn. apply list_elem_of_here. }
  rewrite IH; [by rewrite <-app_assoc|]. rewrite fmap_app. simpl in *. by rewrite <-app_assoc.
Qed.
(** Columns that come from a definition go back to it unchanged. *)
Lemma columns_roundtrip crdVersion :
  NoDup (col_Name <$> v_AdditionalPrinterColumns crdVersion) ->
  ToCustomResourceColumnDefinitions (ColumnDefinitions_ImportFromCRDVersion [] crdVersion)
    = v_AdditionalPrinterColumns crdVersion.
Proof.
  intros H. unfold ColumnDefinitions_ImportFromCRDVersion. rewrite add_columns_new by done.
  simpl. clear H. induction (v_AdditionalPrinterColumns crdVersion) as [|c l IH]; [done|].
  unfold ToCustomResourceColumnDefinitions in *. rewrite fmap_cons. cbn [omap list_omap import_column].
  cbn. rewrite IH. by destruct c.
Qed.
End columns.
