(* ===== verification/Negotiation.v ===== *)
(** * The negotiation of API resources ([pkg/reconciler/apiresource])

    The controller that computes, for each resource of a workspace, one negotiated
    schema that the imports of all the physical clusters are compatible with, and
    publishes it as a custom resource definition, unless a definition made by hand
    enforces its own schema. *)

From S2P Require Import Prelude Platform GoTime ApiTypes Committer SyncerShared ApiResource.
Local Open Scope nat_scope.

(** ** The calls *)

Section world.
Context {SC : SchemaCompatLib}.

(** The objects that the controller watches; [Tombstone] is
    [cache.DeletedFinalStateUnknown]. *)
Inductive api_object :=
  | OCRD (crd : CustomResourceDefinition)
  | OImport (i : APIResourceImport)
  | ONegotiated (n : NegotiatedAPIResource)
  | Tombstone (key : string) (obj : api_object).
Inductive queueElementType := customResourceDefinitionType | negotiatedAPIResourceType
  | apiResourceImportType.
Inductive queueElementAction := specChangedAction | statusOnlyChangedAction
  | annotationOrLabelsOnlyChanged | deletedAction | createdAction.
(** [type queueElement struct]: an element without a type for an unknown object. *)
Record queueElement := {
  theAction : queueElementAction;
  theType : queueElementType;
  theKey : string;
  qe_gvr : GroupVersionResource;
  clusterName : string;
  deletedObject : option api_object;
}.

Inductive nev :=
  | NCreate (cluster : string) (n : NegotiatedAPIResource)
  | NGet (cluster name : string)
  | NUpdate (cluster : string) (n : NegotiatedAPIResource)
  | NDelete (cluster name : string)
  | IUpdate (cluster : string) (i : APIResourceImport)
  | CRDCreate (cluster : string) (crd : CustomResourceDefinition)
  | CRDUpdate (cluster : string) (crd : CustomResourceDefinition)
  | CRDDelete (cluster name : string)
  | QAdd (k : queueElement)
  | QAddRateLimited (k : queueElement)
  | QForget (k : queueElement)
  | QDone (k : queueElement)
  | QHandleError (e : error).

(** The answers of the servers, the informers' caches and the clock. An indexer
    fails when it has no such index. *)
Class NegotiationWorld := {
  n_write : list nev -> result unit;
  n_answer : list nev -> result NegotiatedAPIResource;
  negotiated_cache : list nev -> result (list NegotiatedAPIResource);
  import_cache : list nev -> result (list APIResourceImport);
  crdLister : list nev -> string -> string -> result CustomResourceDefinition;
  apiResourceImportLister : list nev -> string -> string -> result APIResourceImport;
  negotiatedApiResourceLister : list nev -> string -> string -> result NegotiatedAPIResource;
  clock : list nev -> Time;
  (** [MetaClusterNamespaceKeyFunc] of an object without metadata. *)
  key_of_tombstone : string -> result string;
  SetDefaults_CustomResourceDefinition : CustomResourceDefinition -> CustomResourceDefinition;
}.
Definition ask {A} (f : list nev -> result A) : M nev A := fun h => (h, of_result (f h)).
End world.

Section controller.
Context {EL : ErrorLib} {CL : ClusterLib} {KL : KeyLib} {SC : SchemaCompatLib} {NW : NegotiationWorld}.

(** ** Indexes ([controller.go]) *)

Definition GetClusterNameAndGVRIndexKey (clusterName : string) (gvr : GroupVersionResource) : string :=
  clusterName +:+ "$" +:+ MetaGVRString gvr.
Definition negotiated_index (n : NegotiatedAPIResource) : list string :=
  [GetClusterNameAndGVRIndexKey (ClusterFrom (n_Meta n)) (NegotiatedAPIResource_GVR n)].
Definition import_index (i : APIResourceImport) : list string :=
  [GetClusterNameAndGVRIndexKey (ClusterFrom (i_Meta i)) (APIResourceImport_GVR i)].
Definition by_index {T} (index : T -> list string) (key : string) (cache : result (list T))
    : result (list T) :=
  l ← cache; mret (List.filter (fun x => bool_decide (key ∈ index x)) l).
Definition negotiated_of (clusterName : string) (gvr : GroupVersionResource)
    : M nev (list NegotiatedAPIResource) :=
  ask (fun h => by_index negotiated_index (GetClusterNameAndGVRIndexKey clusterName gvr)
                  (negotiated_cache h)).
Definition imports_of (clusterName : string) (gvr : GroupVersionResource)
    : M nev (list APIResourceImport) :=
  ask (fun h => by_index import_index (GetClusterNameAndGVRIndexKey clusterName gvr)
                  (import_cache h)).
Definition time_now : M nev Time := ask (fun h => inr (clock h)).

Definition update_negotiated (n : NegotiatedAPIResource) : M nev unit :=
  call (NUpdate (ClusterFrom (n_Meta n)) n) n_write.
Definition update_import (i : APIResourceImport) : M nev unit :=
  call (IUpdate (ClusterFrom (i_Meta i)) i) n_write.

(** ** Owners ([negotiation.go]) *)

Definition SchemeGroupVersion : string := "apiresource.kcp.io/v1alpha1".
Definition negotiatedAPIResourceKind : string := "NegotiatedAPIResource".
Definition NegotiatedAPIResourceAsOwnerReference (obj : NegotiatedAPIResource) : OwnerReference := {|
  or_APIVersion := SchemeGroupVersion; or_Kind := negotiatedAPIResourceKind;
  or_Name := Name (n_Meta obj); or_UID := UID (n_Meta obj);
  or_Controller := None; or_BlockOwnerDeletion := None |}.
Definition isManuallyCreatedCRD (crd : CustomResourceDefinition) : bool :=
  negb (existsb (fun r => bool_decide (or_APIVersion r = SchemeGroupVersion)
                          && bool_decide (or_Kind r = negotiatedAPIResourceKind))
          (OwnerReferences (crd_Meta crd))).

(** ** Definitions made by hand *)

Definition version_gvr (gvr : GroupVersionResource) (version : string) : GroupVersionResource :=
  {| gvr_Group := gvr_Group gvr; gvr_Version := version; gvr_Resource := gvr_Resource gvr |}.
Definition condition_true (t : string) : ResourceCondition := new_condition t ConditionTrue "" "".
Definition condition_false (t : string) : ResourceCondition := new_condition t ConditionFalse "" "".
(** [version.Schema.OpenAPIV3Schema]. *)
Definition version_schema (version : CRDVersion) : res (option JSONSchemaProps) :=
  match v_Schema version with
  | None => Panic "invalid memory address or nil pointer dereference"
  | Some s => Ok s
  end.
(** The second update is of the same object: its resource version is the old one. *)
Definition enforce_one (version : CRDVersion) (n : NegotiatedAPIResource) : M nev unit :=
  now ← time_now;
  let n := with_n_conditions (SetCondition now (condition_true Enforced)) n in
  update_negotiated n;;
  schema ← lift (version_schema version);
  spec ← read (SetSchema (n_Spec n) schema);
  update_negotiated (with_n_spec n spec).
Definition enforceCRDToNegotiatedAPIResource (clusterName : string) (gvr : GroupVersionResource)
    (crd : CustomResourceDefinition) : M nev unit :=
  for_each (crd_Versions crd) (fun version =>
    objects ← negotiated_of clusterName (version_gvr gvr (v_Name version));
    for_each objects (enforce_one version)).

Definition Established : string := "Established".
Definition NamesAccepted : string := "NamesAccepted".
Definition NonStructuralSchema : string := "NonStructuralSchema".
Definition Terminating : string := "Terminating".
Definition crd_accepted (crd : CustomResourceDefinition) : bool :=
  let holds := IsCRDConditionTrue (crd_Conditions crd) in
  holds Established && holds NamesAccepted && negb (holds NonStructuralSchema)
  && negb (holds Terminating).
Definition crd_refused (crd : CustomResourceDefinition) : bool :=
  let holds := IsCRDConditionTrue (crd_Conditions crd) in
  let fails := IsCRDConditionFalse (crd_Conditions crd) in
  fails Established || fails NamesAccepted || holds NonStructuralSchema || holds Terminating.
Definition setPublishingStatusOnNegotiatedAPIResource (now : Time) (crd : CustomResourceDefinition)
    (cs : list ResourceCondition) : list ResourceCondition :=
  let cs :=
    if crd_accepted crd then SetCondition now (condition_true Published) cs
    else if crd_refused crd then SetCondition now (condition_false Published) cs
    else cs in
  SetCondition now
    (if isManuallyCreatedCRD crd then condition_true Enforced else condition_false Enforced) cs.
Definition updatePublishingStatusOnNegotiatedAPIResources (clusterName : string)
    (gvr : GroupVersionResource) (crd : CustomResourceDefinition) : M nev unit :=
  for_each (crd_Versions crd) (fun version =>
    objects ← negotiated_of clusterName (version_gvr gvr (v_Name version));
    for_each objects (fun n =>
      now ← time_now;
      update_negotiated (with_n_conditions (setPublishingStatusOnNegotiatedAPIResource now crd) n))).

(** The first object of each version; an index error only leaves none. *)
Definition delete_version (clusterName : string) (gvrToDelete : GroupVersionResource) : M nev unit :=
  r ← try (negotiated_of clusterName gvrToDelete);
  match r with
  | inr (toDelete :: _) =>
      call (NDelete (ClusterFrom (n_Meta toDelete)) (Name (n_Meta toDelete))) n_write
  | _ => mret tt
  end.
Definition deleteNegotiatedAPIResource (clusterName : string) (gvr : GroupVersionResource)
    (crd : option CustomResourceDefinition) : M nev unit :=
  if decide (gvr_Version gvr <> "") then for_each [gvr] (delete_version clusterName)
  else match crd with
       | None => mret tt
       | Some crd =>
           for_each (version_gvr gvr <$> (v_Name <$> crd_Versions crd)) (delete_version clusterName)
       end.

(** ** The negotiation ([ensureAPIResourceCompatibility]) *)

Definition group_or_core (group : string) : string := if decide (group = "") then "core" else group.
Definition negotiatedAPIResourceName (gvr : GroupVersionResource) : string :=
  gvr_Resource gvr +:+ "." +:+ gvr_Version gvr +:+ "." +:+ group_or_core (gvr_Group gvr).
Definition crdName (gvr : GroupVersionResource) : string :=
  gvr_Resource gvr +:+ "." +:+ group_or_core (gvr_Group gvr).
Definition APIVersionAnnotation : string := "apiresource.kcp.io/apiVersion".
Definition KubeAPIApprovedAnnotation : string := "api-approved.kubernetes.io".

Definition negotiated_meta (clusterName : string) (gvr : GroupVersionResource) (v : GroupVersion)
    (resourceVersion : string) (approved : option string) : ObjectMeta :=
  let annotations : gmap string string :=
    <[APIVersionAnnotation := APIVersion v]> {[ AnnotationKey := clusterName ]} in
  {| Name := negotiatedAPIResourceName gvr; Namespace := ""; UID := "";
     ResourceVersion := resourceVersion; Labels := None;
     Annotations := Some (match approved with
       | Some value => <[KubeAPIApprovedAnnotation := value]> annotations
       | None => annotations
       end);
     Finalizers := []; DeletionTimestamp := None; CreationTimestamp := ZeroTime;
     OwnerReferences := [] |}.

(** The last version of the name. *)
Definition crd_version (crd : CustomResourceDefinition) (name : string) : option CRDVersion :=
  foldl (fun found v => if decide (v_Name v = name) then Some v else found) None (crd_Versions crd).
(** What a definition made by hand enforces. *)
Definition negotiated_from_crd (now : Time) (clusterName : string) (gvr : GroupVersionResource)
    (crd : CustomResourceDefinition) (crdVersion : CRDVersion) : res NegotiatedAPIResource :=
  let groupVersion := {| gv_Group := gvr_Group gvr; gv_Version := gvr_Version gvr |} in
  schema ← version_schema crdVersion;
  spec ← of_result (SetSchema {|
    cs_GroupVersion := groupVersion; cs_Scope := crd_Scope crd; cs_Names := crd_Names crd;
    cs_OpenAPIV3Schema := "";
    cs_SubResources := SubResources_ImportFromCRDVersion [] crdVersion;
    cs_ColumnDefinitions := ColumnDefinitions_ImportFromCRDVersion [] crdVersion |} schema);
  mret {| n_Meta := negotiated_meta clusterName gvr groupVersion "" None; n_Generation := 0;
          n_Spec := spec; Publish := true;
          n_Conditions := SetCondition now (condition_true Enforced)
                            (SetCondition now (condition_true Published) []) |}.
(** The first import of a resource that nothing was negotiated for. *)
Definition negotiated_from_import (clusterName : string) (gvr : GroupVersionResource)
    (negotiatedAPIResource : option NegotiatedAPIResource) (i : APIResourceImport)
    : NegotiatedAPIResource := {|
  n_Meta := negotiated_meta clusterName gvr (cs_GroupVersion (i_Spec i))
    (from_option (fun n => ResourceVersion (n_Meta n)) "" negotiatedAPIResource)
    (map_get (Annotations (i_Meta i)) KubeAPIApprovedAnnotation);
  n_Generation := 0; n_Spec := i_Spec i;
  Publish := from_option Publish false negotiatedAPIResource; n_Conditions := [] |}.

(** The loop's variables: [newNegotiatedAPIResource], [updatedNegotiatedSchema], and
    the imports with their new conditions, to be updated at the end. *)
Record negotiation := {
  new_negotiated : option NegotiatedAPIResource;
  updated_schema : bool;
  judged : list APIResourceImport;
}.
Definition judge (now : Time) (c : ResourceCondition) : APIResourceImport -> APIResourceImport :=
  with_i_conditions (SetCondition now c).
Definition may_update (n : NegotiatedAPIResource) (i : APIResourceImport) : bool :=
  negb (IsConditionTrue (n_Conditions n) Enforced)
  && CanUpdate (SchemaUpdateStrategy i) (IsConditionTrue (n_Conditions n) Published).
(** Against what was negotiated so far. *)
Definition compare_import (now : Time) (n : NegotiatedAPIResource) (st : negotiation)
    (i : APIResourceImport) : result negotiation :=
  let allowUpdateNegotiatedSchema := may_update n i in
  importSchema ← GetSchema (i_Spec i);
  negotiatedSchema ← GetSchema (n_Spec n);
  match EnsureStructuralSchemaCompatibility (Kind (cs_Names (n_Spec n))) negotiatedSchema
          importSchema allowUpdateNegotiatedSchema with
  | inl err =>
      mret {| new_negotiated := Some n; updated_schema := updated_schema st;
              judged := judged st ++ [judge now (new_condition Compatible ConditionFalse
                          "IncompatibleSchema" (error_text err)) i] |}
  | inr lcd =>
      let i := judge now (condition_true Compatible) i in
      let i := if IsConditionTrue (n_Conditions n) Published
               then judge now (condition_true Available) i else i in
      if allowUpdateNegotiatedSchema then
        spec ← SetSchema (n_Spec n) (Some lcd);
        mret {| new_negotiated := Some (with_n_spec n spec); updated_schema := true;
                judged := judged st ++ [i] |}
      else mret {| new_negotiated := Some n; updated_schema := updated_schema st;
                   judged := judged st ++ [i] |}
  end.
Definition negotiate_one (now : Time) (clusterName : string) (gvr : GroupVersionResource)
    (negotiatedAPIResource : option NegotiatedAPIResource) (st : negotiation) (i : APIResourceImport)
    : result negotiation :=
  match new_negotiated st with
  | None =>
      mret {| new_negotiated := Some (negotiated_from_import clusterName gvr negotiatedAPIResource i);
              updated_schema := true;
              judged := judged st ++ [judge now (condition_true Compatible) i] |}
  | Some n => compare_import now n st i
  end.
Fixpoint negotiate (clusterName : string) (gvr : GroupVersionResource)
    (negotiatedAPIResource : option NegotiatedAPIResource) (st : negotiation)
    (l : list APIResourceImport) : M nev negotiation :=
  match l with
  | [] => mret st
  | i :: l =>
      now ← time_now;
      st ← read (negotiate_one now clusterName gvr negotiatedAPIResource st i);
      negotiate clusterName gvr negotiatedAPIResource st l
  end.

(** The object to start from: the definition made by hand; the negotiated resource
    when one import is added to it; none when everything is computed again. *)
Definition negotiation_base (clusterName : string) (gvr : GroupVersionResource)
    (base : option NegotiatedAPIResource) : M nev (option NegotiatedAPIResource) :=
  r ← try (ask (fun h => crdLister h clusterName (crdName gvr)));
  match r with
  | inl err => if negb (IsNotFound err) then fail err else mret base
  | inr crd =>
      if isManuallyCreatedCRD crd then
        match crd_version crd (gvr_Version gvr) with
        | None => mret base
        | Some crdVersion =>
            now ← time_now;
            n ← lift (negotiated_from_crd now clusterName gvr crd crdVersion);
            mret (Some n)
        end
      else mret base
  end.
(** The result of the negotiation is created, with its conditions in a second
    request, or updated when its schema changed. *)
Definition store_negotiated (negotiatedAPIResource : option NegotiatedAPIResource)
    (updatedNegotiatedSchema : bool) (n : NegotiatedAPIResource) : M nev unit :=
  let cluster := ClusterFrom (n_Meta n) in
  match negotiatedAPIResource with
  | None =>
      r ← try (call (NCreate cluster n) n_answer);
      existing ← match r with
        | inr existing => mret existing
        | inl err => if IsAlreadyExists err then call (NGet cluster (Name (n_Meta n))) n_answer
                     else fail err
        end;
      match n_Conditions n with
      | [] => mret tt
      | cs => update_negotiated (with_n_conditions (fun _ => cs) existing)
      end
  | Some _ =>
      if updatedNegotiatedSchema then call (NUpdate cluster n) n_write else mret tt
  end.
(** An import's conditions, on its latest version. *)
Definition at_version (v : string) (i : APIResourceImport) : APIResourceImport :=
  let m := i_Meta i in {|
  i_Meta := {| Name := Name m; Namespace := Namespace m; UID := UID m; ResourceVersion := v;
               Labels := Labels m; Annotations := Annotations m; Finalizers := Finalizers m;
               DeletionTimestamp := DeletionTimestamp m; CreationTimestamp := CreationTimestamp m;
               OwnerReferences := OwnerReferences m |};
  i_Generation := i_Generation i; i_Spec := i_Spec i;
  SchemaUpdateStrategy := SchemaUpdateStrategy i; i_Location := i_Location i;
  i_Conditions := i_Conditions i |}.
Definition update_judged (i : APIResourceImport) : M nev unit :=
  lastOne ← ask (fun h => apiResourceImportLister h (ClusterFrom (i_Meta i)) (Name (i_Meta i)));
  update_import (at_version (ResourceVersion (i_Meta lastOne)) i).
(** [overrideStrategy] is never used. *)
Definition ensureAPIResourceCompatibility (clusterName : string) (gvr : GroupVersionResource)
    (apiResourceImport : option APIResourceImport) (overrideStrategy : string) : M nev unit :=
  objs ← negotiated_of clusterName gvr;
  let negotiatedAPIResource := head objs in
  apiResourcesImports ← match apiResourceImport with
    | Some i => mret [i]
    | None => imports_of clusterName gvr
    end;
  match apiResourcesImports with
  | [] => mret tt
  | _ =>
      base ← negotiation_base clusterName gvr
               (match apiResourceImport with Some _ => negotiatedAPIResource | None => None end);
      st ← negotiate clusterName gvr negotiatedAPIResource
             {| new_negotiated := base; updated_schema := false; judged := [] |} apiResourcesImports;
      match new_negotiated st with
      | None => mret tt
      | Some n => store_negotiated negotiatedAPIResource (updated_schema st) n
      end;;
      for_each (judged st) update_judged
  end.

(** [negotiatedAPIResourceIsOrphan]. *)
Definition negotiatedAPIResourceIsOrphan (clusterName : string) (gvr : GroupVersionResource)
    : M nev bool :=
  objs ← imports_of clusterName gvr;
  match objs with
  | _ :: _ => mret false
  | [] =>
      objs ← negotiated_of clusterName gvr;
      match objs with
      | [n] => mret (negb (IsConditionTrue (n_Conditions n) Enforced))
      | _ => mret false
      end
  end.

(** ** Publication *)

Definition published_version (gvr : GroupVersionResource) (negotiatedSchema : JSONSchemaProps)
    (n : NegotiatedAPIResource) : CRDVersion := {|
  v_Name := gvr_Version gvr; v_Served := true; v_Storage := true;
  v_Schema := Some (Some negotiatedSchema);
  v_Subresources := Some {| sub_Status := false;
    sub_Scale := if SubResources_Contains (cs_SubResources (n_Spec n)) "scale"
                 then Some (".spec.replicas", ".status.replicas") else None |};
  v_AdditionalPrinterColumns := ToCustomResourceColumnDefinitions (cs_ColumnDefinitions (n_Spec n));
  v_Deprecated := false |}.
Definition set_storage (b : bool) (v : CRDVersion) : CRDVersion := {|
  v_Name := v_Name v; v_Served := v_Served v; v_Storage := b; v_Schema := v_Schema v;
  v_Subresources := v_Subresources v; v_AdditionalPrinterColumns := v_AdditionalPrinterColumns v;
  v_Deprecated := v_Deprecated v |}.
(** The last index at which [p] holds. *)
Definition last_index (p : CRDVersion -> bool) (versions : list CRDVersion) : option nat :=
  foldl (fun found iv => if p iv.2 then Some iv.1 else found) None (zip (seq 0 (length versions)) versions).
Definition is_the_latest (name : string) (versions : list CRDVersion) : bool :=
  negb (existsb (fun v => (0 <? CompareKubeAwareVersionStrings (v_Name v) name)%Z) versions).
Definition place_version (crdVersion : CRDVersion) (versions : list CRDVersion) : list CRDVersion :=
  let existingCRDVersionIndex :=
    last_index (fun v => bool_decide (v_Name v = v_Name crdVersion)) versions in
  let storageVersionIndex := last_index v_Storage versions in
  let '(crdVersion, versions) :=
    if negb (is_the_latest (v_Name crdVersion) versions) then (set_storage false crdVersion, versions)
    else match storageVersionIndex with
         | Some i => (crdVersion, alter (set_storage false) i versions)
         | None => (crdVersion, versions)
         end in
  match existingCRDVersionIndex with
  | None => versions ++ [crdVersion]
  | Some i => <[i := crdVersion]> versions
  end.

Definition owned_by (n : NegotiatedAPIResource) (r : OwnerReference) : bool :=
  bool_decide (or_Name r = Name (n_Meta n)) && bool_decide (or_UID r = UID (n_Meta n)).
Definition add_owner (n : NegotiatedAPIResource) (owners : list OwnerReference) : list OwnerReference :=
  if existsb (owned_by n) owners then owners else owners ++ [NegotiatedAPIResourceAsOwnerReference n].
Definition with_owners (m : ObjectMeta) (owners : list OwnerReference) : ObjectMeta := {|
  Name := Name m; Namespace := Namespace m; UID := UID m; ResourceVersion := ResourceVersion m;
  Labels := Labels m; Annotations := Annotations m; Finalizers := Finalizers m;
  DeletionTimestamp := DeletionTimestamp m; CreationTimestamp := CreationTimestamp m;
  OwnerReferences := owners |}.
Definition with_crd (crd : CustomResourceDefinition) (m : ObjectMeta) (versions : list CRDVersion)
    : CustomResourceDefinition := {|
  crd_Meta := m; crd_Generation := crd_Generation crd; crd_Group := crd_Group crd;
  crd_Names := crd_Names crd; crd_Scope := crd_Scope crd; crd_Versions := versions;
  crd_Conditions := crd_Conditions crd |}.

Definition new_crd (gvr : GroupVersionResource) (n : NegotiatedAPIResource) (crdVersion : CRDVersion)
    : CustomResourceDefinition :=
  let cr := SetDefaults_CustomResourceDefinition {|
    crd_Meta := with_owners (mk_meta (crdName gvr) "" None
      (Some {[ AnnotationKey := ClusterFrom (n_Meta n) ]}) []) [NegotiatedAPIResourceAsOwnerReference n];
    crd_Generation := 0; crd_Group := gv_Group (cs_GroupVersion (n_Spec n));
    crd_Names := cs_Names (n_Spec n); crd_Scope := cs_Scope (n_Spec n);
    crd_Versions := [crdVersion]; crd_Conditions := [] |} in
  if IsProtectedCommunityGroup (gvr_Group gvr)
  then with_crd cr (with_annotations (crd_Meta cr)
         (Some (<[KubeAPIApprovedAnnotation := "https://github.com/kcp-dev/kubernetes/pull/4"]>
                  (entries (Annotations (crd_Meta cr)))))) (crd_Versions cr)
  else cr.
Definition published_crd (crd : CustomResourceDefinition) (n : NegotiatedAPIResource)
    (crdVersion : CRDVersion) : CustomResourceDefinition :=
  with_crd crd (with_owners (crd_Meta crd) (add_owner n (OwnerReferences (crd_Meta crd))))
    (place_version crdVersion (crd_Versions crd)).
Definition publishNegotiatedResource (clusterName : string) (gvr : GroupVersionResource)
    (n : NegotiatedAPIResource) : M nev unit :=
  negotiatedSchema ← read (GetSchema (n_Spec n));
  let crdVersion := published_version gvr negotiatedSchema n in
  r ← try (ask (fun h => crdLister h clusterName (crdName gvr)));
  match r with
  | inl err =>
      if negb (IsNotFound err) then fail err
      else call (CRDCreate clusterName (new_crd gvr n crdVersion)) n_write
  | inr crd =>
      if isManuallyCreatedCRD crd then mret tt
      else call (CRDUpdate clusterName (published_crd crd n crdVersion)) n_write
  end;;
  now ← time_now;
  update_negotiated (with_n_conditions (SetCondition now (condition_true Submitted)) n).

(** Every import of the resource, compatible or not. *)
Definition updateStatusOnRelatedAPIResourceImports (clusterName : string) (gvr : GroupVersionResource)
    (n : NegotiatedAPIResource) : M nev unit :=
  match FindCondition (n_Conditions n) Published with
  | None => mret tt
  | Some publishedCondition =>
      objs ← imports_of clusterName gvr;
      for_each objs (fun i =>
        now ← time_now;
        update_import (judge now (new_condition Available (rc_Status publishedCondition) "" "") i))
  end.

(** The definition that a deleted negotiated resource leaves: without its version
    and its ownership, or none. *)
Definition without_owner (n : NegotiatedAPIResource) (owners : list OwnerReference)
    : list OwnerReference := List.filter (fun r => negb (owned_by n r)) owners.
Definition without_version (name : string) (versions : list CRDVersion) : list CRDVersion :=
  List.filter (fun v => negb (bool_decide (v_Name v = name))) versions.
Definition cleanup_crd (clusterName : string) (gvr : GroupVersionResource) (n : NegotiatedAPIResource)
    (crd : CustomResourceDefinition) : M nev unit :=
  let owners := OwnerReferences (crd_Meta crd) in
  if negb (existsb (owned_by n) owners) then mret tt
  else
    let cleanedVersions := without_version (gvr_Version gvr) (crd_Versions crd) in
    if decide (length cleanedVersions = length (crd_Versions crd)) then mret tt
    else match cleanedVersions with
    | [] => call (CRDDelete clusterName (Name (crd_Meta crd))) n_write
    | _ => call (CRDUpdate clusterName
             (with_crd crd (with_owners (crd_Meta crd) (without_owner n owners)) cleanedVersions)) n_write
    end.
Definition forget_judgement : APIResourceImport -> APIResourceImport :=
  with_i_conditions (fun cs => RemoveCondition Compatible (RemoveCondition Available cs)).
Definition cleanupNegotiatedAPIResource (clusterName : string) (gvr : GroupVersionResource)
    (n : NegotiatedAPIResource) : M nev unit :=
  objs ← imports_of clusterName gvr;
  for_each objs (fun i => update_import (forget_judgement i));;
  r ← try (ask (fun h => crdLister h clusterName (crdName gvr)));
  match r with
  | inl err => if IsNotFound err then mret tt else fail err
  | inr crd => cleanup_crd clusterName gvr n crd
  end.

(** ** One pass ([process]) *)

(** The object of the key, or the deleted one when it is not found. *)
Definition object_or_deleted {T} (get : M nev T) (deleted : option T) : M nev T :=
  r ← try get;
  match r, deleted with
  | inr x, _ => mret x
  | inl err, Some x => if IsNotFound err then mret x else fail err
  | inl err, None => fail err
  end.
Definition deleted_crd (key : queueElement) : option CustomResourceDefinition :=
  match deletedObject key with Some (OCRD crd) => Some crd | _ => None end.
Definition deleted_import (key : queueElement) : option APIResourceImport :=
  match deletedObject key with Some (OImport i) => Some i | _ => None end.
Definition deleted_negotiated (key : queueElement) : option NegotiatedAPIResource :=
  match deletedObject key with Some (ONegotiated n) => Some n | _ => None end.

Definition process_crd (key : queueElement) (crd : CustomResourceDefinition) : M nev unit :=
  let cluster := ClusterFrom (crd_Meta crd) in
  let update := updatePublishingStatusOnNegotiatedAPIResources cluster (qe_gvr key) crd in
  match theAction key with
  | createdAction | specChangedAction =>
      (if isManuallyCreatedCRD crd then enforceCRDToNegotiatedAPIResource cluster (qe_gvr key) crd
       else mret tt);;
      update
  | statusOnlyChangedAction => update
  | deletedAction =>
      if isManuallyCreatedCRD crd then deleteNegotiatedAPIResource cluster (qe_gvr key) (Some crd)
      else update
  | annotationOrLabelsOnlyChanged => mret tt
  end.
Definition process_import (key : queueElement) (i : APIResourceImport) : M nev unit :=
  let cluster := ClusterFrom (i_Meta i) in
  match theAction key with
  | createdAction | specChangedAction =>
      ensureAPIResourceCompatibility cluster (qe_gvr key) (Some i) ""
  | statusOnlyChangedAction =>
      match FindCondition (i_Conditions i) Compatible, FindCondition (i_Conditions i) Available with
      | None, None => ensureAPIResourceCompatibility cluster (qe_gvr key) (Some i) ""
      | _, _ => mret tt
      end
  | deletedAction =>
      isOrphan ← negotiatedAPIResourceIsOrphan cluster (qe_gvr key);
      if (isOrphan : bool) then deleteNegotiatedAPIResource cluster (qe_gvr key) None
      else ensureAPIResourceCompatibility cluster (qe_gvr key) None UpdatePublished
  | annotationOrLabelsOnlyChanged => mret tt
  end.
Definition process_negotiated (key : queueElement) (n : NegotiatedAPIResource) : M nev unit :=
  let cluster := ClusterFrom (n_Meta n) in
  let update := updateStatusOnRelatedAPIResourceImports cluster (qe_gvr key) n in
  let enforced := IsConditionTrue (n_Conditions n) Enforced in
  match theAction key with
  | createdAction | specChangedAction =>
      (if enforced then ensureAPIResourceCompatibility cluster (qe_gvr key) None UpdateNever
       else mret tt);;
      (if Publish n && negb enforced then publishNegotiatedResource cluster (qe_gvr key) n
       else mret tt);;
      update
  | statusOnlyChangedAction => update
  | deletedAction => cleanupNegotiatedAPIResource cluster (qe_gvr key) n
  | annotationOrLabelsOnlyChanged => mret tt
  end.
Definition process (key : queueElement) : M nev unit :=
  match SplitMetaClusterNamespaceKey (theKey key) with
  | inl err => emit (QHandleError err)
  | inr (clusterName, _, name) =>
      match theType key with
      | customResourceDefinitionType =>
          crd ← object_or_deleted (ask (fun h => crdLister h clusterName name)) (deleted_crd key);
          process_crd key crd
      | apiResourceImportType =>
          i ← object_or_deleted (ask (fun h => apiResourceImportLister h clusterName name))
                (deleted_import key);
          process_import key i
      | negotiatedAPIResourceType =>
          n ← object_or_deleted (ask (fun h => negotiatedApiResourceLister h clusterName name))
                (deleted_negotiated key);
          process_negotiated key n
      end
  end.

(** ** Handlers and queue ([controller.go]) *)

Fixpoint toQueueElementType (obj : api_object) : queueElementType * GroupVersionResource * ObjectMeta :=
  match obj with
  | OCRD crd => (customResourceDefinitionType,
      {| gvr_Group := crd_Group crd; gvr_Version := ""; gvr_Resource := Plural (crd_Names crd) |},
      crd_Meta crd)
  | OImport i => (apiResourceImportType, APIResourceImport_GVR i, i_Meta i)
  | ONegotiated n => (negotiatedAPIResourceType, NegotiatedAPIResource_GVR n, n_Meta n)
  | Tombstone _ obj => toQueueElementType obj
  end.
Definition object_key (obj : api_object) : result string :=
  match obj with
  | OCRD crd => MetaClusterNamespaceKeyFunc (crd_Meta crd)
  | OImport i => MetaClusterNamespaceKeyFunc (i_Meta i)
  | ONegotiated n => MetaClusterNamespaceKeyFunc (n_Meta n)
  | Tombstone key _ => key_of_tombstone key
  end.
Definition queue (action : queueElementAction) (obj : api_object) (deleted : option api_object)
    : M nev unit :=
  match object_key obj with
  | inl err => emit (QHandleError err)
  | inr key =>
      let '(type, gvr, meta) := toQueueElementType obj in
      emit (QAdd {| theAction := action; theType := type; theKey := key; qe_gvr := gvr;
                    clusterName := ClusterFrom meta; deletedObject := deleted |})
  end.
Definition enqueue_add (obj : api_object) : M nev unit := queue createdAction obj None.
Definition enqueue_delete (obj : api_object) : M nev unit := queue deletedAction obj (Some obj).

Definition generation (obj : api_object) : Z :=
  match obj with
  | OCRD crd => crd_Generation crd | OImport i => i_Generation i | ONegotiated n => n_Generation n
  | Tombstone _ _ => 0%Z
  end.
(** The two objects have the same type and no tombstone among them, as the informer
    of one type delivers them; the status is equal up to [Semantic.DeepEqual]. *)
Definition enqueue_update (status_equal : bool) {DM : DeepEq gomap} (oldObj obj : api_object)
    : M nev unit :=
  let old := (toQueueElementType oldObj).2 in
  let new := (toQueueElementType obj).2 in
  if decide (ResourceVersion old = ResourceVersion new) then
    match object_key obj with inl err => emit (QHandleError err) | inr _ => mret tt end
  else if negb (bool_decide (generation oldObj = generation obj)) then queue specChangedAction obj None
  else if negb status_equal then queue statusOnlyChangedAction obj None
  else if negb (deep_equal (Annotations old) (Annotations new))
          || deep_equal (Labels old) (Labels new)
  then queue annotationOrLabelsOnlyChanged obj None
  else match object_key obj with inl err => emit (QHandleError err) | inr _ => mret tt end.

Definition processNextWorkItem (key : queueElement) : M nev unit := fun h =>
  let '(h, r) :=
    (r ← try (process key);
     match r with
     | inl err =>
         emit (QHandleError (ErrWrap "controller failed to sync" err));; emit (QAddRateLimited key)
     | inr _ => emit (QForget key)
     end) h in
  (h ++ [QDone key], r).
End controller.

(** * Lemmas *)

(** ** Versions of a definition *)

Section versions.
Context {SC : SchemaCompatLib}.

Lemma last_index_go (p : CRDVersion -> bool) (l : list CRDVersion) (k : nat) (acc : option nat) :
  let r := foldl (fun found iv => if p iv.2 then Some iv.1 else found) acc
             (zip (seq k (length l)) l) in
  (exists j (v : CRDVersion), l !! j = Some v /\ p v = true /\ r = Some (k + j)) \/
  ((forall v, v ∈ l -> p v = false) /\ r = acc).
Proof.
  revert k acc. induction l as [|v l IH]; intros k acc; simpl.
  { right. split; [|done]. by intros v ?%elem_of_nil. }
  destruct (IH (S k) (if p v then Some k else acc)) as [(j & w & Hj & Hw & ->)|[Hn ->]].
  - left. exists (S j), w. split; [done|]. split; [done|]. f_equal. lia.
  - destruct (p v) eqn:Pv.
    + left. exists 0, v. split; [done|]. split; [done|]. f_equal. lia.
    + right. split; [|done]. intros w [->|Hw]%elem_of_cons; auto.
Qed.
Lemma last_index_spec p l :
  match last_index p l with
  | Some i => exists v, l !! i = Some v /\ p v = true
  | None => forall v, v ∈ l -> p v = false
  end.
Proof.
  unfold last_index. destruct (last_index_go p l 0 None) as [(j & v & Hj & Hv & ->)|[H ->]]; [|done].
  by exists v.
Qed.

(** The order of version names, total on the [plain] names: it does not tell [v1]
    from [v01]. *)
Variable plain : string -> Prop.
Hypothesis compare_refl : forall a, CompareKubeAwareVersionStrings a a = 0%Z.
Hypothesis compare_antisym : forall a b,
  (0 < CompareKubeAwareVersionStrings a b)%Z <-> (CompareKubeAwareVersionStrings b a < 0)%Z.
Hypothesis compare_total : forall a b, plain a -> plain b -> CompareKubeAwareVersionStrings a b = 0%Z -> a = b.
Hypothesis compare_trans : forall a b c,
  (0 < CompareKubeAwareVersionStrings a b)%Z -> (0 < CompareKubeAwareVersionStrings b c)%Z ->
  (0 < CompareKubeAwareVersionStrings a c)%Z.

Lemma latest_spec x (l : list CRDVersion) :
  is_the_latest x l = true <->
  forall v, v ∈ l -> ~ (0 < CompareKubeAwareVersionStrings (v_Name v) x)%Z.
Proof.
  unfold is_the_latest. rewrite negb_true_iff, <-not_true_iff_false, existsb_exists. split.
  - intros H v Hv Hlt. apply H. exists v. split; [by apply list_elem_of_In|lia].
  - intros H (v & Hv%list_elem_of_In & Hlt). apply (H v Hv). lia.
Qed.
Lemma latest_names x (l l' : list CRDVersion) :
  (forall n, n ∈ v_Name <$> l' -> n ∈ v_Name <$> l) ->
  is_the_latest x l = true -> is_the_latest x l' = true.
Proof.
  rewrite !latest_spec. intros Hn H v Hv.
  destruct (proj1 (list_elem_of_fmap _ _ _) (Hn _ (list_elem_of_fmap_2 v_Name _ _ Hv))) as (w & -> & Hw).
  by apply H.
Qed.

Lemma alter_names (f : CRDVersion -> CRDVersion) (i : nat) (l : list CRDVersion) :
  (forall v, v_Name (f v) = v_Name v) -> v_Name <$> alter f i l = v_Name <$> l.
Proof.
  intros Hf. revert i. induction l as [|v l IH]; intros [|i]; try done.
  - change (alter f 0 (v :: l)) with (f v :: l). by rewrite !fmap_cons, Hf.
  - change (alter f (S i) (v :: l)) with (v :: alter f i l). by rewrite !fmap_cons, IH.
Qed.

(** What a definition stores: exactly its latest version. *)
Definition well_stored (l : list CRDVersion) : Prop :=
  NoDup (v_Name <$> l) /\ Forall plain (v_Name <$> l) /\
  forall v, v ∈ l -> v_Storage v = is_the_latest (v_Name v) l.

Lemma place_names (c : CRDVersion) (l : list CRDVersion) :
  v_Name <$> place_version c l =
    (v_Name <$> l) ++ (if decide (v_Name c ∈ v_Name <$> l) then [] else [v_Name c]).
Proof.
  unfold place_version.
  pose proof (last_index_spec (fun v => bool_decide (v_Name v = v_Name c)) l) as He.
  set (c' := if negb (is_the_latest (v_Name c) l) then set_storage false c else c).
  set (l' := if negb (is_the_latest (v_Name c) l) then l else
    match last_index v_Storage l with Some i => alter (set_storage false) i l | None => l end).
  assert (Hl : v_Name <$> l' = v_Name <$> l).
  { unfold l'. destruct (negb _); [done|]. destruct (last_index v_Storage l) as [i|]; [|done].
    by apply alter_names. }
  assert (Hc : v_Name c' = v_Name c) by (unfold c'; by destruct (negb _)).
  assert (Hp : (let '(crdVersion, versions) :=
    if negb (is_the_latest (v_Name c) l) then (set_storage false c, l)
    else match last_index v_Storage l with
         | Some i => (c, alter (set_storage false) i l) | None => (c, l) end in
    match last_index (fun v => bool_decide (v_Name v = v_Name c)) l with
    | None => versions ++ [crdVersion] | Some i => <[i := crdVersion]> versions end) =
    match last_index (fun v => bool_decide (v_Name v = v_Name c)) l with
    | None => l' ++ [c'] | Some i => <[i := c']> l' end).
  { unfold c', l'. destruct (negb _); [done|]. by destruct (last_index v_Storage l). }
  rewrite Hp. clear Hp. destruct (last_index _ l) as [i|].
  - destruct He as (v & Hi & Hv%bool_decide_eq_true). rewrite (decide_True (P := v_Name c ∈ v_Name <$> l)).
    2:{ rewrite <-Hv. apply list_elem_of_fmap_2. by eapply list_elem_of_lookup_2. }
    rewrite app_nil_r, list_fmap_insert, Hl, Hc. apply list_insert_id.
    by rewrite list_lookup_fmap, Hi; simpl; rewrite Hv.
  - rewrite fmap_app, Hl. simpl. rewrite Hc, (decide_False (P := v_Name c ∈ v_Name <$> l)); [done|].
    intros (v & E & Hv)%list_elem_of_fmap. apply He in Hv. by apply bool_decide_eq_false in Hv.
Qed.

(** The elements of the new list: the placed version, and the others, which may have
    lost their storage flag to it. *)
Lemma place_elem (c : CRDVersion) (l : list CRDVersion) u :
  NoDup (v_Name <$> l) -> u ∈ place_version c l ->
  let latest := is_the_latest (v_Name c) l in
  u = (if latest then c else set_storage false c) \/
  exists v, v ∈ l /\ v_Name v <> v_Name c /\
    ((u = v /\ (latest = true -> v_Storage v = true -> exists w, w ∈ l /\ w <> v /\ v_Storage w = true)) \/
     (latest = true /\ u = set_storage false v)).
Proof.
  intros Hnd Hu latest. unfold place_version in Hu. fold latest in Hu.
  pose proof (last_index_spec (fun v => bool_decide (v_Name v = v_Name c)) l) as He.
  assert (Hname : forall i v, last_index (fun v => bool_decide (v_Name v = v_Name c)) l = Some i ->
    forall j, l !! j = Some v -> j <> i -> v_Name v <> v_Name c).
  { intros i v Hi j Hj Hne E. rewrite Hi in He. destruct He as (w & Hw & Hwn%bool_decide_eq_true).
    apply Hne. eapply (NoDup_lookup (v_Name <$> l)); [done| |]; rewrite list_lookup_fmap.
    - by rewrite Hj. - rewrite Hw. simpl. congruence. }
  assert (Hnone : last_index (fun v => bool_decide (v_Name v = v_Name c)) l = None ->
    forall v, v ∈ l -> v_Name v <> v_Name c).
  { intros Hi v Hv. rewrite Hi in He. by apply He, bool_decide_eq_false in Hv. }
  set (l' := if latest then match last_index v_Storage l with
    | Some i => alter (set_storage false) i l | None => l end else l).
  assert (Hl' : forall j w, l' !! j = Some w -> exists v, l !! j = Some v /\
    ((w = v /\ (latest = true -> v_Storage v = true -> exists w, w ∈ l /\ w <> v /\ v_Storage w = true)) \/
     (latest = true /\ w = set_storage false v))).
  { intros j w Hw. unfold l' in Hw. destruct latest; [|by exists w; split; [|left; split]].
    pose proof (last_index_spec v_Storage l) as Hs. destruct (last_index v_Storage l) as [i|].
    - destruct Hs as (s & Hi & Hst). destruct (decide (i = j)) as [->|Hne].
      + rewrite list_lookup_alter_eq, Hi in Hw. injection Hw as <-. exists s. split; [done|]. by right.
      + rewrite list_lookup_alter_ne in Hw by done. exists w. split; [done|]. left. split; [done|].
        intros _ _. exists s. split; [by eapply list_elem_of_lookup_2|]. split; [|done].
        intros ->. apply Hne. eapply (NoDup_lookup (v_Name <$> l)); [done| |]; rewrite list_lookup_fmap.
        * by rewrite Hi. * by rewrite Hw.
    - exists w. split; [done|]. left. split; [done|]. intros _ Hst.
      rewrite (Hs w) in Hst; [done|]. by eapply list_elem_of_lookup_2. }
  assert (Hu' : u ∈ match last_index (fun v => bool_decide (v_Name v = v_Name c)) l with
    | Some i => <[i := if latest then c else set_storage false c]> l'
    | None => l' ++ [if latest then c else set_storage false c] end).
  { unfold l'. destruct latest; simpl in Hu; [|done]. by destruct (last_index v_Storage l). }
  clear Hu. destruct (last_index (fun v => bool_decide (v_Name v = v_Name c)) l) as [i|].
  - apply list_elem_of_lookup in Hu' as [j Hj].
    destruct (decide (i = j)) as [->|Hne].
    + left. apply list_lookup_insert_Some in Hj as [(_ & -> & _)|[? _]]; done.
    + right. rewrite list_lookup_insert_ne in Hj by done. destruct (Hl' _ _ Hj) as (v & Hv & H).
      exists v. split; [by eapply list_elem_of_lookup_2|]. split; [|done]. by apply (Hname i v eq_refl j).
  - apply elem_of_app in Hu' as [Hu|Hu%list_elem_of_singleton]; [right|by left].
    apply list_elem_of_lookup in Hu as [j Hj]. destruct (Hl' _ _ Hj) as (v & Hv & H).
    assert (v ∈ l) by (by eapply list_elem_of_lookup_2). exists v. split; [done|]. split; [|done].
    by apply Hnone.
Qed.

Lemma well_stored_unique l v w :
  well_stored l -> v ∈ l -> w ∈ l -> v_Storage v = true -> v_Storage w = true -> v_Name v = v_Name w.
Proof.
  intros (_ & Hp & H) Hv Hw Sv Sw. rewrite H in Sv by done. rewrite H in Sw by done.
  rewrite Forall_forall in Hp. rewrite latest_spec in Sv, Sw.
  apply compare_total; [by apply Hp, list_elem_of_fmap_2..|].
  pose proof (Sv w Hw). pose proof (Sw v Hv). pose proof (compare_antisym (v_Name w) (v_Name v)). lia.
Qed.
Lemma NoDup_name (l : list CRDVersion) v w :
  NoDup (v_Name <$> l) -> v ∈ l -> w ∈ l -> v_Name v = v_Name w -> v = w.
Proof.
  intros Hnd [i Hi]%list_elem_of_lookup [j Hj]%list_elem_of_lookup E.
  assert (i = j) as ->; [|congruence].
  eapply (NoDup_lookup (v_Name <$> l)); [done| |]; rewrite list_lookup_fmap.
  - by rewrite Hi. - rewrite Hj. simpl. by rewrite E.
Qed.

Lemma place_latest_new (c : CRDVersion) (l : list CRDVersion) :
  is_the_latest (v_Name c) (place_version c l) = is_the_latest (v_Name c) l.
Proof.
  apply eq_true_iff_eq. rewrite !latest_spec. split.
  - intros H v Hv. assert (Hn : v_Name v ∈ v_Name <$> place_version c l).
    { rewrite place_names. apply elem_of_app. left. by apply list_elem_of_fmap_2. }
    apply list_elem_of_fmap in Hn as (w & -> & Hw). by apply H.
  - intros H v Hv. apply (list_elem_of_fmap_2 v_Name) in Hv. rewrite place_names in Hv.
    apply elem_of_app in Hv as [(w & -> & Hw)%list_elem_of_fmap|Hv]; [by apply H|].
    destruct (decide _); [by apply elem_of_nil in Hv|]. apply list_elem_of_singleton in Hv as ->.
    rewrite compare_refl. lia.
Qed.
(** Another version is the latest of the new list when it was of the old one and the
    placed version is not. *)
Lemma place_latest_other (c : CRDVersion) (l : list CRDVersion) x :
  plain x -> plain (v_Name c) -> x <> v_Name c -> x ∈ v_Name <$> l ->
  is_the_latest x (place_version c l) = is_the_latest x l && negb (is_the_latest (v_Name c) l).
Proof.
  intros Px Pc Hne Hx. apply eq_true_iff_eq. rewrite andb_true_iff, negb_true_iff. split.
  - intros H. split.
    + eapply latest_names; [|exact H]. intros n Hn. rewrite place_names. apply elem_of_app. by left.
    + apply not_true_iff_false. rewrite latest_spec. intros Hc.
      assert (Hcin : v_Name c ∈ v_Name <$> place_version c l).
      { rewrite place_names. destruct (decide _) as [Hd|]; [by rewrite app_nil_r|].
        apply elem_of_app. right. by apply list_elem_of_singleton. }
      apply list_elem_of_fmap in Hcin as (w & Ew & Hw).
      rewrite latest_spec in H. specialize (H w Hw). rewrite <-Ew in H.
      apply list_elem_of_fmap in Hx as (v & -> & Hv). specialize (Hc v Hv).
      apply Hne, compare_total; [done..|]. pose proof (compare_antisym (v_Name c) (v_Name v)).
      pose proof (compare_antisym (v_Name v) (v_Name c)). lia.
  - intros [H Hc]. rewrite latest_spec. intros v Hv Hlt. rewrite latest_spec in H.
    apply (list_elem_of_fmap_2 v_Name) in Hv. rewrite place_names in Hv.
    apply elem_of_app in Hv as [(w & Ew & Hw)%list_elem_of_fmap|Hv].
    { rewrite Ew in Hlt. by apply (H w Hw). }
    destruct (decide _); [by apply elem_of_nil in Hv|]. apply list_elem_of_singleton in Hv. rewrite Hv in Hlt.
    apply not_true_iff_false in Hc. apply Hc, latest_spec. intros w Hw Hwc.
    by apply (H w Hw), (compare_trans _ (v_Name c)).
Qed.

Lemma well_stored_place c l :
  well_stored l -> plain (v_Name c) -> v_Storage c = true -> well_stored (place_version c l).
Proof.
  intros Hw Pc Hc. pose proof Hw as (Hnd & Hp & Hst). split; [|split].
  - rewrite place_names. destruct (decide _) as [|Hn]; [by rewrite app_nil_r|].
    apply NoDup_app. split; [done|]. split; [|apply NoDup_singleton].
    by intros x Hx ->%list_elem_of_singleton.
  - rewrite place_names. apply Forall_app. split; [done|]. destruct (decide _); by repeat constructor.
  - intros u Hu. destruct (place_elem c l u Hnd Hu) as [->|(v & Hv & Hne & H)].
    + assert (v_Name (if is_the_latest (v_Name c) l then c else set_storage false c) = v_Name c) as ->
        by (by destruct (is_the_latest (v_Name c) l)).
      rewrite place_latest_new. by destruct (is_the_latest (v_Name c) l).
    + assert (Hu' : v_Name u = v_Name v) by (destruct H as [[-> _]|[_ ->]]; done).
      assert (plain (v_Name v)) by (rewrite Forall_forall in Hp; by apply Hp, list_elem_of_fmap_2).
      rewrite Hu', place_latest_other by (done || by apply list_elem_of_fmap_2).
      destruct H as [[-> Hs]|[Hl ->]].
      * destruct (is_the_latest (v_Name c) l); rewrite <-Hst by done; [|by rewrite andb_true_r].
        simpl. rewrite andb_false_r. destruct (v_Storage v) eqn:Sv; [|done].
        destruct (Hs eq_refl eq_refl) as (w & Hwl & Hwv & Sw). destruct Hwv.
        eapply NoDup_name; [done..|]. symmetry. by eapply well_stored_unique.
      * rewrite Hl. simpl. by rewrite andb_false_r.
Qed.
Lemma well_stored_one c : plain (v_Name c) -> v_Storage c = true -> well_stored [c].
Proof.
  intros Pc Hc. split; [apply NoDup_singleton|]. split; [by repeat constructor|].
  intros v ->%list_elem_of_singleton. rewrite Hc.
  symmetry. apply latest_spec. intros v ->%list_elem_of_singleton. rewrite compare_refl. lia.
Qed.

Lemma latest_exists v l : exists m, m ∈ v :: l /\ is_the_latest (v_Name m) (v :: l) = true.
Proof.
  revert v. induction l as [|w l IH]; intros v.
  { exists v. split; [apply list_elem_of_here|]. apply latest_spec.
    intros u ->%list_elem_of_singleton. rewrite compare_refl. lia. }
  destruct (IH w) as (m & Hm & Hl). rewrite latest_spec in Hl.
  destruct (decide (0 < CompareKubeAwareVersionStrings (v_Name v) (v_Name m))%Z) as [Hlt|Hle].
  - exists v. split; [apply list_elem_of_here|]. apply latest_spec.
    intros u [->|Hu]%elem_of_cons Hu'; [rewrite compare_refl in Hu'; lia|].
    by apply (Hl u Hu), (compare_trans _ (v_Name v)).
  - exists m. split; [by apply list_elem_of_further|]. apply latest_spec.
    intros u [->|Hu]%elem_of_cons; [done|by apply Hl].
Qed.
(** Exactly one version is stored, and none is later. *)
Lemma well_stored_exactly l :
  well_stored l -> l <> [] ->
  exists v, List.filter v_Storage l = [v] /\ is_the_latest (v_Name v) l = true.
Proof.
  intros Hw Hne. pose proof Hw as (Hnd & Hp & Hst). destruct l as [|x l]; [done|].
  destruct (latest_exists x l) as (m & Hm & Hl). exists m. split; [|done].
  apply NoDup_fmap_1 in Hnd as Hnd'. assert (Hf : forall v, v ∈ List.filter v_Storage (x :: l) <-> v = m).
  { intros v. rewrite list_elem_of_In, filter_In, <-list_elem_of_In. split.
    - intros [Hv Sv]. eapply NoDup_name; [done..|]. eapply well_stored_unique; [done..|].
      by rewrite Hst.
    - intros ->. split; [done|]. by rewrite Hst. }
  assert (Hn : NoDup (List.filter v_Storage (x :: l))).
  { apply NoDup_ListNoDup, List.NoDup_filter. by apply NoDup_ListNoDup. }
  destruct (List.filter v_Storage (x :: l)) as [|a [|b k]].
  - pose proof (proj2 (Hf m) eq_refl) as Hx. by apply elem_of_nil in Hx.
  - f_equal. apply Hf, list_elem_of_here.
  - assert (a = m) as -> by (apply Hf, list_elem_of_here).
    assert (b = m) as -> by (apply Hf, list_elem_of_further, list_elem_of_here).
    apply NoDup_cons in Hn as [Hx _]. destruct Hx. apply list_elem_of_here.
Qed.
(** The version that is placed is there, with its storage flag perhaps cleared. *)
Lemma place_adds (c : CRDVersion) (l : list CRDVersion) :
  v_Storage c = true -> set_storage (is_the_latest (v_Name c) l) c ∈ place_version c l.
Proof.
  intros Hc. assert (Hs : set_storage true c = c) by (destruct c; simpl in *; by subst).
  unfold place_version. pose proof (last_index_spec (fun v => bool_decide (v_Name v = v_Name c)) l) as He.
  destruct (last_index (fun v => bool_decide (v_Name v = v_Name c)) l) as [i|].
  - destruct He as (v & Hi%lookup_lt_Some & _).
    destruct (is_the_latest (v_Name c) l); simpl; [destruct (last_index v_Storage l); rewrite Hs|];
      apply (list_elem_of_lookup_2 _ i), list_lookup_insert_eq; by rewrite ?length_alter.
  - destruct (is_the_latest (v_Name c) l); simpl; [destruct (last_index v_Storage l); rewrite Hs|];
      apply elem_of_app; right; by apply list_elem_of_singleton.
Qed.
End versions.

(** ** The negotiated schema *)

Section schema.
Context {EL : ErrorLib} {CL : ClusterLib} {KL : KeyLib} {SC : SchemaCompatLib} {NW : NegotiationWorld}.
(** [serves a b]: what is valid for [a] is valid for [b]. *)
Variable serves : JSONSchemaProps -> JSONSchemaProps -> Prop.
Context {serves_preorder : PreOrder serves}.
(** The schemas' JSON can be read back, and the comparison gives a schema that
    both serve; it is the existing one unless that may be narrowed. *)
Hypothesis schema_json : forall s text, MarshalSchema (Some s) = inr text -> UnmarshalSchema text = inr s.
Hypothesis lcd_serves : forall kind existing new allow lcd,
  EnsureStructuralSchemaCompatibility kind existing new allow = inr lcd ->
  serves lcd existing /\ serves lcd new /\ (allow = false -> serves existing new).

(** An import that was judged compatible accepts whatever the negotiated schema does. *)
Definition accepted (n : NegotiatedAPIResource) (i : APIResourceImport) : Prop :=
  IsConditionTrue (i_Conditions i) Compatible = true ->
  forall s, GetSchema (n_Spec n) = inr s -> exists si, GetSchema (i_Spec i) = inr si /\ serves s si.
Definition sound (st : negotiation) : Prop :=
  match new_negotiated st with
  | None => judged st = []
  | Some n => Forall (accepted n) (judged st)
  end.
(** The new schema is no wider than the one before. *)
Definition narrower (n n' : NegotiatedAPIResource) : Prop :=
  forall s', GetSchema (n_Spec n') = inr s' -> exists s, GetSchema (n_Spec n) = inr s /\ serves s' s.

Lemma accepted_narrower n n' i : narrower n n' -> accepted n i -> accepted n' i.
Proof.
  intros Hn H Hc s' Hs'. destruct (Hn s' Hs') as (s & Hs & Hle). destruct (H Hc s Hs) as (si & Hsi & Hle').
  exists si. split; [done|]. by transitivity s.
Qed.
Lemma judged_compatible now c i :
  IsConditionTrue (i_Conditions (judge now c i)) Compatible =
    if decide (Compatible = rc_Type c) then bool_decide (rc_Status c = ConditionTrue)
    else IsConditionTrue (i_Conditions i) Compatible.
Proof. unfold IsConditionTrue, judge. cbn [i_Conditions with_i_conditions]. apply PresentAndEqual_Set. Qed.
Lemma GetSchema_SetSchema spec s spec' :
  SetSchema spec (Some s) = inr spec' -> GetSchema spec' = inr s.
Proof.
  unfold SetSchema, GetSchema. destruct (MarshalSchema (Some s)) as [e|text] eqn:E; [done|].
  intros [= <-]. by apply (schema_json s).
Qed.

Lemma compare_import_sound now n st i st' :
  new_negotiated st = Some n -> sound st -> compare_import now n st i = inr st' ->
  exists n' i', new_negotiated st' = Some n' /\ judged st' = judged st ++ [i'] /\
    i_Spec i' = i_Spec i /\ sound st' /\ narrower n n' /\
    (may_update n i = false -> n' = n /\ updated_schema st' = updated_schema st) /\
    n_Conditions n' = n_Conditions n /\ n_Meta n' = n_Meta n.
Proof.
  intros Hn Hs H. unfold sound in Hs. rewrite Hn in Hs. unfold compare_import in H.
  destruct (GetSchema (i_Spec i)) as [e|si] eqn:Ei; [done|].
  destruct (GetSchema (n_Spec n)) as [e|sn] eqn:En; [done|]. cbn [mbind result_bind] in H.
  assert (Hnar : narrower n n).
  { intros s' Hs'. exists s'. split; [done|]. reflexivity. }
  destruct (EnsureStructuralSchemaCompatibility _ sn si (may_update n i)) as [e|lcd] eqn:El.
  { injection H as <-. eexists n, _. split; [done|]. split; [done|]. split; [done|].
    split; [|done]. unfold sound. simpl. apply Forall_app. split; [done|]. apply Forall_singleton.
    intros Hc. rewrite judged_compatible, decide_True in Hc by done. done. }
  destruct (lcd_serves _ _ _ _ _ El) as (L1 & L2 & L3).
  set (i' := if IsConditionTrue (n_Conditions n) Published
             then judge now (condition_true Available) (judge now (condition_true Compatible) i)
             else judge now (condition_true Compatible) i) in H.
  assert (Hi' : i_Spec i' = i_Spec i) by (unfold i'; by destruct (IsConditionTrue _ _)).
  destruct (may_update n i) eqn:Ha.
  - destruct (SetSchema (n_Spec n) (Some lcd)) as [e|spec] eqn:Es; [done|]. injection H as <-.
    pose proof (GetSchema_SetSchema _ _ _ Es) as Hg.
    assert (Hnar' : narrower n (with_n_spec n spec)).
    { intros s' Hs'. cbn [n_Spec with_n_spec] in Hs'. rewrite Hg in Hs'. injection Hs' as <-. by exists sn. }
    eexists (with_n_spec n spec), i'. split; [done|]. split; [done|]. split; [done|].
    split; [|done]. unfold sound. simpl. apply Forall_app. split.
    + eapply Forall_impl; [exact Hs|]. intros x Hx. by eapply accepted_narrower.
    + apply Forall_singleton. intros _ s Hs'. cbn [n_Spec with_n_spec] in Hs'. rewrite Hg in Hs'.
      injection Hs' as <-. exists si. by rewrite Hi'.
  - injection H as <-. eexists n, i'. split; [done|]. split; [done|]. split; [done|]. split; [|done].
    unfold sound. simpl. apply Forall_app. split; [done|]. apply Forall_singleton.
    intros _ s Hs'. rewrite En in Hs'. injection Hs' as <-. exists si. rewrite Hi'. auto.
Qed.

Lemma negotiate_one_sound now cl gvr ex st i st' :
  sound st -> negotiate_one now cl gvr ex st i = inr st' ->
  exists n' i', new_negotiated st' = Some n' /\ judged st' = judged st ++ [i'] /\
    i_Spec i' = i_Spec i /\ sound st' /\
    match new_negotiated st with Some n => narrower n n' | None => True end.
Proof.
  intros Hs H. unfold negotiate_one in H. destruct (new_negotiated st) as [n|] eqn:En.
  - destruct (compare_import_sound now n st i st' En Hs H) as (n' & i' & ? & ? & ? & ? & ? & _).
    by exists n', i'.
  - injection H as <-. eexists _, _. split; [done|]. split; [done|]. split; [done|]. split; [|done].
    unfold sound in *. rewrite En in Hs. simpl. rewrite Hs. apply Forall_singleton.
    intros _ s Hs'. exists s. split; [exact Hs'|]. reflexivity.
Qed.

Lemma negotiate_sound cl gvr ex l st h h' st' :
  sound st -> negotiate cl gvr ex st l h = (h', Ok st') ->
  h' = h /\ sound st' /\
  (exists js, judged st' = judged st ++ js /\ i_Spec <$> js = i_Spec <$> l) /\
  (new_negotiated st = None -> l <> [] -> is_Some (new_negotiated st')) /\
  (forall n, new_negotiated st = Some n ->
     exists n', new_negotiated st' = Some n' /\ narrower n n').
Proof.
  revert st. induction l as [|i l IH]; intros st Hs H; simpl in H.
  { injection H as <- <-. split; [done|]. split; [done|]. split; [by exists []; rewrite app_nil_r|].
    split; [done|]. intros n Hn. exists n. split; [done|]. intros s' Hs'. exists s'. split; [done|].
    reflexivity. }
  unfold time_now, ask, read, lift, mbind, M_bind in H. cbn [of_result] in H.
  destruct (negotiate_one (clock h) cl gvr ex st i) as [e|st1] eqn:E1; [done|]. cbn [of_result] in H.
  destruct (negotiate_one_sound _ _ _ _ _ _ _ Hs E1) as (n1 & i1 & Hn1 & Hj1 & Hsp & Hs1 & Hnar).
  destruct (IH st1 Hs1 H) as (-> & Hs' & (js & Hjs & Hspec) & _ & Hk).
  destruct (Hk n1 Hn1) as (n' & Hn' & Hnar').
  split; [done|]. split; [done|]. split.
  { exists (i1 :: js). rewrite Hjs, Hj1, <-app_assoc. split; [done|]. by rewrite !fmap_cons, Hsp, Hspec. }
  split; [by exists n'|]. intros n Hn. rewrite Hn in Hnar. exists n'. split; [done|].
  intros s' Hs2. destruct (Hnar' s' Hs2) as (s1 & Hg1 & L1). destruct (Hnar s1 Hg1) as (s0 & Hg0 & L0).
  exists s0. split; [done|]. by transitivity s1.
Qed.
End schema.

(** ** What one negotiation writes *)

Section writes.
Context {EL : ErrorLib} {CL : ClusterLib} {KL : KeyLib} {SC : SchemaCompatLib} {NW : NegotiationWorld}.

(** The writes of the negotiated resource [n]: the second update of one that was
    just created sets its conditions on the stored object. *)
Definition writes_negotiated (n : NegotiatedAPIResource) (e : nev) : Prop :=
  match e with
  | NCreate _ m => m = n
  | NGet _ _ => True
  | NUpdate _ m => m = n \/ n_Conditions m = n_Conditions n
  | _ => False
  end.

Lemma negotiate_unchanged cl gvr ex l st h h' st' :
  negotiate cl gvr ex st l h = (h', Ok st') -> updated_schema st' = false ->
  new_negotiated st' = new_negotiated st /\ updated_schema st = false.
Proof.
  revert st. induction l as [|i l IH]; intros st H; simpl in H; [by injection H as _ <-|].
  unfold time_now, ask, read, lift, mbind, M_bind in H. cbn [of_result] in H.
  destruct (negotiate_one (clock h) cl gvr ex st i) as [e|st1] eqn:E1; [done|]. cbn [of_result] in H.
  intros Hf. destruct (IH st1 H Hf) as [-> Hf1]. clear H IH. unfold negotiate_one in E1.
  destruct (new_negotiated st) as [n|]; [|by injection E1 as <-]. unfold compare_import in E1.
  destruct (GetSchema (i_Spec i)) as [e|si]; [done|].
  destruct (GetSchema (n_Spec n)) as [e|sn]; [done|]. cbn [mbind result_bind] in E1.
  destruct (EnsureStructuralSchemaCompatibility _ _ _ _); [by injection E1 as <-|].
  destruct (may_update n i); [|by injection E1 as <-].
  destruct (SetSchema _ _); [done|]. by injection E1 as <-.
Qed.

Lemma store_negotiated_writes ex updated n h h' :
  store_negotiated ex updated n h = (h', Ok tt) ->
  exists t, h' = h ++ t /\ Forall (writes_negotiated n) t /\
    (ex = None -> NCreate (ClusterFrom (n_Meta n)) n ∈ t) /\
    (is_Some ex -> t = if updated then [NUpdate (ClusterFrom (n_Meta n)) n] else []).
Proof.
  unfold store_negotiated. intros H. destruct ex as [n0|].
  { destruct updated.
    - unfold call in H. injection H as <- _. eexists. split; [done|].
      split; [apply Forall_singleton; by left|]. split; [done|]. done.
    - injection H as <-. exists []. rewrite app_nil_r. done. }
  unbind H. apply try_inv in Hm. unfold call in Hm. injection Hm as <- Hr.
  set (create := NCreate (ClusterFrom (n_Meta n)) n) in *.
  unbind H. assert (exists t, h0 = (h ++ [create]) ++ t /\ Forall (writes_negotiated n) t) as (t & -> & Ht).
  { destruct a as [err|x].
    - destruct (IsAlreadyExists err); [|done]. unfold call in Hm. injection Hm as <- _.
      eexists. split; [done|]. by apply Forall_singleton.
    - injection Hm as <- _. exists []. by rewrite app_nil_r. }
  assert (exists t', h' = ((h ++ [create]) ++ t) ++ t' /\ Forall (writes_negotiated n) t') as (t' & -> & Ht').
  { destruct (n_Conditions n) as [|c cs] eqn:Ec.
    - injection H as <-. exists []. by rewrite app_nil_r.
    - unfold update_negotiated, call in H. injection H as <- _. eexists. split; [done|].
      apply Forall_singleton. right. by rewrite Ec. }
  exists (create :: t ++ t'). split; [by rewrite <-!app_assoc|]. split.
  { constructor; [done|]. by apply Forall_app. }
  split; [|by intros []]. intros _. apply list_elem_of_here.
Qed.

Lemma update_judged_writes l h h' :
  for_each l update_judged h = (h', Ok tt) ->
  exists us, h' = h ++ ((fun i => IUpdate (ClusterFrom (i_Meta i)) i) <$> us) /\
    i_Spec <$> us = i_Spec <$> l /\ i_Conditions <$> us = i_Conditions <$> l.
Proof.
  revert h. induction l as [|i l IH]; intros h H; simpl in H.
  { injection H as <-. exists []. by rewrite app_nil_r. }
  unbind H. destruct a. destruct (IH _ H) as (us' & -> & Hs & Hc).
  unfold update_judged in Hm. unbind Hm. unfold ask in Hm0. injection Hm0 as <- _.
  unfold update_import, call in Hm. injection Hm as <- _.
  exists (at_version (ResourceVersion (i_Meta a)) i :: us').
  rewrite !fmap_cons, <-app_assoc. split; [done|]. by rewrite Hs, Hc.
Qed.
Lemma negotiated_of_quiet cl gvr h : (negotiated_of cl gvr h).1 = h.
Proof. done. Qed.
Lemma imports_of_quiet cl gvr h : (imports_of cl gvr h).1 = h.
Proof. done. Qed.
Lemma negotiation_base_quiet cl gvr b h : (negotiation_base cl gvr b h).1 = h.
Proof.
  unfold negotiation_base, ask, try, mbind, M_bind, of_result.
  destruct (crdLister h cl (crdName gvr)) as [e|crd]; [by destruct (negb _)|].
  destruct (isManuallyCreatedCRD crd); [|done]. destruct (crd_version _ _); [|done].
  unfold time_now, ask, lift, of_result. simpl. by destruct (negotiated_from_crd _ _ _ _ _).
Qed.
End writes.

Section ensure.
Context {EL : ErrorLib} {CL : ClusterLib} {KL : KeyLib} {SC : SchemaCompatLib} {NW : NegotiationWorld}.
Variable serves : JSONSchemaProps -> JSONSchemaProps -> Prop.
Context {serves_preorder : PreOrder serves}.
Hypothesis schema_json : forall s text, MarshalSchema (Some s) = inr text -> UnmarshalSchema text = inr s.
Hypothesis lcd_serves : forall kind existing new allow lcd,
  EnsureStructuralSchemaCompatibility kind existing new allow = inr lcd ->
  serves lcd existing /\ serves lcd new /\ (allow = false -> serves existing new).

Lemma accepted_same n js us :
  Forall (accepted serves n) js -> i_Spec <$> us = i_Spec <$> js ->
  i_Conditions <$> us = i_Conditions <$> js -> Forall (accepted serves n) us.
Proof.
  intros H. revert us. induction H as [|j js Hj _ IH]; intros [|i us] Hs Hc; try done.
  rewrite !fmap_cons in *. injection Hs as Hs Hs'. injection Hc as Hc Hc'.
  constructor; [|by apply IH]. unfold accepted in *. by rewrite Hs, Hc.
Qed.

End ensure.

(** ** What one pass writes on a definition *)

Section definitions.
Context {EL : ErrorLib} {CL : ClusterLib} {KL : KeyLib} {SC : SchemaCompatLib} {NW : NegotiationWorld}.

Lemma last_index_lookup p (l : list CRDVersion) i :
  last_index p l = Some i -> exists v, l !! i = Some v /\ p v = true.
Proof. intros H. pose proof (last_index_spec p l) as Hs. by rewrite H in Hs. Qed.
(** A version of another name keeps everything but the storage flag. *)
Lemma place_keeps (c v : CRDVersion) (l : list CRDVersion) :
  v ∈ l -> v_Name v <> v_Name c -> exists b, set_storage b v ∈ place_version c l.
Proof.
  intros [i Hi]%list_elem_of_lookup Hne. unfold place_version.
  destruct (if negb (is_the_latest (v_Name c) l) then _ else _) as [c' l'] eqn:E.
  assert (exists b, l' !! i = Some (set_storage b v)) as [b Hb].
  { assert (Hsame : l !! i = Some (set_storage (v_Storage v) v)) by (rewrite Hi; by destruct v).
    destruct (negb _); [injection E as _ <-; by eexists|].
    destruct (last_index v_Storage l) as [k|]; injection E as _ <-; [|by eexists].
    destruct (decide (k = i)) as [->|]; [|rewrite list_lookup_alter_ne by done; by eexists].
    exists false. by rewrite list_lookup_alter_eq, Hi. }
  exists b. destruct (last_index (fun w => bool_decide (v_Name w = v_Name c)) l) as [k|] eqn:Ek.
  - apply last_index_lookup in Ek as (w & Hw & Hn%bool_decide_eq_true).
    apply (list_elem_of_lookup_2 _ i). rewrite list_lookup_insert_ne; [done|]. intros ->. congruence.
  - apply elem_of_app. left. by eapply list_elem_of_lookup_2.
Qed.

(** The definition [c] that replaces [crd] for the version [name]. *)
Definition keeps_versions (name : string) (crd c : CustomResourceDefinition) : Prop :=
  crd_Group c = crd_Group crd /\ crd_Names c = crd_Names crd /\ crd_Scope c = crd_Scope crd /\
  forall v, v ∈ crd_Versions crd -> v_Name v <> name -> exists b, set_storage b v ∈ crd_Versions c.
Definition made_by_hand (crd : CustomResourceDefinition) : Prop :=
  isManuallyCreatedCRD crd = true /\
  forall n, existsb (owned_by n) (OwnerReferences (crd_Meta crd)) = false.
(** A definition is created where there is none; otherwise it is one that the
    controller owns, only one version of it changes, and it is deleted with its
    last version. *)
Definition crd_write_ok (version : string) (h : list nev) (e : nev) : Prop :=
  match e with
  | CRDCreate cluster c =>
      exists name err, crdLister h cluster name = inl err /\ IsNotFound err = true
  | CRDUpdate cluster c =>
      exists name crd, crdLister h cluster name = inr crd /\ ~ made_by_hand crd /\
        keeps_versions version crd c
  | CRDDelete cluster name' =>
      exists name crd, crdLister h cluster name = inr crd /\ ~ made_by_hand crd /\
        Name (crd_Meta crd) = name' /\ forall v, v ∈ crd_Versions crd -> v_Name v = version
  | _ => True
  end.

Lemma guarded_ask P {A} (f : list nev -> result A) h : guarded P (ask f) h.
Proof. by apply guarded_quiet. Qed.
Lemma guarded_time P h : guarded P time_now h.
Proof. by apply guarded_quiet. Qed.
Lemma guarded_negotiated P cl gvr h : guarded P (negotiated_of cl gvr) h.
Proof. by apply guarded_quiet. Qed.
Lemma guarded_imports P cl gvr h : guarded P (imports_of cl gvr) h.
Proof. by apply guarded_quiet. Qed.

Ltac walk := repeat first
  [ guarded_step | apply guarded_ask | apply guarded_time | apply guarded_negotiated
  | apply guarded_imports | apply guarded_lift | exact I
  | apply guarded_for_each; intros ? ? _ ].

Lemma enforce_guard v cl gvr crd h : guarded (crd_write_ok v) (enforceCRDToNegotiatedAPIResource cl gvr crd) h.
Proof. unfold enforceCRDToNegotiatedAPIResource, enforce_one, update_negotiated, read. walk. Qed.
Lemma publishing_guard v cl gvr crd h :
  guarded (crd_write_ok v) (updatePublishingStatusOnNegotiatedAPIResources cl gvr crd) h.
Proof. unfold updatePublishingStatusOnNegotiatedAPIResources, update_negotiated. walk. Qed.
Lemma delete_guard v cl gvr crd h : guarded (crd_write_ok v) (deleteNegotiatedAPIResource cl gvr crd) h.
Proof. unfold deleteNegotiatedAPIResource, delete_version. walk. Qed.
Lemma related_guard v cl gvr n h :
  guarded (crd_write_ok v) (updateStatusOnRelatedAPIResourceImports cl gvr n) h.
Proof. unfold updateStatusOnRelatedAPIResourceImports, update_import. walk. Qed.
Lemma negotiate_guard v cl gvr ex l st h : guarded (crd_write_ok v) (negotiate cl gvr ex st l) h.
Proof.
  revert st h. induction l as [|i l IH]; intros st h; simpl; [apply guarded_ret|].
  apply guarded_bind; [walk|intros h1 now _]. apply guarded_bind; [walk|intros h2 st' _]. apply IH.
Qed.
Lemma ensure_guard v cl gvr oi strategy h :
  guarded (crd_write_ok v) (ensureAPIResourceCompatibility cl gvr oi strategy) h.
Proof.
  unfold ensureAPIResourceCompatibility, store_negotiated, update_judged, update_import, update_negotiated.
  apply guarded_bind; [walk|intros h1 objs _]. apply guarded_bind; [walk|intros h2 l _].
  destruct l as [|i l]; [walk|].
  apply guarded_bind; [apply guarded_quiet, negotiation_base_quiet|intros h3 base _].
  apply guarded_bind; [apply negotiate_guard|intros h4 st _]. walk.
Qed.
Lemma cleanup_guard cl gvr n h :
  guarded (crd_write_ok (gvr_Version gvr)) (cleanupNegotiatedAPIResource cl gvr n) h.
Proof.
  unfold cleanupNegotiatedAPIResource, update_import.
  apply guarded_bind; [walk|intros h1 l _]. apply guarded_bind; [walk|intros h2 u _].
  apply guarded_bind; [walk|intros h3 r Hr]. destruct r as [e|crd]; [walk|].
  unfold try, ask, of_result in Hr. destruct (crdLister h2 cl (crdName gvr)) as [e|crd'] eqn:El; [done|].
  injection Hr as <- <-. unfold cleanup_crd.
  destruct (existsb (owned_by n) _) eqn:Eo; simpl; [|walk].
  assert (Hm : ~ made_by_hand crd') by (intros [_ Hn]; by rewrite Hn in Eo).
  destruct (decide _); [walk|].
  assert (Hv : forall v, v ∈ crd_Versions crd' -> v_Name v <> gvr_Version gvr ->
    v ∈ without_version (gvr_Version gvr) (crd_Versions crd')).
  { intros v Hv Hne. apply list_elem_of_In, filter_In. split; [by apply list_elem_of_In|].
    by rewrite bool_decide_eq_false_2. }
  destruct (without_version _ _) as [|w ws] eqn:Ew.
  - apply guarded_call. exists (crdName gvr), crd'. split; [done|]. split; [done|]. split; [done|].
    intros v Hin. destruct (decide (v_Name v = gvr_Version gvr)) as [|Hne]; [done|].
    specialize (Hv v Hin Hne). by apply elem_of_nil in Hv.
  - apply guarded_call. exists (crdName gvr), crd'. split; [done|]. split; [done|].
    split; [done|]. split; [done|]. split; [done|]. intros v Hin Hne. exists (v_Storage v).
    replace (set_storage (v_Storage v) v) with v by (by destruct v). by apply Hv.
Qed.
Lemma publish_guard cl gvr n h :
  guarded (crd_write_ok (gvr_Version gvr)) (publishNegotiatedResource cl gvr n) h.
Proof.
  unfold publishNegotiatedResource, update_negotiated.
  apply guarded_bind; [walk|intros h1 schema _]. apply guarded_bind; [walk|intros h2 r Hr].
  apply guarded_bind; [|intros h3 u _; walk]. destruct r as [e|crd].
  - unfold try, ask, of_result in Hr. destruct (crdLister h1 cl (crdName gvr)) as [e'|crd'] eqn:El; [|done].
    injection Hr as <- <-. destruct (IsNotFound e') eqn:Ee; simpl; [|walk].
    apply guarded_call. by exists (crdName gvr), e'.
  - unfold try, ask, of_result in Hr. destruct (crdLister h1 cl (crdName gvr)) as [e'|crd'] eqn:El; [done|].
    injection Hr as <- <-. destruct (isManuallyCreatedCRD crd') eqn:Em; [walk|].
    apply guarded_call. exists (crdName gvr), crd'. split; [done|].
    split; [by intros [Hx _]; rewrite Hx in Em|].
    split; [done|]. split; [done|]. split; [done|]. intros v Hin Hne. by apply place_keeps.
Qed.

(** What one pass of the controller does to the custom resource definitions: it
    creates one only where the lister finds none; a definition that no negotiated
    resource owns is never updated or deleted; an update keeps the group, names and
    scope and every version but the pass's own, whose storage flag apart nothing of
    them changes; and a definition is deleted only when it has no other version. *)
Theorem definitions_are_respected key h : guarded (crd_write_ok (gvr_Version (qe_gvr key))) (process key) h.
Proof.
  unfold process. destruct (SplitMetaClusterNamespaceKey _) as [e|[[cl ns] name]]; [by apply guarded_emit|].
  assert (forall T (get : M nev T) d h, guarded (crd_write_ok (gvr_Version (qe_gvr key))) get h ->
    guarded (crd_write_ok (gvr_Version (qe_gvr key))) (object_or_deleted get d) h) as Hod.
  { intros T get d h0 Hg. unfold object_or_deleted. apply guarded_bind; [by apply guarded_try|].
    intros h1 r _. walk. }
  destruct (theType key).
  all: apply guarded_bind; [apply Hod, guarded_ask|]; intros h1 x _.
  - unfold process_crd. destruct (theAction key), (isManuallyCreatedCRD x).
    all: repeat first [apply enforce_guard | apply publishing_guard | apply delete_guard | guarded_step].
  - unfold process_negotiated. destruct (theAction key), (IsConditionTrue (n_Conditions x) Enforced), (Publish x).
    all: repeat first [apply related_guard | apply ensure_guard | apply publish_guard
                      | apply cleanup_guard | guarded_step].
  - unfold process_import, negotiatedAPIResourceIsOrphan. destruct (theAction key).
    all: repeat first [apply ensure_guard | apply delete_guard | apply guarded_imports
                      | apply guarded_negotiated | guarded_step].
Qed.
End definitions.

(** ** Publication *)

Section publication.
Context {EL : ErrorLib} {CL : ClusterLib} {KL : KeyLib} {SC : SchemaCompatLib} {NW : NegotiationWorld}.
Variable plain : string -> Prop.
Hypothesis compare_refl : forall a, CompareKubeAwareVersionStrings a a = 0%Z.
Hypothesis compare_antisym : forall a b,
  (0 < CompareKubeAwareVersionStrings a b)%Z <-> (CompareKubeAwareVersionStrings b a < 0)%Z.
Hypothesis compare_total : forall a b, plain a -> plain b -> CompareKubeAwareVersionStrings a b = 0%Z -> a = b.
Hypothesis compare_trans : forall a b c,
  (0 < CompareKubeAwareVersionStrings a b)%Z -> (0 < CompareKubeAwareVersionStrings b c)%Z ->
  (0 < CompareKubeAwareVersionStrings a c)%Z.

Lemma add_owner_owns n owners : existsb (owned_by n) (add_owner n owners) = true.
Proof.
  unfold add_owner. destruct (existsb (owned_by n) owners) eqn:E; [done|].
  rewrite existsb_app, E. simpl. unfold owned_by. by rewrite !bool_decide_eq_true_2.
Qed.

(** C11: publication keeps one storage version: when the versions of a definition have
    different names and the stored one is the latest, which holds of a definition
    that is created, the same is true after a negotiated version is published, new or
    again; exactly one version is then stored and none is later; the published
    version is served with the negotiated schema; and the negotiated resource is
    among the owners. *)
Theorem one_storage_version gvr schema n crd :
  plain (gvr_Version gvr) -> well_stored plain (crd_Versions crd) ->
  let v := published_version gvr schema n in let c := published_crd crd n v in
  well_stored plain [v] /\ well_stored plain (crd_Versions c) /\
  (exists s, List.filter v_Storage (crd_Versions c) = [s] /\
             is_the_latest (v_Name s) (crd_Versions c) = true) /\
  (exists b, set_storage b v ∈ crd_Versions c) /\
  v_Served v = true /\ v_Schema v = Some (Some schema) /\
  existsb (owned_by n) (OwnerReferences (crd_Meta c)) = true.
Proof.
  intros Hp Hw v c.
  assert (Hc : well_stored plain (crd_Versions c)) by (by apply well_stored_place).
  pose proof (place_adds v (crd_Versions crd) eq_refl) as Ha.
  split; [by apply well_stored_one|]. split; [done|]. split; [|split; [by eexists|]].
  - eapply well_stored_exactly; eauto. intros E. unfold c in E. simpl in E. rewrite E in Ha. by apply elem_of_nil in Ha.
  - split; [done|]. split; [done|]. apply add_owner_owns.
Qed.
End publication.

(** ** Deletions *)

Section deletions.
Context {EL : ErrorLib} {CL : ClusterLib} {KL : KeyLib} {SC : SchemaCompatLib} {NW : NegotiationWorld}.

(** The controller's pass for an object that is gone and whose deletion came as a
    tombstone: it fails, and is tried again. *)
Lemma tombstone_is_retried elt key obj cl ns name err h :
  deletedObject elt = Some (Tombstone key obj) ->
  SplitMetaClusterNamespaceKey (theKey elt) = inr (cl, ns, name) ->
  crdLister h cl name = inl err -> apiResourceImportLister h cl name = inl err ->
  negotiatedApiResourceLister h cl name = inl err ->
  processNextWorkItem elt h =
    (h ++ [QHandleError (ErrWrap "controller failed to sync" err); QAddRateLimited elt; QDone elt], Ok tt).
Proof.
  intros Hd Hs H1 H2 H3. unfold processNextWorkItem, process. rewrite Hs.
  unfold object_or_deleted, deleted_crd, deleted_import, deleted_negotiated, ask. rewrite Hd.
  destruct (theType elt); run_M; rewrite ?H1, ?H2, ?H3; simpl; by rewrite <-!app_assoc.
Qed.
End deletions.

(** * Examples *)

Module Examples.
#[local] Existing Instances simple_clusters simple_errors.
#[local] Instance keys : KeyLib := {|
  AnnotationKey := "kcp.io/cluster"; KCPOriginalAPIVersionAnnotation := "kcp.io/original-api-version";
  ServiceAccountNameKey := "kubernetes.io/service-account.name";
  ServiceAccountUIDKey := "kubernetes.io/service-account.uid" |}.

(** A schema that accepts what is shorter than a bound; it is narrowed to the
    smaller bound. Names are compared by their length. *)
Fixpoint tally (n : nat) : string := match n with 0 => "" | S n => String "|" (tally n) end.
Lemma length_tally n : String.length (tally n) = n.
Proof. induction n as [|n IH]; [done|]. simpl. by rewrite IH. Qed.
#[local] Instance bounds : SchemaCompatLib := {|
  JSONSchemaProps := nat;
  MarshalSchema s := match s with Some n => inr (tally n) | None => inl (ErrMsg "no schema") end;
  UnmarshalSchema s := inr (String.length s);
  EnsureStructuralSchemaCompatibility kind existing new allow :=
    if allow then inr (Nat.min existing new)
    else if existing <=? new then inr existing else inl (ErrMsg "too small");
  CompareKubeAwareVersionStrings a b := (Z.of_nat (String.length a) - Z.of_nat (String.length b))%Z;
  IsProtectedCommunityGroup _ := false;
  IsCRDConditionTrue cs t := bool_decide ((t, ConditionTrue) ∈ cs);
  IsCRDConditionFalse cs t := bool_decide ((t, ConditionFalse) ∈ cs);
  GroupVersionString g v := g +:+ "/" +:+ v;
  MetaGVRString g := gvr_Group g +:+ "/" +:+ gvr_Version g +:+ "/" +:+ gvr_Resource g |}.

Definition widgets : CRDNames := {|
  Plural := "widgets"; Singular := "widget"; ShortNames := []; Kind := "Widget"; ListKind := "WidgetList";
  Categories := [] |}.
Definition spec (n : nat) : CommonAPIResourceSpec := {|
  cs_GroupVersion := {| gv_Group := "example.io"; gv_Version := "v1" |};
  cs_Scope := "Namespaced"; cs_Names := widgets; cs_OpenAPIV3Schema := tally n; cs_SubResources := [];
  cs_ColumnDefinitions := [] |}.
Definition import (name : string) (n : nat) : APIResourceImport := {|
  i_Meta := mk_meta name "" None (Some {[ "kcp.io/cluster" := "root" ]}) [];
  i_Generation := 1; i_Spec := spec n; SchemaUpdateStrategy := UpdatePublished; i_Location := name;
  i_Conditions := [] |}.
Definition gvr : GroupVersionResource := {|
  gvr_Group := "example.io"; gvr_Version := "v1"; gvr_Resource := "widgets" |}.
Definition not_found {A} : result A := inl (ErrLib "NotFound" "not found").
(** Two clusters, one of which accepts less; nothing is negotiated yet. *)
#[local] Instance world : NegotiationWorld := {|
  n_write _ := inr tt;
  n_answer h := match last h with Some (NCreate _ n) => inr n | _ => not_found end;
  negotiated_cache _ := inr [];
  import_cache _ := inr [import "east" 5; import "west" 3];
  crdLister _ _ _ := not_found;
  apiResourceImportLister _ _ name := inr (import name 3);
  negotiatedApiResourceLister _ _ _ := not_found;
  clock _ := ZeroTime;
  key_of_tombstone _ := inl (ErrMsg "object has no meta");
  SetDefaults_CustomResourceDefinition c := c |}.

(** A smaller bound accepts less. *)
Definition smaller (a b : JSONSchemaProps) : Prop := @le a b.

Lemma outcome_ok {A} (p : list nev * res A) a : p.2 = Ok a -> p = (p.1, Ok a).
Proof. destruct p as [h r]. simpl. by intros ->. Qed.

(** Two versions; the latest is stored. *)
Definition v (name : string) (storage : bool) : CRDVersion := {|
  v_Name := name; v_Served := true; v_Storage := storage; v_Schema := Some (Some 4);
  v_Subresources := None; v_AdditionalPrinterColumns := []; v_Deprecated := false |}.
Definition crd : CustomResourceDefinition := {|
  crd_Meta := mk_meta "widgets.example.io" "" None None []; crd_Generation := 1; crd_Group := "example.io";
  crd_Names := widgets; crd_Scope := "Namespaced"; crd_Versions := [v "v" false; v "v10" true];
  crd_Conditions := [] |}.
Definition negotiated : NegotiatedAPIResource := {|
  n_Meta := mk_meta "widgets.v1.example.io" "" None None []; n_Generation := 1; n_Spec := spec 4;
  Publish := true; n_Conditions := [] |}.
(** Three names of different lengths. *)
Definition short_names (a : string) : Prop := a ∈ ["v"; "v1"; "v10"].
Definition version_of (gvr : GroupVersionResource) : CRDVersion := published_version gvr (4 : JSONSchemaProps) negotiated.

Lemma one_storage_version_witness :
  well_stored short_names [version_of gvr] /\
  well_stored short_names (crd_Versions (published_crd crd negotiated (version_of gvr))) /\
  (exists s, List.filter v_Storage (crd_Versions (published_crd crd negotiated (version_of gvr))) = [s] /\
     is_the_latest (v_Name s) (crd_Versions (published_crd crd negotiated (version_of gvr))) = true) /\
  (exists b, set_storage b (version_of gvr) ∈ crd_Versions (published_crd crd negotiated (version_of gvr))) /\
  v_Served (version_of gvr) = true /\ v_Schema (version_of gvr) = Some (Some (4 : JSONSchemaProps)) /\
  existsb (owned_by negotiated)
    (OwnerReferences (crd_Meta (published_crd crd negotiated (version_of gvr)))) = true.
Proof.
  apply (one_storage_version short_names).
  - intros a. simpl. lia.
  - intros a b. simpl. lia.
  - intros a b Ha Hb. unfold short_names in *. simpl.
    repeat match goal with
      | H : _ ∈ _ :: _ |- _ => apply elem_of_cons in H as [->|H]
      | H : _ ∈ [] |- _ => by apply elem_of_nil in H
      end; done.
  - intros a b c. simpl. lia.
  - apply (bool_decide_unpack _). by vm_compute.
  - split; [|split].
    + apply (bool_decide_unpack _). by vm_compute.
    + repeat constructor; apply (bool_decide_unpack _); by vm_compute.
    + intros w Hw. repeat (apply elem_of_cons in Hw as [->|Hw]; [by vm_compute|]). by apply elem_of_nil in Hw.
Defined.

(** Only the first publication stores; an older version does not take the flag. *)
Example older_version_is_not_stored :
  v_Storage <$> crd_Versions (published_crd crd negotiated (version_of gvr)) = [false; true; false].
Proof. by vm_compute. Qed.
(** When the resource of the stored version goes, no version is stored any more. *)
Lemma cleanup_loses_the_storage_version :
  let owned := with_crd crd (with_owners (crd_Meta crd) [NegotiatedAPIResourceAsOwnerReference negotiated])
                 (crd_Versions crd) in
  (cleanup_crd "root" {| gvr_Group := "example.io"; gvr_Version := "v10"; gvr_Resource := "widgets" |}
     negotiated owned []).1 =
    [CRDUpdate "root" (with_crd owned (with_owners (crd_Meta owned) []) [v "v" false])].
Proof. by vm_compute. Qed.
(** The comparison is narrowed by the second import; both are compatible with it. *)
Example negotiation_narrows :
  omap (fun e => match e with
    | NCreate _ n => Some (String.length (cs_OpenAPIV3Schema (n_Spec n)), true)
    | IUpdate _ i => Some (String.length (cs_OpenAPIV3Schema (i_Spec i)),
                           IsConditionTrue (i_Conditions i) Compatible)
    | _ => None end)
    (ensureAPIResourceCompatibility "root" gvr None UpdatePublished []).1 = [(3, true); (5, true); (3, true)].
Proof. by vm_compute. Qed.
End Examples.
