(* ===== verification/Shards.v ===== *)
(** * The syncer's own SyncTarget ([pkg/syncer/synctarget])

    The syncer follows its SyncTarget: it keeps a set of controllers for each
    shard of virtual workspaces (a state machine, since starting them takes
    place in goroutines), a tunnel per tunnel workspace, and the list of the types
    to watch; an index tells which shard holds a logical cluster. *)

From S2P Require Import Prelude Platform ApiTypes SyncerShared SpecSync Committer Workqueue SyncTargets.
Local Open Scope nat_scope.

#[global] Program Instance VirtualWorkspace_countable : Countable VirtualWorkspace :=
  inj_countable' (fun v => (SyncerURL v, UpsyncerURL v))
    (fun p => {| SyncerURL := p.1; UpsyncerURL := p.2 |}) _.
Next Obligation. by intros []. Qed.

(** The unspecified order in which Go visits a map whose keys are not strings. *)
Class KeyOrder (K : Type) `{Countable K} := {
  range_map : forall {A}, gmap K A -> list (K * A);
  range_map_perm : forall A (m : gmap K A), range_map m ≡ₚ map_to_list m;
}.
Definition canonical_range (K : Type) `{Countable K} : KeyOrder K :=
  {| range_map A m := map_to_list m; range_map_perm A m := reflexivity _ |}.
Definition range_set {K} `{KeyOrder K} (s : gset K) : list K := (range_map (gset_to_gmap tt s)).*1.

Lemma elem_of_range_map {K} `{KeyOrder K} {A} (m : gmap K A) k x :
  (k, x) ∈ range_map m <-> m !! k = Some x.
Proof. rewrite range_map_perm. apply elem_of_map_to_list. Qed.
Lemma NoDup_range_map {K} `{KeyOrder K} {A} (m : gmap K A) : NoDup (range_map m).*1.
Proof. rewrite range_map_perm. apply NoDup_fst_map_to_list. Qed.
Lemma elem_of_range_set {K} `{KeyOrder K} (s : gset K) x : x ∈ range_set s <-> x ∈ s.
Proof.
  unfold range_set. rewrite list_elem_of_fmap. split.
  - intros ([k []] & -> & Hk%elem_of_range_map). by apply lookup_gset_to_gmap_Some in Hk as [Hx _].
  - intros Hx. exists (x, tt). split; [done|]. by apply elem_of_range_map, lookup_gset_to_gmap_Some.
Qed.
Lemma NoDup_range_set {K} `{KeyOrder K} (s : gset K) : NoDup (range_set s).
Proof. apply NoDup_range_map. Qed.

(** ** The index of logical clusters ([shard_manager.go]) *)

Abbreviation logicalClusterIndex := (gmap string (gset string)) (only parsing).

Section index.
Context {CL : ClusterLib} {NK : NamespaceKeyLib}.

Definition clusterNameAndKey (syncerSource : string) (gvr : GroupVersionResource) (obj : Unstructured)
    : result (string * string) :=
  match MetaNamespaceKeyFunc (u_meta obj) with
  | inl err => inl err
  | inr key => inr (ClusterFrom (u_meta obj),
      syncerSource +:+ ("$$" +:+ gvr_Resource gvr +:+ "." +:+ gvr_Group gvr +:+ "." +:+ gvr_Version gvr
        +:+ "##" +:+ key))
  end.
(** The closures [add] and [delete]; the handlers drop their errors. *)
Definition index_add (syncerSource : string) (gvr : GroupVersionResource) (obj : Unstructured)
    (index : logicalClusterIndex) : logicalClusterIndex :=
  match clusterNameAndKey syncerSource gvr obj with
  | inl _ => index
  | inr (clusterName, clusterKey) =>
      <[ clusterName := {[ clusterKey ]} ∪ default ∅ (index !! clusterName) ]> index
  end.
Definition index_delete (syncerSource : string) (gvr : GroupVersionResource) (obj : Unstructured)
    (index : logicalClusterIndex) : logicalClusterIndex :=
  match clusterNameAndKey syncerSource gvr obj with
  | inl _ => index
  | inr (clusterName, clusterKey) =>
      match index !! clusterName with
      | None => index
      | Some clusterKeys =>
          let clusterKeys := clusterKeys ∖ {[ clusterKey ]} in
          if decide (clusterKeys = ∅) then delete clusterName index
          else <[ clusterName := clusterKeys ]> index
      end
  end.
(** What the two informer factories deliver, and the handlers registered for it. *)
Inductive index_event :=
  | SyncerAdded (gvr : GroupVersionResource) (obj : Unstructured)
  | SyncerDeleted (gvr : GroupVersionResource) (obj : Unstructured)
  | UpsyncerAdded (gvr : GroupVersionResource) (obj : Unstructured)
  | UpsyncerDeleted (gvr : GroupVersionResource) (obj : Unstructured).
Definition index_handle (index : logicalClusterIndex) (e : index_event) : logicalClusterIndex :=
  match e with
  | SyncerAdded gvr obj => index_add "S" gvr obj index
  | SyncerDeleted gvr obj => index_add "S" gvr obj index
  | UpsyncerAdded gvr obj => index_delete "U" gvr obj index
  | UpsyncerDeleted gvr obj => index_delete "U" gvr obj index
  end.
Definition index_Exists (index : logicalClusterIndex) (clusterName : string) : bool :=
  bool_decide (is_Some (index !! clusterName)).
End index.

(** ** The shard manager ([shard_manager.go]) *)

(** [type shardControllers struct]: [stop] cancels the context of its number, and
    the access made for a context is known by that number; both are nil in the
    zero value. *)
Record shardControllers := { ShardAccess : option nat; stop : option nat; ready : bool }.
Definition zero_controllers : shardControllers := {| ShardAccess := None; stop := None; ready := false |}.
(** [type shardManager struct], with the contexts that were made and cancelled, the
    goroutines that are inside [start], and the indexes of the accesses. *)
Record shardManager := {
  controllers : gmap VirtualWorkspace shardControllers;
  starting : gmap nat VirtualWorkspace;
  cancelled : gset nat;
  contexts : nat;
  indexes : gmap nat logicalClusterIndex;
}.
Definition NewShardManager : shardManager := {|
  controllers := ∅; starting := ∅; cancelled := ∅; contexts := 0; indexes := ∅ |}.
Definition nil_dereference : string := "invalid memory address or nil pointer dereference".

Section shards.
Context {KO : KeyOrder VirtualWorkspace}.

Fixpoint find_shard (clusterName : string) (s : shardManager)
    (l : list (VirtualWorkspace * shardControllers)) : res (option nat) :=
  match l with
  | [] => Ok None
  | (_, c) :: l =>
      match ShardAccess c with
      | None => Panic nil_dereference
      | Some n =>
          if index_Exists (default ∅ (indexes s !! n)) clusterName then Ok (Some n)
          else find_shard clusterName s l
      end
  end.
Definition ShardAccessForCluster (clusterName : string) (s : shardManager) : res (option nat) :=
  find_shard clusterName s (range_map (controllers s)).

Definition requiredShards (syncTarget : option SyncTarget) : gset VirtualWorkspace :=
  match syncTarget with
  | None => ∅
  | Some syncTarget => list_to_set (VirtualWorkspaces (st_Status syncTarget))
  end.
Definition with_controllers (s : shardManager) (m : gmap VirtualWorkspace shardControllers)
    (c : gset nat) : shardManager := {|
  controllers := m; starting := starting s; cancelled := c; contexts := contexts s;
  indexes := indexes s |}.
(** The controllers of the shards that are not required are stopped. *)
Fixpoint remove_obsolete (required : gset VirtualWorkspace)
    (l : list (VirtualWorkspace * shardControllers)) (s : shardManager) : res shardManager :=
  match l with
  | [] => Ok s
  | (shardURLs, c) :: l =>
      if decide (shardURLs ∈ required) then remove_obsolete required l s
      else match stop c with
        | None => Panic nil_dereference
        | Some n => remove_obsolete required l
                      (with_controllers s (delete shardURLs (controllers s)) ({[ n ]} ∪ cancelled s))
        end
  end.
(** Those of a new shard are made with a new context, and started in a goroutine. *)
Definition start_shard (newShardControllers : VirtualWorkspace -> result unit)
    (shardURLs : VirtualWorkspace) (s : shardManager) : shardManager * list error :=
  let n := contexts s in
  match newShardControllers shardURLs with
  | inl err => ({| controllers := controllers s; starting := starting s;
                   cancelled := {[ n ]} ∪ cancelled s; contexts := S n; indexes := indexes s |}, [err])
  | inr _ => ({| controllers := <[ shardURLs := {| ShardAccess := Some n; stop := Some n;
                                                  ready := false |} ]> (controllers s);
                 starting := <[ n := shardURLs ]> (starting s);
                 cancelled := cancelled s; contexts := S n; indexes := indexes s |}, [])
  end.
Fixpoint start_missing (newShardControllers : VirtualWorkspace -> result unit)
    (l : list VirtualWorkspace) (s : shardManager) : shardManager * list error :=
  match l with
  | [] => (s, [])
  | shardURLs :: l =>
      match controllers s !! shardURLs with
      | Some _ => start_missing newShardControllers l s
      | None =>
          let '(s, errs) := start_shard newShardControllers shardURLs s in
          let '(s, errs') := start_missing newShardControllers l s in
          (s, errs ++ errs')
      end
  end.
Definition reconcile_shards (newShardControllers : VirtualWorkspace -> result unit)
    (syncTarget : option SyncTarget) (s : shardManager) : res (shardManager * list error) :=
  let required := requiredShards syncTarget in
  s ← remove_obsolete required (range_map (controllers s)) s;
  Ok (start_missing newShardControllers (range_set required) s).

(** The rest of the goroutine, when [start] has returned. *)
Definition start_returned (n : nat) (shardURLs : VirtualWorkspace) (ok : bool) (s : shardManager)
    : shardManager :=
  let m :=
    if ok then
      let c := default zero_controllers (controllers s !! shardURLs) in
      <[ shardURLs := {| ShardAccess := ShardAccess c; stop := stop c; ready := true |} ]> (controllers s)
    else delete shardURLs (controllers s) in
  {| controllers := m; starting := delete n (starting s);
     cancelled := if ok then cancelled s else {[ n ]} ∪ cancelled s;
     contexts := contexts s; indexes := indexes s |}.

Definition on_index {CL : ClusterLib} {NK : NamespaceKeyLib} (n : nat) (e : index_event) (s : shardManager)
    : shardManager := {|
  controllers := controllers s; starting := starting s; cancelled := cancelled s; contexts := contexts s;
  indexes := <[ n := index_handle (default ∅ (indexes s !! n)) e ]> (indexes s) |}.
End shards.

(** ** Tunnels ([tunneler_reconciler.go]) *)

(** Started tunnelers by URL, with the context that stops them. *)
Record tunnelerReconciler := {
  startedTunnelers : gmap string nat;
  t_cancelled : gset nat;
  t_contexts : nat;
}.
Section tunnels.
Context {MO : MapOrder}.
Definition requiredTunnels (syncTarget : option SyncTarget) : gset string :=
  match syncTarget with
  | None => ∅
  | Some syncTarget => list_to_set (TunnelWorkspaces (st_Status syncTarget))
  end.
Definition stop_tunnel (required : gset string) (s : tunnelerReconciler) (t : string * nat)
    : tunnelerReconciler :=
  if decide (t.1 ∈ required) then s
  else {| startedTunnelers := delete t.1 (startedTunnelers s);
          t_cancelled := {[ t.2 ]} ∪ t_cancelled s; t_contexts := t_contexts s |}.
Definition start_tunnel (s : tunnelerReconciler) (shardURL : string) : tunnelerReconciler :=
  match startedTunnelers s !! shardURL with
  | Some _ => s
  | None => {| startedTunnelers := <[ shardURL := t_contexts s ]> (startedTunnelers s);
               t_cancelled := t_cancelled s; t_contexts := S (t_contexts s) |}
  end.
Definition reconcile_tunnels (syncTarget : option SyncTarget) (s : tunnelerReconciler)
    : tunnelerReconciler :=
  let required := requiredTunnels syncTarget in
  foldl start_tunnel
    (foldl (stop_tunnel required) s (map_range (startedTunnelers s))) (set_range required).
End tunnels.

(** ** The types to watch ([gvr_source.go]) *)

(** [informer.GVRPartialMetadata]; an entry of the discovery. *)
Record GVRPartialMetadata := { pm_Scope : string; pm_Kind : string; pm_Singular : string }.
#[global] Instance GVRPartialMetadata_eq_dec : EqDecision GVRPartialMetadata.
Proof. solve_decision. Defined.
Record APIResource := {
  ar_Name : string; ar_Kind : string; ar_SingularName : string; ar_Namespaced : bool }.
Definition ClusterScoped : string := "Cluster".
Definition NamespaceScoped : string := "Namespaced".
(** [type syncTargetGVRSource struct]: a subscriber is a channel of capacity one,
    and whether it is full. *)
Record syncTargetGVRSource := {
  gvrsToWatch : gmap GroupVersionResource GVRPartialMetadata;
  subscribers : list bool;
}.
Definition core_gvr (r : string) : GroupVersionResource :=
  {| gvr_Group := ""; gvr_Version := "v1"; gvr_Resource := r |}.
Definition builtinGVRs : gmap GroupVersionResource GVRPartialMetadata :=
  {[ core_gvr "configmaps" := {| pm_Scope := NamespaceScoped; pm_Kind := "configmap";
                                 pm_Singular := "configMap" |};
     core_gvr "secrets" := {| pm_Scope := NamespaceScoped; pm_Kind := "Secret";
                              pm_Singular := "secret" |} ]}.
Definition GVRs (c : syncTargetGVRSource) : gmap GroupVersionResource GVRPartialMetadata :=
  gvrsToWatch c ∪ (builtinGVRs ∪
    {[ core_gvr "namespaces" := {| pm_Scope := ClusterScoped; pm_Kind := "Namespace";
                                   pm_Singular := "namespace" |} ]}).
Definition Subscribe (c : syncTargetGVRSource) : syncTargetGVRSource :=
  {| gvrsToWatch := gvrsToWatch c; subscribers := subscribers c ++ [false] |}.
(** A send that does not block. *)
Definition notifySubscribers (c : syncTargetGVRSource) : syncTargetGVRSource :=
  {| gvrsToWatch := gvrsToWatch c; subscribers := (fun _ => true) <$> subscribers c |}.
Definition accepted_gvrs (r : ResourceToSync) : list GroupVersionResource :=
  if decide (rs_State r = ResourceSchemaAcceptedState)
  then (fun version => {| gvr_Group := gr_Group (rs_GroupResource r); gvr_Version := version;
                          gvr_Resource := gr_Resource (rs_GroupResource r) |}) <$> rs_Versions r
  else [].
Definition getAllGVRs (synctarget : option SyncTarget) : gset GroupVersionResource :=
  dom builtinGVRs ∪
  match synctarget with
  | None => ∅
  | Some synctarget => list_to_set (concat (accepted_gvrs <$> SyncedResources (st_Status synctarget)))
  end.

Section gvr_source.
Context {KG : KeyOrder GroupVersionResource} {SL : SchemaLib} {CO : ConditionLib}.
Context {EqC : DeepEq (option Condition)}.
(** The answers of the physical cluster during a pass: access reviews, and the
    discovery of a group and version. *)
Variable isGVRAllowed : GroupVersionResource -> result bool.
Variable ServerResourcesForGroupVersion : string -> string -> result (list APIResource).

Definition removeUnusedGVRs (required : gset GroupVersionResource) (c : syncTargetGVRSource)
    : syncTargetGVRSource * bool :=
  ({| gvrsToWatch := filter (fun kv => kv.1 ∈ required) (gvrsToWatch c);
      subscribers := subscribers c |},
   negb (bool_decide (dom (gvrsToWatch c) ⊆ required))).
Definition getGVRPartialMetadata (gvr : GroupVersionResource) : result GVRPartialMetadata :=
  match ServerResourcesForGroupVersion (gvr_Group gvr) (gvr_Version gvr) with
  | inl err => inl err
  | inr l =>
      match list_find (fun r => ar_Name r = gvr_Resource gvr) l with
      | Some (_, r) => inr {| pm_Scope := if ar_Namespaced r then NamespaceScoped else ClusterScoped;
                              pm_Kind := ar_Kind r; pm_Singular := ar_SingularName r |}
      | None => inl (ErrMsg "unable to retrieve discovery for GVR")
      end
  end.
Definition addGVR (gvr : GroupVersionResource) (c : syncTargetGVRSource)
    : result (syncTargetGVRSource * bool) :=
  match gvrsToWatch c !! gvr with
  | Some _ => inr (c, false)
  | None =>
      match getGVRPartialMetadata gvr with
      | inl err => inl err
      | inr m => inr ({| gvrsToWatch := <[ gvr := m ]> (gvrsToWatch c); subscribers := subscribers c |}, true)
      end
  end.
(** The variables of the loop over the required types. *)
Record gvr_pass := {
  p_source : syncTargetGVRSource;
  requiredGVRs : gset GroupVersionResource;
  notify : bool;
  unauthorizedGVRs : list string;
  p_errs : list error;
}.
Definition review (p : gvr_pass) (gvr : GroupVersionResource) : gvr_pass :=
  match isGVRAllowed gvr with
  | inl err => {| p_source := p_source p; requiredGVRs := requiredGVRs p; notify := notify p;
      unauthorizedGVRs := unauthorizedGVRs p ++ [GVR_String gvr]; p_errs := p_errs p ++ [err] |}
  | inr false => {| p_source := p_source p; requiredGVRs := requiredGVRs p ∖ {[ gvr ]};
      notify := notify p; unauthorizedGVRs := unauthorizedGVRs p ++ [GVR_String gvr];
      p_errs := p_errs p |}
  | inr true =>
      match addGVR gvr (p_source p) with
      | inl err => {| p_source := p_source p; requiredGVRs := requiredGVRs p; notify := notify p;
          unauthorizedGVRs := unauthorizedGVRs p; p_errs := p_errs p ++ [err] |}
      | inr (source, updated) => {| p_source := source; requiredGVRs := requiredGVRs p;
          notify := notify p || updated; unauthorizedGVRs := unauthorizedGVRs p; p_errs := p_errs p |}
      end
  end.
Definition mark_authorized (unauthorized : list string) (cs : Conditions) : Conditions :=
  match unauthorized with
  | [] => MarkTrue cs SyncerAuthorized
  | _ => MarkFalse cs SyncerAuthorized "SyncerUnauthorized" ConditionSeverityError
           ("SSAR check failed for gvrs: " +:+ Join unauthorized ";")
  end.
(** The result: the source, the SyncTarget, whether to stop and requeue, the errors. *)
Definition watch_types (required : gset GroupVersionResource) (c : syncTargetGVRSource) : gvr_pass :=
  let p := foldl review {| p_source := c; requiredGVRs := required; notify := false;
                           unauthorizedGVRs := []; p_errs := [] |} (range_set required) in
  let '(source, updated) := removeUnusedGVRs (requiredGVRs p) (p_source p) in
  {| p_source := if notify p || updated then notifySubscribers source else source;
     requiredGVRs := requiredGVRs p; notify := notify p || updated;
     unauthorizedGVRs := unauthorizedGVRs p; p_errs := p_errs p |}.
Definition reconcile_types (syncTarget : option SyncTarget) (c : syncTargetGVRSource)
    : syncTargetGVRSource * option SyncTarget * bool * list error :=
  let p := watch_types (getAllGVRs syncTarget) c in
  match syncTarget with
  | None => (p_source p, None, false, p_errs p)
  | Some st =>
      let old := st_Conditions (st_Status st) in
      let new := mark_authorized (unauthorizedGVRs p) old in
      (p_source p, Some (set_st_conditions st new),
       negb (deep_equal (GetCondition old SyncerAuthorized) (GetCondition new SyncerAuthorized)),
       p_errs p)
  end.
End gvr_source.

(** ** The controller ([synctarget_controller.go], [synctarget_reconciler.go]) *)

(** What its reconcilers keep between passes. *)
Record syncer_state := {
  gvrSource : syncTargetGVRSource;
  shards : shardManager;
  tunnels : tunnelerReconciler;
}.

Record Controller := {
  c_syncTargetUID : string;
  syncTargetLister : list event -> string -> result SyncTarget;
  isGVRAllowed : list event -> GroupVersionResource -> result bool;
  ServerResources : list event -> string -> string -> result (list APIResource);
  newShardControllers : list event -> VirtualWorkspace -> result unit;
  Marshal : Resource SyncTargetSpec SyncTargetStatus -> result string;
  CreateMergePatch : string -> string -> result string;
  DoPatch : list event -> result unit;
}.

Section controller.
Context {EL : ErrorLib} {NK : NamespaceKeyLib} {SL : SchemaLib} {CO : ConditionLib}.
Context {MO : MapOrder} {KO : KeyOrder VirtualWorkspace} {KG : KeyOrder GroupVersionResource}.
Context {EqC : DeepEq (option Condition)}.
Context {EqSp : DeepEq SyncTargetSpec} {EqSt : DeepEq SyncTargetStatus}.
Variable c : Controller.

(** [reconcile]: the three reconcilers in order; the first one may stop the chain. *)
Definition reconcile_chain (h : list event) (syncTarget : option SyncTarget) (s : syncer_state)
    : res (syncer_state * option SyncTarget * bool * option error) :=
  let '(source, syncTarget, requeue, errs) :=
    reconcile_types (isGVRAllowed c h) (ServerResources c h) syncTarget (gvrSource s) in
  if (requeue : bool) then
    Ok ({| gvrSource := source; shards := shards s; tunnels := tunnels s |}, syncTarget, true,
        NewAggregate (option_list (NewAggregate errs)))
  else
    '(m, errs') ← reconcile_shards (newShardControllers c h) syncTarget (shards s);
    Ok ({| gvrSource := source; shards := m; tunnels := reconcile_tunnels syncTarget (tunnels s) |},
        syncTarget, false,
        NewAggregate (option_list (NewAggregate errs) ++ option_list (NewAggregate errs'))).
Definition reconcile (syncTarget : option SyncTarget) (s : syncer_state)
    : SM (syncer_state * option SyncTarget * bool * option error) :=
  fun h => (h, reconcile_chain h syncTarget s).

Variables (zeroSpec : SyncTargetSpec) (zeroStatus : SyncTargetStatus).
Definition commit (old obj : SyncTarget) : SM unit :=
  NewCommitterScoped zeroSpec zeroStatus (Marshal c) (CreateMergePatch c)
    (fun name patch => call (EvPatch "" name patch) (DoPatch c)) (resource_of old) (resource_of obj).

(** The new state comes with the outcome: an error leaves what was done. *)
Definition process (key : string) (s : syncer_state) : SM (syncer_state * (error + bool)) :=
  match SplitMetaNamespaceKey key with
  | inl _ => mret (s, inr false)
  | inr (_, name) =>
      r ← try (fun h => (h, of_result (syncTargetLister c h name)));
      let gone :=
        '(s, _, requeue, err) ← reconcile None s;
        mret (s, match err with Some err => inl err | None => inr requeue end) in
      match r with
      | inl err => if negb (IsNotFound err) then mret (s, inl err) else gone
      | inr syncTarget =>
          if negb (bool_decide (UID (st_Meta syncTarget) = c_syncTargetUID c)) then gone
          else
            '(s, obj, requeue, err) ← reconcile (Some syncTarget) s;
            r ← try (commit syncTarget (default syncTarget obj));
            let errs := option_list err ++ match r with inl e => [e] | inr _ => [] end in
            mret (s, match NewAggregate errs with Some err => inl err | None => inr requeue end)
      end
  end.
Definition processNextWorkItem (key : string) (s : syncer_state) : SM syncer_state := fun h =>
  let '(h, r) :=
    ('(s, r) ← process key s;
     match r with
     | inl err =>
         emit (EvHandleError (ErrWrap "failed to sync" err));; emit (EvAddRateLimited key);; mret s
     | inr true => emit (EvAdd key);; mret s
     | inr false => emit (EvForget key);; mret s
     end) h in
  (h ++ [EvDone key], r).

(** Only the SyncTarget of the syncer is queued. *)
Definition enqueue (syncTargetName : string) (obj : ObjectMeta) : SM unit :=
  match MetaNamespaceKeyFunc obj with
  | inl _ => mret tt
  | inr key =>
      match SplitMetaNamespaceKey key with
      | inl _ => mret tt
      | inr (_, name) => if decide (name = syncTargetName) then emit (EvAdd key) else mret tt
      end
  end.
End controller.

(** * Theorems *)

(** ** The index of logical clusters *)

Section index_theorems.
Context {CL : ClusterLib} {NK : NamespaceKeyLib}.

(** The syncer's informers delivered an object of the cluster. *)
Definition seen_by_syncer (clusterName : string) (e : index_event) : Prop :=
  match e with
  | SyncerAdded gvr obj | SyncerDeleted gvr obj =>
      exists key, clusterNameAndKey "S" gvr obj = inr (clusterName, key)
  | _ => False
  end.
(** Only keys of the syncer's source, and no empty set of them. *)
Definition syncer_keys (index : logicalClusterIndex) : Prop :=
  forall cl keys, index !! cl = Some keys ->
    keys <> ∅ /\ forall k, k ∈ keys -> exists k', k = "S" +:+ k'.

Lemma clusterNameAndKey_source source gvr obj cl k :
  clusterNameAndKey source gvr obj = inr (cl, k) -> exists k', k = source +:+ k'.
Proof. unfold clusterNameAndKey. destruct (MetaNamespaceKeyFunc _); [done|]. intros [= _ <-]. by eexists. Qed.

Lemma index_add_spec gvr obj index :
  syncer_keys index -> syncer_keys (index_add "S" gvr obj index) /\
  forall cl, is_Some (index_add "S" gvr obj index !! cl) <->
    is_Some (index !! cl) \/ seen_by_syncer cl (SyncerAdded gvr obj).
Proof.
  intros Hi. unfold index_add, seen_by_syncer.
  destruct (clusterNameAndKey "S" gvr obj) as [e|[cl key]] eqn:E.
  { split; [done|]. intros cl. split; [by left|]. by intros [H|[k Hk]]. }
  apply clusterNameAndKey_source in E as [k' ->]. split.
  - intros cl' keys [[<- <-]|[Hne Hk]]%lookup_insert_Some; [|by eapply Hi]. split; [set_solver|].
    intros k [->%elem_of_singleton|Hk]%elem_of_union; [by eexists|].
    destruct (index !! cl) as [ks|] eqn:Ei; simpl in Hk; [by eapply Hi|set_solver].
  - intros cl'. destruct (decide (cl = cl')) as [<-|Hne].
    + rewrite lookup_insert_eq. split; [|by eauto]. intros _. right. by eexists.
    + rewrite lookup_insert_ne by done. split; [by left|]. intros [H|[k Hk]]; [done|]. by injection Hk as ->.
Qed.
Lemma index_delete_spec gvr obj index : syncer_keys index -> index_delete "U" gvr obj index = index.
Proof.
  intros Hi. unfold index_delete. destruct (clusterNameAndKey "U" gvr obj) as [e|[cl key]] eqn:E; [done|].
  apply clusterNameAndKey_source in E as [k' ->]. destruct (index !! cl) as [keys|] eqn:Ek; [|done].
  destruct (Hi cl keys Ek) as [Hne Hs]. cbv zeta.
  assert (keys ∖ {[ "U" +:+ k' ]} = keys) as ->.
  { apply set_eq. intros k. rewrite elem_of_difference, elem_of_singleton. split; [by intros []|].
    intros Hk. split; [done|]. intros ->. by destruct (Hs _ Hk). }
  rewrite decide_False by done. by apply insert_id.
Qed.

(** What the index of a shard knows. A logical cluster is in it exactly when the
    syncer's informers have ever delivered an object of it, added or deleted:
    what is upsynced never counts, and nothing is ever forgotten, so that the shard
    keeps answering for a logical cluster that has left it. *)
Theorem index_never_forgets events clusterName :
  index_Exists (foldl index_handle ∅ events) clusterName = true <->
  exists e, e ∈ events /\ seen_by_syncer clusterName e.
Proof.
  unfold index_Exists. rewrite bool_decide_eq_true.
  assert (syncer_keys (foldl index_handle ∅ events) /\ forall cl,
    is_Some (foldl index_handle ∅ events !! cl) <-> exists e, e ∈ events /\ seen_by_syncer cl e) as [_ H];
    [|apply H].
  induction events as [|e l [Hi IH]] using rev_ind.
  { cbn [foldl]. split; [by intros cl keys ?|]. intros cl. rewrite lookup_empty. split; [by intros []|].
    by intros (e & He%elem_of_nil & _). }
  rewrite foldl_app. cbn [foldl].
  assert (Hlast : forall cl, (exists e', e' ∈ l ++ [e] /\ seen_by_syncer cl e') <->
    (exists e', e' ∈ l /\ seen_by_syncer cl e') \/ seen_by_syncer cl e).
  { intros cl. split.
    - intros (x & [Hx|Hx]%elem_of_app & Hs); [left; by exists x|].
      apply list_elem_of_singleton in Hx as ->. by right.
    - intros [(x & Hx & Hs)|Hs]; eexists; (split; [|exact Hs]); apply elem_of_app; [by left|].
      right. by apply list_elem_of_singleton. }
  destruct e as [gvr obj|gvr obj|gvr obj|gvr obj]; unfold index_handle at 1 3.
  1,2: destruct (index_add_spec gvr obj _ Hi) as [H1 H2]; split; [done|]; intros cl;
    by rewrite H2, Hlast, IH.
  all: rewrite index_delete_spec by done; split; [done|]; intros cl; rewrite Hlast, IH; simpl; tauto.
Qed.
End index_theorems.

(** ** The shard manager *)

Section shard_theorems.
Context {KO : KeyOrder VirtualWorkspace} {CL : ClusterLib} {NK : NamespaceKeyLib}.

(** The manager's lock makes a pass, the end of a goroutine's [start] and the handling
    of an object atomic; a pass may come at any moment, with any SyncTarget. *)
Inductive step : shardManager -> shardManager -> Prop :=
  | step_reconcile new st s s' errs :
      reconcile_shards new st s = Ok (s', errs) -> step s s'
  | step_started n u ok s :
      starting s !! n = Some u -> step s (start_returned n u ok s)
  | step_index n e s : step s (on_index n e s).
(** No shard goes while its controllers are starting. *)
Inductive calm_step : shardManager -> shardManager -> Prop :=
  | calm_reconcile new st s s' errs :
      (forall n u, starting s !! n = Some u -> u ∈ requiredShards st) ->
      reconcile_shards new st s = Ok (s', errs) -> calm_step s s'
  | calm_started n u ok s :
      starting s !! n = Some u -> calm_step s (start_returned n u ok s)
  | calm_index n e s : calm_step s (on_index n e s).

(** Each shard has one set of controllers, whose context is live, and every live
    context belongs to a shard; those that are not ready are starting. *)
Record managed (s : shardManager) : Prop := {
  managed_entry u c : controllers s !! u = Some c ->
    exists n, ShardAccess c = Some n /\ stop c = Some n /\ n < contexts s /\ (n ∉ cancelled s) /\
      (ready c = false -> starting s !! n = Some u);
  managed_live n : n < contexts s -> n ∈ cancelled s \/
    exists u c, controllers s !! u = Some c /\ stop c = Some n;
  managed_starting n u : starting s !! n = Some u ->
    exists c, controllers s !! u = Some c /\ stop c = Some n /\ ready c = false;
  managed_cancelled n : n ∈ cancelled s -> n < contexts s;
  managed_one u u' c c' n : controllers s !! u = Some c -> controllers s !! u' = Some c' ->
    stop c = Some n -> stop c' = Some n -> u = u';
}.

Lemma managed_new : managed NewShardManager.
Proof.
  split; simpl.
  - by intros u c ?.
  - intros n ?; lia.
  - by intros n u ?.
  - set_solver.
  - by intros u u' c c' n ?.
Qed.

(** Removing a shard that is not starting. *)
Lemma managed_remove s u c n :
  managed s -> controllers s !! u = Some c -> stop c = Some n ->
  (forall m, starting s !! m = Some u -> False) ->
  managed (with_controllers s (delete u (controllers s)) ({[ n ]} ∪ cancelled s)).
Proof.
  intros Hm Hu Hn Hst. destruct (managed_entry _ Hm _ _ Hu) as (n' & _ & Hn' & Hlt & _ & _).
  assert (n' = n) as -> by congruence. split; cbn [controllers starting cancelled contexts with_controllers].
  - intros u' c' [Hne Hu']%lookup_delete_Some.
    destruct (managed_entry _ Hm _ _ Hu') as (k & Ha & Hs & Hk & Hc & Hr). exists k.
    split; [done|]. split; [done|]. split; [done|]. split; [|done].
    intros [->%elem_of_singleton|]%elem_of_union; [|done]. by destruct Hne, (managed_one _ Hm u u' c c' n).
  - intros k Hk. destruct (managed_live _ Hm k Hk) as [|(u' & c' & Hu' & Hs)]; [left; set_solver|].
    destruct (decide (u = u')) as [<-|Hne].
    + left. assert (k = n) as -> by congruence. set_solver.
    + right. exists u', c'. by rewrite lookup_delete_ne.
  - intros k u' Hk. destruct (managed_starting _ Hm _ _ Hk) as (c' & Hu' & H). exists c'.
    split; [|done]. rewrite lookup_delete_ne; [done|]. intros ->. by eapply Hst.
  - intros k [->%elem_of_singleton|Hk]%elem_of_union; [done|]. by apply (managed_cancelled _ Hm).
  - intros u1 u2 c1 c2 k [_ H1]%lookup_delete_Some [_ H2]%lookup_delete_Some. by apply (managed_one _ Hm).
Qed.

(** The shards that were required stay; the others are gone. *)
Lemma remove_obsolete_spec required l s :
  managed s -> NoDup l.*1 -> (forall u c, (u, c) ∈ l -> controllers s !! u = Some c) ->
  (forall n u, starting s !! n = Some u -> u ∈ required) ->
  exists s', remove_obsolete required l s = Ok s' /\ managed s' /\ starting s' = starting s /\
    contexts s' = contexts s /\
    forall u, controllers s' !! u =
      if decide (u ∈ required \/ u ∉ l.*1) then controllers s !! u else None.
Proof.
  revert s. induction l as [|[u c] l IH]; intros s Hm Hnd Hl Hst.
  { exists s. split; [done|]. split; [done|]. split; [done|]. split; [done|]. intros u.
    rewrite decide_True; [done|]. right. apply not_elem_of_nil. }
  apply NoDup_cons in Hnd as [Hu Hnd]. simpl.
  assert (Hc : controllers s !! u = Some c) by (apply Hl, list_elem_of_here).
  destruct (decide (u ∈ required)) as [Hr|Hr].
  - destruct (IH s Hm Hnd) as (s' & H1 & H2 & H3 & H4 & H5); [|done|].
    { intros. by apply Hl, list_elem_of_further. }
    exists s'. split; [done|]. split; [done|]. split; [done|]. split; [done|]. intros u'.
    rewrite H5. apply decide_ext. rewrite not_elem_of_cons. split; [|tauto]. intros [|H]; [by left|].
    destruct (decide (u' = u)) as [->|]; [by left|by right].
  - destruct (managed_entry _ Hm _ _ Hc) as (n & _ & Hn & _). rewrite Hn.
    destruct (IH (with_controllers s (delete u (controllers s)) ({[ n ]} ∪ cancelled s)))
      as (s' & H1 & H2 & H3 & H4 & H5); [|done| |done|].
    { eapply managed_remove; [done..|]. intros m Hm'. by apply Hr, (Hst m). }
    { intros u' c' Hin. cbn [controllers with_controllers]. rewrite lookup_delete_ne.
      - by apply Hl, list_elem_of_further.
      - intros ->. apply Hu, list_elem_of_fmap. by exists (u', c'). }
    exists s'. split; [done|]. split; [done|]. split; [done|]. split; [done|]. intros u'. rewrite H5.
    cbn [controllers with_controllers fmap list_fmap fst]. destruct (decide (u' = u)) as [->|Hne].
    + rewrite lookup_delete_eq, (decide_False (P := _ \/ u ∉ u :: _)); [by destruct (decide _)|].
      intros [|H]; [done|]. apply H, list_elem_of_here.
    + rewrite lookup_delete_ne by done. apply decide_ext. rewrite not_elem_of_cons. tauto.
Qed.

Lemma managed_start new u s s' errs :
  managed s -> controllers s !! u = None -> start_shard new u s = (s', errs) ->
  managed s' /\ (forall u', u' <> u -> controllers s' !! u' = controllers s !! u') /\
  (is_Some (controllers s' !! u) <-> exists x, new u = inr x) /\
  (errs = [] <-> exists x, new u = inr x).
Proof.
  intros Hm Hu. unfold start_shard. destruct (new u) as [e|x] eqn:En; intros [= <- <-]; split.
  - split; cbn [controllers starting cancelled contexts].
    + intros u' c Hc. destruct (managed_entry _ Hm _ _ Hc) as (n & Ha & Hs & Hk & Hn & Hr). exists n.
      split; [done|]. split; [done|]. split; [lia|]. split; [|done].
      intros [->%elem_of_singleton|]%elem_of_union; [lia|done].
    + intros n Hn. destruct (decide (n = contexts s)) as [->|]; [left; set_solver|].
      destruct (managed_live _ Hm n ltac:(lia)) as [|H]; [left; set_solver|by right].
    + apply Hm.
    + intros n [->%elem_of_singleton|Hn]%elem_of_union; [lia|].
      apply (managed_cancelled _ Hm) in Hn. lia.
    + apply Hm.
  - split; [done|]. simpl. split; [by rewrite Hu; split; [intros []|intros [? ?]]|].
    split; [done|by intros [? ?]].
  - assert (Hfresh : forall u' c, controllers s !! u' = Some c -> stop c <> Some (contexts s)).
    { intros u' c Hc Hs. destruct (managed_entry _ Hm _ _ Hc) as (n & _ & Hn & Hlt & _).
      assert (n = contexts s) by congruence. lia. }
    split; cbn [controllers starting cancelled contexts].
    + intros u' c [[<- <-]|[Hne Hc]]%lookup_insert_Some.
      * exists (contexts s). split; [done|]. split; [done|]. split; [lia|]. split.
        { intros Hin%(managed_cancelled _ Hm). lia. }
        intros _. by rewrite lookup_insert_eq.
      * destruct (managed_entry _ Hm _ _ Hc) as (n & Ha & Hs & Hk & Hn & Hr). exists n.
        split; [done|]. split; [done|]. split; [lia|]. split; [done|]. intros Hf.
        rewrite lookup_insert_ne by lia. by apply Hr.
    + intros n Hn. destruct (decide (n = contexts s)) as [->|].
      { right. eexists u, _. by rewrite lookup_insert_eq. }
      destruct (managed_live _ Hm n ltac:(lia)) as [|(u' & c & Hc & Hs)]; [by left|right].
      exists u', c. rewrite lookup_insert_ne; [done|]. intros ->. congruence.
    + intros n u' [[<- <-]|[Hne Hn]]%lookup_insert_Some.
      { eexists. by rewrite lookup_insert_eq. }
      destruct (managed_starting _ Hm _ _ Hn) as (c & Hc & H). exists c.
      rewrite lookup_insert_ne; [done|]. intros ->. congruence.
    + intros n Hn%(managed_cancelled _ Hm). lia.
    + intros u1 u2 c1 c2 n [[<- <-]|[N1 H1]]%lookup_insert_Some [[<- <-]|[N2 H2]]%lookup_insert_Some; simpl.
      * done.
      * intros [= <-] Hs. by apply Hfresh in H2.
      * intros Hs [= <-]. by apply Hfresh in H1.
      * by apply (managed_one _ Hm).
  - split; [intros u' Hne; simpl; by rewrite lookup_insert_ne|]. simpl. rewrite lookup_insert_eq.
    split; split; eauto.
Qed.

Lemma start_missing_spec new l s :
  managed s -> NoDup l ->
  exists s' errs, start_missing new l s = (s', errs) /\ managed s' /\
    (forall u, is_Some (controllers s' !! u) <->
       is_Some (controllers s !! u) \/ (u ∈ l /\ exists x, new u = inr x)) /\
    (forall u c, controllers s !! u = Some c -> controllers s' !! u = Some c) /\
    (errs = [] <-> forall u, u ∈ l -> is_Some (controllers s' !! u)).
Proof.
  revert s. induction l as [|u l IH]; intros s Hm Hnd.
  { exists s, []. split; [done|]. split; [done|]. split; [intros u; rewrite elem_of_nil; tauto|].
    split; [done|]. split; [|done]. by intros _ u ?%elem_of_nil. }
  apply NoDup_cons in Hnd as [Hu Hnd]. simpl. destruct (controllers s !! u) as [c|] eqn:Ec.
  - destruct (IH s Hm Hnd) as (s' & errs & H1 & H2 & H3 & H4 & H5). exists s', errs.
    split; [done|]. split; [done|]. split; [|split; [done|]].
    + intros u'. rewrite H3, elem_of_cons. split; [tauto|]. intros [|[[->|] ?]]; [tauto| |tauto].
      left. rewrite Ec. by eexists.
    + rewrite H5. split; [|by intros H u' Hu'; apply H, list_elem_of_further].
      intros H u' [->|Hu']%elem_of_cons; [|by apply H]. eexists. by apply H4.
  - destruct (start_shard new u s) as [s1 e1] eqn:E1.
    destruct (managed_start new u s s1 e1 Hm Ec E1) as (Hm1 & Hne & Hn & He).
    destruct (IH s1 Hm1 Hnd) as (s' & errs & H1 & H2 & H3 & H4 & H5). rewrite H1.
    exists s', (e1 ++ errs). split; [done|]. split; [done|].
    assert (Hkeep : forall u' c, controllers s !! u' = Some c -> controllers s1 !! u' = Some c).
    { intros u' c Hc. rewrite Hne; [done|]. intros ->. congruence. }
    split; [|split; [by intros; apply H4, Hkeep|]].
    + intros u'. rewrite H3, elem_of_cons. destruct (decide (u' = u)) as [->|Hd].
      * rewrite Hn, Ec. split; [|intros [[? ?]|[_ ?]]; [done|by left]]. intros [?|[? ?]]; [by eauto|done].
      * rewrite Hne by done. tauto.
    + rewrite app_nil, H5. assert (e1 = [] <-> is_Some (controllers s' !! u)) as ->.
      { rewrite H3, Hn. tauto. }
      split; [intros [H H'] u' [->|Hu']%elem_of_cons; auto|].
      intros H. split; [apply H, list_elem_of_here|]. intros u' Hu'. by apply H, list_elem_of_further.
Qed.

Lemma reconcile_shards_spec new st s :
  managed s -> (forall n u, starting s !! n = Some u -> u ∈ requiredShards st) ->
  exists s' errs, reconcile_shards new st s = Ok (s', errs) /\ managed s' /\
    (forall u, is_Some (controllers s' !! u) <->
       u ∈ requiredShards st /\ (is_Some (controllers s !! u) \/ exists x, new u = inr x)) /\
    (forall u c, controllers s !! u = Some c -> u ∈ requiredShards st -> controllers s' !! u = Some c) /\
    (errs = [] <-> forall u, u ∈ requiredShards st -> is_Some (controllers s' !! u)).
Proof.
  intros Hm Hst. unfold reconcile_shards.
  destruct (remove_obsolete_spec (requiredShards st) (range_map (controllers s)) s)
    as (s1 & -> & Hm1 & _ & _ & H1); [done|apply NoDup_range_map| |done|].
  { by intros u c ?%elem_of_range_map. }
  assert (Hs1 : forall u, controllers s1 !! u =
    if decide (u ∈ requiredShards st) then controllers s !! u else None).
  { intros u. rewrite H1. destruct (decide (u ∈ requiredShards st)) as [Hu|Hu].
    - by rewrite decide_True by (by left).
    - destruct (decide _) as [[|Hn]|]; [done| |done]. apply eq_None_not_Some. intros [c Hc].
      apply Hn, list_elem_of_fmap. exists (u, c). split; [done|]. by apply elem_of_range_map. }
  destruct (start_missing_spec new (range_set (requiredShards st)) s1 Hm1) as (s' & errs & E & Hm' & H2 & H3 & H4);
    [apply NoDup_range_set|]. cbn [mbind res_bind]. rewrite E. exists s', errs. split; [done|]. split; [done|].
  split; [|split].
  - intros u. rewrite H2, Hs1, elem_of_range_set. destruct (decide _); [tauto|].
    split; [|tauto]. intros [[]|]; [done|tauto].
  - intros u c Hc Hu. apply H3. by rewrite Hs1, decide_True.
  - rewrite H4. by setoid_rewrite elem_of_range_set.
Qed.

Lemma managed_started s n u ok :
  managed s -> starting s !! n = Some u -> managed (start_returned n u ok s).
Proof.
  intros Hm Hn. destruct (managed_starting _ Hm _ _ Hn) as (c & Hu & Hs & Hf).
  destruct (managed_entry _ Hm _ _ Hu) as (n' & Ha & Hs' & Hk & Hc & Hr).
  assert (n' = n) as -> by congruence. unfold start_returned. rewrite Hu. cbn [default].
  assert (Hother : forall m u', starting s !! m = Some u' -> m <> n -> u' <> u).
  { intros m u' Hm' Hne ->. destruct (managed_starting _ Hm _ _ Hm') as (c' & Hu' & Hs2 & _).
    apply Hne. assert (c' = c) as -> by congruence. congruence. }
  destruct ok; split; cbn [controllers starting cancelled contexts].
  - intros u' c' [[<- <-]|[Hne Hu']]%lookup_insert_Some; cbn [ShardAccess stop ready].
    { exists n. split; [done|]. split; [done|]. split; [done|]. split; done. }
    destruct (managed_entry _ Hm _ _ Hu') as (k & A & S & K & C & R). exists k.
    split; [done|]. split; [done|]. split; [done|]. split; [done|]. intros F.
    rewrite lookup_delete_ne; [by apply R|]. intros ->. by destruct Hne, (managed_one _ Hm u u' c c' k).
  - intros k Hk'. destruct (managed_live _ Hm k Hk') as [|(u' & c' & Hu' & S)]; [by left|right].
    destruct (decide (u = u')) as [<-|Hne]; [|exists u', c'; by rewrite lookup_insert_ne].
    eexists u, _. rewrite lookup_insert_eq. split; [done|]. simpl. congruence.
  - intros k u' [Hne Hk']%lookup_delete_Some. destruct (managed_starting _ Hm _ _ Hk') as (c' & Hu' & H).
    exists c'. split; [|done]. rewrite lookup_insert_ne; [done|]. intros ->. by eapply Hother.
  - apply Hm.
  - intros u1 u2 c1 c2 k [[<- <-]|[N1 H1]]%lookup_insert_Some [[<- <-]|[N2 H2]]%lookup_insert_Some;
      cbn [stop]; intros S1 S2; [done| | |]; by eapply (managed_one _ Hm).
  - intros u' c' [Hne Hu']%lookup_delete_Some. destruct (managed_entry _ Hm _ _ Hu') as (k & A & S & K & C & R).
    assert (k <> n) by (intros ->; by destruct Hne, (managed_one _ Hm u u' c c' n)). exists k.
    split; [done|]. split; [done|]. split; [done|]. split; [set_solver|]. intros F.
    rewrite lookup_delete_ne by done. by apply R.
  - intros k Hk'. destruct (managed_live _ Hm k Hk') as [|(u' & c' & Hu' & S)]; [left; set_solver|].
    destruct (decide (u = u')) as [<-|Hne]; [|right; exists u', c'; by rewrite lookup_delete_ne].
    left. assert (k = n) as -> by congruence. set_solver.
  - intros k u' [Hne Hk']%lookup_delete_Some. destruct (managed_starting _ Hm _ _ Hk') as (c' & Hu' & H).
    exists c'. split; [|done]. rewrite lookup_delete_ne; [done|]. intros ->. by eapply Hother.
  - intros k [->%elem_of_singleton|Hk']%elem_of_union; [done|]. by apply (managed_cancelled _ Hm).
  - intros u1 u2 c1 c2 k [_ H1]%lookup_delete_Some [_ H2]%lookup_delete_Some. by apply (managed_one _ Hm).
Qed.

Lemma calm_managed s : rtc calm_step NewShardManager s -> managed s.
Proof.
  revert s. apply rtc_ind_r; [apply managed_new|]. intros x y _ Hs IH.
  destruct Hs as [new st s0 s' errs Hst E|n u ok s0 Hn|n e s0].
  - destruct (reconcile_shards_spec new st s0 IH Hst) as (s2 & e2 & E2 & Hm & _). congruence.
  - by apply managed_started.
  - split; apply IH.
Qed.

Lemma find_shard_spec cl s l :
  managed s -> (forall u c, (u, c) ∈ l -> controllers s !! u = Some c) ->
  exists o, find_shard cl s l = Ok o /\
    match o with
    | Some n => (n ∉ cancelled s) /\ index_Exists (default ∅ (indexes s !! n)) cl = true /\
        exists u c, controllers s !! u = Some c /\ ShardAccess c = Some n
    | None => forall u c n, (u, c) ∈ l -> ShardAccess c = Some n ->
        index_Exists (default ∅ (indexes s !! n)) cl = false
    end.
Proof.
  intros Hm Hl. induction l as [|[u c] l IH]; simpl.
  { eexists. split; [done|]. by intros u c n ?%elem_of_nil. }
  assert (Hc : controllers s !! u = Some c) by (apply Hl, list_elem_of_here).
  destruct (managed_entry _ Hm _ _ Hc) as (n & Ha & _ & _ & Hn & _). rewrite Ha.
  destruct (index_Exists _ cl) eqn:Ei.
  - eexists. split; [done|]. split; [done|]. split; [done|]. by exists u, c.
  - destruct IH as (o & E & H). { intros u' c' Hin. by apply Hl, list_elem_of_further. }
    exists o. split; [done|]. destruct o as [k|]; [done|]. intros u' c' k Hin Hk.
    apply elem_of_cons in Hin as [[= -> ->]|Hin]; [congruence|by eapply H].
Qed.

(** C34: the shard manager, as long as no shard goes while its controllers are being
    started. Whatever the order of passes, starts and objects: each shard has one
    set of controllers with a live context and every live context belongs to a
    shard, so that no controllers run that nobody can stop; looking a logical
    cluster up never panics, gives a shard whose controllers are live and whose index
    has the cluster, and nothing only when no index has it; the next pass never
    panics, keeps exactly the required shards that it has or can make, and fails
    exactly when one is missing. *)
Theorem shards_are_managed s :
  rtc calm_step NewShardManager s ->
  managed s /\
  (forall clusterName, exists o, ShardAccessForCluster clusterName s = Ok o /\
     match o with
     | Some n => (n ∉ cancelled s) /\ index_Exists (default ∅ (indexes s !! n)) clusterName = true /\
         exists u c, controllers s !! u = Some c /\ ShardAccess c = Some n
     | None => forall u c n, controllers s !! u = Some c -> ShardAccess c = Some n ->
         index_Exists (default ∅ (indexes s !! n)) clusterName = false
     end) /\
  forall new st, (forall n u, starting s !! n = Some u -> u ∈ requiredShards st) ->
    exists s' errs, reconcile_shards new st s = Ok (s', errs) /\
      (forall u, is_Some (controllers s' !! u) <->
         u ∈ requiredShards st /\ (is_Some (controllers s !! u) \/ exists x, new u = inr x)) /\
      (errs = [] <-> forall u, u ∈ requiredShards st -> is_Some (controllers s' !! u)).
Proof.
  intros H. apply calm_managed in H as Hm. split; [done|]. split.
  - intros cl. destruct (find_shard_spec cl s (range_map (controllers s)) Hm) as (o & E & Ho).
    { by intros u c ?%elem_of_range_map. }
    exists o. split; [done|]. destruct o; [done|]. intros u c n Hc. by apply (Ho u c n), elem_of_range_map.
  - intros new st Hst. destruct (reconcile_shards_spec new st s Hm Hst) as (s' & errs & E & _ & H1 & _ & H2).
    by exists s', errs.
Qed.

(** A shard that goes while it is being started comes back as a zero value when the
    start succeeds: the next pass without it panics. *)
Lemma late_start_panics n u s new st :
  starting s !! n = Some u -> controllers s !! u = None -> u ∉ requiredShards st ->
  (forall u' c, controllers s !! u' = Some c -> u' ∈ requiredShards st) ->
  step s (start_returned n u true s) /\
  reconcile_shards new st (start_returned n u true s) = Panic nil_dereference.
Proof.
  intros Hn Hu Hr Hs. split; [by constructor|]. unfold reconcile_shards.
  set (s' := start_returned n u true s).
  assert (Hc : controllers s' = <[u := {| ShardAccess := None; stop := None; ready := true |}]> (controllers s)).
  { simpl. by rewrite Hu. }
  assert (Hin : (u, {| ShardAccess := None; stop := None; ready := true |}) ∈ range_map (controllers s')).
  { apply elem_of_range_map. by rewrite Hc, lookup_insert_eq. }
  assert (forall s0, remove_obsolete (requiredShards st) (range_map (controllers s')) s0 = Panic nil_dereference)
    as ->; [|done].
  assert (Hl : forall u' c, (u', c) ∈ range_map (controllers s') -> u' = u \/ u' ∈ requiredShards st).
  { intros u' c Hi%elem_of_range_map. rewrite Hc in Hi.
    apply lookup_insert_Some in Hi as [[<- _]|[_ Hi]]; [by left|right; by eapply Hs]. }
  revert Hin Hl. generalize (NoDup_range_map (controllers s')).
  induction (range_map (controllers s')) as [|[u' c] l IH]; intros Hnd Hin Hl s0; [by apply elem_of_nil in Hin|].
  apply NoDup_cons in Hnd as [Hx Hnd]. simpl. apply elem_of_cons in Hin as [[= <- <-]|Hin].
  { by rewrite decide_False. }
  destruct (Hl u' c (list_elem_of_here _ _)) as [->|Hr'].
  { destruct Hx. apply list_elem_of_fmap. by exists (u, {| ShardAccess := None; stop := None; ready := true |}). }
  rewrite decide_True by done. apply IH; [done|done|]. intros u2 c2 H2. by eapply Hl, list_elem_of_further.
Qed.
End shard_theorems.

(** ** The types to watch *)

Section gvr_theorems.
Context {KG : KeyOrder GroupVersionResource} {SL : SchemaLib} {CO : ConditionLib}.
Context {EqC : DeepEq (option Condition)}.
Variable allowed : GroupVersionResource -> result bool.
Variable discovery : string -> string -> result (list APIResource).

Definition discovered (gvr : GroupVersionResource) : option GVRPartialMetadata :=
  match getGVRPartialMetadata discovery gvr with inl _ => None | inr m => Some m end.
Definition authorized (gvr : GroupVersionResource) : bool :=
  match allowed gvr with inr true => true | _ => false end.
(** What is watched of one type, when [w] was watched before. *)
Definition after_review (w : gmap GroupVersionResource GVRPartialMetadata) (gvr : GroupVersionResource)
    : option GVRPartialMetadata :=
  match allowed gvr with
  | inr true => match w !! gvr with Some m => Some m | None => discovered gvr end
  | _ => w !! gvr
  end.
Definition review_errors (w : gmap GroupVersionResource GVRPartialMetadata) (gvr : GroupVersionResource)
    : list error :=
  match allowed gvr with
  | inl err => [err]
  | inr false => []
  | inr true =>
      match w !! gvr with
      | Some _ => []
      | None => match getGVRPartialMetadata discovery gvr with inl err => [err] | inr _ => [] end
      end
  end.

Lemma review_other p g g' : g <> g' ->
  gvrsToWatch (p_source (review allowed discovery p g)) !! g' = gvrsToWatch (p_source p) !! g'.
Proof.
  intros Hne. unfold review. destruct (allowed g) as [|[]]; [done| |done].
  unfold addGVR. destruct (gvrsToWatch (p_source p) !! g); [done|].
  destruct (getGVRPartialMetadata _ _); [done|]. simpl. by rewrite lookup_insert_ne.
Qed.
Lemma review_same p g :
  let p' := review allowed discovery p g in
  let w := gvrsToWatch (p_source p) in
  gvrsToWatch (p_source p') !! g = after_review w g /\
  subscribers (p_source p') = subscribers (p_source p) /\
  (forall g', g' ∈ requiredGVRs p' <-> g' ∈ requiredGVRs p /\ ~ (g' = g /\ allowed g = inr false)) /\
  (notify p' = true <-> notify p = true \/ (w !! g = None /\ is_Some (after_review w g))) /\
  unauthorizedGVRs p' = unauthorizedGVRs p ++ (if authorized g then [] else [GVR_String g]) /\
  p_errs p' = p_errs p ++ review_errors w g.
Proof.
  cbv zeta. unfold review, after_review, review_errors, discovered, authorized, addGVR.
  destruct (allowed g) as [err|[]] eqn:Ea; simpl.
  - split; [done|]. split; [done|]. split; [naive_solver|].
    split; [|by rewrite ?app_nil_r]. split; [by left|]. intros [|[-> []]]; [done|]. done.
  - destruct (gvrsToWatch (p_source p) !! g) as [m|] eqn:Ew; simpl.
    + rewrite orb_false_r, !app_nil_r, Ew. split; [done|]. split; [done|]. split; [naive_solver|].
      split; [|done]. split; [by left|]. by intros [|[? _]].
    + destruct (getGVRPartialMetadata discovery g) as [err|m]; simpl; rewrite ?app_nil_r.
      * rewrite Ew. split; [done|]. split; [done|]. split; [naive_solver|]. split; [|done].
        split; [by left|]. intros [|[_ []]]; [done|]. done.
      * rewrite lookup_insert_eq, orb_true_r. split; [done|]. split; [done|]. split; [naive_solver|].
        split; [|done]. split; [|done]. intros _. right. split; [done|by eexists].
  - rewrite app_nil_r. split; [done|]. split; [done|]. split.
    { intros g'. rewrite elem_of_difference, elem_of_singleton. naive_solver. }
    split; [|done]. split; [by left|]. intros [|[-> []]]; [done|]. done.
Qed.

Lemma reviews_spec l p :
  NoDup l ->
  let p' := foldl (review allowed discovery) p l in
  let w := gvrsToWatch (p_source p) in
  (forall g, gvrsToWatch (p_source p') !! g = if decide (g ∈ l) then after_review w g else w !! g) /\
  subscribers (p_source p') = subscribers (p_source p) /\
  (forall g, g ∈ requiredGVRs p' <-> g ∈ requiredGVRs p /\ ~ (g ∈ l /\ allowed g = inr false)) /\
  (notify p' = true <-> notify p = true \/ exists g, g ∈ l /\ w !! g = None /\ is_Some (after_review w g)) /\
  unauthorizedGVRs p' = unauthorizedGVRs p ++ (GVR_String <$> List.filter (fun g => negb (authorized g)) l) /\
  p_errs p' = p_errs p ++ concat (review_errors w <$> l).
Proof.
  revert p. induction l as [|g l IH]; intros p Hnd.
  { cbv zeta. cbn [foldl]. rewrite !app_nil_r. split; [done|]. split; [done|].
    split; [intros g; rewrite elem_of_nil; naive_solver|]. split; [|done].
    split; [by left|]. by intros [|(g & ?%elem_of_nil & _)]. }
  apply NoDup_cons in Hnd as [Hg Hnd]. cbv zeta. cbn [foldl].
  destruct (review_same p g) as (S1 & S2 & S3 & S4 & S5 & S6).
  set (p1 := review allowed discovery p g) in *.
  destruct (IH p1 Hnd) as (H1 & H2 & H3 & H4 & H5 & H6). cbv zeta in *.
  assert (Ho : forall g', g' <> g -> gvrsToWatch (p_source p1) !! g' = gvrsToWatch (p_source p) !! g')
    by (intros g' Hne; by apply review_other).
  assert (Ha : forall g', g' ∈ l -> after_review (gvrsToWatch (p_source p1)) g'
      = after_review (gvrsToWatch (p_source p)) g').
  { intros g' Hl. unfold after_review. rewrite Ho; [done|]. by intros ->. }
  split; [|split; [by rewrite H2|split; [|split; [|split]]]].
  - intros g'. rewrite H1. destruct (decide (g' = g)) as [->|Hne].
    + rewrite decide_False by done. rewrite decide_True by apply list_elem_of_here. done.
    + rewrite Ho by done. destruct (decide (g' ∈ l)) as [Hl|Hl].
      * rewrite decide_True by (by apply list_elem_of_further). by apply Ha.
      * rewrite decide_False; [done|]. by intros [|]%elem_of_cons.
  - intros g'. rewrite H3, S3, elem_of_cons. naive_solver.
  - rewrite H4, S4. split.
    + intros [[|?]|(g' & Hl & Hw & Hs)]; [by left| |].
      { right. exists g. split; [apply list_elem_of_here|done]. }
      right. exists g'. split; [by apply list_elem_of_further|].
      rewrite <-Ho by (by intros ->). by rewrite <-Ha.
    + intros [|(g' & [->|Hl]%elem_of_cons & Hw & Hs)]; [by left; left|by left; right|].
      right. exists g'. split; [done|]. rewrite Ho by (by intros ->). by rewrite Ha.
  - rewrite H5, S5, <-app_assoc. f_equal. simpl. by destruct (authorized g).
  - rewrite H6, S6, <-app_assoc. f_equal. rewrite fmap_cons. cbn [concat]. f_equal. f_equal.
    apply list_fmap_ext. intros i g' Hl%list_elem_of_lookup_2. unfold review_errors.
    rewrite Ho; [done|]. by intros ->.
Qed.

(** What is watched after a pass. *)
Definition watched (required : gset GroupVersionResource)
    (w : gmap GroupVersionResource GVRPartialMetadata) (gvr : GroupVersionResource)
    : option GVRPartialMetadata :=
  if decide (gvr ∈ required) then
    match allowed gvr with inr false => None | _ => after_review w gvr end
  else None.
(** The required types that the syncer may not sync, in the order of the pass. *)
Definition unauthorized (required : gset GroupVersionResource) : list string :=
  GVR_String <$> List.filter (fun g => negb (authorized g)) (range_set required).

Lemma watch_types_spec required c :
  let p := watch_types allowed discovery required c in
  (forall g, gvrsToWatch (p_source p) !! g = watched required (gvrsToWatch c) g) /\
  subscribers (p_source p) =
    (if decide (gvrsToWatch (p_source p) = gvrsToWatch c) then subscribers c
     else (fun _ => true) <$> subscribers c) /\
  unauthorizedGVRs p = unauthorized required /\
  p_errs p = concat (review_errors (gvrsToWatch c) <$> range_set required).
Proof.
  cbv zeta. unfold watch_types.
  pose proof (reviews_spec (range_set required) {| p_source := c; requiredGVRs := required;
    notify := false; unauthorizedGVRs := []; p_errs := [] |} (NoDup_range_set required)) as H.
  cbv zeta in H. cbn [p_source requiredGVRs notify unauthorizedGVRs p_errs app] in H.
  set (p := foldl _ _ _) in *. destruct H as (H1 & H2 & H3 & H4 & H5 & H6).
  unfold removeUnusedGVRs. set (w := gvrsToWatch c) in *. set (w1 := gvrsToWatch (p_source p)) in *.
  set (upd := negb (bool_decide (dom w1 ⊆ requiredGVRs p))).
  assert (Hw : forall g, filter (fun kv => kv.1 ∈ requiredGVRs p) w1 !! g = watched required w g).
  { intros g. unfold watched. rewrite map_lookup_filter, H1. setoid_rewrite elem_of_range_set in H3.
    destruct (decide (g ∈ required)) as [Hr|Hr].
    - rewrite decide_True by (by apply elem_of_range_set).
      destruct (allowed g) as [e|[]] eqn:Ea.
      + destruct (after_review w g); simpl; [|done]. rewrite option_guard_True; [done|].
        apply H3. split; [done|]. intros [_ Hx]. congruence.
      + destruct (after_review w g); simpl; [|done]. rewrite option_guard_True; [done|].
        apply H3. split; [done|]. intros [_ Hx]. congruence.
      + destruct (after_review w g); simpl; [|done]. rewrite option_guard_False; [done|].
        intros [_ Hn]%H3. by apply Hn.
    - rewrite decide_False by (by rewrite elem_of_range_set). destruct (w !! g); simpl; [|done].
      rewrite option_guard_False; [done|]. by intros [? _]%H3. }
  assert (Hn : notify p || upd = true <-> filter (fun kv => kv.1 ∈ requiredGVRs p) w1 <> w).
  { rewrite orb_true_iff, H4. unfold upd. rewrite negb_true_iff, bool_decide_eq_false. split.
    - intros [[?|(g & Hg & Hwg & Hs)]|Hd] E; [done| |].
      + pose proof (Hw g) as Hg2. rewrite E in Hg2. apply elem_of_range_set in Hg.
        unfold watched in Hg2. rewrite decide_True in Hg2 by done.
        unfold after_review in *. rewrite Hwg in *. destruct Hs as [m Hm].
        destruct (allowed g) as [?|[]]; congruence.
      + apply Hd. intros g [m Hg]%elem_of_dom.
        destruct (w !! g) as [m0|] eqn:Ewg.
        * rewrite <-E in Ewg. by apply map_lookup_filter_Some in Ewg as [_ ?].
        * rewrite H1 in Hg. destruct (decide (g ∈ range_set required)) as [Hr%elem_of_range_set|]; [|congruence].
          apply H3. split; [done|]. intros [_ Ea]. unfold after_review in Hg. rewrite Ea in Hg. congruence.
    - intros Hne. destruct (notify p || upd) eqn:En.
      { apply orb_true_iff in En as [En|En]; [left; by apply H4|right].
        by apply negb_true_iff, bool_decide_eq_false in En. }
      destruct Hne. apply orb_false_iff in En as [En Eu]. unfold upd in Eu.
      apply negb_false_iff, bool_decide_eq_true in Eu. apply map_eq. intros g. rewrite Hw. unfold watched.
      assert (Hd : forall m, w1 !! g = Some m -> g ∈ required /\ allowed g <> inr false).
      { intros m Hm. apply elem_of_dom_2, Eu, H3 in Hm as [Hr Hnf]. split; [done|]. intros Ea. apply Hnf.
        split; [|done]. by apply elem_of_range_set. }
      rewrite H1 in Hd. destruct (decide (g ∈ required)) as [Hr|Hr].
      + rewrite decide_True in Hd by (by apply elem_of_range_set).
        assert (Hs : after_review w g = w !! g).
        { destruct (w !! g) as [m|] eqn:Ew.
          - unfold after_review. rewrite Ew. by destruct (allowed g) as [|[]].
          - destruct (after_review w g) eqn:Er; [|done]. apply not_true_iff_false in En. destruct En.
            apply H4. right. exists g. split; [by apply elem_of_range_set|]. split; [done|]. by rewrite Er. }
        destruct (allowed g) as [|[]] eqn:Ea; [done|done|]. rewrite Hs in Hd.
        destruct (w !! g) as [m|]; [|done]. by destruct (Hd m eq_refl) as [_ []].
      + rewrite decide_False in Hd by (by rewrite elem_of_range_set).
        destruct (w !! g) as [m|]; [|done]. by destruct (Hd m eq_refl). }
  cbn [p_source unauthorizedGVRs p_errs]. rewrite H5, H6.
  destruct (notify p || upd) eqn:En; cbn [gvrsToWatch subscribers notifySubscribers];
    (split; [exact Hw|]); rewrite H2; (split; [|done]).
  - rewrite decide_False; [done|]. by apply Hn.
  - rewrite decide_True; [done|]. destruct (decide (filter (fun kv => kv.1 ∈ requiredGVRs p) w1 = w)) as [|Hne]; [done|].
    by apply Hn in Hne.
Qed.

(** What the syncer watches. After a pass it watches, among the types that the
    SyncTarget requires, those that it may sync and that the physical cluster has
    or had, and keeps a type whose access could not be reviewed; the subscribers are
    told exactly when the list changed, whatever they did with the last message;
    the condition of the SyncTarget says whether all required types may be synced,
    and when it changes the pass ends there and is repeated. *)
Theorem types_are_watched syncTarget c :
  let '(c', st', requeue, errs) := reconcile_types allowed discovery syncTarget c in
  let required := getAllGVRs syncTarget in
  (forall g, gvrsToWatch c' !! g = watched required (gvrsToWatch c) g) /\
  (forall g, g ∈ dom (gvrsToWatch c') -> g ∈ required) /\
  subscribers c' = (if decide (gvrsToWatch c' = gvrsToWatch c) then subscribers c
                    else (fun _ => true) <$> subscribers c) /\
  errs = concat (review_errors (gvrsToWatch c) <$> range_set required) /\
  match syncTarget with
  | None => st' = None /\ requeue = false
  | Some st =>
      exists cs, st' = Some (set_st_conditions st cs) /\
        (IsTrue cs SyncerAuthorized = true <-> forall g, g ∈ required -> authorized g = true) /\
        (forall t, t <> SyncerAuthorized ->
           GetCondition cs t = GetCondition (st_Conditions (st_Status st)) t) /\
        (requeue = false <-> deep_equal
           (GetCondition (st_Conditions (st_Status st)) SyncerAuthorized)
           (GetCondition cs SyncerAuthorized) = true)
  end.
Proof.
  unfold reconcile_types. set (required := getAllGVRs syncTarget).
  destruct (watch_types_spec required c) as (H1 & H2 & H3 & H4). cbv zeta in *.
  set (p := watch_types allowed discovery required c) in *.
  assert (Hd : forall g, g ∈ dom (gvrsToWatch (p_source p)) -> g ∈ required).
  { intros g [m Hm]%elem_of_dom. rewrite H1 in Hm. unfold watched in Hm.
    by destruct (decide (g ∈ required)). }
  destruct syncTarget as [st|]; [|done].
  split; [done|]. split; [done|]. split; [done|]. split; [done|]. eexists. split; [done|].
  assert (Hu : unauthorizedGVRs p = [] <-> forall g, g ∈ required -> authorized g = true).
  { transitivity (List.filter (fun g => negb (authorized g)) (range_set required) = []).
    { rewrite H3. unfold unauthorized. by destruct (List.filter _ _). }
    split.
    - intros E g Hg. destruct (authorized g) eqn:Ea; [done|].
      assert (Hin : In g (List.filter (fun g => negb (authorized g)) (range_set required))).
      { apply filter_In. split; [by apply list_elem_of_In, elem_of_range_set|by rewrite Ea]. }
      by rewrite E in Hin.
    - intros Ha. assert (Hl : Forall (fun g => authorized g = true) (range_set required)).
      { apply Forall_forall. intros g Hg%elem_of_range_set. by apply Ha. }
      clear -Hl. induction Hl as [|g l Hg _ IH]; [done|]. simpl. by rewrite Hg. }
  split; [|split].
  - rewrite <-Hu. unfold mark_authorized. destruct (unauthorizedGVRs p) as [|u us]; unfold IsTrue.
    + destruct (Get_MarkTrue (st_Conditions (st_Status st)) SyncerAuthorized) as (k & -> & Hk).
      by rewrite Hk.
    + edestruct (Get_MarkFalse (st_Conditions (st_Status st)) SyncerAuthorized) as (k & -> & Hk & _).
      by rewrite Hk.
  - intros t Ht. unfold mark_authorized. destruct (unauthorizedGVRs p);
      [apply Get_MarkTrue_ne|apply Get_MarkFalse_ne]; congruence.
  - apply negb_false_iff.
Qed.
End gvr_theorems.

(** ** Tunnels *)

Section tunnel_theorems.
Context {MO : MapOrder}.

Lemma stop_tunnels_spec required l s :
  NoDup l.*1 -> (forall u n, (u, n) ∈ l -> startedTunnelers s !! u = Some n) ->
  let s' := foldl (stop_tunnel required) s l in
  t_contexts s' = t_contexts s /\
  (forall u, startedTunnelers s' !! u =
     if decide (u ∈ required \/ u ∉ l.*1) then startedTunnelers s !! u else None) /\
  (forall n, n ∈ t_cancelled s' <-> n ∈ t_cancelled s \/ exists u, (u, n) ∈ l /\ u ∉ required).
Proof.
  revert s. induction l as [|[u n] l IH]; intros s Hnd Hl; cbv zeta; cbn [foldl].
  { split; [done|]. split; [|intros n; split; [by left|by intros [|(u & ?%elem_of_nil & _)]]].
    intros u. rewrite decide_True; [done|]. right. apply not_elem_of_nil. }
  apply NoDup_cons in Hnd as [Hu Hnd]. unfold stop_tunnel at 2 4 6. cbn [fst snd].
  destruct (decide (u ∈ required)) as [Hr|Hr].
  - destruct (IH s Hnd) as (H1 & H2 & H3).
    { intros. by apply Hl, list_elem_of_further. }
    split; [done|]. split.
    + intros u'. rewrite H2. apply decide_ext. cbn [fmap list_fmap fst]. rewrite not_elem_of_cons.
      destruct (decide (u' = u)) as [->|]; tauto.
    + intros k. rewrite H3. split; (intros [|(u' & Hin & Hn)]; [by left|right]); exists u'.
      * split; [by apply list_elem_of_further|done].
      * apply elem_of_cons in Hin as [[= -> ->]|Hin]; [done|done].
  - set (s1 := {| startedTunnelers := delete u (startedTunnelers s); t_cancelled := {[ n ]} ∪ t_cancelled s;
      t_contexts := t_contexts s |}).
    destruct (IH s1 Hnd) as (H1 & H2 & H3).
    { intros u' k Hin. cbn [s1 startedTunnelers]. rewrite lookup_delete_ne.
      - by apply Hl, list_elem_of_further.
      - intros ->. apply Hu, list_elem_of_fmap. by exists (u', k). }
    split; [done|]. split.
    + intros u'. rewrite H2. cbn [s1 startedTunnelers fmap list_fmap fst].
      destruct (decide (u' = u)) as [->|Hne].
      * rewrite lookup_delete_eq, (decide_False (P := _ \/ u ∉ u :: _)); [by destruct (decide _)|].
        intros [|H]; [done|]. apply H, list_elem_of_here.
      * rewrite lookup_delete_ne by done. apply decide_ext. rewrite not_elem_of_cons. tauto.
    + intros k. rewrite H3. cbn [s1 t_cancelled]. rewrite elem_of_union, elem_of_singleton. split.
      * intros [[->|]|(u' & Hin & Hn)]; [right|by left|right].
        { exists u. split; [apply list_elem_of_here|done]. }
        exists u'. split; [by apply list_elem_of_further|done].
      * intros [|(u' & Hin & Hn)]; [by left; right|].
        apply elem_of_cons in Hin as [[= -> ->]|Hin]; [by left; left|right; by exists u'].
Qed.
Lemma start_tunnels_spec l s :
  let s' := foldl start_tunnel s l in
  t_cancelled s' = t_cancelled s /\ t_contexts s <= t_contexts s' /\
  (forall u n, startedTunnelers s !! u = Some n -> startedTunnelers s' !! u = Some n) /\
  (forall u, startedTunnelers s !! u = None ->
     match startedTunnelers s' !! u with
     | Some n => u ∈ l /\ t_contexts s <= n < t_contexts s'
     | None => u ∉ l
     end).
Proof.
  revert s. induction l as [|u l IH]; intros s; cbv zeta; cbn [foldl].
  { split; [done|]. split; [done|]. split; [done|]. intros u ->. apply not_elem_of_nil. }
  remember (start_tunnel s u) as s1 eqn:E1. destruct (IH s1) as (H1 & H2 & H3 & H4).
  set (s2 := foldl start_tunnel s1 l) in *. unfold start_tunnel in E1.
  destruct (startedTunnelers s !! u) as [n|] eqn:E.
  - subst s1. split; [done|]. split; [done|]. split; [done|]. intros u' Hu'. specialize (H4 u' Hu').
    destruct (startedTunnelers s2 !! u'); [split; [apply list_elem_of_further|]; tauto|].
    intros [->|]%elem_of_cons; [congruence|done].
  - assert (Ht : startedTunnelers s1 = <[ u := t_contexts s ]> (startedTunnelers s)) by (by subst).
    assert (Hc : t_contexts s1 = S (t_contexts s)) by (by subst).
    assert (Hx : t_cancelled s1 = t_cancelled s) by (by subst). clear E1.
    rewrite Ht in H3, H4. split; [congruence|]. split; [lia|]. split.
    + intros u' n Hu'. apply H3. rewrite lookup_insert_ne; [done|]. intros ->. congruence.
    + intros u' Hu'. destruct (decide (u' = u)) as [->|Hne].
      * rewrite (H3 u (t_contexts s)) by apply lookup_insert_eq. split; [apply list_elem_of_here|lia].
      * specialize (H4 u'). rewrite lookup_insert_ne in H4 by done. specialize (H4 Hu').
        destruct (startedTunnelers s2 !! u').
        { split; [apply list_elem_of_further; tauto|lia]. }
        by intros [|]%elem_of_cons.
Qed.
(** After a pass there is a tunnel for exactly the required URLs: one that was there
    stays, a new one has a new context, and the context of one that goes is
    cancelled. *)
Lemma tunnels_follow syncTarget s :
  let s' := reconcile_tunnels syncTarget s in
  dom (startedTunnelers s') = requiredTunnels syncTarget /\
  (forall u n, startedTunnelers s !! u = Some n ->
     if decide (u ∈ requiredTunnels syncTarget) then startedTunnelers s' !! u = Some n
     else n ∈ t_cancelled s') /\
  (forall u n, startedTunnelers s !! u = None -> startedTunnelers s' !! u = Some n ->
     t_contexts s <= n < t_contexts s') /\
  (forall n, n ∈ t_cancelled s' -> n ∈ t_cancelled s \/
     exists u, startedTunnelers s !! u = Some n /\ u ∉ requiredTunnels syncTarget).
Proof.
  cbv zeta. unfold reconcile_tunnels. set (required := requiredTunnels syncTarget).
  destruct (stop_tunnels_spec required (map_range (startedTunnelers s)) s) as (H1 & H2 & H3).
  { apply NoDup_map_range. }
  { by intros u n ?%elem_of_map_range. }
  set (s1 := foldl (stop_tunnel required) s _) in *.
  destruct (start_tunnels_spec (set_range required) s1) as (G1 & G2 & G3 & G4).
  set (s2 := foldl start_tunnel s1 _) in *. rewrite G1, H1 in *.
  assert (Hs : forall u, startedTunnelers s1 !! u =
    if decide (u ∈ required) then startedTunnelers s !! u else None).
  { intros u. rewrite H2. destruct (decide (u ∈ required)) as [Hu|Hu]; [by rewrite decide_True by (by left)|].
    destruct (decide _) as [[|Hn]|]; [done| |done]. apply eq_None_not_Some. intros [n Hn'].
    apply Hn, list_elem_of_fmap. exists (u, n). split; [done|]. by apply elem_of_map_range. }
  split; [|split; [|split]].
  - apply set_eq. intros u. rewrite elem_of_dom. specialize (Hs u). specialize (G4 u). split.
    + intros [n Hn]. destruct (decide (u ∈ required)) as [|Hu]; [done|]. specialize (G4 Hs).
      rewrite Hn in G4. by destruct G4 as [G4%elem_of_set_range _].
    + intros Hu. rewrite decide_True in Hs by done. destruct (startedTunnelers s !! u) as [n|].
      { exists n. by apply G3. }
      specialize (G4 Hs). destruct (startedTunnelers s2 !! u); [by eexists|].
      by rewrite elem_of_set_range in G4.
  - intros u n Hn. destruct (decide (u ∈ required)) as [Hu|Hu].
    + apply G3. by rewrite Hs, decide_True.
    + apply H3. right. exists u. split; [by apply elem_of_map_range|done].
  - intros u n Hn Hs2. specialize (G4 u). rewrite Hs2 in G4. apply G4. rewrite Hs, Hn. by destruct (decide _).
  - intros n [|(u & Hin%elem_of_map_range & Hu)]%H3; [by left|right; by exists u].
Qed.
End tunnel_theorems.

(** ** The controller *)

Section controller_theorems.
Context {EL : ErrorLib} {NK : NamespaceKeyLib} {SL : SchemaLib} {CO : ConditionLib}.
Context {MO : MapOrder} {KO : KeyOrder VirtualWorkspace} {KG : KeyOrder GroupVersionResource}.
Context {EqC : DeepEq (option Condition)}.
Context {EqSp : DeepEq SyncTargetSpec} {EqSt : DeepEq SyncTargetStatus}.
Variable c : Controller.
Variables (zeroSpec : SyncTargetSpec) (zeroStatus : SyncTargetStatus).

(** A syncer whose SyncTarget is gone, or was replaced by another one of the same
    name, stops: after the pass no shard has controllers, every context that was
    ever made is cancelled, there is no tunnel, and nothing but the built-in types
    is watched. *)
Theorem target_gone_stops_everything key ns name s h :
  SplitMetaNamespaceKey key = inr (ns, name) ->
  match syncTargetLister c h name with
  | inl err => IsNotFound err = true
  | inr st => UID (st_Meta st) <> c_syncTargetUID c
  end ->
  managed (shards s) -> starting (shards s) = ∅ ->
  exists s' r, process c zeroSpec zeroStatus key s h = (h, Ok (s', r)) /\
    controllers (shards s') = ∅ /\ (forall n, n < contexts (shards s') -> n ∈ cancelled (shards s')) /\
    startedTunnelers (tunnels s') = ∅ /\ dom (gvrsToWatch (gvrSource s')) ⊆ dom builtinGVRs.
Proof.
  intros Hk Hl Hm Hst.
  pose proof (types_are_watched (isGVRAllowed c h) (ServerResources c h) None (gvrSource s)) as Ht.
  destruct (reconcile_types (isGVRAllowed c h) (ServerResources c h) None (gvrSource s))
    as [[[src st'] rq] errs] eqn:Er.
  destruct Ht as (_ & Hd & _ & _ & -> & ->).
  destruct (reconcile_shards_spec (newShardControllers c h) None (shards s) Hm) as
    (m & es & Em & Hm' & Hc & _ & _). { intros n u Hn. by rewrite Hst in Hn. }
  destruct (tunnels_follow None (tunnels s)) as (Htun & _). cbv zeta in Htun.
  set (s' := {| gvrSource := src; shards := m; tunnels := reconcile_tunnels None (tunnels s) |}).
  assert (Hr : reconcile_chain c h None s = Ok (s', None, false,
    NewAggregate (option_list (NewAggregate errs) ++ option_list (NewAggregate es)))).
  { unfold reconcile_chain. rewrite Er. cbn [mbind res_bind]. rewrite Em. done. }
  set (e := NewAggregate _) in Hr.
  exists s', (match e with Some err => inl err | None => inr false end). split.
  - unfold process. rewrite Hk. unfold try, mbind, M_bind, of_result.
    destruct (syncTargetLister c h name) as [err|st].
    + rewrite Hl. simpl. unfold reconcile. by rewrite Hr.
    + rewrite bool_decide_eq_false_2 by done. simpl. unfold reconcile. by rewrite Hr.
  - assert (Hnone : controllers m = ∅).
    { apply map_eq. intros u. rewrite lookup_empty. apply eq_None_not_Some. intros Hs.
      apply Hc in Hs as [Hs _]. by apply elem_of_empty in Hs. }
    split; [done|]. split; [|split].
    + intros n Hn. destruct (managed_live _ Hm' n Hn) as [|(u & k & Hu & _)]; [done|].
      simpl in Hnone. rewrite Hnone in Hu. done.
    + apply dom_empty_inv_L. done.
    + intros g Hg. apply Hd in Hg. unfold getAllGVRs in Hg. rewrite union_empty_r_L in Hg. done.
Qed.
End controller_theorems.

(** * Examples *)

Module Examples.
#[local] Existing Instances canonical_order canonical_range simple_errors simple_clusters simple_schema
  simple_conditions.
#[local] Instance nskeys : NamespaceKeyLib := {|
  MetaNamespaceKeyFunc o := inr (if decide (Namespace o = "") then Name o
                                 else Namespace o +:+ "/" +:+ Name o);
  SplitMetaNamespaceKey k := inr ("", k) |}.
#[local] Instance equal_conditions : DeepEq (option Condition) := eq_DeepEq.
#[local] Instance equal_spec : DeepEq SyncTargetSpec := eq_DeepEq.
#[local] Instance equal_status : DeepEq SyncTargetStatus := eq_DeepEq.

Definition shard : VirtualWorkspace := {| SyncerURL := "https://s"; UpsyncerURL := "https://u" |}.
Definition target (l : list VirtualWorkspace) (t : list string) : SyncTarget := {|
  st_Meta := mk_meta "t" "" None None [];
  st_Spec := {| Unschedulable := false; EvictAfter := None; SupportedAPIExports := []; Cells := None |};
  st_Status := {| Allocatable := None; Capacity := None; st_Conditions := []; SyncedResources := [];
    LastSyncerHeartbeatTime := None; VirtualWorkspaces := l; TunnelWorkspaces := t |} |}.
Definition made (_ : VirtualWorkspace) : result unit := inr tt.
Definition pass (st : option SyncTarget) (s : shardManager) : shardManager :=
  match reconcile_shards made st s with Ok (s', _) => s' | _ => s end.
Definition pod : Unstructured := {|
  u_meta := mk_meta "p" "ns" None (Some {[ "kcp.io/cluster" := "ws" ]}) []; u_more := ∅; u_content := ∅ |}.

(** One shard that is made, started, and has an object. *)
Definition started : shardManager := start_returned 0 shard true (pass (Some (target [shard] [])) NewShardManager).
Definition running : shardManager := on_index 0 (SyncerAdded (core_gvr "pods") pod) started.
Lemma running_reachable : rtc calm_step NewShardManager running.
Proof.
  eapply rtc_l.
  { apply (calm_reconcile made (Some (target [shard] [])) NewShardManager
      (pass (Some (target [shard] [])) NewShardManager) []); [by intros n u ?|]. by vm_compute. }
  eapply rtc_l; [apply (calm_started 0 shard true); by vm_compute|].
  eapply rtc_once, calm_index.
Qed.
Lemma shards_are_managed_witness :
  ShardAccessForCluster "ws" running = Ok (Some 0) /\ ShardAccessForCluster "other" running = Ok None /\
  managed running.
Proof.
  split; [by vm_compute|]. split; [by vm_compute|].
  exact (proj1 (shards_are_managed running running_reachable)).
Defined.

(** The shard goes and comes back while its first controllers are being started;
    their start then fails. The second controllers are forgotten and their context
    is never cancelled: the next pass makes a third set for the same shard. *)
Definition back : shardManager :=
  pass (Some (target [shard] [])) (pass None (pass (Some (target [shard] [])) NewShardManager)).
Definition forgotten : shardManager := start_returned 0 shard false back.
Example controllers_are_leaked :
  rtc step NewShardManager forgotten /\ controllers forgotten = ∅ /\ (1 ∉ cancelled forgotten) /\
  stop <$> controllers (pass (Some (target [shard] [])) forgotten) !! shard = Some (Some 2).
Proof.
  split; [|split; [by vm_compute|split; [|by vm_compute]]].
  - eapply rtc_l; [eapply (step_reconcile made (Some (target [shard] []))); by vm_compute|].
    eapply rtc_l; [eapply (step_reconcile made None); by vm_compute|].
    eapply rtc_l; [eapply (step_reconcile made (Some (target [shard] []))); by vm_compute|].
    apply rtc_once. apply (step_started 0 shard false). by vm_compute.
  - apply (bool_decide_unpack _). by vm_compute.
Qed.
(** It goes for good, and the start succeeds: lookups and passes panic. *)
Definition zombie : shardManager :=
  start_returned 0 shard true (pass None (pass (Some (target [shard] [])) NewShardManager)).
Example zombie_panics :
  ShardAccessForCluster "ws" zombie = Panic nil_dereference /\
  reconcile_shards made None zombie = Panic nil_dereference.
Proof. by vm_compute. Qed.

(** A SyncTarget of another UID. *)
Definition config : Controller := {|
  c_syncTargetUID := "uid"; syncTargetLister _ _ := inr (target [shard] ["https://t"]);
  isGVRAllowed _ _ := inr true; ServerResources _ _ _ := inl (ErrMsg "no discovery");
  newShardControllers _ := made; Marshal _ := inr "{}"; CreateMergePatch _ _ := inr "patch";
  DoPatch _ := inr tt |}.
Definition state : syncer_state := {|
  gvrSource := {| gvrsToWatch := {[ core_gvr "pods" := {| pm_Scope := NamespaceScoped; pm_Kind := "Pod";
                                                        pm_Singular := "pod" |} ]};
                  subscribers := [false] |};
  shards := running;
  tunnels := {| startedTunnelers := {[ "https://t" := 0 ]}; t_cancelled := ∅; t_contexts := 1 |} |}.
Lemma target_gone_stops_everything_witness : exists s' r,
  process config (st_Spec (target [] [])) (st_Status (target [] [])) "t" state [] = ([], Ok (s', r)) /\
  controllers (shards s') = ∅ /\ (forall n, n < contexts (shards s') -> n ∈ cancelled (shards s')) /\
  startedTunnelers (tunnels s') = ∅ /\ dom (gvrsToWatch (gvrSource s')) ⊆ dom builtinGVRs.
Proof.
  apply (target_gone_stops_everything config (st_Spec (target [] [])) (st_Status (target [] []))
           "t" "" "t" state []).
  - reflexivity.
  - simpl. discriminate.
  - exact (calm_managed running running_reachable).
  - apply (bool_decide_unpack _). by vm_compute.
Defined.
End Examples.
