(* ===== verification/GoPath.v ===== *)
(** * Paths (the standard library's [path] and the rest of [strings])

    [path.Clean] and [path.Join] on slash-separated paths, [strings.HasSuffix]
    and [TrimSuffix], and what splitting a joined path gives back. *)

From S2P Require Import Prelude.

(** [strings.TrimSuffix] and [strings.HasSuffix]. *)
Fixpoint TrimSuffix (s suffix : string) : string :=
  if decide (s = suffix) then ""
  else match s with
       | EmptyString => EmptyString
       | String a s => String a (TrimSuffix s suffix)
       end.
Fixpoint HasSuffix (s suffix : string) : bool :=
  if decide (s = suffix) then true
  else match s with EmptyString => false | String _ s => HasSuffix s suffix end.

(** [path.Clean]: empty and [.] elements go, [..] takes the element before it along;
    at the root, and only there, [..] goes too. The elements are kept in reverse. *)
Definition clean_element (rooted : bool) (out : list string) (element : string) : list string :=
  if decide (element = "" \/ element = ".") then out
  else if decide (element = "..") then
    match out with
    | [] => if rooted then [] else [".."]
    | last :: out' => if decide (last = "..") then ".." :: out else out'
    end
  else element :: out.
Definition Clean (path : string) : string :=
  let rooted := HasPrefix path "/" in
  let out := reverse (foldl (clean_element rooted) [] (Split path "/")) in
  if rooted then "/" +:+ Join out "/"
  else match out with [] => "." | _ => Join out "/" end.
(** [path.Join]: the empty elements at the front are ignored. *)
Fixpoint skip_empty (elem : list string) : list string :=
  match elem with
  | e :: elem => if decide (e = "") then skip_empty elem else e :: elem
  | [] => []
  end.
Definition PathJoinElements (elem : list string) : string :=
  match skip_empty elem with [] => "" | elem => Clean (Join elem "/") end.

(** ** Lemmas *)

Lemma Join_slash_cons s l sep : l <> [] -> Join (s :: l) sep = s +:+ sep +:+ Join l sep.
Proof. by destruct l. Qed.

Lemma TrimSuffix_app s suffix : TrimSuffix (s +:+ suffix) suffix = s.
Proof.
  induction s as [|a s IH].
  - change ("" +:+ suffix) with suffix. destruct suffix; [done|]. cbn [TrimSuffix].
    by rewrite decide_True by done.
  - rewrite string_app_cons. simpl. rewrite decide_False; [by rewrite IH|].
    intros H. apply (f_equal String.length) in H. rewrite <-string_app_cons, string_app_length in H.
    simpl in H. lia.
Qed.

Lemma Cut_Some s sep x y : Cut s sep = Some (x, y) -> s = x +:+ sep +:+ y.
Proof.
  revert x y. induction s as [|a s IH]; intros x y.
  - cbn [Cut]. destruct (strip_prefix sep "") as [r|] eqn:E; [|done].
    intros [= <- <-]. by apply strip_prefix_Some in E.
  - cbn [Cut]. destruct (strip_prefix sep (String a s)) as [r|] eqn:E.
    + intros [= <- <-]. by apply strip_prefix_Some in E.
    + destruct (Cut s sep) as [[x' y']|]; [|done]. intros [= <- <-]. rewrite string_app_cons. f_equal. by apply IH.
Qed.
(** A cut at a byte leaves none of it before. *)
Lemma Cut_before s c x y : Cut s (String c "") = Some (x, y) -> c ∉ String.list_ascii_of_string x.
Proof.
  revert x y. induction s as [|a s IH]; intros x y; [done|]. cbn [Cut strip_prefix].
  destruct (decide (c = a)) as [->|Hne]; [intros [= <- _]; apply not_elem_of_nil|].
  destruct (Cut s (String c "")) as [[x' y']|]; [|done]. intros [= <- _]. cbn.
  apply not_elem_of_cons. split; [done|by eapply IH].
Qed.
(** What is split is joined again. *)
Lemma Join_SplitN s sep n : Join (SplitN s sep (S n)) sep = s.
Proof.
  revert s. induction n as [|n IH]; intros s; [done|].
  change (SplitN s sep (S (S n))) with
    (match Cut s sep with Some (a, b) => a :: SplitN b sep (S n) | None => [s] end).
  destruct (Cut s sep) as [[a b]|] eqn:E; [|done].
  apply Cut_Some in E. rewrite Join_slash_cons, IH; [done|]. destruct n; [done|].
  cbn [SplitN]. by destruct (Cut b sep) as [[]|].
Qed.
Lemma SplitN_length s sep n : length (SplitN s sep n) <= n.
Proof.
  revert s. induction n as [|n IH]; intros s; [done|]. destruct n as [|n]; [simpl; lia|].
  change (SplitN s sep (S (S n))) with
    (match Cut s sep with Some (a, b) => a :: SplitN b sep (S n) | None => [s] end).
  destruct (Cut s sep) as [[a b]|]; [specialize (IH b)|]; simpl length in *; lia.
Qed.

(** An element of a path: not empty, without a slash, neither [.] nor [..]. *)
Definition plain (s : string) : Prop :=
  s <> "" /\ s <> "." /\ s <> ".." /\ "/"%char ∉ String.list_ascii_of_string s.
#[global] Instance plain_dec s : Decision (plain s).
Proof. unfold plain. apply _. Defined.

Lemma plain_ne s : plain s -> s <> "".
Proof. by intros []. Qed.
Lemma plain_no_slash s : plain s -> "/"%char ∉ String.list_ascii_of_string s.
Proof. by intros (_ & _ & _ & ?). Qed.
#[export] Hint Resolve plain_ne plain_no_slash : go.

(** Splitting at a byte. *)
Lemma SplitN_byte c s r n :
  c ∉ String.list_ascii_of_string s ->
  SplitN (s +:+ String c r) (String c "") (S (S n)) = s :: SplitN r (String c "") (S n).
Proof.
  intros Hs. change (s +:+ String c r) with (s +:+ String c "" +:+ r).
  cbn [SplitN]. by rewrite (Cut_first s c "" r Hs).
Qed.
Lemma SplitN_no_byte c s n :
  c ∉ String.list_ascii_of_string s -> SplitN s (String c "") (S n) = [s].
Proof. intros Hs. destruct n; [done|]. cbn [SplitN]. by rewrite (Cut_none s c "" Hs). Qed.
Lemma SplitN_first s r n :
  "/"%char ∉ String.list_ascii_of_string s ->
  SplitN (s +:+ "/" +:+ r) "/" (S (S n)) = s :: SplitN r "/" (S n).
Proof. apply (SplitN_byte "/"). Qed.
Lemma SplitN_single s n :
  "/"%char ∉ String.list_ascii_of_string s -> SplitN s "/" (S n) = [s].
Proof. apply SplitN_no_byte. Qed.

Lemma SplitN_Join l n :
  l <> [] -> Forall (fun s => "/"%char ∉ String.list_ascii_of_string s) l -> length l <= n ->
  SplitN (Join l "/") "/" n = l.
Proof.
  revert n. induction l as [|s l IH]; intros n Hne Hl Hn; [done|].
  apply Forall_cons in Hl as [Hs Hl]. destruct l as [|s' l'].
  - destruct n; [simpl in Hn; lia|]. by apply SplitN_single.
  - destruct n as [|[|n]]; [simpl in Hn; lia..|].
    rewrite Join_slash_cons by done. rewrite SplitN_first by done. f_equal.
    apply IH; [done..|simpl in *; lia].
Qed.
Lemma Join_length l : length l <= S (String.length (Join l "/")).
Proof.
  induction l as [|s l IH]; [simpl; lia|]. destruct l as [|s' l]; [simpl; lia|].
  rewrite Join_slash_cons by done. rewrite !string_app_length. simpl in *. lia.
Qed.
Lemma Split_Join l :
  l <> [] -> Forall (fun s => "/"%char ∉ String.list_ascii_of_string s) l ->
  Split (Join l "/") "/" = l.
Proof. intros. apply SplitN_Join; [done..|]. apply Join_length. Qed.

Lemma clean_plain rooted out l : Forall plain l -> foldl (clean_element rooted) out l = reverse l ++ out.
Proof.
  revert out. induction l as [|s l IH]; intros out Hl; [done|].
  apply Forall_cons in Hl as [(H1 & H2 & H3 & _) Hl]. cbn [foldl].
  assert (E : clean_element rooted out s = s :: out).
  { unfold clean_element. rewrite decide_False by tauto. by rewrite decide_False. }
  rewrite E, IH by done. rewrite reverse_cons, <-app_assoc. done.
Qed.
(** A rooted path of plain elements keeps them, and loses the empty ones before them. *)
Lemma Clean_rooted pre l :
  Forall (fun s => s = "") pre -> Forall plain l -> l <> [] ->
  Clean (Join ("" :: pre ++ l) "/") = "/" +:+ Join l "/".
Proof.
  intros Hpre Hl Hne. unfold Clean.
  assert (Happ : pre ++ l <> []) by (by intros [_ ?]%app_eq_nil).
  assert (Hs : HasPrefix (Join ("" :: pre ++ l) "/") "/" = true).
  { rewrite Join_slash_cons by done. apply (HasPrefix_app "/"). }
  rewrite Hs, Split_Join; [|done|].
  2: { apply Forall_cons. split; [apply not_elem_of_nil|]. apply Forall_app. split.
       - eapply Forall_impl; [exact Hpre|]. intros s ->. apply not_elem_of_nil.
       - eapply Forall_impl; [exact Hl|]. apply plain_no_slash. }
  change (foldl ?f [] ("" :: ?l)) with (foldl f (f [] "") l). change (clean_element true [] "") with (@nil string).
  assert (Hf : foldl (clean_element true) [] (pre ++ l) = foldl (clean_element true) [] l).
  { clear -Hpre. induction Hpre as [|x pre Hx Hpre IH]; [done|]. cbn [app foldl].
    by subst x. }
  by rewrite Hf, clean_plain, app_nil_r, reverse_involutive.
Qed.

(** What is clean stays as it is. *)
Lemma Clean_rooted_id l :
  Forall plain l -> l <> [] -> Clean ("/" +:+ Join l "/") = "/" +:+ Join l "/".
Proof.
  intros Hl Hne. rewrite <-(Clean_rooted [] l) at 2 by done. by rewrite Join_slash_cons.
Qed.

(** The examples of the Go documentation. *)
Example Clean_examples :
  Clean <$> ["a/c"; "a//c"; "a/c/."; "a/c/b/.."; "/../a/c"; "/../a/b/../././/c"; ""; ".."; "../../a"] =
  ["a/c"; "a/c"; "a/c"; "a/c"; "/a/c"; "/a/c"; "."; ".."; "../../a"].
Proof. by vm_compute. Qed.
Example PathJoin_examples :
  PathJoinElements <$> [["a"; "b"; "c"]; ["a"; "b/c"]; ["a/b"; "../../../xyz"]; [""; ""]; ["a"; ""]; [""; "a"]] =
  ["a/b/c"; "a/b/c"; "../xyz"; ""; "a"; "a"].
Proof. by vm_compute. Qed.
