(* ===== verification/SyncTargetUrls.v ===== *)
(** * The SyncTarget controller ([pkg/reconciler/workload/synctarget])

    It labels a SyncTarget with its key, and writes into its status the URLs of the
    virtual workspaces and of the tunnels on every shard, the root shard's first. *)

From S2P Require Import Prelude Platform Digest ApiTypes GoPath Committer Workqueue.

(** ** Libraries *)

(** [net/url]: a parsed URL, of which only the path is looked at. *)
Class UrlLib := {
  URL : Type;
  url_Parse : string -> result URL;
  url_String : URL -> string;
  url_Path : URL -> string;
  with_Path : URL -> string -> URL;
  url_JoinPath : string -> string -> result string;
  Path_with_Path u p : url_Path (with_Path u p) = p;
}.
(** [logicalcluster.Path]: [RequestPath], and [Name], which has a result only for a
    path that is the name of a cluster. *)
Class ClusterPathLib := {
  RequestPath : string -> string;
  PathName : string -> option string;
}.
(** [corev1alpha1.Shard] of kcp. *)
Record Shard := {
  sh_Name : string;
  VirtualWorkspaceURL : string;
  BaseURL : string;
}.
#[global] Instance Shard_eq_dec : EqDecision Shard.
Proof. solve_decision. Defined.
Definition RootShard : string := "root".
(** [virtualworkspacesoptions.DefaultRootPathPrefix] of kcp. *)
Definition DefaultRootPathPrefix : string := "/services".

(** ** [builder/build.go]: the names of the two virtual workspaces *)

Definition SyncerVirtualWorkspaceName : string := "syncer".
Definition UpsyncerVirtualWorkspaceName : string := "upsyncer".

(** ** [synctarget_reconcile.go] *)

(** The variables of the loop over the shards. *)
Record desired := {
  desiredVWURLs : gmap string VirtualWorkspace;
  desiredTunnelWorkspaceURLs : gmap string TunnelWorkspace;
  rootShardKey : string;
}.

Section reconcile.
Context {CL : ClusterLib} {CP : ClusterPathLib} {UL : UrlLib}.

Definition virtual_workspace_url (shardVWURL : URL) (workspace : string) (st : ObjectMeta) : string :=
  url_String (with_Path shardVWURL
    (PathJoinElements [url_Path shardVWURL; DefaultRootPathPrefix; workspace;
                       ClusterFrom st; Name st; UID st])).
Definition add_shard (syncTargetClusterName : string) (st : ObjectMeta) (d : desired) (workspaceShard : Shard) : result desired :=
  if decide (VirtualWorkspaceURL workspaceShard = "") then inr d
  else
    shardVWURL ← url_Parse (VirtualWorkspaceURL workspaceShard);
    let syncerURL := virtual_workspace_url shardVWURL SyncerVirtualWorkspaceName st in
    let upsyncerURL := virtual_workspace_url shardVWURL UpsyncerVirtualWorkspaceName st in
    let key := url_String shardVWURL in
    tunnelWorkspaceURL ← url_JoinPath (BaseURL workspaceShard) (RequestPath syncTargetClusterName);
    inr {|
      desiredVWURLs := <[ key := {| SyncerURL := syncerURL; UpsyncerURL := upsyncerURL |} ]>
                         (desiredVWURLs d);
      desiredTunnelWorkspaceURLs := <[ key := tunnelWorkspaceURL ]> (desiredTunnelWorkspaceURLs d);
      rootShardKey := if decide (sh_Name workspaceShard = RootShard) then key else rootShardKey d |}.
Fixpoint add_shards (syncTargetClusterName : string) (st : ObjectMeta) (workspaceShards : list Shard)
    (d : desired) : result desired :=
  match workspaceShards with
  | [] => inr d
  | s :: l => d ← add_shard syncTargetClusterName st d s; add_shards syncTargetClusterName st l d
  end.

(** The values, in the order of the keys; the root shard's first. *)
Definition values {A} (m : gmap string A) : list A := omap (fun k => m !! k) (set_list (dom m)).
Definition root_first {A} (root : string) (m : gmap string A) : list A :=
  match m !! root with
  | Some a => a :: values (delete root m)
  | None => values m
  end.

Definition with_key_label (st : ObjectMeta) : ObjectMeta :=
  with_labels st (Some (<[ InternalSyncTargetKeyLabel := ToSyncTargetKey (ClusterFrom st) (Name st) ]>
                          (entries (Labels st)))).
Definition with_urls (st : SyncTargetStatus) (vw : list VirtualWorkspace) (t : list TunnelWorkspace)
    : SyncTargetStatus := {|
  Allocatable := Allocatable st; Capacity := Capacity st; st_Conditions := st_Conditions st;
  SyncedResources := SyncedResources st; LastSyncerHeartbeatTime := LastSyncerHeartbeatTime st;
  VirtualWorkspaces := vw; TunnelWorkspaces := t |}.
Definition reconcile (syncTarget : SyncTarget) (workspaceShards : list Shard) : result SyncTarget :=
  let meta := with_key_label (st_Meta syncTarget) in
  d ← add_shards (ClusterFrom (st_Meta syncTarget)) meta workspaceShards
        {| desiredVWURLs := ∅; desiredTunnelWorkspaceURLs := ∅; rootShardKey := "" |};
  inr {| st_Meta := meta; st_Spec := st_Spec syncTarget;
         st_Status := with_urls (st_Status syncTarget) (root_first (rootShardKey d) (desiredVWURLs d))
                        (root_first (rootShardKey d) (desiredTunnelWorkspaceURLs d)) |}.
End reconcile.

(** ** [synctarget_controller.go] *)

Inductive target_call := PatchSyncTarget (cluster name patch : string) (subresources : list string).
Abbreviation CM := (M (event target_call)).

Record Controller := {
  GetByKey : string -> result (option SyncTarget);
  ListSyncTargets : list ObjectMeta;
  listWorkspaceShards : result (list Shard);
  Marshal : SyncTarget -> result string;
  CreateMergePatch : string -> string -> result string;
  Patch : list (event target_call) -> result unit;
}.

Section controller.
Context {CL : ClusterLib} {CP : ClusterPathLib} {UL : UrlLib} {EL : ErrorLib}.
Variable c : Controller.

Definition patch (st : SyncTarget) (patchBytes : string) (subresources : list string) : CM unit :=
  call (EvCall (PatchSyncTarget (ClusterFrom (st_Meta st)) (Name (st_Meta st)) patchBytes subresources))
    (Patch c).
(** [process]; [reflect.DeepEqual] is equality, up to nil and empty slices. The
    same patch is sent for the object and for its status. *)
Definition commit (currentSyncTarget newSyncTarget : SyncTarget) : CM unit :=
  if decide (currentSyncTarget = newSyncTarget) then mret tt
  else
    currentSyncTargetJSON ← read (Marshal c currentSyncTarget);
    newSyncTargetJSON ← read (Marshal c newSyncTarget);
    patchBytes ← read (CreateMergePatch c currentSyncTargetJSON newSyncTargetJSON);
    (if decide (st_Meta currentSyncTarget <> st_Meta newSyncTarget \/
                st_Spec currentSyncTarget <> st_Spec newSyncTarget)
     then patch currentSyncTarget patchBytes [] else mret tt);;
    (if decide (st_Status currentSyncTarget <> st_Status newSyncTarget)
     then patch currentSyncTarget patchBytes ["status"] else mret tt).
Definition process (key : string) : CM unit :=
  match GetByKey c key with
  | inl _ => mret tt
  | inr None => mret tt
  | inr (Some currentSyncTarget) =>
      workspacesShards ← read (listWorkspaceShards c);
      newSyncTarget ← read (reconcile currentSyncTarget workspacesShards);
      commit currentSyncTarget newSyncTarget
  end.
Definition processNextWorkItem (key : string) : CM unit :=
  Workqueue.processNextWorkItem (fun key => process key;; mret false) key.

Definition enqueueSyncTarget (obj : ObjectMeta) : CM unit := Workqueue.enqueue obj.
(** An error ends the loop. *)
Fixpoint enqueue_until_error (l : list ObjectMeta) : CM unit :=
  match l with
  | [] => mret tt
  | syncTarget :: l =>
      match MetaClusterNamespaceKeyFunc syncTarget with
      | inl err => emit (EvHandleError err)
      | inr key => emit (EvAdd key);; enqueue_until_error l
      end
  end.
Definition enqueueWorkspaceShard : CM unit := enqueue_until_error (ListSyncTargets c).
End controller.

(** * Theorems *)

(** ** The order of the URLs *)

Definition key_le {S} (key : S -> string) (a b : S) : Prop := string_le (key a) (key b).
#[global] Instance key_le_dec {S} (key : S -> string) : RelDecision (key_le key) :=
  fun a b => string_le_dec (key a) (key b).
Definition sort_by {S} (key : S -> string) (l : list S) : list S := merge_sort (key_le key) l.

Section sorting.
Context {S A : Type} (key : S -> string) (f : S -> A).

Lemma sort_by_perm l : sort_by key l ≡ₚ l.
Proof. apply merge_sort_Permutation. Qed.
Lemma sort_by_sorted l : Sorted string_le (key <$> sort_by key l).
Proof.
  assert (H : Sorted (key_le key) (sort_by key l)).
  { apply Sorted_merge_sort. intros a b. apply string_le_total. }
  induction H as [|a l' _ IH Hd]; [constructor|]. cbn. constructor; [done|].
  destruct Hd; constructor; done.
Qed.
Lemma NoDup_key_inj l a b : NoDup (key <$> l) -> a ∈ l -> b ∈ l -> key a = key b -> a = b.
Proof.
  induction l as [|x l IH]; [by intros ? ?%elem_of_nil|]. cbn. intros [Hx Hl]%NoDup_cons.
  intros [->|Ha]%elem_of_cons [->|Hb]%elem_of_cons He; [done| | |by apply IH].
  - exfalso. apply Hx. rewrite He. by apply list_elem_of_fmap_2.
  - exfalso. apply Hx. rewrite <-He. by apply list_elem_of_fmap_2.
Qed.

(** The map holds the values of the list's elements, by their keys. *)
Definition holds (m : gmap string A) (l : list S) : Prop :=
  forall k v, m !! k = Some v <-> exists s, s ∈ l /\ key s = k /\ f s = v.

Lemma values_sorted m l :
  holds m l -> NoDup (key <$> l) -> values m = f <$> sort_by key l.
Proof.
  intros Hm Hnd. unfold values.
  assert (Hk : set_list (dom m) = key <$> sort_by key l).
  { apply (Sorted_unique string_le); [|apply sort_by_sorted|].
    - apply Sorted_merge_sort, _.
    - apply NoDup_Permutation.
      + apply NoDup_set_list.
      + by rewrite sort_by_perm.
      + intros k. rewrite elem_of_set_list, elem_of_dom, sort_by_perm, list_elem_of_fmap. split.
        * intros [v (s & Hs & Hk & _)%Hm]. by exists s.
        * intros (s & -> & Hs). exists (f s). apply Hm. by exists s. }
  rewrite Hk. assert (Hl : forall s, s ∈ sort_by key l -> m !! key s = Some (f s)).
  { intros s Hs. rewrite sort_by_perm in Hs. apply Hm. by exists s. }
  revert Hl. generalize (sort_by key l). intros l'. induction l' as [|s l' IH]; intros Hl; [done|].
  cbn. rewrite Hl by apply list_elem_of_here. f_equal. apply IH. intros. apply Hl. by apply list_elem_of_further.
Qed.
Lemma root_first_sorted root m l :
  holds m l -> NoDup (key <$> l) ->
  root_first root m =
    f <$> (filter (fun s => key s = root) l ++ sort_by key (filter (fun s => key s <> root) l)).
Proof.
  intros Hm Hnd. unfold root_first. destruct (m !! root) as [a|] eqn:E.
  - destruct (proj1 (Hm _ _) E) as (r & Hr & Hk & Ha).
    assert (Hf : filter (fun s => key s = root) l = [r]).
    { apply Permutation_singleton_r. symmetry. apply NoDup_Permutation.
      - apply NoDup_singleton.
      - apply NoDup_filter. by apply NoDup_fmap_1 in Hnd.
      - intros s. rewrite list_elem_of_singleton, list_elem_of_filter. split; [by intros ->|].
        intros [Hs Hin]. apply (NoDup_key_inj l); [done..|congruence]. }
    rewrite Hf. cbn. rewrite Ha. f_equal. apply values_sorted.
    + intros k v. rewrite lookup_delete_Some, (Hm k v). split.
      * intros [Hne (s & Hs & Hks & Hv)]. exists s. split; [|done].
        apply list_elem_of_filter. split; [congruence|done].
      * intros (s & Hin & Hks & Hv). apply list_elem_of_filter in Hin as [Hne Hin].
        split; [congruence|]. by exists s.
    + eapply sublist_NoDup; [exact Hnd|]. apply fmap_sublist, sublist_filter.
  - assert (Hf : forall s, s ∈ l -> key s <> root).
    { intros s Hs Hk. assert (H : m !! root = Some (f s)) by (apply Hm; by exists s). congruence. }
    assert (Hall : filter (fun s => key s <> root) l = l /\ filter (fun s => key s = root) l = []).
    { clear -Hf. induction l as [|s l IH]; [done|]. specialize (Hf s) as Hs. rewrite !filter_cons.
      rewrite decide_True by (apply Hs, list_elem_of_here). rewrite decide_False by (apply Hs, list_elem_of_here).
      destruct IH as [-> ->]; [|done]. intros. apply Hf. by apply list_elem_of_further. }
    destruct Hall as [-> ->]. by apply values_sorted.
Qed.
End sorting.

(** ** The status that is written *)

Section reconcile_theorems.
Context {CL : ClusterLib} {CP : ClusterPathLib} {UL : UrlLib}.

(** The shards that have virtual workspaces; the key, and the URLs, of one. *)
Definition serving (shards : list Shard) : list Shard := filter (fun s => VirtualWorkspaceURL s <> "") shards.
Definition shard_key (s : Shard) : string :=
  match url_Parse (VirtualWorkspaceURL s) with inr u => url_String u | inl _ => "" end.
Definition shard_workspaces (st : ObjectMeta) (s : Shard) : VirtualWorkspace :=
  match url_Parse (VirtualWorkspaceURL s) with
  | inr u => {| SyncerURL := virtual_workspace_url u SyncerVirtualWorkspaceName st;
                UpsyncerURL := virtual_workspace_url u UpsyncerVirtualWorkspaceName st |}
  | inl _ => {| SyncerURL := ""; UpsyncerURL := "" |}
  end.
Definition shard_tunnel (cluster : string) (s : Shard) : TunnelWorkspace :=
  match url_JoinPath (BaseURL s) (RequestPath cluster) with inr u => u | inl _ => "" end.

Lemma add_shard_serving cl st d s d' :
  VirtualWorkspaceURL s <> "" -> add_shard cl st d s = inr d' ->
  d' = {| desiredVWURLs := <[ shard_key s := shard_workspaces st s ]> (desiredVWURLs d);
          desiredTunnelWorkspaceURLs := <[ shard_key s := shard_tunnel cl s ]> (desiredTunnelWorkspaceURLs d);
          rootShardKey := if decide (sh_Name s = RootShard) then shard_key s else rootShardKey d |}.
Proof.
  intros Hs. unfold add_shard. rewrite decide_False by done. unfold shard_key, shard_workspaces, shard_tunnel.
  destruct (url_Parse (VirtualWorkspaceURL s)) as [|u]; [done|]. cbn.
  destruct (url_JoinPath (BaseURL s) (RequestPath cl)) as [|t]; [done|]. cbn. by intros [= <-].
Qed.
Lemma holds_insert {S A} (key : S -> string) (f : S -> A) m l s :
  holds key f m l -> key s ∉ key <$> l -> holds key f (<[ key s := f s ]> m) (s :: l).
Proof.
  intros Hm Hs k v. rewrite lookup_insert_Some, (Hm k v). split.
  - intros [[<- <-]|[Hne (s' & Hin & Hk)]].
    + exists s. split; [apply list_elem_of_here|done].
    + exists s'. split; [by apply list_elem_of_further|done].
  - intros (s' & [->|Hin]%elem_of_cons & <- & <-); [by left|right]. split; [|by exists s'].
    intros Hk. apply Hs. rewrite Hk. by apply list_elem_of_fmap_2.
Qed.
Lemma add_shards_spec cl st l : forall done_l d d',
  add_shards cl st l d = inr d' -> NoDup (shard_key <$> serving l ++ done_l) ->
  holds shard_key (shard_workspaces st) (desiredVWURLs d) done_l ->
  holds shard_key (shard_tunnel cl) (desiredTunnelWorkspaceURLs d) done_l ->
  exists l', l' ≡ₚ serving l ++ done_l /\
    holds shard_key (shard_workspaces st) (desiredVWURLs d') l' /\
    holds shard_key (shard_tunnel cl) (desiredTunnelWorkspaceURLs d') l' /\
    (rootShardKey d' = rootShardKey d /\ Forall (fun s => sh_Name s <> RootShard) (serving l) \/
     exists s, s ∈ serving l /\ sh_Name s = RootShard /\ rootShardKey d' = shard_key s).
Proof.
  induction l as [|s l IH]; intros done_l d d' Hd Hnd Hw Ht.
  { injection Hd as <-. exists done_l. split_and!; try done. left. split; [done|constructor]. }
  cbn [add_shards] in Hd. destruct (add_shard cl st d s) as [|d1] eqn:E; [done|]. cbn in Hd.
  unfold serving in *. rewrite filter_cons in *. destruct (decide (VirtualWorkspaceURL s <> "")) as [Hs|Hs].
  - apply add_shard_serving in E; [|done].
    assert (Hp : s :: filter (fun s => VirtualWorkspaceURL s <> "") l ++ done_l ≡ₚ
                 filter (fun s => VirtualWorkspaceURL s <> "") l ++ s :: done_l).
    { apply Permutation_middle. }
    cbn [app] in Hnd. rewrite Hp in Hnd.
    assert (Hk : shard_key s ∉ shard_key <$> done_l).
    { rewrite fmap_app in Hnd. cbn in Hnd. apply NoDup_app in Hnd as (_ & _ & Hnd).
      by apply NoDup_cons in Hnd as [? _]. }
    destruct (IH (s :: done_l) d1 d' Hd Hnd) as (l' & Hl & Hw' & Ht' & Hr).
    { subst d1. by apply holds_insert. }
    { subst d1. by apply holds_insert. }
    exists l'. split; [by rewrite Hl, <-Hp|]. split; [done|]. split; [done|].
    destruct Hr as [[Hr Hno]|(r & Hin & Hn & Hr)].
    + rewrite Hr, E. cbn [rootShardKey]. destruct (decide (sh_Name s = RootShard)) as [Hroot|Hroot].
      * right. exists s. split; [apply list_elem_of_here|done].
      * left. split; [done|]. by constructor.
    + right. exists r. split; [by apply list_elem_of_further|done].
  - assert (E' : d1 = d).
    { apply dec_stable in Hs. unfold add_shard in E. rewrite decide_True in E by done. by injection E. }
    rewrite E' in Hd. by apply (IH done_l d d').
Qed.

(** The URLs in the status are those of the shards that have virtual workspaces,
    of all of them and no others, with their tunnels at the same positions: the root
    shard first, the others by the text of their URL, in whatever order the shards
    were listed. The label that the rest of the system looks for is the key of the
    SyncTarget, and nothing else is changed. *)
Theorem urls_in_order syncTarget shards st' :
  reconcile syncTarget shards = inr st' ->
  NoDup (shard_key <$> serving shards) -> NoDup (sh_Name <$> serving shards) ->
  let cl := ClusterFrom (st_Meta syncTarget) in
  exists root others, root ++ others ≡ₚ serving shards /\
    Forall (fun s => sh_Name s = RootShard) root /\ Forall (fun s => sh_Name s <> RootShard) others /\
    Sorted string_le (shard_key <$> others) /\
    VirtualWorkspaces (st_Status st') = shard_workspaces (st_Meta st') <$> root ++ others /\
    TunnelWorkspaces (st_Status st') = shard_tunnel cl <$> root ++ others /\
    map_get (Labels (st_Meta st')) InternalSyncTargetKeyLabel =
      Some (ToSyncTargetKey cl (Name (st_Meta syncTarget))) /\
    (forall k, k <> InternalSyncTargetKeyLabel ->
       map_get (Labels (st_Meta st')) k = map_get (Labels (st_Meta syncTarget)) k) /\
    st_Spec st' = st_Spec syncTarget.
Proof.
  intros Hrec Hnd Hnames cl. unfold reconcile in Hrec. fold cl in Hrec.
  destruct (add_shards cl (with_key_label (st_Meta syncTarget)) shards
    {| desiredVWURLs := ∅; desiredTunnelWorkspaceURLs := ∅; rootShardKey := "" |}) as [|d] eqn:Hd; [done|].
  cbn in Hrec. injection Hrec as <-. cbn [st_Meta st_Status st_Spec with_urls VirtualWorkspaces TunnelWorkspaces].
  destruct (add_shards_spec cl (with_key_label (st_Meta syncTarget)) shards [] _ d Hd) as (l & Hl & Hw & Ht & Hr).
  { by rewrite app_nil_r. }
  { intros k v. cbn. rewrite lookup_empty. split; [done|]. by intros (s & ?%elem_of_nil & _). }
  { intros k v. cbn. rewrite lookup_empty. split; [done|]. by intros (s & ?%elem_of_nil & _). }
  rewrite app_nil_r in Hl. assert (Hndl : NoDup (shard_key <$> l)) by (by rewrite Hl).
  rewrite (root_first_sorted _ _ _ _ _ Hw Hndl), (root_first_sorted _ _ _ _ _ Ht Hndl).
  set (first := filter (fun s => shard_key s = rootShardKey d) l).
  set (rest := sort_by shard_key (filter (fun s => shard_key s <> rootShardKey d) l)).
  assert (Hall : first ++ rest ≡ₚ serving shards).
  { rewrite <-Hl. unfold first, rest. rewrite sort_by_perm. apply filter_app_complement. }
  assert (Hlab : map_get (Labels (with_key_label (st_Meta syncTarget))) InternalSyncTargetKeyLabel =
      Some (ToSyncTargetKey cl (Name (st_Meta syncTarget))) /\
    (forall k, k <> InternalSyncTargetKeyLabel ->
       map_get (Labels (with_key_label (st_Meta syncTarget))) k = map_get (Labels (st_Meta syncTarget)) k)).
  { unfold map_get, with_key_label. cbn. split; [apply lookup_insert_eq|].
    intros k Hk. by rewrite lookup_insert_ne. }
  destruct Hr as [[Hr Hno]|(r & Hin & Hn & Hr)].
  - (* no root shard: only the empty text can come first *)
    cbn in Hr. exists [], (first ++ rest). split; [done|]. split; [done|]. split.
    { by rewrite Hall. }
    split; [|by destruct Hlab].
    assert (Hf : Forall (fun s => shard_key s = "") first).
    { apply Forall_forall. intros s [Hs _]%list_elem_of_filter. by rewrite Hs, Hr. }
    rewrite fmap_app. clear -Hf. induction Hf as [|s f Hs Hf IH]; [apply sort_by_sorted|].
    cbn [fmap list_fmap app]. constructor; [done|]. rewrite Hs. destruct Hf as [|s' f Hs' Hf]; cbn [fmap list_fmap app].
    + destruct (shard_key <$> rest) as [|[] ?]; cbn; by constructor.
    + constructor. by rewrite Hs'.
  - assert (Hfirst : forall s, s ∈ l -> shard_key s = rootShardKey d -> s = r).
    { intros s Hs He. rewrite Hr in He. apply (NoDup_key_inj shard_key l); [done|done| |done]. by rewrite Hl. }
    exists first, rest. split; [done|]. split; [|split; [|split; [apply sort_by_sorted|by destruct Hlab]]].
    + apply Forall_forall. intros s [He Hs]%list_elem_of_filter. by rewrite (Hfirst s).
    + unfold rest. rewrite sort_by_perm. apply Forall_forall. intros s [He Hs]%list_elem_of_filter Hroot.
      apply He. rewrite Hr. f_equal. rewrite Hl in Hs.
      apply (NoDup_key_inj sh_Name (serving shards)); [done..|congruence].
Qed.
End reconcile_theorems.

(** ** The controller *)

Section controller_theorems.
Context {CL : ClusterLib} {CP : ClusterPathLib} {UL : UrlLib} {EL : ErrorLib}.
Variable c : Controller.
(** The logical cluster of an object is an annotation. *)
Hypothesis ClusterFrom_annotations :
  forall o o', Annotations o = Annotations o' -> ClusterFrom o = ClusterFrom o'.

Lemma with_key_label_twice o : with_key_label (with_key_label o) = with_key_label o.
Proof.
  unfold with_key_label at 1. rewrite (ClusterFrom_annotations (with_key_label o) o) by done.
  unfold with_key_label, with_labels. cbn. by rewrite insert_insert_eq.
Qed.
Lemma reconcile_twice st shards st' : reconcile st shards = inr st' -> reconcile st' shards = inr st'.
Proof.
  unfold reconcile. intros H.
  destruct (add_shards _ _ _ _) as [|d] eqn:Hd; [done|]. cbn in H. injection H as <-. cbn [st_Meta].
  rewrite with_key_label_twice, (ClusterFrom_annotations (with_key_label _) (st_Meta st)) by done.
  by rewrite Hd.
Qed.

(** Once the controller's patch is in the cache the controller is at rest: a
    pass over the SyncTarget as it left it calls nothing, and the key is dropped. *)
Theorem controller_settles key st shards st' h :
  listWorkspaceShards c = inr shards -> reconcile st shards = inr st' -> GetByKey c key = inr (Some st') ->
  processNextWorkItem c key h = (h ++ [EvForget key; EvDone key], Ok tt).
Proof.
  intros Hs Hr Hk. unfold processNextWorkItem. rewrite processNextWorkItem_run.
  unfold process. rewrite Hk, Hs. run_M. rewrite (reconcile_twice st shards st' Hr). cbn.
  unfold commit. by rewrite decide_True.
Qed.
End controller_theorems.

(** * Examples *)

Module Examples.
#[local] Existing Instances simple_clusters simple_errors.
(** URLs [host/path]; the first slash begins the path. *)
#[local] Program Instance simple_urls : UrlLib := {|
  URL := string * string;
  url_Parse s := inr (match Cut s "/" with Some (h, p) => (h, "/" +:+ p) | None => (s, "") end);
  url_String u := u.1 +:+ u.2; url_Path := snd; with_Path u p := (u.1, p);
  url_JoinPath base e := inr (base +:+ e) |}.
Next Obligation. done. Qed.
#[local] Instance simple_paths : ClusterPathLib := {|
  RequestPath p := "/clusters/" +:+ p; PathName p := Some p |}.

Definition target : SyncTarget := {|
  st_Meta := SetUIDVersion (mk_meta "test-cluster" "" None (Some {[ "kcp.io/cluster" := "ws" ]}) []) "uid" "1";
  st_Spec := {| Unschedulable := false; EvictAfter := None; SupportedAPIExports := []; Cells := None |};
  st_Status := {| Allocatable := None; Capacity := None; st_Conditions := []; SyncedResources := [];
    LastSyncerHeartbeatTime := None; VirtualWorkspaces := []; TunnelWorkspaces := [] |} |}.
Definition shard (name vw base : string) : Shard := {|
  sh_Name := name; VirtualWorkspaceURL := vw; BaseURL := base |}.
Definition shards : list Shard :=
  [shard "b" "host3/" "base3"; shard "a" "host2/" "base2"; shard "none" "" "base4"; shard "root" "host9/" "base9"].
Definition reconciled : SyncTarget := match reconcile target shards with inr st => st | inl _ => target end.
Lemma reconciled_ok : reconcile target shards = inr reconciled.
Proof. by vm_compute. Qed.

Example written :
  SyncerURL <$> VirtualWorkspaces (st_Status reconciled) =
    ["host9/services/syncer/ws/test-cluster/uid"; "host2/services/syncer/ws/test-cluster/uid";
     "host3/services/syncer/ws/test-cluster/uid"] /\
  TunnelWorkspaces (st_Status reconciled) = ["base9/clusters/ws"; "base2/clusters/ws"; "base3/clusters/ws"].
Proof. by vm_compute. Qed.

Lemma urls_in_order_witness : exists root others, root ++ others ≡ₚ serving shards /\
    Forall (fun s => sh_Name s = RootShard) root /\ Forall (fun s => sh_Name s <> RootShard) others /\
    Sorted string_le (shard_key <$> others) /\
    VirtualWorkspaces (st_Status reconciled) = shard_workspaces (st_Meta reconciled) <$> root ++ others /\
    TunnelWorkspaces (st_Status reconciled) = shard_tunnel "ws" <$> root ++ others /\
    map_get (Labels (st_Meta reconciled)) InternalSyncTargetKeyLabel =
      Some (ToSyncTargetKey "ws" "test-cluster") /\
    (forall k, k <> InternalSyncTargetKeyLabel ->
       map_get (Labels (st_Meta reconciled)) k = map_get (Labels (st_Meta target)) k) /\
    st_Spec reconciled = st_Spec target.
Proof.
  apply (urls_in_order target shards reconciled reconciled_ok).
  - apply (bool_decide_unpack _). by vm_compute.
  - apply (bool_decide_unpack _). by vm_compute.
Defined.

Definition config : Controller := {|
  GetByKey _ := inr (Some reconciled); ListSyncTargets := []; listWorkspaceShards := inr shards;
  Marshal _ := inr "{}"; CreateMergePatch _ _ := inr "patch"; Patch _ := inr tt |}.
Lemma controller_settles_witness :
  processNextWorkItem config "ws|test-cluster" [] =
    ([EvForget "ws|test-cluster"; EvDone "ws|test-cluster"], Ok tt).
Proof.
  apply (controller_settles config) with (st := target) (shards := shards) (st' := reconciled).
  - intros o o' H. simpl. by rewrite H.
  - reflexivity.
  - exact reconciled_ok.
  - reflexivity.
Defined.
End Examples.
