(* ===== verification/VirtualServer.v ===== *)
(** * The virtual workspace server ([tmc/virtual/syncer/builder])

    The two virtual workspaces of a SyncTarget, what each of them serves, and how
    the path of a request leads to the SyncTarget: the other end of the URLs that
    [SyncTargetUrls] writes. *)

From S2P Require Import Prelude Platform Digest ApiTypes GoPath Committer Workqueue SyncTargetUrls.

(** [dynamiccontext.APIDomainKey] of a SyncTarget: [kcpcache.ToClusterAwareKey]. *)
Class ClusterKeyLib := { ToClusterAwareKey : string -> string -> string -> string }.

(** ** [build.go] and [forwarding.go] *)

(** The verbs of the REST storage that are exposed. *)
Inductive verb := Get | List | Create | Update | Watch | Delete.
#[global] Instance verb_eq_dec : EqDecision verb.
Proof. solve_decision. Defined.
Record RestStorage := { main_verbs : list verb; subresource_verbs : gmap string (list verb) }.
Definition status_storage (statusEnabled : bool) : gmap string (list verb) :=
  if statusEnabled then {[ "status" := [Get; Update] ]} else ∅.
Definition NewSyncerRestProvider (statusEnabled : bool) : RestStorage := {|
  main_verbs := [Get; List; Update; Watch]; subresource_verbs := status_storage statusEnabled |}.
Definition NewUpSyncerRestProvider (statusEnabled : bool) : RestStorage := {|
  main_verbs := [Get; List; Create; Update; Watch; Delete];
  subresource_verbs := status_storage statusEnabled |}.

Inductive ResourceTransformer := SyncerResourceTransformer | UpsyncerResourceTransformer.
Inductive StorageWrapper := WithStaticLabelSelector | WithStaticLabelSelectorAndInWriteCallsCheck.
Record templateParameters := {
  virtualWorkspaceName : string;
  filteredResourceState : ResourceState;
  restProviderBuilder : bool -> RestStorage;
  allowedAPIFilter : GroupResource -> bool;
  transformer : ResourceTransformer;
  storageWrapperBuilder : StorageWrapper;
}.
Record template := { rootPathPrefix : string; parameters : templateParameters }.
Definition newTemplate (rootPathPrefix : string) (parameters : templateParameters) : template :=
  {| rootPathPrefix := rootPathPrefix; parameters := parameters |}.

Definition syncer_filter (gr : GroupResource) : bool :=
  negb (bool_decide (gr_Group gr = "") && bool_decide (gr_Resource gr = "pods")).
Definition upsyncer_filter (gr : GroupResource) : bool :=
  bool_decide (gr_Group gr = "") &&
  (bool_decide (gr_Resource gr = "persistentvolumes") || bool_decide (gr_Resource gr = "pods") ||
   bool_decide (gr_Resource gr = "endpoints")).
Definition syncer_parameters : templateParameters := {|
  virtualWorkspaceName := SyncerVirtualWorkspaceName;
  filteredResourceState := ResourceStateSync;
  restProviderBuilder := NewSyncerRestProvider;
  allowedAPIFilter := syncer_filter;
  transformer := SyncerResourceTransformer;
  storageWrapperBuilder := WithStaticLabelSelector |}.
Definition upsyncer_parameters : templateParameters := {|
  virtualWorkspaceName := UpsyncerVirtualWorkspaceName;
  filteredResourceState := ResourceStateUpsync;
  restProviderBuilder := NewUpSyncerRestProvider;
  allowedAPIFilter := upsyncer_filter;
  transformer := UpsyncerResourceTransformer;
  storageWrapperBuilder := WithStaticLabelSelectorAndInWriteCallsCheck |}.
Definition BuildVirtualWorkspace (rootPathPrefix : string) : list (string * template) :=
  let rootPathPrefix :=
    if HasSuffix rootPathPrefix "/" then rootPathPrefix else rootPathPrefix +:+ "/" in
  [(SyncerVirtualWorkspaceName, newTemplate rootPathPrefix syncer_parameters);
   (UpsyncerVirtualWorkspaceName, newTemplate rootPathPrefix upsyncer_parameters)].

(** ** [template.go] *)

(** [genericapirequest.Cluster]: one logical cluster, or all of them. *)
Inductive request_cluster := Wildcard | OneCluster (name : string).
(** What the context of an accepted request carries, and the prefix to strip. *)
Record resolved := {
  r_Cluster : request_cluster;
  r_SyncTargetKey : string;
  r_APIDomainKey : string;
  prefixToStrip : string;
}.

Section template.
Context {CL : ClusterLib} {CP : ClusterPathLib} {CK : ClusterKeyLib}.
(** The SyncTargets by cluster and name; and whether [readyCh] is closed. *)
Variable syncTargetLister : string -> string -> result SyncTarget.
Variable ready : bool.

(** The cluster of the request, and what is behind it. *)
Definition split_clusters (realPath : string) : option (request_cluster * string) :=
  if HasPrefix realPath "/clusters/" then
    let parts := SplitN (TrimPrefix realPath "/clusters/") "/" 2 in
    let reqPath := default "" (parts !! 0%nat) in
    let realPath := "/" +:+ default "" (parts !! 1%nat) in
    if decide (reqPath = "*") then Some (Wildcard, realPath)
    else match PathName reqPath with
         | None => None
         | Some reqClusterName => Some (OneCluster reqClusterName, realPath)
         end
  else None.
(** [resolveRootPath]: the errors that are handled, and the result if accepted. *)
Definition resolveRootPath (t : template) (urlPath : string) : list error * option resolved :=
  if negb ready then ([], None)
  else
    let rootPathPrefix := rootPathPrefix t +:+ virtualWorkspaceName (parameters t) +:+ "/" in
    if negb (HasPrefix urlPath rootPathPrefix) then ([], None)
    else
      let parts := SplitN (TrimPrefix urlPath rootPathPrefix) "/" 4 in
      match parts with
      | path :: syncTargetName :: syncTargetUID :: more =>
          if decide (path = "" \/ syncTargetName = "" \/ syncTargetUID = "") then ([], None)
          else
            match PathName path with
            | None => ([], None)
            | Some clusterName =>
                match syncTargetLister clusterName syncTargetName with
                | inl err => ([ErrWrap "failed to get synctarget" err], None)
                | inr syncTarget =>
                    if decide (UID (st_Meta syncTarget) <> syncTargetUID) then
                      ([ErrMsg "sync target UID mismatch"], None)
                    else
                      match split_clusters ("/" +:+ default "" (more !! 0%nat)) with
                      | None => ([], None)
                      | Some (cluster, realPath) =>
                          ([], Some {|
                             r_Cluster := cluster;
                             r_SyncTargetKey := ToSyncTargetKey clusterName syncTargetName;
                             r_APIDomainKey := ToClusterAwareKey clusterName "" syncTargetName;
                             prefixToStrip := TrimSuffix urlPath realPath |})
                      end
                end
            end
      | _ => ([], None)
      end.
Definition template_ready : result unit :=
  if ready then inr tt else inl (ErrMsg "syncer virtual workspace controllers are not started").

(** [authorize]: the user must be allowed to [sync] the SyncTarget of the request,
    in the SyncTarget's own cluster. Without an answer there is no opinion. *)
Record AttributesRecord := {
  a_User : string; a_Verb : string; a_Name : string; a_APIGroup : string; a_APIVersion : string;
  a_Resource : string; a_ResourceRequest : bool;
}.
Inductive Decision := DecisionDeny | DecisionAllow | DecisionNoOpinion.
Variable NewDelegatedAuthorizer :
  string -> result (AttributesRecord -> Decision * string * option error).
Definition authorize (syncTargetKey user : string) : Decision * string * option error :=
  match SplitMetaClusterNamespaceKey syncTargetKey with
  | inl err => (DecisionNoOpinion, "", Some err)
  | inr (negotiationWorkspaceName, _, syncTargetName) =>
      match NewDelegatedAuthorizer negotiationWorkspaceName with
      | inl err => (DecisionNoOpinion, "Error", Some err)
      | inr authz => authz {|
          a_User := user; a_Verb := "sync"; a_Name := syncTargetName;
          a_APIGroup := "workload.kcp.io"; a_APIVersion := "v1alpha1";
          a_Resource := "synctargets"; a_ResourceRequest := true |}
      end
  end.
End template.

(** * Theorems *)

Section template_theorems.
Context {CL : ClusterLib} {CP : ClusterPathLib} {CK : ClusterKeyLib} {UL : UrlLib}.
Variable syncTargetLister : string -> string -> result SyncTarget.
Variable ready : bool.

(** The path of a SyncTarget in a virtual workspace. *)
Definition target_path (t : template) (path name uid : string) : string :=
  (rootPathPrefix t +:+ virtualWorkspaceName (parameters t) +:+ "/") +:+
  path +:+ "/" +:+ name +:+ "/" +:+ uid.

Lemma split_clusters_Some realPath cluster rest :
  split_clusters realPath = Some (cluster, rest) ->
  exists req, match cluster with Wildcard => req = "*" | OneCluster n => PathName req = Some n end /\
    (realPath = "/clusters/" +:+ req /\ rest = "/" \/
     exists r, realPath = "/clusters/" +:+ req +:+ "/" +:+ r /\ rest = "/" +:+ r).
Proof.
  unfold split_clusters. destruct (HasPrefix realPath "/clusters/") eqn:Hp; [|done].
  apply HasPrefix_spec in Hp as [s ->]. rewrite TrimPrefix_app.
  pose proof (Join_SplitN s "/" 1) as Hj. pose proof (SplitN_length s "/" 2) as Hl.
  set (parts := SplitN s "/" 2) in *. cbv zeta. intros Hc.
  remember (default "" (parts !! 0)) as req eqn:Ereq.
  remember ("/" +:+ default "" (parts !! 1)) as more eqn:Emore.
  assert (Hr : more = "/" /\ s = req \/ exists r, more = "/" +:+ r /\ s = req +:+ "/" +:+ r).
  { rewrite Ereq, Emore, <-Hj. clearbody parts. clear Hj Ereq Emore Hc. destruct parts as [|a [|b [|]]]; [by left|by left|right; by exists b|simpl in Hl; lia]. }
  clear Ereq Emore. exists req.
  destruct (decide (req = "*")) as [Hw|]; [|destruct (PathName req) as [nm|] eqn:E; [|done]].
  all: injection Hc as <- <-; split; [done|].
  all: destruct Hr as [[-> ->]|(r & -> & ->)]; [by left|right; by exists r].
Qed.

Lemma accepted_path t urlPath errs r :
  resolveRootPath syncTargetLister ready t urlPath = (errs, Some r) ->
  exists path clusterName name st req,
    PathName path = Some clusterName /\ syncTargetLister clusterName name = inr st /\
    r_SyncTargetKey r = ToSyncTargetKey clusterName name /\
    r_APIDomainKey r = ToClusterAwareKey clusterName "" name /\
    match r_Cluster r with Wildcard => req = "*" | OneCluster n => PathName req = Some n end /\
    let base := target_path t path name (UID (st_Meta st)) +:+ "/clusters/" +:+ req in
    (urlPath = base \/ exists rest, urlPath = base +:+ "/" +:+ rest /\ prefixToStrip r = base).
Proof.
  unfold resolveRootPath. destruct ready; [|done]. cbn [negb].
  set (prefix := rootPathPrefix t +:+ virtualWorkspaceName (parameters t) +:+ "/").
  destruct (HasPrefix urlPath prefix) eqn:Hp; [|done]. cbn [negb].
  apply HasPrefix_spec in Hp as [s ->]. rewrite TrimPrefix_app.
  pose proof (Join_SplitN s "/" 3) as Hj. pose proof (SplitN_length s "/" 4) as Hl.
  destruct (SplitN s "/" 4) as [|path [|name [|uid more]]]; try done.
  destruct (decide _) as [|Hne]; [done|]. destruct (PathName path) as [cl|] eqn:Hcl; [|done].
  destruct (syncTargetLister cl name) as [|st] eqn:Hst; [done|].
  destruct (decide (UID (st_Meta st) <> uid)) as [|Huid]; [done|]. apply dec_stable in Huid.
  destruct (split_clusters _) as [[cluster rest]|] eqn:Hc; [|done]. intros [= <- <-].
  cbn [r_SyncTargetKey r_APIDomainKey r_Cluster prefixToStrip].
  apply split_clusters_Some in Hc as (req & Hreq & Hc).
  exists path, cl, name, st, req. split; [done|]. split; [done|]. split; [done|]. split; [done|]. split; [done|].
  cbv zeta. unfold target_path. fold prefix. rewrite Huid.
  destruct more as [|m [|]]; [|simpl in Hj|simpl in Hl; lia].
  { exfalso. destruct Hc as [[Hc _]|(x & Hc & _)]; discriminate Hc. }
  change (default "" ([m] !! 0%nat)) with m in Hc.
  assert (Hs : prefix +:+ s = prefix +:+ path +:+ "/" +:+ name +:+ "/" +:+ uid +:+ ("/" +:+ m)).
  { by rewrite <-Hj. }
  rewrite Hs. destruct Hc as [[Hm ->]|(x & Hm & ->)].
  - left. rewrite Hm. by rewrite !string_app_assoc.
  - right. exists x. rewrite Hm. assert (E : prefix +:+ path +:+ "/" +:+ name +:+ "/" +:+ uid +:+ "/clusters/" +:+ req +:+ "/" +:+ x =
      ((prefix +:+ path +:+ "/" +:+ name +:+ "/" +:+ uid) +:+ "/clusters/" +:+ req) +:+ "/" +:+ x).
    { by rewrite !string_app_assoc. }
    rewrite E. split; [done|]. apply TrimSuffix_app.
Qed.

(** C17: a request is accepted only under the path of a SyncTarget that exists, with
    the UID that it has now: a syncer whose SyncTarget was deleted, or replaced by
    another of the same name, is refused. The keys in the context are those of
    that SyncTarget, and what is stripped is its path and the requested cluster. *)
Theorem accepted_requests t urlPath errs r :
  resolveRootPath syncTargetLister ready t urlPath = (errs, Some r) ->
  exists path clusterName name st req,
    PathName path = Some clusterName /\ syncTargetLister clusterName name = inr st /\
    r_SyncTargetKey r = ToSyncTargetKey clusterName name /\
    r_APIDomainKey r = ToClusterAwareKey clusterName "" name /\
    match r_Cluster r with Wildcard => req = "*" | OneCluster n => PathName req = Some n end /\
    let base := target_path t path name (UID (st_Meta st)) +:+ "/clusters/" +:+ req in
    (urlPath = base \/ exists rest, urlPath = base +:+ "/" +:+ rest /\ prefixToStrip r = base).
Proof. apply accepted_path. Qed.

(** ** The two ends of a URL *)

Lemma workspace_path shardPath ws cl name uid :
  shardPath = "" \/ shardPath = "/" -> plain ws -> plain cl -> plain name -> plain uid ->
  PathJoinElements [shardPath; DefaultRootPathPrefix; ws; cl; name; uid] =
    ("/services/" +:+ ws +:+ "/") +:+ cl +:+ "/" +:+ name +:+ "/" +:+ uid.
Proof.
  intros Hp Hw Hc Hn Hu. set (l := ["services"; ws; cl; name; uid]).
  assert (Hl : Forall plain l).
  { constructor; [apply (bool_decide_unpack _); by vm_compute|]. by repeat (constructor; [done|]). }
  transitivity ("/" +:+ Join l "/"); [|unfold l; cbn [Join]; by rewrite !string_app_assoc].
  destruct Hp as [-> | ->].
  - transitivity (Clean (Join ("" :: [] ++ l) "/")); [reflexivity|]. by apply Clean_rooted.
  - transitivity (Clean (Join ("" :: [""; ""] ++ l) "/")); [reflexivity|].
    apply Clean_rooted; [by repeat constructor|done..].
Qed.

Lemma split_clusters_request req r :
  "/"%char ∉ String.list_ascii_of_string req ->
  split_clusters ("/clusters/" +:+ req +:+ "/" +:+ r) =
    if decide (req = "*") then Some (Wildcard, "/" +:+ r)
    else match PathName req with Some n => Some (OneCluster n, "/" +:+ r) | None => None end.
Proof.
  intros Hr. unfold split_clusters. rewrite HasPrefix_app, TrimPrefix_app, SplitN_first by done. cbn.
  destruct (decide _); [done|]. by destruct (PathName req).
Qed.


(** Of the virtual workspaces at most one accepts a request. *)
Theorem workspaces_are_disjoint prefix urlPath :
  length (filter (fun nt => is_Some (resolveRootPath syncTargetLister ready nt.2 urlPath).2)
            (BuildVirtualWorkspace prefix)) <= 1.
Proof.
  assert (Hp : forall t, is_Some (resolveRootPath syncTargetLister ready t urlPath).2 ->
    exists s, urlPath = rootPathPrefix t +:+ virtualWorkspaceName (parameters t) +:+ "/" +:+ s).
  { intros t. unfold resolveRootPath. destruct ready; [|by intros []]. cbn [negb].
    destruct (HasPrefix urlPath _) eqn:H; [|by intros []]. apply HasPrefix_spec in H as [s ->].
    exists s. by rewrite !string_app_assoc. }
  unfold BuildVirtualWorkspace. generalize (if HasSuffix prefix "/" then prefix else prefix +:+ "/").
  intros root. rewrite !filter_cons, filter_nil.
  destruct (decide _) as [[s1 E1]%Hp|]; [|by destruct (decide _); simpl; lia].
  destruct (decide _) as [[s2 E2]%Hp|]; [|simpl; lia].
  rewrite E1 in E2. cbn [rootPathPrefix parameters newTemplate snd] in E2. apply prefix_inj in E2. discriminate E2.
Qed.

(** An accepted request is authorized as [sync] on the SyncTarget that its path
    names, in the SyncTarget's own cluster and nowhere else. *)
Theorem the_target_is_authorized NewDelegatedAuthorizer t urlPath errs r user authz :
  (forall c n st, syncTargetLister c n = inr st ->
     SplitMetaClusterNamespaceKey (ToClusterAwareKey c "" n) = inr (c, "", n)) ->
  resolveRootPath syncTargetLister ready t urlPath = (errs, Some r) ->
  (forall cluster, NewDelegatedAuthorizer cluster = inr (authz cluster)) ->
  exists path clusterName name rest, urlPath = target_path t path name rest /\
    PathName path = Some clusterName /\ r_SyncTargetKey r = ToSyncTargetKey clusterName name /\
    authorize NewDelegatedAuthorizer (r_APIDomainKey r) user = authz clusterName {|
      a_User := user; a_Verb := "sync"; a_Name := name; a_APIGroup := "workload.kcp.io";
      a_APIVersion := "v1alpha1"; a_Resource := "synctargets"; a_ResourceRequest := true |}.
Proof.
  intros Hk Hr Ha. destruct (accepted_path _ _ _ _ Hr) as (path & cl & name & st & req & Hn & Hst & Hkey & Hdom & _ & Hu).
  exists path, cl, name. unfold authorize. rewrite Hdom, (Hk cl name st Hst), Ha.
  destruct Hu as [-> | (rest & -> & _)];
    [exists (UID (st_Meta st) +:+ "/clusters/" +:+ req)
    |exists (UID (st_Meta st) +:+ "/clusters/" +:+ req +:+ "/" +:+ rest)];
    (split; [unfold target_path; by rewrite !string_app_assoc|done]).
Qed.
End template_theorems.

(** * Examples *)

Module Examples.
Import SyncTargetUrls.Examples.
#[local] Existing Instances simple_clusters simple_urls simple_paths.
#[local] Instance simple_keys : ClusterKeyLib := {|
  ToClusterAwareKey c ns n := c +:+ "|" +:+ (if decide (ns = "") then n else ns +:+ "/" +:+ n) |}.

Definition lister (cluster name : string) : result SyncTarget :=
  if decide (cluster = "ws" /\ name = "test-cluster") then inr reconciled else inl (ErrLib "NotFound" "").
Definition syncer_template : template := newTemplate "/services/" syncer_parameters.
Definition path : string := "/services/syncer/ws/test-cluster/uid/clusters/*/api/v1/configmaps".
Definition accepted : resolved := {|
  r_Cluster := Wildcard; r_SyncTargetKey := ToSyncTargetKey "ws" "test-cluster";
  r_APIDomainKey := "ws|test-cluster"; prefixToStrip := "/services/syncer/ws/test-cluster/uid/clusters/*" |}.
Lemma path_accepted : resolveRootPath lister true syncer_template path = ([], Some accepted).
Proof. by vm_compute. Qed.
(** The UID of a former SyncTarget; a workspace that is not started. *)
Example refused :
  snd <$> [resolveRootPath lister true syncer_template "/services/syncer/ws/test-cluster/old/clusters/*/api";
           resolveRootPath lister true syncer_template "/services/upsyncer/ws/test-cluster/uid/clusters/*/api";
           resolveRootPath lister true syncer_template "/services/syncer/ws/test-cluster/uid/api";
           resolveRootPath lister false syncer_template path] = [None; None; None; None].
Proof. by vm_compute. Qed.

Lemma accepted_requests_witness : exists path' clusterName name st req,
    PathName path' = Some clusterName /\ lister clusterName name = inr st /\
    r_SyncTargetKey accepted = ToSyncTargetKey clusterName name /\
    r_APIDomainKey accepted = ToClusterAwareKey clusterName "" name /\
    match r_Cluster accepted with Wildcard => req = "*" | OneCluster n => PathName req = Some n end /\
    let base := target_path syncer_template path' name (UID (st_Meta st)) +:+ "/clusters/" +:+ req in
    (path = base \/ exists rest, path = base +:+ "/" +:+ rest /\ prefixToStrip accepted = base).
Proof. exact (accepted_requests lister true syncer_template path [] accepted path_accepted). Defined.

Definition root : Shard := shard "root" "host9/" "base9".
Definition root_url : @URL simple_urls := ("host9", "/").
Definition status_url : @URL simple_urls := ("host9", "/services/syncer/ws/test-cluster/uid").

Lemma the_target_is_authorized_witness : exists path' clusterName name rest,
    path = target_path syncer_template path' name rest /\ PathName path' = Some clusterName /\
    r_SyncTargetKey accepted = ToSyncTargetKey clusterName name /\
    authorize (fun cluster => inr (fun a => (DecisionAllow, cluster +:+ a_Name a, None)))
      (r_APIDomainKey accepted) "syncer" = (DecisionAllow, clusterName +:+ name, None).
Proof.
  apply (the_target_is_authorized lister true _ syncer_template path [] accepted "syncer"
           (fun cluster a => (DecisionAllow, cluster +:+ a_Name a, None))).
  - intros c n st. unfold lister. destruct (decide _) as [[-> ->]|]; [done|discriminate].
  - exact path_accepted.
  - reflexivity.
Defined.
End Examples.
