(* ===== verification/ApiReconciler.v ===== *)
(** * The APIs that are served ([tmc/virtual/syncer/controllers/apireconciler])

    For each SyncTarget the server keeps a set of API definitions, made from the
    schemas of the exports that the SyncTarget supports, for the resources that
    were accepted, and from the built-in ones. A definition holds resources of the
    server until it is torn down. *)

From S2P Require Import Prelude Platform Digest ApiTypes Committer Workqueue SyncTargetUrls VirtualServer Shards.

(** ** Data *)

(** kcp's APIExport and APIResourceSchema, as far as they are read. *)
Record APIExport := { ae_Meta : ObjectMeta; LatestResourceSchemas : list string }.
Record APIResourceVersion := { arv_Name : string; arv_Served : bool }.
Record APIResourceSchema := {
  ars_Meta : ObjectMeta;
  ars_Group : string;
  ars_Plural : string;
  ars_Versions : list APIResourceVersion;
}.
Definition schema_resource (s : APIResourceSchema) : GroupResource :=
  {| gr_Group := ars_Group s; gr_Resource := ars_Plural s |}.
Definition annotated (s : APIResourceSchema) (k v : string) : APIResourceSchema := {|
  ars_Meta := with_annotations (ars_Meta s) (Some (<[ k := v ]> (entries (Annotations (ars_Meta s)))));
  ars_Group := ars_Group s; ars_Plural := ars_Plural s; ars_Versions := ars_Versions s |}.
(** [type apiResourceSchemaApiDefinition struct]; a definition is known by the
    number of the call that made it. *)
Record api_definition := { d_Call : nat; d_UID : string; d_IdentityHash : string }.
#[global] Instance api_definition_eq_dec : EqDecision api_definition.
Proof. solve_decision. Defined.
Abbreviation APIDefinitionSet := (gmap GroupVersionResource api_definition) (only parsing).

(** ** [schemas/builtin/builtin.go] *)

(** [internalapis.InternalAPI] of kcp. *)
Record InternalAPI := {
  ia_Plural : string; ia_Singular : string; ia_Kind : string; ia_Group : string; ia_Version : string;
  ia_Scope : string; ia_HasStatus : bool;
}.
Definition core_api (plural singular kind scope : string) (hasStatus : bool) : InternalAPI := {|
  ia_Plural := plural; ia_Singular := singular; ia_Kind := kind; ia_Group := ""; ia_Version := "v1";
  ia_Scope := scope; ia_HasStatus := hasStatus |}.
Definition syncerInternalAPIs : list InternalAPI :=
  [core_api "namespaces" "namespace" "Namespace" ClusterScoped true;
   core_api "configmaps" "configmap" "ConfigMap" NamespaceScoped false;
   core_api "secrets" "secret" "Secret" NamespaceScoped false;
   core_api "serviceaccounts" "serviceaccount" "ServiceAccount" NamespaceScoped false].
(** [init], with kcp's [CreateAPIResourceSchemas]. *)
Definition SyncerSchemas (CreateAPIResourceSchemas : list InternalAPI -> result (list APIResourceSchema))
    : res (gmap GroupResource APIResourceSchema) :=
  match CreateAPIResourceSchemas syncerInternalAPIs with
  | inl err => Panic (error_text err)
  | inr apis => Ok (foldl (fun m api => <[ schema_resource api := api ]> m) ∅ apis)
  end.

(** ** The reconciler *)

(** [type APIReconciler struct], with the global map of built-in schemas, the
    number of definitions that were asked for, and those torn down. *)
Record api_state := {
  apiSets : gmap string APIDefinitionSet;
  builtin : gmap GroupResource APIResourceSchema;
  calls : nat;
  torn_down : gset nat;
}.
Record Controller := {
  allowedAPIfilter : option (GroupResource -> bool);
  syncTargetLister : string -> string -> result SyncTarget;
  ByPathAndName : string -> string -> result APIExport;
  apiResourceSchemaLister : string -> string -> result APIResourceSchema;
  (** [createAPIDefinition], by the number of the call. *)
  createAPIDefinition : nat -> string -> string -> APIResourceSchema -> string -> string -> result unit;
  syncTargetsByExport : string -> result (list ObjectMeta);
  apiExportsBySchema : string -> result (list ObjectMeta);
}.
(** [logicalcluster.AnnotationKey]. *)
Definition AnnotationKey : string := "kcp.io/cluster".

Section reconciler.
Context {EL : ErrorLib} {CL : ClusterLib}.
Context {KR : KeyOrder GroupResource} {KG : KeyOrder GroupVersionResource}.
Variable c : Controller.

(** *** [getAllAcceptedResourceSchemas] *)

Definition identityHashByGroupResource (l : list ResourceToSync) : gmap GroupResource string :=
  foldl (fun m r => if decide (rs_State r = ResourceSchemaAcceptedState)
                    then <[ rs_GroupResource r := rs_IdentityHash r ]> m else m) ∅ l.
Definition add_schema (identities : gmap GroupResource string) (cluster : string)
    (p : gmap GroupResource APIResourceSchema * list error) (schemaName : string)
    : gmap GroupResource APIResourceSchema * list error :=
  match apiResourceSchemaLister c cluster schemaName with
  | inl err => if IsNotFound err then p else (p.1, p.2 ++ [err])
  | inr s => match identities !! schema_resource s with
             | Some _ => (<[ schema_resource s := s ]> p.1, p.2)
             | None => p
             end
  end.
Definition add_export (syncTarget : SyncTarget) (identities : gmap GroupResource string)
    (p : gmap GroupResource APIResourceSchema * list error) (exportRef : APIExportReference)
    : gmap GroupResource APIResourceSchema * list error :=
  let path := if decide (ref_Path exportRef = "") then ClusterFrom (st_Meta syncTarget)
              else ref_Path exportRef in
  match ByPathAndName c path (ref_Export exportRef) with
  | inl err => (p.1, p.2 ++ [err])
  | inr apiExport =>
      foldl (add_schema identities (ClusterFrom (ae_Meta apiExport))) p (LatestResourceSchemas apiExport)
  end.
Definition getAllAcceptedResourceSchemas (syncTarget : SyncTarget)
    : gmap GroupResource APIResourceSchema * gmap GroupResource string * option error :=
  let identities := identityHashByGroupResource (SyncedResources (st_Status syncTarget)) in
  let p := foldl (add_export syncTarget identities) (∅, []) (SupportedAPIExports (st_Spec syncTarget)) in
  (p.1, identities, NewAggregate p.2).

(** *** [reconcile] *)

(** A shallow copy of each built-in schema is annotated; where the annotations are
    not nil the copy shares them with the global one. *)
Definition add_builtin (cluster : string) (store schemas : gmap GroupResource APIResourceSchema)
    : gmap GroupResource APIResourceSchema * gmap GroupResource APIResourceSchema :=
  let shallow := (fun s => annotated s AnnotationKey cluster) <$> store in
  ((fun s => if Annotations (ars_Meta s) is Some _ then annotated s AnnotationKey cluster else s) <$> store,
   foldl (fun m s => <[ schema_resource s := s ]> m) schemas (range_map shallow).*2).

Definition gvr_of (gr : GroupResource) (version : string) : GroupVersionResource :=
  {| gvr_Group := gr_Group gr; gvr_Version := version; gvr_Resource := gr_Resource gr |}.
(** One version of a schema: the old definition is kept when neither the schema nor
    the identity changed; a definition that cannot be made is left out. *)
Definition serve_version (syncTarget : SyncTarget) (oldSet : APIDefinitionSet) (gr : GroupResource)
    (s : APIResourceSchema) (identity : string) (p : APIDefinitionSet * nat) (v : APIResourceVersion)
    : APIDefinitionSet * nat :=
  if negb (arv_Served v) then p
  else
    let gvr := gvr_of gr (arv_Name v) in
    let create :=
      match createAPIDefinition c p.2 (ClusterFrom (st_Meta syncTarget)) (Name (st_Meta syncTarget)) s
              (arv_Name v) identity with
      | inl _ => (p.1, S p.2)
      | inr _ => (<[ gvr := {| d_Call := p.2; d_UID := UID (ars_Meta s); d_IdentityHash := identity |} ]> p.1,
                  S p.2)
      end in
    match oldSet !! gvr with
    | Some oldDef =>
        if decide (d_UID oldDef = UID (ars_Meta s) /\ d_IdentityHash oldDef = identity)
        then (<[ gvr := oldDef ]> p.1, p.2) else create
    | None => create
    end.
Definition allowed (gr : GroupResource) : bool :=
  match allowedAPIfilter c with Some f => f gr | None => true end.
Definition serve_schema (syncTarget : SyncTarget) (oldSet : APIDefinitionSet)
    (identities : gmap GroupResource string) (p : APIDefinitionSet * nat)
    (kv : GroupResource * APIResourceSchema) : APIDefinitionSet * nat :=
  if negb (allowed kv.1) then p
  else foldl (serve_version syncTarget oldSet kv.1 kv.2 (default "" (identities !! kv.1))) p
         (ars_Versions kv.2).
(** The old definitions that are not in the new set are torn down. *)
Definition obsolete (oldSet newSet : APIDefinitionSet) : list nat :=
  omap (fun kv : GroupVersionResource * api_definition =>
          if decide (newSet !! kv.1 = Some kv.2) then None else Some (d_Call kv.2))
    (range_map oldSet).
Definition reconcile (apiDomainKey : string) (syncTarget : SyncTarget) (s : api_state)
    : api_state * option error :=
  let oldSet := default ∅ (apiSets s !! apiDomainKey) in
  let '(schemas, identities, err) := getAllAcceptedResourceSchemas syncTarget in
  match err with
  | Some err => (s, Some err)
  | None =>
      let '(store, schemas) := add_builtin (ClusterFrom (st_Meta syncTarget)) (builtin s) schemas in
      let '(newSet, n) := foldl (serve_schema syncTarget oldSet identities) (∅, calls s) (range_map schemas) in
      ({| apiSets := <[ apiDomainKey := newSet ]> (apiSets s); builtin := store; calls := n;
          torn_down := list_to_set (obsolete oldSet newSet) ∪ torn_down s |}, None)
  end.

(** *** The controller *)

Definition removeAPIDefinitionSet (key : string) (s : api_state) : api_state := {|
  apiSets := delete key (apiSets s); builtin := builtin s; calls := calls s; torn_down := torn_down s |}.
Definition GetAPIDefinitionSet (key : string) (s : api_state) : option APIDefinitionSet := apiSets s !! key.
Abbreviation AM := (M (event Empty_set)).
Definition process (key : string) (s : api_state) : AM (api_state * option error) :=
  match SplitMetaClusterNamespaceKey key with
  | inl err => emit (EvHandleError err);; mret (s, None)
  | inr (clusterName, _, syncTargetName) =>
      match syncTargetLister c clusterName syncTargetName with
      | inl err => if IsNotFound err then mret (removeAPIDefinitionSet key s, None) else mret (s, Some err)
      | inr syncTarget => mret (reconcile key syncTarget s)
      end
  end.
Definition processNextWorkItem (key : string) (s : api_state) : AM api_state :=
  '(s, err) ← process key s;
  match err with
  | Some err => emit (EvHandleError (ErrWrap "failed to sync" err));; emit (EvAddRateLimited key)
  | None => emit (EvForget key)
  end;;
  emit (EvDone key);;
  mret s.
(** When the controller stops all the definitions are torn down. *)
Definition stop (s : api_state) : api_state := {|
  apiSets := apiSets s; builtin := builtin s; calls := calls s;
  torn_down := list_to_set (concat ((fun kv => d_Call <$> (range_map kv.2).*2) <$> map_to_list (apiSets s)))
                 ∪ torn_down s |}.

(** *** The handlers and the indexes *)

Definition enqueueSyncTarget (obj : ObjectMeta) : AM unit := Workqueue.enqueue obj.
Definition enqueueAPIExport (obj : ObjectMeta) : AM unit :=
  match MetaClusterNamespaceKeyFunc obj with
  | inl err => emit (EvHandleError err)
  | inr key => Workqueue.enqueue_all (syncTargetsByExport c key)
  end.
Definition enqueueAPIResourceSchema (obj : ObjectMeta) : AM unit :=
  match MetaClusterNamespaceKeyFunc obj with
  | inl err => emit (EvHandleError err)
  | inr key =>
      match apiExportsBySchema c key with
      | inl err => emit (EvHandleError err)
      | inr apiExports => for_each apiExports enqueueAPIExport
      end
  end.
(** An update is queued only when the synced resources changed. *)
Definition UpdateFunc {EqR : DeepEq (list ResourceToSync)} (old obj : SyncTarget) : AM unit :=
  if deep_equal (SyncedResources (st_Status old)) (SyncedResources (st_Status obj)) then mret tt
  else enqueueSyncTarget (st_Meta obj).

(** [client.ToClusterAwareKey] of kcp is a parameter. *)
Variable ClientKey : string -> string -> string.
Definition IndexAPIExportsByAPIResourceSchemas (apiExport : APIExport) : list string :=
  ClientKey (ClusterFrom (ae_Meta apiExport)) <$> LatestResourceSchemas apiExport.
Definition IndexSyncTargetsByExports (syncTarget : SyncTarget) : list string :=
  (fun export => ClientKey (if decide (ref_Path export = "") then ClusterFrom (st_Meta syncTarget)
                            else ref_Path export) (ref_Export export))
    <$> SupportedAPIExports (st_Spec syncTarget).
End reconciler.

(** * Theorems *)

Section folds.
Context {A X : Type} (f : A -> X -> A).
Lemma foldl_invariant (P : A -> Prop) l a :
  (forall a x, x ∈ l -> P a -> P (f a x)) -> P a -> P (foldl f a l).
Proof.
  revert a. induction l as [|x l IH]; intros a Hf Ha; [done|]. cbn. apply IH.
  - intros. apply Hf; [by apply list_elem_of_further|done].
  - apply Hf; [apply list_elem_of_here|done].
Qed.
Lemma foldl_visited (Q : A -> Prop) l a x :
  x ∈ l -> (forall a, Q (f a x)) -> (forall a y, y ∈ l -> Q a -> Q (f a y)) -> Q (foldl f a l).
Proof.
  revert a. induction l as [|y l IH]; intros a Hx Hv Hk; [by apply elem_of_nil in Hx|]. cbn.
  apply elem_of_cons in Hx as [->|Hx].
  - apply foldl_invariant; [|done]. intros. apply Hk; [by apply list_elem_of_further|done].
  - apply IH; [done..|]. intros. apply Hk; [by apply list_elem_of_further|done].
Qed.
End folds.

Section reconciler_theorems.
Context {EL : ErrorLib} {CL : ClusterLib}.
Context {KR : KeyOrder GroupResource} {KG : KeyOrder GroupVersionResource}.
Variable c : Controller.

(** ** A pass *)

(** The schemas and the identities of a SyncTarget, the built-in schemas included. *)
Definition schemas_of (st : SyncTarget) (s : api_state) : gmap GroupResource APIResourceSchema :=
  (add_builtin (ClusterFrom (st_Meta st)) (builtin s) (getAllAcceptedResourceSchemas c st).1.1).2.
Definition identity_of (st : SyncTarget) (gr : GroupResource) : string :=
  default "" (identityHashByGroupResource (SyncedResources (st_Status st)) !! gr).
Definition old_set (key : string) (s : api_state) : APIDefinitionSet := default ∅ (apiSets s !! key).
(** What a definition must be made from. *)
Definition serves (schemas : gmap GroupResource APIResourceSchema) (st : SyncTarget)
    (gvr : GroupVersionResource) (d : api_definition) : Prop :=
  exists gr s v, schemas !! gr = Some s /\ allowed c gr = true /\ v ∈ ars_Versions s /\ arv_Served v = true /\
    gvr = gvr_of gr (arv_Name v) /\ d_UID d = UID (ars_Meta s) /\ d_IdentityHash d = identity_of st gr.

#[global] Instance gvr_of_inj : Inj2 (=) (=) (=) gvr_of.
Proof. intros [g r] v [g' r'] v' [= -> -> ->]. done. Qed.

(** The loop's variables: definitions are old ones or new ones. *)
Record looping (old : APIDefinitionSet) (schemas : gmap GroupResource APIResourceSchema) (st : SyncTarget) (n0 : nat) (p : APIDefinitionSet * nat) : Prop := {
  looping_le : n0 <= p.2;
  looping_serves gvr d : p.1 !! gvr = Some d ->
    serves schemas st gvr d /\ (old !! gvr = Some d \/ n0 <= d_Call d < p.2);
  looping_inj gvr gvr' d d' : p.1 !! gvr = Some d -> p.1 !! gvr' = Some d' ->
    n0 <= d_Call d -> d_Call d = d_Call d' -> old !! gvr' <> Some d' -> old !! gvr <> Some d -> gvr = gvr';
}.
Lemma serve_version_looping old schemas st n0 gr s v p :
  schemas !! gr = Some s -> allowed c gr = true -> v ∈ ars_Versions s ->
  looping old schemas st n0 p ->
  looping old schemas st n0 (serve_version c st old gr s (identity_of st gr) p v).
Proof.
  intros Hs Ha Hv [H1 H2 H3]. destruct p as [m n]. cbn [fst snd] in *. unfold serve_version. cbn [fst snd].
  destruct (arv_Served v) eqn:Hserved; [cbn [negb]|by constructor].
  set (gvr := gvr_of gr (arv_Name v)).
  assert (Hnew : forall d, d_UID d = UID (ars_Meta s) -> d_IdentityHash d = identity_of st gr ->
    serves schemas st gvr d).
  { intros d Hu Hi. by exists gr, s, v. }
  assert (Hskip : looping old schemas st n0 (m, S n)).
  { constructor; cbn [fst snd]; [lia| |exact H3]. intros g d Hd. destruct (H2 g d Hd) as [? [|]]; split; auto; right; lia. }
  assert (Hfresh : looping old schemas st n0
    (<[ gvr := {| d_Call := n; d_UID := UID (ars_Meta s); d_IdentityHash := identity_of st gr |} ]> m, S n)).
  { constructor; cbn [fst snd]; [lia| |].
    - intros g d. rewrite lookup_insert_Some. intros [[<- <-]|[_ Hd]].
      + split; [by apply Hnew|right; simpl; lia].
      + destruct (H2 g d Hd) as [? [|]]; split; auto; right; lia.
    - intros g g' d d'. rewrite !lookup_insert_Some.
      intros [[<- <-]|[Hg Hd]] [[<- <-]|[Hg' Hd']] Hn He Ho' Ho; [done|..|by eapply H3].
      + destruct (H2 _ _ Hd') as [_ [|]]; [done|]. simpl in He. lia.
      + destruct (H2 _ _ Hd) as [_ [|]]; [done|]. simpl in He. lia. }
  assert (Hcreate : looping old schemas st n0
    (match createAPIDefinition c n (ClusterFrom (st_Meta st)) (Name (st_Meta st)) s (arv_Name v) (identity_of st gr) with
     | inl _ => (m, S n)
     | inr _ => (<[ gvr := {| d_Call := n; d_UID := UID (ars_Meta s); d_IdentityHash := identity_of st gr |} ]> m, S n)
     end)) by (by destruct (createAPIDefinition c n _ _ _ _ _)).
  fold gvr. destruct (old !! gvr) as [d0|] eqn:E; [|done]. destruct (decide _) as [[Hu Hi]|]; [|done].
  constructor; cbn [fst snd]; [done| |].
  - intros g d. rewrite lookup_insert_Some. intros [[<- <-]|[_ Hd]]; [|by apply H2].
    split; [by apply Hnew|by left].
  - intros g g' d d'. rewrite !lookup_insert_Some.
    intros [[<- <-]|[Hg Hd]] [[<- <-]|[Hg' Hd']] Hn He Ho' Ho; [done..|by eapply H3].
Qed.

Lemma elem_of_range_values (m : gmap GroupResource APIResourceSchema) kv :
  kv ∈ range_map m <-> m !! kv.1 = Some kv.2.
Proof. destruct kv. apply elem_of_range_map. Qed.

Lemma serve_looping old schemas st n0 p :
  looping old schemas st n0 p ->
  looping old schemas st n0
    (foldl (serve_schema c st old (identityHashByGroupResource (SyncedResources (st_Status st)))) p (range_map schemas)).
Proof.
  intros Hp. apply foldl_invariant; [|done]. clear p Hp. intros p kv Hkv%elem_of_range_values Hp.
  unfold serve_schema. destruct (allowed c kv.1) eqn:Ha; [cbn [negb]|done].
  apply foldl_invariant; [|done]. intros p' v Hv Hp'. by apply serve_version_looping.
Qed.

(** What a pass that succeeds leaves. *)
Lemma reconcile_ok key st s s' :
  reconcile c key st s = (s', None) ->
  exists newSet, apiSets s' = <[ key := newSet ]> (apiSets s) /\
    foldl (serve_schema c st (old_set key s) (identityHashByGroupResource (SyncedResources (st_Status st))))
      (∅, calls s) (range_map (schemas_of st s)) = (newSet, calls s') /\
    looping (old_set key s) (schemas_of st s) st (calls s) (newSet, calls s') /\
    torn_down s' = list_to_set (obsolete (old_set key s) newSet) ∪ torn_down s /\
    builtin s' = (add_builtin (ClusterFrom (st_Meta st)) (builtin s) (getAllAcceptedResourceSchemas c st).1.1).1.
Proof.
  unfold reconcile, schemas_of. fold (old_set key s).
  destruct (getAllAcceptedResourceSchemas c st) as [[schemas ids] err] eqn:E.
  assert (Hids : ids = identityHashByGroupResource (SyncedResources (st_Status st))).
  { unfold getAllAcceptedResourceSchemas in E. by injection E. }
  destruct err as [err|]; [done|]. cbn [fst]. rewrite Hids.
  destruct (add_builtin _ (builtin s) schemas) as [store schemas'] eqn:Eb. cbn [fst snd].
  pose proof (serve_looping (old_set key s) schemas' st (calls s) (∅, calls s)) as Hl.
  destruct (foldl _ (∅, calls s) (range_map schemas')) as [newSet n] eqn:Ef.
  intros [= <-]. exists newSet. cbn. split; [done|]. split; [done|]. split; [|done]. apply Hl.
  constructor; cbn [fst snd]; [done|..]; intros gvr; [intros d|intros gvr' d d']; by rewrite lookup_empty.
Qed.
Lemma reconcile_err key st s s' err : reconcile c key st s = (s', Some err) -> s' = s.
Proof.
  unfold reconcile. destruct (getAllAcceptedResourceSchemas c st) as [[schemas ids] [e|]]; [by intros [= -> _]|].
  destruct (add_builtin _ _ _) as [store schemas']. by destruct (foldl _ _ _).
Qed.
Lemma elem_of_obsolete old new n :
  n ∈ obsolete old new <-> exists gvr d, old !! gvr = Some d /\ new !! gvr <> Some d /\ d_Call d = n.
Proof.
  unfold obsolete. rewrite list_elem_of_omap. split.
  - intros ([gvr d] & Hin%elem_of_range_map & H). cbn in H. destruct (decide _); [done|]. injection H as <-.
    by exists gvr, d.
  - intros (gvr & d & Ho & Hn & <-). exists (gvr, d). split; [by apply elem_of_range_map|]. cbn. by rewrite decide_False.
Qed.

Lemma served_apis_of key st s s' newSet :
  reconcile c key st s = (s', None) -> GetAPIDefinitionSet key s' = Some newSet ->
  (forall gvr d, newSet !! gvr = Some d -> serves (schemas_of st s) st gvr d) /\
  ((forall n cl name sch v i, createAPIDefinition c n cl name sch v i = inr tt) ->
   forall gr sch v, schemas_of st s !! gr = Some sch -> allowed c gr = true -> v ∈ ars_Versions sch ->
     arv_Served v = true -> is_Some (newSet !! gvr_of gr (arv_Name v))).
Proof.
  intros (new & Hs' & Hf & [_ Hl _] & _)%reconcile_ok Hg. unfold GetAPIDefinitionSet in Hg.
  rewrite Hs', lookup_insert_eq in Hg. injection Hg as <-. split; [intros; by apply Hl|].
  intros Hc gr sch v Hsch Ha Hv Hserved.
  set (gvr := gvr_of gr (arv_Name v)).
  (* nothing takes a definition out of the set *)
  assert (Hkeep : forall old g s0 i p v', is_Some (p.1 !! gvr) -> is_Some ((serve_version c st old g s0 i p v').1 !! gvr)).
  { intros old g s0 i [m n] v' Hm. unfold serve_version. rewrite Hc. destruct (negb (arv_Served v')); [done|].
    cbn [fst snd] in *. destruct (decide (gvr_of g (arv_Name v') = gvr)) as [->|].
    - destruct (old !! gvr); [destruct (decide _)|]; cbn; rewrite lookup_insert_eq; by eexists.
    - destruct (old !! gvr_of g (arv_Name v')); [destruct (decide _)|]; cbn; by rewrite lookup_insert_ne. }
  change new with ((new, calls s').1). rewrite <-Hf.
  apply (foldl_visited _ (fun p => is_Some (p.1 !! gvr)) _ _ (gr, sch)).
  - by apply elem_of_range_map.
  - intros p. unfold serve_schema. cbn [fst snd]. rewrite Ha. cbn [negb].
    apply (foldl_visited _ (fun p => is_Some (p.1 !! gvr)) _ _ v); [done| |intros; by apply Hkeep].
    intros [m n]. unfold serve_version. rewrite Hserved, Hc. cbn [negb fst snd]. fold gvr.
    destruct (old_set key s !! gvr); [destruct (decide _)|]; cbn; rewrite lookup_insert_eq; by eexists.
  - intros p kv _ Hp. unfold serve_schema. destruct (negb _); [done|].
    apply (foldl_invariant _ (fun p => is_Some (p.1 !! gvr))); [|done]. intros. by apply Hkeep.
Qed.

End reconciler_theorems.

(** ** All passes *)

Section lifecycle.
Context {EL : ErrorLib} {CL : ClusterLib}.
Context {KR : KeyOrder GroupResource} {KG : KeyOrder GroupVersionResource}.

(** The definition at a place: an API domain and a resource. *)
Definition at_place (s : api_state) (key : string) (gvr : GroupVersionResource) (d : api_definition) : Prop :=
  exists set, GetAPIDefinitionSet key s = Some set /\ set !! gvr = Some d.
(** A pass over any key, whatever the caches and the API machinery answer. *)
Inductive step : api_state -> api_state -> Prop :=
  | step_pass c key h h' s s' err : process c key s h = (h', Ok (s', err)) -> step s s'.

Record consistent (s : api_state) : Prop := {
  live_below key gvr d : at_place s key gvr d -> d_Call d < calls s;
  live_not_torn key gvr d : at_place s key gvr d -> d_Call d ∉ torn_down s;
  live_once key key' gvr gvr' d d' : at_place s key gvr d -> at_place s key' gvr' d' ->
    d_Call d = d_Call d' -> key = key' /\ gvr = gvr';
  torn_below n : n ∈ torn_down s -> n < calls s;
}.

Lemma at_old_set s key gvr d : old_set key s !! gvr = Some d <-> at_place s key gvr d.
Proof.
  unfold old_set, at_place, GetAPIDefinitionSet. destruct (apiSets s !! key) as [set|].
  - split; [intros; by exists set|]. by intros (? & [= <-] & ?).
  - cbn. rewrite lookup_empty. split; [done|]. by intros (? & ? & _).
Qed.
(** Where the definitions of a pass come from, and which are torn down. *)
Lemma reconcile_places c key st s s' err :
  reconcile c key st s = (s', err) ->
  calls s <= calls s' /\
  (forall k gvr d, at_place s' k gvr d -> at_place s k gvr d \/ k = key /\ calls s <= d_Call d < calls s') /\
  (forall gvr gvr' d d', at_place s' key gvr d -> at_place s' key gvr' d' -> calls s <= d_Call d ->
     d_Call d = d_Call d' -> ~ at_place s key gvr d -> ~ at_place s key gvr' d' -> gvr = gvr') /\
  (forall n, n ∈ torn_down s' <-> n ∈ torn_down s \/
     exists gvr d, at_place s key gvr d /\ ~ at_place s' key gvr d /\ d_Call d = n).
Proof.
  destruct err as [err|].
  { intros ->%reconcile_err. split; [done|]. split; [by left|]. split.
    - intros gvr gvr' d d' H _ _ _ Hn. done.
    - intros n. split; [by left|]. intros [|(gvr & d & H & Hn & _)]; [done|contradiction]. }
  intros (new & Hs' & _ & [Hle Hl Hi] & Ht & _)%reconcile_ok. cbn [fst snd] in *.
  assert (Hp : forall gvr d, at_place s' key gvr d <-> new !! gvr = Some d).
  { intros gvr d. rewrite <-at_old_set. unfold old_set. by rewrite Hs', lookup_insert_eq. }
  split; [done|]. split; [|split].
  - intros k gvr d Hat. destruct (decide (k = key)) as [->|Hk].
    + apply Hp, Hl in Hat as [_ [Ho|?]]; [left|by right]. by apply at_old_set.
    + left. destruct Hat as (set & Hset & Hd). exists set. split; [|done].
      unfold GetAPIDefinitionSet in *. by rewrite Hs', lookup_insert_ne in Hset.
  - intros gvr gvr' d d' H%Hp H'%Hp Hn He Ho Ho'. rewrite <-at_old_set in Ho, Ho'. by eapply Hi.
  - intros n. rewrite Ht, elem_of_union, elem_of_list_to_set, elem_of_obsolete. split.
    + intros [(gvr & d & Ho & Hn & Hc)|]; [right|by left]. exists gvr, d. by rewrite Hp, <-at_old_set.
    + intros [|(gvr & d & Ho & Hn & Hc)]; [by right|left]. exists gvr, d. by rewrite Hp, <-at_old_set in *.
Qed.
Lemma remove_places key s k gvr d :
  at_place (removeAPIDefinitionSet key s) k gvr d <-> k <> key /\ at_place s k gvr d.
Proof.
  unfold at_place, GetAPIDefinitionSet, removeAPIDefinitionSet. cbn. split.
  - intros (set & Hset & Hd). apply lookup_delete_Some in Hset as [Hk Hset]. split; [done|]. by exists set.
  - intros [Hk (set & Hset & Hd)]. exists set. by rewrite lookup_delete_ne.
Qed.
(** What a step is. *)
Lemma step_cases s s' :
  step s s' -> s' = s \/ (exists key, s' = removeAPIDefinitionSet key s) \/
    exists c key st err, reconcile c key st s = (s', err).
Proof.
  intros [c key h h' s0 s0' err H]. unfold process in H.
  destruct (SplitMetaClusterNamespaceKey key) as [e|[[cl ns] n]]; [by injection H as _ <- _; left|].
  destruct (syncTargetLister c cl n) as [e|st].
  - destruct (IsNotFound e); injection H as _ <- _; [right; left; by exists key|by left].
  - injection H as _ H. right. right. by exists c, key, st, err.
Qed.

Lemma consistent_step s s' : step s s' -> consistent s -> consistent s'.
Proof.
  intros Hstep [H1 H2 H3 H4]. apply step_cases in Hstep as [->|[[key ->]|(c & key & st & err & Hr)]]; [done| |].
  { constructor.
    - intros k gvr d [_ Hd]%remove_places. by eapply H1.
    - intros k gvr d [_ Hd]%remove_places. by eapply H2.
    - intros k k' gvr gvr' d d' [_ Hd]%remove_places [_ Hd']%remove_places. by apply H3.
    - exact H4. }
  apply reconcile_places in Hr as (Hle & Hp & Hi & Ht).
  constructor.
  - intros k gvr d [Hd|[_ ?]]%Hp; [|lia]. specialize (H1 k gvr d Hd). lia.
  - intros k gvr d Hd [Hn|(gvr' & d' & Ho & Hn & He)]%Ht.
    + destruct (Hp k gvr d Hd) as [Hd'|[_ ?]]; [by eapply H2|]. apply H4 in Hn. lia.
    + destruct (Hp k gvr d Hd) as [Hd'|[-> ?]].
      * destruct (H3 _ _ _ _ _ _ Ho Hd' He) as [<- <-].
        assert (d = d') as ->; [|done]. apply at_old_set in Ho, Hd'. congruence.
      * specialize (H1 _ _ _ Ho). lia.
  - intros k k' gvr gvr' d d' Hd Hd' He.
    destruct (Hp k gvr d Hd) as [Ho|[Hk Hc]], (Hp k' gvr' d' Hd') as [Ho'|[Hk' Hc']].
    + by apply (H3 _ _ _ _ d d').
    + specialize (H1 _ _ _ Ho). lia.
    + specialize (H1 _ _ _ Ho'). lia.
    + subst k k'. split; [done|]. apply (Hi gvr gvr' d d'); [done|done|lia|done|..];
        intros Ho; specialize (H1 _ _ _ Ho); lia.
  - intros n [Hn|(gvr & d & Ho & _ & <-)]%Ht; [|specialize (H1 _ _ _ Ho); lia]. specialize (H4 n Hn). lia.
Qed.
Lemma consistent_initial store : consistent {| apiSets := ∅; builtin := store; calls := 0; torn_down := ∅ |}.
Proof.
  constructor.
  - intros key gvr d (set & H & _). unfold GetAPIDefinitionSet in H. cbn in H. by rewrite lookup_empty in H.
  - intros key gvr d _. apply not_elem_of_empty.
  - intros key key' gvr gvr' d d' (set & H & _). unfold GetAPIDefinitionSet in H. cbn in H. by rewrite lookup_empty in H.
  - intros n. by intros ?%elem_of_empty.
Qed.
Lemma consistent_reachable s s' : consistent s -> rtc step s s' -> consistent s'.
Proof. intros Hs Hr. revert Hs. induction Hr; [done|]. intros. by eauto using consistent_step. Qed.


(** A definition that no place has, and that was not torn down. *)
Definition leaked (n : nat) (s : api_state) : Prop :=
  n < calls s /\ (n ∉ torn_down s) /\ (forall key gvr d, at_place s key gvr d -> d_Call d <> n).
Lemma leaked_step n s s' : step s s' -> leaked n s -> leaked n s'.
Proof.
  intros Hstep (H1 & H2 & H3). apply step_cases in Hstep as [->|[[key ->]|(c & key & st & err & Hr)]]; [done| |].
  { split; [done|]. split; [done|]. intros k gvr d [_ Hd]%remove_places. by eapply H3. }
  apply reconcile_places in Hr as (Hle & Hp & _ & Ht). split; [lia|]. split.
  - intros [|(gvr & d & Ho & _ & Hn)]%Ht; [done|]. by apply H3 in Ho.
  - intros k gvr d [Hd|[_ ?]]%Hp; [by eapply H3|lia].
Qed.

(** When a SyncTarget is deleted its set of definitions is dropped, but none of
    them is ever torn down, in whatever passes follow: the contexts that were made
    for them are never cancelled. *)
Theorem removed_definitions_are_leaked store c key cl ns name err s h gvr d s2 s' :
  rtc step {| apiSets := ∅; builtin := store; calls := 0; torn_down := ∅ |} s -> at_place s key gvr d ->
  SplitMetaClusterNamespaceKey key = inr (cl, ns, name) ->
  syncTargetLister c cl name = inl err -> IsNotFound err = true ->
  process c key s h = (h, Ok (s2, None)) -> rtc step s2 s' ->
  (d_Call d ∉ torn_down s') /\ (forall key' gvr' d', at_place s' key' gvr' d' -> d_Call d' <> d_Call d).
Proof.
  intros Hr Hd Hk Hl He Hproc Hr'. apply consistent_reachable in Hr as [H1 H2 H3 _]; [|apply consistent_initial].
  unfold process in Hproc. rewrite Hk, Hl, He in Hproc. injection Hproc as <-.
  assert (Hleak : leaked (d_Call d) (removeAPIDefinitionSet key s)).
  { split; [by eapply H1|]. split; [by eapply H2|]. intros k gvr' d' [Hne Hd']%remove_places Heq.
    by destruct (H3 _ _ _ _ _ _ Hd' Hd Heq). }
  assert (Hleak' : leaked (d_Call d) s').
  { revert Hleak. induction Hr'; [done|]. intros. by eauto using leaked_step. }
  destruct Hleak' as (_ & ? & ?). done.
Qed.
End lifecycle.

(** ** A pass over what is served already *)

Section fixpoint.
Context {EL : ErrorLib} {CL : ClusterLib}.
Context {KR : KeyOrder GroupResource} {KG : KeyOrder GroupVersionResource}.
Variable c : Controller.

Lemma annotated_twice s k v : annotated (annotated s k v) k v = annotated s k v.
Proof. unfold annotated, with_annotations. cbn. by rewrite insert_insert_eq. Qed.
Lemma add_builtin_twice cl store schemas :
  add_builtin cl (add_builtin cl store schemas).1 schemas = add_builtin cl store schemas.
Proof.
  assert (Ha : forall s, annotated (if Annotations (ars_Meta s) is Some _ then annotated s AnnotationKey cl else s)
                 AnnotationKey cl = annotated s AnnotationKey cl).
  { intros s. destruct (Annotations (ars_Meta s)); [apply annotated_twice|done]. }
  unfold add_builtin. cbn [fst]. rewrite <-!map_fmap_compose. f_equal.
  - apply map_fmap_ext. intros gr s _. unfold compose. destruct (Annotations (ars_Meta s)) eqn:E; [|by rewrite E].
    cbn. apply annotated_twice.
  - do 3 f_equal. apply map_fmap_ext. intros gr s _. unfold compose. apply Ha.
Qed.
Lemma obsolete_self (set : APIDefinitionSet) : obsolete set set = [].
Proof.
  apply elem_of_nil_inv. intros n (gvr & d & H & Hn & _)%elem_of_obsolete. done.
Qed.

(** A version that is visited again finds its definition. *)
Lemma visit_again st schemas set1 gr sch v p :
  (forall gvr d, set1 !! gvr = Some d -> serves c schemas st gvr d) ->
  (arv_Served v = true -> is_Some (set1 !! gvr_of gr (arv_Name v))) ->
  schemas !! gr = Some sch -> p.1 ⊆ set1 ->
  let p' := serve_version c st set1 gr sch (identity_of st gr) p v in p'.2 = p.2 /\ p'.1 ⊆ set1.
Proof.
  intros Hsound Hv Hs Hm. destruct p as [m n]. unfold serve_version. cbn [fst snd] in *.
  destruct (arv_Served v); [cbn [negb]|done]. destruct (Hv eq_refl) as [d Hd]. rewrite Hd.
  destruct (Hsound _ _ Hd) as (gr' & sch' & v' & Hs' & _ & _ & _ & He & Hu & Hi).
  apply gvr_of_inj in He as [<- _]. rewrite Hs in Hs'. injection Hs' as <-.
  rewrite decide_True by done. split; [done|]. by apply insert_subseteq_l.
Qed.
Lemma loop_again st schemas set1 n set2 n2 :
  (forall gvr d, set1 !! gvr = Some d -> serves c schemas st gvr d) ->
  (forall gr sch v, schemas !! gr = Some sch -> allowed c gr = true -> v ∈ ars_Versions sch ->
     arv_Served v = true -> is_Some (set1 !! gvr_of gr (arv_Name v))) ->
  foldl (serve_schema c st set1 (identityHashByGroupResource (SyncedResources (st_Status st)))) (∅, n)
    (range_map schemas) = (set2, n2) ->
  n2 = n /\ set2 ⊆ set1.
Proof.
  intros Hsound Hv Hf. change n2 with ((set2, n2).2). change set2 with ((set2, n2).1) at 2. rewrite <-Hf.
  apply (foldl_invariant _ (fun p => p.2 = n /\ p.1 ⊆ set1)); [|split; [done|apply map_empty_subseteq]].
  intros p kv Hkv%elem_of_range_values [Hn Hm]. unfold serve_schema.
  destruct (allowed c kv.1) eqn:Ha; [cbn [negb]|done].
  apply (foldl_invariant _ (fun p => p.2 = n /\ p.1 ⊆ set1)); [|done].
  intros p' v Hin [Hn' Hm'].
  destruct (visit_again st schemas set1 kv.1 kv.2 v p') as [E2 E1]; [done|by eapply Hv|done|done|].
  split; [by etransitivity; [exact E2|]|exact E1].
Qed.

(** When every definition can be made, one pass is enough: the next pass over an
    unchanged SyncTarget makes no definition, tears none down, and leaves the server
    as it is. *)
Theorem reconcile_is_idempotent key st s s1 :
  (forall n cl name sch v i, createAPIDefinition c n cl name sch v i = inr tt) ->
  reconcile c key st s = (s1, None) -> reconcile c key st s1 = (s1, None).
Proof.
  intros Hc Hr. pose proof (served_apis_of c key st s s1) as Hserved.
  pose proof (reconcile_ok c key st s s1 Hr) as (set1 & Hset & _ & _ & _ & Hb).
  assert (Hg : GetAPIDefinitionSet key s1 = Some set1).
  { unfold GetAPIDefinitionSet. by rewrite Hset, lookup_insert_eq. }
  destruct (Hserved set1 Hr Hg) as [Hsound Hcomplete]. specialize (Hcomplete Hc). clear Hserved.
  assert (Hold : old_set key s1 = set1) by (unfold old_set, GetAPIDefinitionSet in *; by rewrite Hg).
  assert (Hsch : schemas_of c st s1 = schemas_of c st s).
  { unfold schemas_of. by rewrite Hb, add_builtin_twice. }
  unfold reconcile. fold (old_set key s1). rewrite Hold.
  pose proof (reconcile_ok c key st s s1 Hr) as Hok. unfold reconcile in Hr.
  destruct (getAllAcceptedResourceSchemas c st) as [[schemas ids] err] eqn:E.
  assert (Hids : ids = identityHashByGroupResource (SyncedResources (st_Status st))).
  { unfold getAllAcceptedResourceSchemas in E. by injection E. }
  destruct err as [err|]; [done|]. clear Hr Hok. rewrite Hids.
  assert (Hpair : add_builtin (ClusterFrom (st_Meta st)) (builtin s1) schemas =
                  (builtin s1, schemas_of c st s)).
  { rewrite <-Hsch. unfold schemas_of. rewrite E. cbn [fst]. apply injective_projections; [|done].
    cbn [fst snd]. rewrite Hb. by rewrite add_builtin_twice. }
  rewrite Hpair.
  destruct (foldl _ (∅, calls s1) (range_map (schemas_of c st s))) as [set2 n] eqn:Ef.
  destruct (loop_again st (schemas_of c st s) set1 (calls s1) set2 n Hsound Hcomplete Ef) as [-> Hsub].
  assert (Hrun : reconcile c key st s1 = ({| apiSets := <[ key := set2 ]> (apiSets s1); builtin := builtin s1;
      calls := calls s1; torn_down := list_to_set (obsolete set1 set2) ∪ torn_down s1 |}, None)).
  { unfold reconcile. fold (old_set key s1). by rewrite Hold, E, Hids, Hpair, Ef. }
  pose proof (served_apis_of c key st s1 _ set2 Hrun) as Hs2. cbn [apiSets GetAPIDefinitionSet] in Hs2.
  destruct Hs2 as [_ Hc2]. { unfold GetAPIDefinitionSet. cbn. by rewrite lookup_insert_eq. }
  assert (Heq : set2 = set1).
  { apply map_eq. intros gvr. destruct (set1 !! gvr) as [d|] eqn:Hd.
    - destruct (Hsound _ _ Hd) as (gr & sch & v & Hs & Ha & Hv & Hvs & -> & _).
      rewrite <-Hsch in Hs. destruct (Hc2 Hc gr sch v Hs Ha Hv Hvs) as [d2 Hd2].
      pose proof (lookup_weaken _ _ _ _ Hd2 Hsub) as H. congruence.
    - by apply (lookup_weaken_None _ _ _ Hd). }
  rewrite Heq, obsolete_self. rewrite list_to_set_nil, union_empty_l_L.
  destruct s1 as [sets b n t]. cbn in *. by rewrite insert_id.
Qed.
End fixpoint.

(** * Examples *)

Module Examples.
#[local] Existing Instances simple_errors simple_clusters.
#[local] Instance range_resources : KeyOrder GroupResource := canonical_range GroupResource.
#[local] Instance range_types : KeyOrder GroupVersionResource := canonical_range GroupVersionResource.

Definition schema (group plural uid : string) (versions : list (string * bool)) : APIResourceSchema := {|
  ars_Meta := SetUIDVersion (mk_meta plural "" None None []) uid "1"; ars_Group := group; ars_Plural := plural;
  ars_Versions := (fun v => {| arv_Name := v.1; arv_Served := v.2 |}) <$> versions |}.
Definition deployments : APIResourceSchema := schema "apps" "deployments" "u1" [("v1", true); ("v1beta1", false)].
Definition store : gmap GroupResource APIResourceSchema :=
  match SyncerSchemas (fun l => inr ((fun a => schema (ia_Group a) (ia_Plural a) "" [(ia_Version a, true)]) <$> l)) with
  | Ok m => m | _ => ∅ end.
Definition target (uid : string) : SyncTarget := {|
  st_Meta := SetUIDVersion (mk_meta "t" "" None (Some {[ "kcp.io/cluster" := "ws" ]}) []) uid "1";
  st_Spec := {| Unschedulable := false; EvictAfter := None;
    SupportedAPIExports := [{| ref_Path := ""; ref_Export := "kubernetes" |}]; Cells := None |};
  st_Status := {| Allocatable := None; Capacity := None; st_Conditions := [];
    SyncedResources := [{| rs_GroupResource := schema_resource deployments; rs_Versions := ["v1"];
                           rs_IdentityHash := "hash"; rs_State := ResourceSchemaAcceptedState |}];
    LastSyncerHeartbeatTime := None; VirtualWorkspaces := []; TunnelWorkspaces := [] |} |}.
Definition config (exists_ : bool) (filter : GroupResource -> bool) : Controller := {|
  allowedAPIfilter := Some filter;
  syncTargetLister cl n := if exists_ then inr (target "uid") else inl (ErrLib "NotFound" "");
  ByPathAndName p n := inr {| ae_Meta := mk_meta n "" None (Some {[ "kcp.io/cluster" := "exports" ]}) [];
                              LatestResourceSchemas := ["deployments"; "gone"] |};
  apiResourceSchemaLister cl n := if decide (n = "deployments") then inr deployments else inl (ErrLib "NotFound" "");
  createAPIDefinition _ _ _ _ _ _ := inr tt;
  syncTargetsByExport _ := inr []; apiExportsBySchema _ := inr [] |}.
Definition initial : api_state := {| apiSets := ∅; builtin := store; calls := 0; torn_down := ∅ |}.
Definition running : api_state := (reconcile (config true syncer_filter) "ws|t" (target "uid") initial).1.
Lemma first_pass : reconcile (config true syncer_filter) "ws|t" (target "uid") initial = (running, None).
Proof. by vm_compute. Qed.

(** What each virtual workspace serves. *)
Example served :
  dom (default ∅ (GetAPIDefinitionSet "ws|t" running)) =
    {[ gvr_of (schema_resource deployments) "v1"; core_gvr "namespaces"; core_gvr "configmaps";
       core_gvr "secrets"; core_gvr "serviceaccounts" ]} /\
  GetAPIDefinitionSet "ws|t" (reconcile (config true upsyncer_filter) "ws|t" (target "uid") initial).1 = Some ∅.
Proof. split; [apply (bool_decide_unpack _)|]; by vm_compute. Qed.

Definition ctl : Controller := config true syncer_filter.
Definition served_set : APIDefinitionSet := default ∅ (GetAPIDefinitionSet "ws|t" running).
Definition gvr : GroupVersionResource := gvr_of (schema_resource deployments) "v1".
Definition def : api_definition := default {| d_Call := 0; d_UID := ""; d_IdentityHash := "" |} (served_set !! gvr).
Lemma served_set_ok : GetAPIDefinitionSet "ws|t" running = Some served_set.
Proof.
  assert (H : bool_decide (is_Some (GetAPIDefinitionSet "ws|t" running)) = true) by (vm_compute; reflexivity).
  apply bool_decide_eq_true in H as [set H]. unfold served_set. by rewrite H.
Qed.
Lemma def_at_place : at_place running "ws|t" gvr def.
Proof.
  exists served_set. split; [exact served_set_ok|].
  assert (H : bool_decide (is_Some (served_set !! gvr)) = true) by (vm_compute; reflexivity).
  apply bool_decide_eq_true in H as [d H]. unfold def. by rewrite H.
Qed.
Lemma serving_reachable : rtc step initial running.
Proof.
  apply rtc_once. apply (step_pass ctl "ws|t" [] [] initial running None).
  change (process ctl "ws|t" initial []) with (@nil (event Empty_set), Ok (reconcile ctl "ws|t" (target "uid") initial)).
  unfold ctl. by rewrite first_pass.
Qed.



Definition deleted : api_state := removeAPIDefinitionSet "ws|t" running.
Lemma removed_definitions_are_leaked_witness :
  (d_Call def ∉ torn_down deleted) /\
  (forall key' gvr' d', at_place deleted key' gvr' d' -> d_Call d' <> d_Call def).
Proof.
  apply (removed_definitions_are_leaked store (config false syncer_filter) "ws|t" "ws" "" "t"
           (ErrLib "NotFound" "") running [] gvr def deleted deleted serving_reachable def_at_place);
    try reflexivity.
Defined.

Lemma reconcile_is_idempotent_witness : reconcile ctl "ws|t" (target "uid") running = (running, None).
Proof. apply (reconcile_is_idempotent ctl "ws|t" (target "uid") initial running); [reflexivity|exact first_pass]. Defined.

(** An export that is referred to by the path of its workspace is indexed under the
    path; the handler looks under the name of its cluster, and finds no SyncTarget. *)
Example export_by_path_is_missed :
  let st := {| st_Meta := st_Meta (target "uid");
               st_Spec := {| Unschedulable := false; EvictAfter := None;
                 SupportedAPIExports := [{| ref_Path := "root:compute"; ref_Export := "kubernetes" |}]; Cells := None |};
               st_Status := st_Status (target "uid") |} in
  let key path name := path +:+ "|" +:+ name in
  let export := mk_meta "kubernetes" "" None (Some {[ "kcp.io/cluster" := "2x7a" ]}) [] in
  IndexSyncTargetsByExports key st = ["root:compute|kubernetes"] /\
  MetaClusterNamespaceKeyFunc export = inr "2x7a|kubernetes".
Proof. by vm_compute. Qed.
End Examples.
