(* ===== verification/ApiExports.v ===== *)
(** * The API export controller ([pkg/reconciler/workload/apiexport])

    The export [imported-apis] of a workspace lists, for each resource, the schema
    made from the negotiated API resource. When the negotiated one changes a new
    revision of the schema is created, listed, and the old one is deleted. *)

From S2P Require Import Prelude Platform GoPath GoTime ApiTypes ApiResource Committer Workqueue Shards.
Local Open Scope nat_scope.

(** ** Data *)

(** kcp's APIResourceSchema and APIExport. *)
Record APIResourceVersion := {
  ev_Name : string; ev_Served : bool; ev_Storage : bool; ev_Schema : string;
  ev_Scale : option (string * string); ev_Status : bool; ev_Columns : list CRDColumn;
}.
Record APIResourceSchemaSpec := {
  es_Group : string; es_Names : CRDNames; es_Scope : string; es_Versions : list APIResourceVersion;
}.
Record APIResourceSchema := { s_Meta : ObjectMeta; s_Spec : APIResourceSchemaSpec }.
Record APIExport := { e_Meta : ObjectMeta; LatestResourceSchemas : list string }.
Definition with_schemas (e : APIExport) (l : list string) : APIExport :=
  {| e_Meta := e_Meta e; LatestResourceSchemas := l |}.

(** [schema.GroupResource.String] and [schema.ParseGroupResource]: the resource ends at
    the first dot. *)
Class GroupResourceLib := {
  GR_String : GroupResource -> string;
  ParseGroupResource : string -> GroupResource;
  Parse_String gr :
    "."%char ∉ String.list_ascii_of_string (gr_Resource gr) -> ParseGroupResource (GR_String gr) = gr;
}.

(** ** [apiresourceschema.go] *)

Definition KubeAPIApprovedAnnotation : string := "api-approved.kubernetes.io".
Section schema.
Context {SC : SchemaCompatLib}.

Definition set_subresource (v : APIResourceVersion) (name : string) : APIResourceVersion :=
  if decide (name = ScaleSubResourceName) then
    {| ev_Name := ev_Name v; ev_Served := ev_Served v; ev_Storage := ev_Storage v; ev_Schema := ev_Schema v;
       ev_Scale := Some (".spec.replicas", ".status.replicas"); ev_Status := ev_Status v;
       ev_Columns := ev_Columns v |}
  else if decide (name = StatusSubResourceName) then
    {| ev_Name := ev_Name v; ev_Served := ev_Served v; ev_Storage := ev_Storage v; ev_Schema := ev_Schema v;
       ev_Scale := ev_Scale v; ev_Status := true; ev_Columns := ev_Columns v |}
  else v.
Definition with_columns (v : APIResourceVersion) (l : list CRDColumn) : APIResourceVersion :=
  {| ev_Name := ev_Name v; ev_Served := ev_Served v; ev_Storage := ev_Storage v; ev_Schema := ev_Schema v;
     ev_Scale := ev_Scale v; ev_Status := ev_Status v; ev_Columns := l |}.
Definition toAPIResourceSchema (r : NegotiatedAPIResource) (name : string) : APIResourceSchema :=
  let spec := n_Spec r in
  let group := gv_Group (cs_GroupVersion spec) in
  let version := {|
    ev_Name := gv_Version (cs_GroupVersion spec); ev_Served := true; ev_Storage := true;
    ev_Schema := cs_OpenAPIV3Schema spec; ev_Scale := None; ev_Status := false; ev_Columns := [] |} in
  {| s_Meta := mk_meta name "" None
       (match map_get (Annotations (n_Meta r)) KubeAPIApprovedAnnotation with
        | Some value => Some {[ KubeAPIApprovedAnnotation := value ]}
        | None => None
        end) [];
     s_Spec := {|
       es_Group := if decide (group = "core") then "" else group;
       es_Names := cs_Names spec; es_Scope := cs_Scope spec;
       es_Versions := [with_columns (foldl set_subresource version (cs_SubResources spec))
                         (ToCustomResourceColumnDefinitions (cs_ColumnDefinitions spec))] |} |}.
End schema.
Definition ParseAPIResourceSchemaName (name : string) : option GroupResource :=
  match SplitN name "." 3 with
  | [_; resource; group] => Some {| gr_Resource := resource; gr_Group := group |}
  | _ => None
  end.

(** ** [workload_apiexport_reconcile.go] *)

(** The calls to the API server. *)
Inductive export_call :=
  | GetSchemaLive (cluster name : string)
  | CreateSchema (cluster : string) (s : APIResourceSchema)
  | DeleteSchema (cluster name : string)
  | UpdateExport (cluster : string) (e : APIExport).
Abbreviation EM := (M (event export_call)).
Abbreviation history := (list (event export_call)) (only parsing).

Section reconciler.
Context {EL : ErrorLib} {CL : ClusterLib} {SC : SchemaCompatLib} {GL : GroupResourceLib}.
Context {MO : MapOrder} {KR : KeyOrder GroupResource} {EqS : DeepEq APIResourceSchemaSpec}.

(** The listers, and the answers of the server. *)
Record Controller := {
  negotiatedAPIResourceLister : history -> string -> result (list NegotiatedAPIResource);
  apiResourceSchemaLister : history -> string -> string -> result APIResourceSchema;
  apiExportsLister : history -> string -> string -> result APIExport;
  GetAnswer : history -> result APIResourceSchema;
  CreateAnswer : history -> result APIResourceSchema;
  DeleteAnswer : history -> result unit;
  UpdateAnswer : history -> result unit;
}.
Variable c : Controller.
Definition cached {A} (f : history -> result A) : EM A := fun h => (h, of_result (f h)).

Definition getAPIResourceSchema (cluster name : string) : EM APIResourceSchema :=
  r ← try (cached (fun h => apiResourceSchemaLister c h cluster name));
  match r with
  | inr s => mret s
  | inl err => if IsNotFound err then call (EvCall (GetSchemaLive cluster name)) (GetAnswer c) else fail err
  end.
Definition createAPIResourceSchema (cluster : string) (s : APIResourceSchema) : EM APIResourceSchema :=
  call (EvCall (CreateSchema cluster s)) (CreateAnswer c).
Definition deleteAPIResourceSchema (cluster name : string) : EM unit :=
  call (EvCall (DeleteSchema cluster name)) (DeleteAnswer c).
Definition updateAPIExport (cluster : string) (e : APIExport) : EM unit :=
  call (EvCall (UpdateExport cluster e)) (UpdateAnswer c).

Definition or_core (group : string) : string := if decide (group = "") then "core" else group.
Definition resource_key (r : NegotiatedAPIResource) : GroupResource := {|
  gr_Group := or_core (gv_Group (cs_GroupVersion (n_Spec r))); gr_Resource := Plural (cs_Names (n_Spec r)) |}.
Definition resourcesByResourceGroup (l : list NegotiatedAPIResource) : gmap GroupResource NegotiatedAPIResource :=
  foldl (fun m r => <[ resource_key r := r ]> m) ∅ l.

(** The loop over the schemas that the export lists. *)
Record scan := {
  upToDateResourceGroups : gset string;
  expectedResourceGroups : gset string;
  schemaNamesByResourceGroup : gmap GroupResource string;
}.
Definition expect (p : scan) (gr : GroupResource) (schemaName : string) : scan := {|
  upToDateResourceGroups := upToDateResourceGroups p;
  expectedResourceGroups := {[ GR_String gr ]} ∪ expectedResourceGroups p;
  schemaNamesByResourceGroup := <[ gr := schemaName ]> (schemaNamesByResourceGroup p) |}.
Definition up_to_date (p : scan) (gr : GroupResource) : scan := {|
  upToDateResourceGroups := {[ GR_String gr ]} ∪ upToDateResourceGroups p;
  expectedResourceGroups := expectedResourceGroups p;
  schemaNamesByResourceGroup := schemaNamesByResourceGroup p |}.
Definition check_schema (cluster : string) (resources : gmap GroupResource NegotiatedAPIResource)
    (p : scan) (schemaName : string) : EM scan :=
  match ParseAPIResourceSchemaName schemaName with
  | None => mret p
  | Some gr =>
      let p := expect p gr schemaName in
      r ← try (getAPIResourceSchema cluster schemaName);
      match r with
      | inl err => if IsNotFound err then mret p else fail err
      | inr existingSchema =>
          match resources !! gr with
          | None => mret p
          | Some negotiated =>
              if deep_equal (s_Spec existingSchema) (s_Spec (toAPIResourceSchema negotiated ""))
              then mret (up_to_date p gr) else mret p
          end
      end
  end.
Fixpoint check_schemas (cluster : string) (resources : gmap GroupResource NegotiatedAPIResource)
    (l : list string) (p : scan) : EM scan :=
  match l with
  | [] => mret p
  | schemaName :: l => p ← check_schema cluster resources p schemaName; check_schemas cluster resources l p
  end.

(** The loop over the outdated or missing ones: a new revision is made. *)
Definition revision_name (r : NegotiatedAPIResource) : string :=
  "rev-" +:+ ResourceVersion (n_Meta r) +:+ "." +:+ Plural (cs_Names (n_Spec r)) +:+ "." +:+
  or_core (gv_Group (cs_GroupVersion (n_Spec r))).
Definition owned_by_export (export : APIExport) (s : APIResourceSchema) : APIResourceSchema := {|
  s_Meta := {| Name := Name (s_Meta s); Namespace := Namespace (s_Meta s); UID := UID (s_Meta s);
    ResourceVersion := ResourceVersion (s_Meta s); Labels := Labels (s_Meta s);
    Annotations := Annotations (s_Meta s); Finalizers := Finalizers (s_Meta s);
    DeletionTimestamp := DeletionTimestamp (s_Meta s); CreationTimestamp := CreationTimestamp (s_Meta s);
    OwnerReferences := [{| or_APIVersion := "apis.kcp.io/v1alpha1"; or_Kind := "APIExport";
                           or_Name := Name (e_Meta export); or_UID := UID (e_Meta export);
                           or_Controller := Some true; or_BlockOwnerDeletion := Some true |}] |};
  s_Spec := s_Spec s |}.
Definition create_revision (export : APIExport) (cluster : string) (r : NegotiatedAPIResource)
    : EM APIResourceSchema :=
  let schemaName := revision_name r in
  res ← try (createAPIResourceSchema cluster (owned_by_export export (toAPIResourceSchema r schemaName)));
  match res with
  | inr s => mret s
  | inl err => if IsAlreadyExists err then getAPIResourceSchema cluster schemaName else fail err
  end.
Fixpoint create_revisions (export : APIExport) (cluster : string)
    (resources : gmap GroupResource NegotiatedAPIResource) (l : list string)
    (names : gmap GroupResource string) (outDatedSchemaNames : gset string)
    : EM (gmap GroupResource string * gset string) :=
  match l with
  | [] => mret (names, outDatedSchemaNames)
  | resourceGroup :: l =>
      let gr := ParseGroupResource resourceGroup in
      match resources !! gr with
      | None => create_revisions export cluster resources l names outDatedSchemaNames
      | Some resource =>
          schema ← create_revision export cluster resource;
          let outDatedSchemaNames := match names !! gr with
                                     | Some old => {[ old ]} ∪ outDatedSchemaNames
                                     | None => outDatedSchemaNames
                                     end in
          create_revisions export cluster resources l (<[ gr := Name (s_Meta schema) ]> names) outDatedSchemaNames
      end
  end.

Definition update_list (export : APIExport) (cluster : string) (names : gmap GroupResource string) : EM unit :=
  let l := (range_map names).*2 in
  if decide (LatestResourceSchemas export = l) then mret tt
  else updateAPIExport cluster (with_schemas export l).
Definition delete_outdated (cluster schemaName : string) : EM unit :=
  r ← try (deleteAPIResourceSchema cluster schemaName);
  match r with
  | inl err => if IsNotFound err then mret tt else fail err
  | inr _ => mret tt
  end.
(** [schemaReconciler.reconcile], the only reconciler. *)
Definition reconcile (export : APIExport) : EM unit :=
  let cluster := ClusterFrom (e_Meta export) in
  if negb (bool_decide (Name (e_Meta export) = ImportedAPISExportName)) then mret tt
  else
    resources ← cached (fun h => negotiatedAPIResourceLister c h cluster);
    match resources with
    | [] => mret tt
    | _ =>
        let resources := resourcesByResourceGroup resources in
        p ← check_schemas cluster resources (LatestResourceSchemas export)
              {| upToDateResourceGroups := ∅; expectedResourceGroups := ∅; schemaNamesByResourceGroup := ∅ |};
        '(names, outDated) ← create_revisions export cluster resources
              (set_list (expectedResourceGroups p ∖ upToDateResourceGroups p))
              (schemaNamesByResourceGroup p) ∅;
        update_list export cluster names;;
        for_each (set_range outDated) (delete_outdated cluster)
    end.

(** ** [workload_apiexport_controller.go] *)

Definition process (key : string) : EM unit :=
  match SplitMetaClusterNamespaceKey key with
  | inl err => emit (EvHandleError err)
  | inr (clusterName, _, name) =>
      r ← try (cached (fun h => apiExportsLister c h clusterName name));
      match r with
      | inl err => if IsNotFound err then mret tt else fail err
      | inr export => reconcile export
      end
  end.
Definition processNextWorkItem (key : string) : EM unit :=
  Workqueue.processNextWorkItem (fun key => process key;; mret false) key.

(** The events of the exports go through a filter on the name; those of negotiated
    resources and SyncTargets queue the export of their cluster. *)
Definition enqueueAPIExport (obj : ObjectMeta) : EM unit :=
  if decide (Name obj = ImportedAPISExportName) then Workqueue.enqueue obj else mret tt.
Definition enqueue_export_of (obj : ObjectMeta) : EM unit := fun h =>
  (match apiExportsLister c h (ClusterFrom obj) ImportedAPISExportName with
   | inl err => if IsNotFound err then mret tt
                else emit (EvHandleError (ErrWrap "failed to get APIExport" err))
   | inr export => Workqueue.enqueue (e_Meta export)
   end) h.
Definition enqueueNegotiatedAPIResource (obj : NegotiatedAPIResource) : EM unit := enqueue_export_of (n_Meta obj).
Definition enqueueSyncTarget (obj : SyncTarget) : EM unit := enqueue_export_of (st_Meta obj).
End reconciler.

(** * Theorems *)

Definition dotless (s : string) : Prop := "."%char ∉ String.list_ascii_of_string s.

Lemma ParseAPIResourceSchemaName_spec prefix resource group :
  dotless prefix -> dotless resource ->
  ParseAPIResourceSchemaName (prefix +:+ "." +:+ resource +:+ "." +:+ group) =
    Some {| gr_Resource := resource; gr_Group := group |}.
Proof.
  intros Hp Hr. unfold ParseAPIResourceSchemaName. cbn [SplitN].
  change (prefix +:+ "." +:+ ?r) with (prefix +:+ String "." "" +:+ r).
  rewrite (Cut_first prefix "." "" _ Hp).
  change (resource +:+ "." +:+ ?r) with (resource +:+ String "." "" +:+ r).
  by rewrite (Cut_first resource "." "" group Hr).
Qed.
Lemma ParseAPIResourceSchemaName_dotless name gr :
  ParseAPIResourceSchemaName name = Some gr -> dotless (gr_Resource gr).
Proof.
  unfold ParseAPIResourceSchemaName. cbn [SplitN].
  destruct (Cut name ".") as [[p s]|]; [|done].
  destruct (Cut s ".") as [[r g]|] eqn:E; [|done]. intros [= <-]. by eapply Cut_before.
Qed.

Section reconciler_theorems.
Context {EL : ErrorLib} {CL : ClusterLib} {SC : SchemaCompatLib} {GL : GroupResourceLib}.
Context {MO : MapOrder} {KR : KeyOrder GroupResource} {EqS : DeepEq APIResourceSchemaSpec}.
Variable c : Controller.

(** Versions of objects and names of resources hold no dots. *)
Definition names_ok (r : NegotiatedAPIResource) : Prop :=
  dotless (ResourceVersion (n_Meta r)) /\ dotless (Plural (cs_Names (n_Spec r))).
(** The name of a revision tells what it is a revision of. *)
Lemma revision_names_of r :
  names_ok r -> ParseAPIResourceSchemaName (revision_name r) = Some (resource_key r).
Proof.
  intros [Hv Hp]. unfold revision_name. rewrite <-(string_app_assoc "rev-").
  apply ParseAPIResourceSchemaName_spec; [|done]. intros H. cbn in H.
  by do 4 (apply elem_of_cons in H as [H|H]; [discriminate H|]).
Qed.

Lemma resources_lookup l gr r :
  resourcesByResourceGroup l !! gr = Some r -> r ∈ l /\ resource_key r = gr.
Proof.
  unfold resourcesByResourceGroup.
  assert (H : forall m : gmap GroupResource NegotiatedAPIResource,
    foldl (fun m r => <[ resource_key r := r ]> m) m l !! gr = Some r ->
    m !! gr = Some r \/ r ∈ l /\ resource_key r = gr).
  { induction l as [|x l IH]; intros m; [by left|]. cbn. intros [H|[H1 H2]]%IH.
    - apply lookup_insert_Some in H as [[<- <-]|[_ H]]; [right; split; [apply list_elem_of_here|done]|by left].
    - right. split; [by apply list_elem_of_further|done]. }
  intros [H'|H']%H; [by rewrite lookup_empty in H'|done].
Qed.

(** ** The two loops *)

(** A schema is up to date when it is there and has the content of the negotiated
    resource. *)
Definition current (h : history) (cluster name : string) (r : NegotiatedAPIResource) : Prop :=
  exists s, apiResourceSchemaLister c h cluster name = inr s /\
    deep_equal (s_Spec s) (s_Spec (toAPIResourceSchema r "")) = true.
Record scanned (listed : list string) (resources : gmap GroupResource NegotiatedAPIResource) (p : scan) : Prop := {
  scanned_names gr n : schemaNamesByResourceGroup p !! gr = Some n ->
    n ∈ listed /\ ParseAPIResourceSchemaName n = Some gr;
  scanned_expected s : s ∈ expectedResourceGroups p -> exists gr n, s = GR_String gr /\
    schemaNamesByResourceGroup p !! gr = Some n;
}.
Lemma check_schema_scanned cluster resources listed p name h h' p' :
  name ∈ listed -> scanned listed resources p ->
  check_schema c cluster resources p name h = (h', Ok p') ->
  scanned listed resources p' /\ upToDateResourceGroups p ⊆ upToDateResourceGroups p' /\
  (forall gr r, ParseAPIResourceSchemaName name = Some gr -> resources !! gr = Some r ->
     current h cluster name r -> GR_String gr ∈ upToDateResourceGroups p').
Proof.
  intros Hn [Hs He]. unfold check_schema.
  destruct (ParseAPIResourceSchemaName name) as [gr|] eqn:Hp; [|by intros [= <- <-]].
  assert (Hexp : scanned listed resources (expect p gr name)).
  { constructor; cbn.
    - intros gr' n. rewrite lookup_insert_Some. intros [[<- <-]|[_ H]]; [done|by apply Hs].
    - intros s [->%elem_of_singleton|H]%elem_of_union.
      + exists gr, name. by rewrite lookup_insert_eq.
      + destruct (He s H) as (gr' & n & -> & Hn'). destruct (decide (gr' = gr)) as [->|].
        * exists gr, name. by rewrite lookup_insert_eq.
        * exists gr', n. by rewrite lookup_insert_ne. }
  assert (Hup : scanned listed resources (up_to_date (expect p gr name) gr)) by (destruct Hexp; by constructor).
  intros H. apply bind_inv in H as (h1 & res & Hget & H).
  assert (Hcur : forall r, current h cluster name r -> exists s, res = inr s /\
    deep_equal (s_Spec s) (s_Spec (toAPIResourceSchema r "")) = true).
  { intros r (s & Hl & Hd). exists s. split; [|done]. unfold getAPIResourceSchema, cached, try, mbind, M_bind in Hget.
    rewrite Hl in Hget. by injection Hget. }
  destruct res as [err|s].
  { destruct (IsNotFound err); [|done]. injection H as _ <-. split; [done|]. split; [done|].
    intros gr' r _ _ Hc. by destruct (Hcur r Hc) as (? & ? & _). }
  destruct (resources !! gr) as [r|] eqn:Hr.
  - destruct (deep_equal _ _) eqn:Hd; injection H as _ <-; (split; [done|]); (split; [cbn; set_solver|]).
    + intros gr' r' [= <-] _ _. cbn. set_solver.
    + intros gr' r' [= <-] Hr' Hc. rewrite Hr in Hr'. injection Hr' as <-.
      destruct (Hcur r Hc) as (s' & [= <-] & Hd'). congruence.
  - injection H as _ <-. split; [done|]. split; [done|]. intros gr' r' [= <-] Hr' _. congruence.
Qed.
Lemma check_schemas_scanned cluster resources listed l : forall p h h' p',
  (forall n, n ∈ l -> n ∈ listed) -> scanned listed resources p ->
  check_schemas c cluster resources l p h = (h', Ok p') ->
  scanned listed resources p' /\ upToDateResourceGroups p ⊆ upToDateResourceGroups p' /\
  (forall n gr r, n ∈ l -> ParseAPIResourceSchemaName n = Some gr -> resources !! gr = Some r ->
     (forall h, current h cluster n r) -> GR_String gr ∈ upToDateResourceGroups p').
Proof.
  induction l as [|n l IH]; intros p h h' p' Hl Hp H.
  { injection H as _ <-. split; [done|]. split; [done|]. by intros n gr r ?%elem_of_nil. }
  cbn [check_schemas] in H. apply bind_inv in H as (h1 & p1 & H1 & H).
  destruct (check_schema_scanned _ _ _ _ _ _ _ _ (Hl n (list_elem_of_here _ _)) Hp H1) as (Hp1 & Hsub1 & Hup1).
  destruct (IH p1 h1 h' p') as (Hp' & Hsub & Hup); [|done|done|].
  { intros. by apply Hl, list_elem_of_further. }
  split; [done|]. split; [set_solver|].
  intros m gr r [->|Hm]%elem_of_cons Hpar Hr Hc; [|by eapply Hup]. apply Hsub. by eapply Hup1.
Qed.

(** What the second loop does to the names: an outdated name makes way for that of
    the current revision. *)
Record revised (resources : gmap GroupResource NegotiatedAPIResource) (groups : list string)
    (names0 names : gmap GroupResource string) (outDated : gset string) : Prop := {
  revised_out n : n ∈ outDated -> exists s gr r, s ∈ groups /\ ParseGroupResource s = gr /\
    names0 !! gr = Some n /\ resources !! gr = Some r /\ names !! gr = Some (revision_name r);
  revised_names gr n : names !! gr = Some n ->
    names0 !! gr = Some n \/ exists r, resources !! gr = Some r /\ n = revision_name r;
}.
(** The schemas that are read and made have the names that were asked for. *)
Hypothesis names_kept :
  (forall h cl n s, apiResourceSchemaLister c h cl n = inr s -> Name (s_Meta s) = n) /\
  (forall h cl n s, GetAnswer c (h ++ [EvCall (GetSchemaLive cl n)]) = inr s -> Name (s_Meta s) = n) /\
  (forall h cl s s', CreateAnswer c (h ++ [EvCall (CreateSchema cl s)]) = inr s' -> Name (s_Meta s') = Name (s_Meta s)).

Lemma getAPIResourceSchema_name cluster name h h' s :
  getAPIResourceSchema c cluster name h = (h', Ok s) -> Name (s_Meta s) = name.
Proof.
  destruct names_kept as (Hl & Hg & _). intros H. apply bind_inv in H as (h1 & r & Hr & H).
  unfold cached, try in Hr. destruct r as [err|s'].
  - destruct (IsNotFound err); [|done]. unfold call in H. injection H as _ H.
    destruct (GetAnswer c _) eqn:E; [done|]. injection H as <-. by eapply Hg.
  - injection H as _ <-. destruct (apiResourceSchemaLister c h cluster name) eqn:E; [discriminate Hr|].
    cbn in Hr. injection Hr as _ <-. by eapply Hl.
Qed.
Lemma create_revision_name export cluster r h h' s :
  create_revision c export cluster r h = (h', Ok s) -> Name (s_Meta s) = revision_name r.
Proof.
  destruct names_kept as (_ & _ & Hc). intros H. apply bind_inv in H as (h1 & res & Hr & H).
  destruct res as [err|s'].
  - destruct (IsAlreadyExists err); [|done]. by eapply getAPIResourceSchema_name.
  - injection H as _ <-. unfold createAPIResourceSchema, call, try in Hr.
    destruct (CreateAnswer c _) eqn:E; [discriminate Hr|]. cbn in Hr. injection Hr as _ <-. by apply Hc in E.
Qed.
Lemma create_revisions_revised export cluster resources groups names0 l : forall names out h h' names' out',
  (forall s, s ∈ l -> s ∈ groups) -> NoDup (ParseGroupResource <$> l) ->
  (forall s, s ∈ l -> names !! ParseGroupResource s = names0 !! ParseGroupResource s) ->
  revised resources groups names0 names out ->
  create_revisions c export cluster resources l names out h = (h', Ok (names', out')) ->
  revised resources groups names0 names' out'.
Proof.
  induction l as [|s l IH]; intros names out h h' names' out' Hl Hnd Hsame [H1 H2] H.
  { injection H as _ <- <-. by constructor. }
  cbn [create_revisions] in H. apply NoDup_cons in Hnd as [Hs Hnd].
  set (gr := ParseGroupResource s) in *.
  destruct (resources !! gr) as [r|] eqn:Hr.
  2: { eapply IH; [|exact Hnd| |by constructor|exact H].
       - intros. by apply Hl, list_elem_of_further.
       - intros. by apply Hsame, list_elem_of_further. }
  apply bind_inv in H as (h1 & sch & Hc & H). rewrite (create_revision_name _ _ _ _ _ _ Hc) in H.
  eapply IH; [|exact Hnd| | |exact H].
  - intros. by apply Hl, list_elem_of_further.
  - intros s' Hs'. rewrite lookup_insert_ne; [by apply Hsame, list_elem_of_further|].
    intros E. apply Hs. rewrite E. by apply list_elem_of_fmap_2.
  - constructor.
    + intros n Hn. assert (Hn' : n ∈ out \/ names !! gr = Some n).
      { destruct (names !! gr); [|by left]. apply elem_of_union in Hn as [->%elem_of_singleton|]; [by right|by left]. }
      destruct Hn' as [Hn'|Hn'].
      * destruct (H1 n Hn') as (s' & gr' & r' & Hin & Hp & Hn0 & Hr' & Hnew). exists s', gr', r'.
        split; [done|]. split; [done|]. split; [done|]. split; [done|]. destruct (decide (gr' = gr)) as [->|].
        { rewrite lookup_insert_eq. congruence. }
        by rewrite lookup_insert_ne.
      * exists s, gr, r. split; [apply Hl, list_elem_of_here|]. split; [done|].
        split; [by etransitivity; [symmetry; apply (Hsame s), list_elem_of_here|]|]. split; [done|]. by rewrite lookup_insert_eq.
    + intros gr' n. rewrite lookup_insert_Some. intros [[<- <-]|[_ Hn]]; [right; by exists r|by apply H2].
Qed.

(** ** The pass *)

Definition deletes_what_is_replaced (export : APIExport) (h : list (event export_call)) (e : event export_call) : Prop :=
  match e with
  | EvCall (DeleteSchema cl n) =>
      cl = ClusterFrom (e_Meta export) /\ (n ∈ LatestResourceSchemas export) /\
      exists e', (EvCall (UpdateExport cl e') ∈ h) /\ (n ∉ LatestResourceSchemas e') /\
        exists r, (revision_name r ∈ LatestResourceSchemas e') /\
          ParseAPIResourceSchemaName n = Some (resource_key r)
  | EvCall (CreateSchema cl s) => cl = ClusterFrom (e_Meta export) /\
      exists r, s = owned_by_export export (toAPIResourceSchema r (revision_name r))
  | EvCall (UpdateExport cl e') => cl = ClusterFrom (e_Meta export)
  | _ => True
  end.

Lemma get_guarded export cluster name h :
  guarded (deletes_what_is_replaced export) (getAPIResourceSchema c cluster name) h.
Proof.
  unfold getAPIResourceSchema. apply guarded_bind; [by apply guarded_try, guarded_quiet|].
  intros h' r _. by repeat guarded_step.
Qed.
Lemma check_schemas_guarded export cluster resources l p h :
  guarded (deletes_what_is_replaced export) (check_schemas c cluster resources l p) h.
Proof.
  revert p h. induction l as [|n l IH]; intros p h; [apply guarded_ret|]. cbn [check_schemas].
  apply guarded_bind; [|intros h' p' _; apply IH]. unfold check_schema.
  destruct (ParseAPIResourceSchemaName n); [|apply guarded_ret].
  apply guarded_bind; [apply guarded_try, get_guarded|]. intros h' r _. by repeat guarded_step.
Qed.
Lemma create_revisions_guarded export resources l names out h :
  guarded (deletes_what_is_replaced export)
    (create_revisions c export (ClusterFrom (e_Meta export)) resources l names out) h.
Proof.
  revert names out h. induction l as [|s l IH]; intros names out h; [apply guarded_ret|]. cbn [create_revisions].
  destruct (resources !! ParseGroupResource s) as [r|]; [|apply IH].
  apply guarded_bind; [|intros; apply IH]. unfold create_revision.
  apply guarded_bind; [apply guarded_try, guarded_call; split; [done|by exists r]|].
  intros h' res _. destruct res; [|apply guarded_ret]. destruct (IsAlreadyExists _); [apply get_guarded|apply guarded_fail].
Qed.

Lemma groups_distinct p :
  (forall s, s ∈ expectedResourceGroups p -> exists gr n, s = GR_String gr /\
     schemaNamesByResourceGroup p !! gr = Some n) ->
  (forall gr n, schemaNamesByResourceGroup p !! gr = Some n -> dotless (gr_Resource gr)) ->
  NoDup (ParseGroupResource <$> set_list (expectedResourceGroups p ∖ upToDateResourceGroups p)).
Proof.
  intros He Hd. apply NoDup_fmap_2_strong; [|apply NoDup_set_list].
  intros s s' Hs Hs' E. apply elem_of_set_list, elem_of_difference in Hs as [Hs _].
  apply elem_of_set_list, elem_of_difference in Hs' as [Hs' _].
  destruct (He s Hs) as (gr & n & -> & Hn), (He s' Hs') as (gr' & n' & -> & Hn').
  rewrite !Parse_String in E by (by eapply Hd). by rewrite E.
Qed.

(** The names that are left after the second loop hold no outdated one. *)
Lemma outdated_is_replaced listed resources p names out n :
  (forall gr r, resources !! gr = Some r -> resource_key r = gr /\ names_ok r) ->
  (forall gr r n, resources !! gr = Some r -> n ∈ listed -> n = revision_name r ->
     GR_String gr ∈ upToDateResourceGroups p) ->
  scanned listed resources p ->
  revised resources (set_list (expectedResourceGroups p ∖ upToDateResourceGroups p))
    (schemaNamesByResourceGroup p) names out ->
  n ∈ out ->
  n ∈ listed /\ (n ∉ (range_map names).*2) /\
  exists r, (revision_name r ∈ (range_map names).*2) /\ ParseAPIResourceSchemaName n = Some (resource_key r).
Proof.
  intros Hres Hcur [Hs He] [Ho Hn] Hin.
  destruct (Ho n Hin) as (s & gr & r & Hset & Hp & Hn0 & Hr & Hnew).
  apply elem_of_set_list, elem_of_difference in Hset as [Hexp Hup].
  destruct (Hs gr n Hn0) as [Hlisted Hparse]. destruct (Hres gr r Hr) as [Hkey Hok].
  assert (Hs' : s = GR_String gr).
  { destruct (He s Hexp) as (gr' & n' & Es & Hn'). destruct (Hs gr' n' Hn') as [_ Hp'].
    rewrite <-Hp, Es, Parse_String; [done|]. by eapply ParseAPIResourceSchemaName_dotless. }
  split; [done|]. split.
  - intros ([gr' n'] & E & Hin')%list_elem_of_fmap. cbn in E. subst n'. apply elem_of_range_map in Hin'.
    destruct (Hn gr' n Hin') as [Hold|(r' & Hr' & E)].
    + destruct (Hs gr' n Hold) as [_ Hp']. assert (gr' = gr) as -> by congruence.
      rewrite Hnew in Hin'. injection Hin' as E. apply Hup. rewrite Hs'. by eapply Hcur.
    + destruct (Hres gr' r' Hr') as [Hkey' Hok']. pose proof (revision_names_of r' Hok') as Hp'.
      rewrite <-E in Hp'. assert (gr' = gr) as -> by congruence. apply Hup. rewrite Hs'. by eapply Hcur.
  - exists r. split; [|by rewrite Hkey]. apply list_elem_of_fmap. exists (gr, revision_name r).
    split; [done|]. by apply elem_of_range_map.
Qed.
Lemma update_list_sent export names h h' n :
  n ∈ LatestResourceSchemas export -> n ∉ (range_map names).*2 ->
  update_list c export (ClusterFrom (e_Meta export)) names h = (h', Ok tt) ->
  EvCall (UpdateExport (ClusterFrom (e_Meta export)) (with_schemas export (range_map names).*2)) ∈ h'.
Proof.
  intros Hn Hn'. unfold update_list. destruct (decide _) as [E|]; [by rewrite E in Hn|].
  unfold updateAPIExport, call. intros [= <- _]. apply elem_of_app. right. by apply list_elem_of_singleton.
Qed.


Lemma range_singleton (gr : GroupResource) (n : string) :
  (range_map ({[ gr := n ]} : gmap GroupResource string)).*2 = [n].
Proof.
  assert (H : range_map ({[ gr := n ]} : gmap GroupResource string) ≡ₚ [(gr, n)]).
  { rewrite range_map_perm. by rewrite map_to_list_singleton. }
  apply Permutation_singleton_r in H. by rewrite H.
Qed.
Lemma set_range_singleton (n : string) : set_range ({[ n ]} : gset string) = [n].
Proof.
  apply Permutation_singleton_r. apply NoDup_Permutation; [apply NoDup_set_range|apply NoDup_singleton|].
  intros x. by rewrite elem_of_set_range, elem_of_singleton, list_elem_of_singleton.
Qed.
Lemma sorted_singleton (n : string) : set_list ({[ n ]} : gset string) = [n].
Proof. unfold set_list. by rewrite elements_singleton. Qed.

(** Without that premise it goes wrong: when the schema that the export lists is
    gone, and the negotiated resource has not changed since, the pass makes the
    schema again under the same name, and then deletes it as outdated. The pass
    succeeds, so that nothing makes it again. *)
Theorem recreated_schema_is_deleted export r h :
  let cl := ClusterFrom (e_Meta export) in
  let name := revision_name r in
  Name (e_Meta export) = ImportedAPISExportName -> LatestResourceSchemas export = [name] -> names_ok r ->
  (forall h, negotiatedAPIResourceLister c h cl = inr [r]) ->
  (forall h, exists e, apiResourceSchemaLister c h cl name = inl e /\ IsNotFound e = true) ->
  (forall h, exists e, GetAnswer c h = inl e /\ IsNotFound e = true) ->
  (forall h cl s, CreateAnswer c (h ++ [EvCall (CreateSchema cl s)]) = inr s) ->
  (forall h, DeleteAnswer c h = inr tt) ->
  reconcile c export h =
    (h ++ [EvCall (GetSchemaLive cl name);
           EvCall (CreateSchema cl (owned_by_export export (toAPIResourceSchema r name)));
           EvCall (DeleteSchema cl name)], Ok tt).
Proof.
  intros cl name Hname Hlist Hok Hneg Hlister Hget Hcreate Hdelete.
  unfold reconcile. fold cl. rewrite Hname, bool_decide_true by done. cbn [negb].
  unfold cached at 1. unfold mbind at 1, M_bind at 1. rewrite Hneg. cbn [of_result].
  rewrite Hlist. cbn [check_schemas]. unfold check_schema.
  pose proof (revision_names_of r Hok) as Hp. fold name in Hp. rewrite Hp.
  destruct (Hlister h) as (e1 & He1 & Hn1).
  destruct (Hget (h ++ [EvCall (GetSchemaLive cl name)])) as (e2 & He2 & Hn2).
  unfold getAPIResourceSchema, cached, try, call, mbind, M_bind. rewrite He1. cbn [of_result]. rewrite Hn1, He2.
  cbn [of_result]. rewrite Hn2. unfold mret, M_ret. cbn [expect expectedResourceGroups upToDateResourceGroups
    schemaNamesByResourceGroup].
  set (gr := resource_key r).
  rewrite union_empty_r_L, difference_empty_L, sorted_singleton. cbn [create_revisions].
  assert (Hgr : ParseGroupResource (GR_String gr) = gr) by (apply Parse_String; apply Hok).
  rewrite Hgr. assert (Hr : resourcesByResourceGroup [r] !! gr = Some r).
  { unfold resourcesByResourceGroup. cbn. apply lookup_insert_eq. }
  rewrite Hr. unfold create_revision, createAPIResourceSchema, try, call, mbind, M_bind.
  rewrite Hcreate. cbn [of_result]. unfold mret, M_ret. rewrite lookup_insert_eq.
  unfold update_list. cbn [owned_by_export toAPIResourceSchema s_Meta Name mk_meta]. fold name.
  rewrite insert_insert_eq, insert_empty.
  rewrite range_singleton, decide_True by done. rewrite union_empty_r_L, set_range_singleton. cbn [for_each]. unfold delete_outdated, deleteAPIResourceSchema, try, call, mbind, M_bind, mret, M_ret.
  rewrite Hdelete. cbn. by rewrite <-!app_assoc.
Qed.
End reconciler_theorems.

(** * Examples *)

Module Examples.
#[local] Existing Instances simple_errors simple_clusters canonical_order.
#[local] Instance resources_in_order : KeyOrder GroupResource := canonical_range GroupResource.
#[local] Instance schemas_as_text : SchemaCompatLib := {|
  JSONSchemaProps := string; MarshalSchema s := inr (default "" s); UnmarshalSchema := inr;
  EnsureStructuralSchemaCompatibility _ existing _ _ := inr existing;
  CompareKubeAwareVersionStrings _ _ := 0%Z; IsProtectedCommunityGroup _ := false;
  IsCRDConditionTrue _ _ := false; IsCRDConditionFalse _ _ := false;
  GroupVersionString g v := g +:+ "/" +:+ v; MetaGVRString g := gvr_Resource g |}.
#[local] Program Instance group_resources : GroupResourceLib := {|
  GR_String gr := gr_Resource gr +:+ "." +:+ gr_Group gr;
  ParseGroupResource s := match Cut s "." with
                          | Some (r, g) => {| gr_Resource := r; gr_Group := g |}
                          | None => {| gr_Resource := s; gr_Group := "" |}
                          end |}.
Next Obligation.
  intros [g r] H. cbn in *. change (r +:+ "." +:+ g) with (r +:+ String "." "" +:+ g).
  by rewrite (Cut_first r "." "" g H).
Qed.
#[local] Instance APIResourceVersion_eq_dec : EqDecision APIResourceVersion.
Proof. solve_decision. Defined.
#[local] Instance APIResourceSchemaSpec_eq_dec : EqDecision APIResourceSchemaSpec.
Proof. solve_decision. Defined.
#[local] Instance equal_specs : DeepEq APIResourceSchemaSpec := eq_DeepEq.

Definition names : CRDNames := {|
  Plural := "pods"; Singular := "pod"; ShortNames := []; Kind := "Pod"; ListKind := "PodList"; Categories := [] |}.
Definition pods : NegotiatedAPIResource := {|
  n_Meta := SetUIDVersion (mk_meta "pods.v1.core" "" None None []) "uid" "6"; n_Generation := 1%Z;
  n_Spec := {| cs_GroupVersion := {| gv_Group := ""; gv_Version := "v1" |}; cs_Scope := "Namespaced";
    cs_Names := names; cs_OpenAPIV3Schema := "new"; cs_SubResources := ["status"]; cs_ColumnDefinitions := [] |};
  Publish := true; n_Conditions := [] |}.
Lemma pods_ok : names_ok pods.
Proof. apply (bool_decide_unpack _). by vm_compute. Qed.

Definition export (l : list string) : APIExport := {|
  e_Meta := mk_meta "imported-apis" "" None (Some {[ "kcp.io/cluster" := "ws" ]}) [];
  LatestResourceSchemas := l |}.
(** Of the schemas only the former revision is in the cache. *)
Definition old_schema : APIResourceSchema := {|
  s_Meta := mk_meta "rev-5.pods.core" "" None None [];
  s_Spec := {| es_Group := ""; es_Names := names; es_Scope := "Namespaced"; es_Versions := [] |} |}.
Definition created (h : list (event export_call)) : result APIResourceSchema :=
  match last h with Some (EvCall (CreateSchema _ s)) => inr s | _ => inl (ErrMsg "no call") end.
Definition config : Controller := {|
  negotiatedAPIResourceLister _ _ := inr [pods];
  apiResourceSchemaLister _ _ n :=
    if decide (n = "rev-5.pods.core") then inr old_schema else inl (ErrLib "NotFound" "");
  apiExportsLister _ _ _ := inl (ErrLib "NotFound" "");
  GetAnswer _ := inl (ErrLib "NotFound" ""); CreateAnswer := created;
  DeleteAnswer _ := inr tt; UpdateAnswer _ := inr tt |}.
Lemma created_last h cl s : created (h ++ [EvCall (CreateSchema cl s)]) = inr s.
Proof. unfold created. by rewrite last_snoc. Qed.

(** A new revision takes the place of the old one. *)
Example revision_is_replaced :
  (fun e => match e with
            | EvCall (CreateSchema _ s) => "create " +:+ Name (s_Meta s)
            | EvCall (UpdateExport _ e) => "update " +:+ Join (LatestResourceSchemas e) ","
            | EvCall (DeleteSchema _ n) => "delete " +:+ n
            | _ => "" end) <$> (reconcile config (export ["rev-5.pods.core"]) []).1 =
  ["create rev-6.pods.core"; "update rev-6.pods.core"; "delete rev-5.pods.core"].
Proof. by vm_compute. Qed.


Lemma recreated_schema_is_deleted_witness :
  reconcile config (export ["rev-6.pods.core"]) [] =
    ([] ++ [EvCall (GetSchemaLive (ClusterFrom (e_Meta (export ["rev-6.pods.core"]))) (revision_name pods));
            EvCall (CreateSchema (ClusterFrom (e_Meta (export ["rev-6.pods.core"])))
              (owned_by_export (export ["rev-6.pods.core"]) (toAPIResourceSchema pods (revision_name pods))));
            EvCall (DeleteSchema (ClusterFrom (e_Meta (export ["rev-6.pods.core"]))) (revision_name pods))], Ok tt).
Proof.
  apply (recreated_schema_is_deleted config (export ["rev-6.pods.core"]) pods []).
  - reflexivity.
  - reflexivity.
  - exact pods_ok.
  - reflexivity.
  - intros h. by exists (ErrLib "NotFound" "").
  - intros h. by exists (ErrLib "NotFound" "").
  - intros h cl s. apply created_last.
  - reflexivity.
Defined.

(** A name that is not that of a revision is taken off the list. *)
Example other_names_are_dropped :
  (fun e => match e with EvCall (UpdateExport _ e) => LatestResourceSchemas e | _ => [] end)
    <$> (reconcile config (export ["handmade"]) []).1 = [[]].
Proof. by vm_compute. Qed.
End Examples.
