(* ===== verification/UpsyncerStorage.v ===== *)
(** * The storage of upsynced objects ([tmc/virtual/syncer/upsyncer])

    What the upsyncer writes goes through a transformer, which applies the JSON
    patch that the object carries for its SyncTarget, and through a storage that
    refuses objects without the state label of the SyncTarget. *)

From S2P Require Import Prelude Platform GoTime ApiTypes Json JsonValue SyncerShared SpecSync Transformer.

(** ** Strings *)

(** [strings.Contains]. *)
Definition Contains (s sub : string) : bool := bool_decide (is_Some (Cut s sub)).

(** ** [transformer.go] *)

Definition UpsyncDiffAnnotationPrefix : string := "internal.workload.kcp.io/upsyncdiff".
Definition upsync_diff (syncTargetKey : string) : string := UpsyncDiffAnnotationPrefix +:+ syncTargetKey.
Definition forbidden (diffPatch : string) : bool :=
  let lowerPatch := ToLower diffPatch in
  Contains lowerPatch "/metadata" || Contains lowerPatch "/apiversion" || Contains lowerPatch "/kind".

Section transformer.
Context {JP : JsonPatchLib}.
(** [json.Marshal] of an object, and [json.Unmarshal] into a pointer to one. *)
Variable Marshal : Unstructured -> result string.
Variable Unmarshal : string -> result (option Unstructured).

Definition AfterRead (upstreamResource : Unstructured) : result Unstructured := inr upstreamResource.
Definition BeforeWrite (ctx : Context) (syncerViewResource : Unstructured) : res Unstructured :=
  syncTargetKey ← of_result (SyncTargetKeyFrom ctx);
  let diffPatch := map_index (GetAnnotations syncerViewResource) (upsync_diff syncTargetKey) in
  if decide (diffPatch = "") then Ok syncerViewResource
  else if forbidden diffPatch then
    Err (ErrMsg "metadata, apiversion or kind cannot be modified by a transformation")
  else
    apply ← of_result (DecodePatch diffPatch);
    upstreamResourceJSON ← of_result (Marshal syncerViewResource);
    patchedUpstreamResourceJSON ← of_result (apply upstreamResourceJSON);
    newResource ← of_result (Unmarshal patchedUpstreamResourceJSON);
    match newResource with
    | None => Panic "invalid memory address or nil pointer dereference"
    | Some newResource =>
        Ok (SetAnnotations newResource (map_delete (GetAnnotations newResource) (upsync_diff syncTargetKey)))
    end.
End transformer.

(** ** [storage_wrapper.go] *)

(** The calls to the storage underneath; an update computes the new object from the
    old one. *)
Inductive storage_call :=
  | StoreCreate (obj : Unstructured)
  | StoreUpdate (name : string) (objInfo : Unstructured -> result Unstructured).
Section storage.
Context {EL : ErrorLib}.
(** [labels.Everything().Add(labelSelector...).Matches], and the answers of the
    storage underneath. *)
Variable Matches : gmap string string -> bool.
Variable CreaterFunc : list storage_call -> result Unstructured.
Variable UpdaterFunc : list storage_call -> result (Unstructured * bool).

Definition labels_match (obj : Unstructured) : bool := Matches (entries (GetLabels obj)).
Definition bad_request : error := ErrLib "BadRequest" "label selector does not match labels".
Definition Create (obj : Unstructured) : M storage_call Unstructured :=
  if negb (labels_match obj) then fail bad_request else call (StoreCreate obj) CreaterFunc.
(** The old object is not known here: an empty one is used. *)
Definition empty_object : Unstructured :=
  {| u_meta := mk_meta "" "" None None []; u_more := ∅; u_content := ∅ |}.
Definition Update (name : string) (objInfo : Unstructured -> result Unstructured)
    : M storage_call (Unstructured * bool) :=
  match objInfo empty_object with
  | inl err => if IsNotFound err then call (StoreUpdate name objInfo) UpdaterFunc else fail err
  | inr obj => if negb (labels_match obj) then fail bad_request
               else call (StoreUpdate name objInfo) UpdaterFunc
  end.
End storage.

(** * Theorems *)

Lemma Contains_spec s sub : Contains s sub = true <-> exists a b, s = a +:+ sub +:+ b.
Proof.
  unfold Contains. rewrite bool_decide_eq_true. split.
  - intros [[a b] H]. exists a, b. revert a b H. induction s as [|x s IH]; intros a b; cbn [Cut].
    + destruct (strip_prefix sub "") eqn:E; [|done]. intros [= <- <-]. by apply strip_prefix_Some in E.
    + destruct (strip_prefix sub (String x s)) eqn:E.
      { intros [= <- <-]. by apply strip_prefix_Some in E. }
      destruct (Cut s sub) as [[a' b']|]; [|done]. intros [= <- <-]. rewrite string_app_cons. f_equal. by apply IH.
  - intros (a & b & ->). induction a as [|x a IH].
    + change ("" +:+ sub +:+ b) with (sub +:+ b). destruct (sub +:+ b) eqn:E; cbn [Cut];
        rewrite (proj2 (strip_prefix_Some sub _ b)) by done; by eexists.
    + rewrite string_app_cons. cbn [Cut]. destruct (strip_prefix sub _); [by eexists|].
      destruct IH as [[a' b'] ->]. by eexists.
Qed.

Section theorems.
Context {JP : JsonPatchLib} {EL : ErrorLib}.
Variable Marshal : Unstructured -> result string.
Variable Unmarshal : string -> result (option Unstructured).
Variable Matches : gmap string string -> bool.

(** The patch of an object, where it can be applied, leaves name, namespace and labels. *)
Definition patch_keeps_identity (obj : Unstructured) (diffPatch : string) : Prop :=
  forall apply j j' obj', DecodePatch diffPatch = inr apply -> Marshal obj = inr j -> apply j = inr j' ->
    Unmarshal j' = inr (Some obj') ->
    GetName obj' = GetName obj /\ GetNamespace obj' = GetNamespace obj /\ GetLabels obj' = GetLabels obj.

(** An object that the upsyncer creates reaches the workspace under its own name
    and with the state label of the SyncTarget, and without the patch that it
    carried: the storage lets through only what has the label, and the transformer
    refuses a patch that names metadata. What the patch does has to be assumed: the
    refusal looks at its text only. *)
Theorem upsynced_objects_carry_the_label ctx k obj stored h h' created answer :
  SyncTargetKeyFrom ctx = inr k ->
  Create Matches answer obj h = (h', created) -> h' <> h ->
  BeforeWrite Marshal Unmarshal ctx obj = Ok stored ->
  patch_keeps_identity obj (map_index (GetAnnotations obj) (upsync_diff k)) ->
  h' = h ++ [StoreCreate obj] /\ Matches (entries (GetLabels stored)) = true /\
  GetName stored = GetName obj /\ GetNamespace stored = GetNamespace obj /\
  map_index (GetAnnotations stored) (upsync_diff k) = "".
Proof.
  intros Hk Hc Hne Hb Hp. unfold Create in Hc.
  assert (Hl : labels_match Matches obj = true /\ h' = h ++ [StoreCreate obj]).
  { destruct (labels_match Matches obj); cbn in Hc; injection Hc as <- _; done. }
  destruct Hl as [Hl ->]. split; [done|]. clear Hc Hne.
  unfold BeforeWrite in Hb. rewrite Hk in Hb. cbn in Hb.
  set (diff := map_index (GetAnnotations obj) (upsync_diff k)) in *.
  destruct (decide (diff = "")) as [Hd|Hd].
  { injection Hb as <-. done. }
  destruct (forbidden diff); [done|].
  destruct (DecodePatch diff) as [|apply] eqn:E1; [done|]. cbn in Hb.
  destruct (Marshal obj) as [|j] eqn:E2; [done|]. cbn in Hb.
  destruct (apply j) as [|j'] eqn:E3; [done|]. cbn in Hb.
  destruct (Unmarshal j') as [|[obj'|]] eqn:E4; [done| |done]. cbn in Hb. injection Hb as <-.
  destruct (Hp apply j j' obj' E1 E2 E3 E4) as (Hn & Hns & Hlab).
  split; [|split; [done|split; [done|]]].
  - unfold labels_match in Hl. by rewrite <-Hlab in Hl.
  - unfold map_index, GetAnnotations, SetAnnotations, on_meta, with_annotations. cbn.
    by rewrite map_get_delete, decide_True.
Qed.

(** The check of an update: the object is made from an empty one, and the update
    goes on when it has the labels, and also when making it answers NotFound, as a
    patch of a missing object does: then nothing is known of the labels that the
    update gives to the object that is there. *)
Theorem updates_are_checked_on_an_empty_object answer name objInfo h :
  exists r, Update Matches answer name objInfo h = (h ++ r.1, r.2) /\
  (r.1 = [StoreUpdate name objInfo] <->
     match objInfo empty_object with
     | inl err => IsNotFound err = true
     | inr obj => Matches (entries (GetLabels obj)) = true
     end) /\
  (r.1 = [] <-> exists err, r.2 = Err err /\
     match objInfo empty_object with
     | inl err' => IsNotFound err' = false /\ err = err'
     | inr obj => Matches (entries (GetLabels obj)) = false /\ err = bad_request
     end).
Proof.
  unfold Update, labels_match, call, fail. destruct (objInfo empty_object) as [err|obj].
  - destruct (IsNotFound err).
    + eexists ([_], _). split; [done|]. split; [done|]. split; [done|]. by intros (? & _ & ? & _).
    + exists ([], Err err). cbn. rewrite app_nil_r. split; [done|]. split; [done|]. split; [|done].
      intros _. by exists err.
  - destruct (Matches (entries (GetLabels obj))).
    + eexists ([_], _). split; [done|]. split; [done|]. split; [done|]. by intros (? & _ & ? & _).
    + exists ([], Err bad_request). cbn. rewrite app_nil_r. split; [done|]. split; [done|].
      split; [|done]. intros _. by exists bad_request.
Qed.
End theorems.

(** * Examples *)

Module Examples.
#[local] Existing Instances simple_errors Transformer.Examples.no_patch.
Definition key : string := "k".
Definition ctx : Context := {| APIDomainKey := "ws|t"; ctx_SyncTargetKey := Some key |}.
Definition selects (l : gmap string string) : bool := bool_decide (l !! state_label key = Some "Upsync").
Definition volume (l : gomap) : Unstructured := {|
  u_meta := mk_meta "pv" "" l (Some {[ upsync_diff key := "[]" ]}) []; u_more := ∅; u_content := ∅ |}.
Definition labelled : Unstructured := volume (Some {[ state_label key := "Upsync" ]}).
Definition marshal (_ : Unstructured) : result string := inr "{}".
Definition unmarshal (_ : string) : result (option Unstructured) := inr (Some labelled).
Definition answer (_ : list storage_call) : result Unstructured := inr labelled.
Definition stored : Unstructured :=
  match BeforeWrite marshal unmarshal ctx labelled with Ok o => o | _ => labelled end.

Lemma upsynced_objects_carry_the_label_witness :
  [StoreCreate labelled] = [] ++ [StoreCreate labelled] /\ selects (entries (GetLabels stored)) = true /\
  GetName stored = GetName labelled /\ GetNamespace stored = GetNamespace labelled /\
  map_index (GetAnnotations stored) (upsync_diff key) = "".
Proof.
  apply (upsynced_objects_carry_the_label marshal unmarshal selects ctx key labelled stored []
           [StoreCreate labelled] (Ok labelled) answer).
  - reflexivity.
  - by vm_compute.
  - discriminate.
  - by vm_compute.
  - intros apply j j' obj' _ _ _ [= <-]. done.
Defined.
(** A patch that drops the label: unknown of an empty object, it is not refused. *)
Definition drop_label (old : Unstructured) : result Unstructured :=
  if decide (GetName old = "") then inl (ErrLib "NotFound" "pv") else inr (volume None).
Example dropping_the_label_passes answer :
  fst (Update selects answer "pv" drop_label []) = [StoreUpdate "pv" drop_label] /\
  drop_label labelled = inr (volume None) /\ labels_match selects labelled = true /\
  labels_match selects (volume None) = false.
Proof. by vm_compute. Qed.

(** The slash of a path can be written as an escape; the text passes. *)
Definition escaped : string :=
  let q := String (ascii_of_nat 34) "" in
  let slash := String (ascii_of_nat 92) "u002f" in
  "[{" +:+ q +:+ "op" +:+ q +:+ ":" +:+ q +:+ "remove" +:+ q +:+ "," +:+
  q +:+ "path" +:+ q +:+ ":" +:+ q +:+ slash +:+ "metadata" +:+ slash +:+ "labels" +:+ q +:+ "}]".
Example escaped_path_passes :
  forbidden escaped = false /\
  parse escaped = inr (JArray [JObject [("op", JString "remove"); ("path", JString "/metadata/labels")]]).
Proof. by vm_compute. Qed.
End Examples.
