(* ===== verification/NsMap.v ===== *)
(** * The name server's plugin ([pkg/dns/plugin/nsmap], [third_party/coredns])

    The nameserver of a workspace answers for the namespaces of the workspace: the
    plugin replaces, in a query, the upstream namespace by the downstream one that
    the table of the workspace gives, and undoes this in the answer. *)

From S2P Require Import Prelude Platform GoPath ApiTypes Transformer SyncerShared SpecSync DownstreamNamespace.
Local Open Scope nat_scope.

(** ** Names and records ([name.go]) *)

Record RemapStringRewriter := { orig : string; replacement : string }.
Definition rewriteString (r : RemapStringRewriter) (src : string) : string :=
  if decide (src = orig r) then replacement r else src.

(** [dns.RR]: the name in its header, the type with the field that holds a name, and
    the other fields. *)
Inductive RecordData :=
  | SRV (Target : string) | MX (Mx : string) | CNAME (Target : string) | NS (Ns : string)
  | DNAME (Target : string) | NAPTR (Replacement : string) | SOA (Ns : string) | OtherType.
Record RR := { rr_Name : string; rr_Data : RecordData; rr_more : list string }.

Definition getRecordValueForRewrite (rr : RR) : string :=
  match rr_Data rr with
  | SRV n | MX n | CNAME n | NS n | DNAME n | NAPTR n | SOA n => n
  | OtherType => ""
  end.
Definition with_value (d : RecordData) (value : string) : RecordData :=
  match d with
  | SRV _ => SRV value | MX _ => MX value | CNAME _ => CNAME value | NS _ => NS value
  | DNAME _ => DNAME value | NAPTR _ => NAPTR value | SOA _ => SOA value | OtherType => OtherType
  end.
Definition setRewrittenRecordValue (rr : RR) (value : string) : RR :=
  {| rr_Name := rr_Name rr; rr_Data := with_value (rr_Data rr) value; rr_more := rr_more rr |}.

Inductive ResponseRule :=
  | NameRewriterResponseRule (r : RemapStringRewriter)
  | ValueRewriterResponseRule (r : RemapStringRewriter).
Definition RewriteResponse (rule : ResponseRule) (rr : RR) : RR :=
  match rule with
  | NameRewriterResponseRule r =>
      {| rr_Name := rewriteString r (rr_Name rr); rr_Data := rr_Data rr; rr_more := rr_more rr |}
  | ValueRewriterResponseRule r =>
      let value := getRecordValueForRewrite rr in
      if decide (value = "") then rr
      else let new := rewriteString r value in
           if decide (new = value) then rr else setRewrittenRecordValue rr new
  end.

(** ** The table ([namespace.go], [config.go]) *)

Record ConfigMap := { cm_Meta : ObjectMeta; cm_Data : gomap }.
Record namespaceRewriter := { Namespaces : gomap }.
(** The handler of a deletion passes a nil pointer. *)
Definition updateFromConfigmap (m : namespaceRewriter) (cm : option ConfigMap) : res namespaceRewriter :=
  match cm with
  | None => Panic "invalid memory address or nil pointer dereference"
  | Some cm => Ok {| Namespaces := cm_Data cm |}
  end.
Inductive watch_event := CMAdded (obj : ConfigMap) | CMUpdated (oldObj newObj : ConfigMap) | CMDeleted (obj : ConfigMap).
Definition on_event (m : namespaceRewriter) (e : watch_event) : res namespaceRewriter :=
  match e with
  | CMAdded cm | CMUpdated _ cm => updateFromConfigmap m (Some cm)
  | CMDeleted _ => updateFromConfigmap m None
  end.
Definition start : namespaceRewriter := {| Namespaces := Some ∅ |}.

(** ** Queries ([namespace.go], [nsmap.go]) *)

Section plugin.
(** [request.Request.Name]: the name of the first question in lower case, which the
    request keeps when the question is changed. *)
Variable Request_Name : list string -> string.

Definition cluster_local (parts : list string) : bool :=
  match parts with [_; _; zone] => HasPrefix zone "svc" | _ => true end.
(** The questions of the request afterwards, and the rules for the answer, if any. *)
Definition Rewrite (m : namespaceRewriter) (questions : list string)
    : res (list string * option (list ResponseRule)) :=
  let name := Request_Name questions in
  let parts := SplitN name "." 3 in
  match parts with
  | [] | [_] => Ok (questions, None)
  | service :: ns :: zone =>
      if negb (cluster_local parts) then Ok (questions, None)
      else
        let targetNs := map_index (Namespaces m) ns in
        if decide (targetNs = "") then Ok (questions, None)
        else match zone, questions with
             | zone :: _, _ :: others =>
                 let target := service +:+ "." +:+ targetNs +:+ "." +:+ zone in
                 let rewriter := {| orig := target; replacement := name |} in
                 Ok (target :: others,
                   Some [NameRewriterResponseRule rewriter; ValueRewriterResponseRule rewriter])
             | _, _ => Panic "index out of range"
             end
  end.

(** The writer given to the next plugin: the client's, or one that goes back to the
    questions that it was made with and applies rules to the records. *)
Record RevertPolicy := { noRevert : bool; noRestore : bool }.
Inductive ResponseWriter :=
  | ClientWriter
  | ResponseReverter (originalQuestions : list string) (policy : RevertPolicy) (ResponseRules : list ResponseRule).
Context {A : Type}.
Variable NextOrFailure : string -> ResponseWriter -> list string -> A.

Record LogicalToPhysicalNamespaceMapper := { namespace : namespaceRewriter; revertPolicy : RevertPolicy }.
Definition plugin_name : string := "nsmap".
Definition ServeDNS (nm : LogicalToPhysicalNamespaceMapper) (questions : list string) : res A :=
  '(questions', respRules) ← Rewrite (namespace nm) questions;
  match respRules with
  | Some rules => mret (NextOrFailure plugin_name (ResponseReverter questions (revertPolicy nm) rules) questions')
  | None => mret (NextOrFailure plugin_name ClientWriter questions')
  end.
(** The plugin that [setup] adds. *)
Definition setup (rewriter : namespaceRewriter) : LogicalToPhysicalNamespaceMapper :=
  {| namespace := rewriter; revertPolicy := {| noRevert := false; noRestore := false |} |}.
End plugin.

(** * Theorems *)

(** ** Answers *)

(** A record with a name replaced wherever it stands. *)
Definition renamed (r : RemapStringRewriter) (rr : RR) : RR :=
  {| rr_Name := rewriteString r (rr_Name rr);
     rr_Data := with_value (rr_Data rr) (rewriteString r (getRecordValueForRewrite rr));
     rr_more := rr_more rr |}.
Definition apply_rules (rules : list ResponseRule) (rr : RR) : RR :=
  foldl (fun rr rule => RewriteResponse rule rr) rr rules.

Lemma with_own_value rr : with_value (rr_Data rr) (getRecordValueForRewrite rr) = rr_Data rr.
Proof. by destruct rr as [n [] more]. Qed.
Lemma rules_rename r rr :
  orig r <> "" ->
  apply_rules [NameRewriterResponseRule r; ValueRewriterResponseRule r] rr = renamed r rr.
Proof.
  intros Ho. unfold apply_rules, renamed. cbn [foldl RewriteResponse].
  set (value := getRecordValueForRewrite rr).
  change (getRecordValueForRewrite {| rr_Name := _; rr_Data := rr_Data rr; rr_more := _ |}) with value.
  assert (E : forall n, rewriteString r value = value ->
    {| rr_Name := n; rr_Data := rr_Data rr; rr_more := rr_more rr |} =
    {| rr_Name := n; rr_Data := with_value (rr_Data rr) (rewriteString r value); rr_more := rr_more rr |}).
  { intros n ->. unfold value. by rewrite with_own_value. }
  destruct (decide (value = "")) as [Hv|Hv].
  - apply E. rewrite Hv. unfold rewriteString. by rewrite decide_False.
  - destruct (decide _) as [Hn|Hn]; [by apply E|done].
Qed.

(** The entry of a namespace that only one downstream namespace serves. *)
Lemma dns_table_only cl l ns n :
  n ∈ l -> serves cl ns n -> (forall n', n' ∈ l -> serves cl ns n' -> n' = n) ->
  dns_table cl l !! ns = Some (GetName n).
Proof.
  intros Hn Hs Hu. unfold dns_table. revert Hn Hu. generalize (∅ : gmap string string).
  induction l as [|m l IH] using rev_ind; intros data Hn Hu; [by apply not_elem_of_nil in Hn|].
  rewrite foldl_app. cbn [foldl]. destruct (serves_dec cl ns m) as [Hm|Hm].
  - rewrite add_namespace_serves by done. rewrite (Hu m); [done| |done]. set_solver.
  - rewrite add_namespace_other by done. apply IH.
    + apply elem_of_app in Hn as [|Hx]; [done|]. apply list_elem_of_singleton in Hx. by subst.
    + intros n' Hn'. apply Hu. set_solver.
Qed.

(** ** Queries *)

Section queries.
Variable Request_Name : list string -> string.
Hypothesis Request_Name_first : forall q others, Request_Name (q :: others) = ToLower q.
#[local] Abbreviation Rewrite := (Rewrite Request_Name).

Definition no_dot (s : string) : Prop := "."%char ∉ String.list_ascii_of_string s.
Definition dns_name (service ns zone : string) : string := service +:+ "." +:+ ns +:+ "." +:+ zone.

Lemma dns_name_parts service ns zone :
  no_dot service -> no_dot ns -> SplitN (dns_name service ns zone) "." 3 = [service; ns; zone].
Proof.
  intros Hs Hn. unfold dns_name.
  change (service +:+ "." +:+ ns +:+ "." +:+ zone) with
    (service +:+ String "." (ns +:+ String "." zone)).
  change "." with (String "." ""). rewrite (SplitN_byte "." service) by done.
  by rewrite (SplitN_byte "." ns).
Qed.
Lemma parts_dns_name s service ns zone : SplitN s "." 3 = [service; ns; zone] -> s = dns_name service ns zone.
Proof. intros E. rewrite <-(Join_SplitN s "." 2), E. done. Qed.

Lemma Rewrite_local m q others service ns zone target :
  ToLower q = dns_name service ns zone -> no_dot service -> no_dot ns -> HasPrefix zone "svc" = true ->
  map_get (Namespaces m) ns = Some target -> target <> "" ->
  let r := {| orig := dns_name service target zone; replacement := ToLower q |} in
  Rewrite m (q :: others) = Ok (dns_name service target zone :: others,
    Some [NameRewriterResponseRule r; ValueRewriterResponseRule r]).
Proof.
  intros Hq Hs Hn Hz Ht Hne. unfold NsMap.Rewrite, cluster_local. rewrite Request_Name_first, Hq.
  rewrite dns_name_parts by done. rewrite Hz. unfold map_index. rewrite Ht. cbn [negb default from_option].
  by rewrite decide_False.
Qed.

(** What a rewritten query asks for: the namespace, and nothing else of the name, is
    replaced by the one of the table. *)
Lemma Rewrite_Some m questions questions' rules :
  Rewrite m questions = Ok (questions', Some rules) ->
  exists q others service ns zone target, questions = q :: others /\
    Request_Name questions = dns_name service ns zone /\ HasPrefix zone "svc" = true /\
    map_get (Namespaces m) ns = Some target /\ target <> "" /\
    questions' = dns_name service target zone :: others /\
    rules = [NameRewriterResponseRule {| orig := dns_name service target zone; replacement := dns_name service ns zone |};
             ValueRewriterResponseRule {| orig := dns_name service target zone; replacement := dns_name service ns zone |}].
Proof.
  clear Request_Name_first. unfold NsMap.Rewrite. pose proof (SplitN_length (Request_Name questions) "." 3) as Hlen.
  destruct (SplitN _ "." 3) as [|service [|ns zones]] eqn:E; [done..|].
  destruct (negb _) eqn:Hc; [done|]. destruct (decide _) as [|Ht]; [done|].
  destruct zones as [|zone [|? ?]]; [done| |simpl in Hlen; lia].
  apply parts_dns_name in E. destruct questions as [|q others]; [done|]. intros [= <- <-].
  exists q, others, service, ns, zone, (map_index (Namespaces m) ns). split_and!; try done.
  - by apply negb_false_iff in Hc.
  - revert Ht. unfold map_index. by destruct (map_get _ _).
  - by rewrite E.
Qed.
Lemma Rewrite_None m questions questions' :
  Rewrite m questions = Ok (questions', None) -> questions' = questions.
Proof.
  clear Request_Name_first. unfold NsMap.Rewrite. destruct (SplitN _ "." 3) as [|? [|ns zones]]; [by intros [= <-]..|].
  destruct (negb _); [by intros [= <-]|]. destruct (decide _); [by intros [= <-]|].
  by destruct zones, questions.
Qed.
(** A name that ends in a dot and has no other one after its first part. *)
Lemma Cut_None_no_dot s : Cut s "." = None -> no_dot s.
Proof.
  unfold no_dot. induction s as [|a s IH]; [set_solver|]. cbn [Cut strip_prefix].
  destruct (decide ("."%char = a)) as [|Hne]; [by destruct s|].
  destruct (Cut s ".") as [[]|]; [done|]. intros _. cbn. apply not_elem_of_cons. auto.
Qed.
Lemma two_parts_end_dot n service ns : SplitN (n +:+ ".") "." 3 = [service; ns] -> ns = "".
Proof.
  cbn [SplitN]. destruct (Cut (n +:+ ".") ".") as [[a b]|] eqn:E; [|done].
  destruct (Cut b ".") as [[]|] eqn:E'; [done|]. intros [= -> ->].
  apply Cut_Some in E. apply Cut_None_no_dot in E'. revert n E.
  induction service as [|x service IH]; intros [|y n] E.
  - by injection E.
  - change (String y (n +:+ ".") = String "." ns) in E. injection E as -> E. exfalso. apply E'.
    rewrite <-E. clear. induction n; [cbn; set_solver|]. rewrite string_app_cons. cbn. set_solver.
  - change ("." = String x (service +:+ "." +:+ ns)) in E. injection E as _ E. by destruct service.
  - rewrite !string_app_cons in E. injection E as _ E. by apply (IH n).
Qed.
(** No query for a fully qualified name panics, as long as the table has no entry for
    the empty name, which is no name of a namespace. *)
Theorem queries_do_not_panic m q others n :
  Request_Name (q :: others) = n +:+ "." -> map_get (Namespaces m) "" = None ->
  is_panic (Rewrite m (q :: others)) = false.
Proof.
  intros Hn Hm. unfold NsMap.Rewrite. rewrite Hn.
  destruct (SplitN _ "." 3) as [|service [|ns zones]] eqn:E; [done..|].
  destruct (negb _); [done|]. destruct (decide _) as [|Ht]; [done|].
  destruct zones as [|zone zones]; [|done]. exfalso. apply Ht.
  rewrite (two_parts_end_dot n service ns E). unfold map_index. by rewrite Hm.
Qed.

(** ** The names of a workspace *)

Section workspace.
Context {A : Type}.
Variable NextOrFailure : string -> ResponseWriter -> list string -> A.
(** What a writer makes of the records of an answer. *)
Variable Deliver : ResponseWriter -> list RR -> list RR.
Hypothesis Deliver_reverted : forall questions policy rules rrs, noRevert policy = false ->
  Deliver (ResponseReverter questions policy rules) rrs = apply_rules rules <$> rrs.

(** A service of a namespace of the workspace resolves under its upstream name: with
    the table that the syncer writes for the workspace, the query is passed on with
    the downstream namespace of the same workspace in place of the upstream one, and
    in the answer the name that was passed on is again the one that was asked for,
    as the owner of a record and as its value; all other names stay. *)
Theorem workspace_names_resolve m old cm m' cl namespaces q others service ns n zone :
  cm_Data cm = Some (dns_table cl namespaces) ->
  on_event m (CMUpdated old cm) = Ok m' ->
  n ∈ namespaces -> serves cl ns n -> (forall n', n' ∈ namespaces -> serves cl ns n' -> n' = n) ->
  GetName n <> "" -> no_dot service -> no_dot ns -> HasPrefix zone "svc" = true ->
  ToLower q = dns_name service ns zone ->
  exists w, ServeDNS Request_Name NextOrFailure (setup m') (q :: others) =
      Ok (NextOrFailure "nsmap" w (dns_name service (GetName n) zone :: others)) /\
    forall rrs, Deliver w rrs =
      renamed {| orig := dns_name service (GetName n) zone; replacement := ToLower q |} <$> rrs.
Proof.
  intros Hd [= <-] Hn Hs Hu Hne Hse Hns Hz Hq.
  assert (Ht : map_get (cm_Data cm) ns = Some (GetName n)).
  { rewrite Hd. unfold map_get. cbn. by apply dns_table_only. }
  unfold ServeDNS. cbn [namespace setup].
  erewrite Rewrite_local by done. cbn. eexists. split; [done|]. intros rrs.
  rewrite Deliver_reverted by done. apply list_fmap_ext. intros _ rr _. apply rules_rename.
  cbn. unfold dns_name. by destruct service.
Qed.

(** A query is passed on either as it is, with the client's own writer, or for a
    downstream namespace of the workspace that the table is for: under the names of
    its own namespaces a workspace reaches no other one. *)
Theorem queries_stay_in_the_workspace m cl namespaces questions answer :
  Namespaces m = Some (dns_table cl namespaces) ->
  ServeDNS Request_Name NextOrFailure (setup m) questions = Ok answer ->
  answer = NextOrFailure "nsmap" ClientWriter questions \/
  exists w service ns zone n others, n ∈ namespaces /\ serves cl ns n /\
    Request_Name questions = dns_name service ns zone /\
    answer = NextOrFailure "nsmap" w (dns_name service (GetName n) zone :: others).
Proof.
  clear Request_Name_first Deliver_reverted. intros Hm. unfold ServeDNS. cbn [namespace setup].
  destruct (Rewrite m questions) as [[questions' [rules|]]|?|?] eqn:E; cbn; intros [= <-].
  - right. apply Rewrite_Some in E as (q & others & service & ns & zone & target & -> & Hq & _ & Ht & _ & -> & _).
    rewrite Hm in Ht. unfold map_get in Ht. cbn in Ht.
    apply dns_table_spec in Ht as (l1 & n & l2 & -> & Hs & <- & _).
    eexists _, service, ns, zone, n, others. split_and!; try done. set_solver.
  - left. by rewrite (Rewrite_None _ _ _ E).
Qed.
End workspace.
End queries.

(** The process ends when the table is deleted. *)
Lemma deleted_table_panics m cm : is_panic (on_event m (CMDeleted cm)) = true.
Proof. done. Qed.

(** * Examples *)

Module Examples.
Definition name_of (questions : list string) : string :=
  match questions with [] => "." | q :: _ => ToLower q end.
Definition next (plugin : string) (w : ResponseWriter) (questions : list string) : ResponseWriter * list string :=
  (w, questions).
Definition deliver (w : ResponseWriter) (rrs : list RR) : list RR :=
  match w with
  | ClientWriter => rrs
  | ResponseReverter _ policy rules => if noRevert policy then rrs else apply_rules rules <$> rrs
  end.
Definition downstream (name ns : string) : Unstructured := {|
  u_meta := mk_meta name "" None (Some {[ NamespaceLocatorAnnotation :=
    Marshal (NewNamespaceLocator "ws" "org" "uid" "st" ns) ]}) [];
  u_more := ∅; u_content := ∅ |}.
Definition namespaces : list Unstructured := [downstream "kcp-1" "default"; downstream "kcp-2" "shop"].
Definition table : ConfigMap := {|
  cm_Meta := mk_meta "kcp-dns-ws" "kcp-syncer" None None []; cm_Data := Some (dns_table "ws" namespaces) |}.
Definition loaded : namespaceRewriter := {| Namespaces := cm_Data table |}.

Lemma serves_shop : serves "ws" "shop" (downstream "kcp-2" "shop").
Proof.
  exists (NewNamespaceLocator "ws" "org" "uid" "st" "shop").
  split; [vm_compute; reflexivity|by split].
Qed.
Lemma only_shop n : n ∈ namespaces -> serves "ws" "shop" n -> n = downstream "kcp-2" "shop".
Proof.
  intros Hn (l & Hl & _ & Hs). apply elem_of_cons in Hn as [->|Hn%list_elem_of_singleton]; [|done].
  exfalso. vm_compute in Hl. injection Hl as <-. discriminate Hs.
Qed.
Lemma workspace_names_resolve_witness :
  exists w, ServeDNS name_of next (setup loaded) ["Cart.shop.svc.cluster.local."] =
      Ok (next "nsmap" w ["cart.kcp-2.svc.cluster.local."]) /\
    forall rrs, deliver w rrs =
      renamed {| orig := dns_name "cart" "kcp-2" "svc.cluster.local."; replacement := "cart.shop.svc.cluster.local." |} <$> rrs.
Proof.
  apply (workspace_names_resolve name_of ltac:(reflexivity) next deliver
    ltac:(by intros ? [] ? ? Hr; cbn in *; rewrite Hr)
    start table table loaded "ws" namespaces "Cart.shop.svc.cluster.local." []
    "cart" "shop" (downstream "kcp-2" "shop") "svc.cluster.local.").
  - reflexivity.
  - reflexivity.
  - apply list_elem_of_further, list_elem_of_here.
  - apply serves_shop.
  - apply only_shop.
  - discriminate.
  - by apply (bool_decide_unpack _); vm_compute.
  - by apply (bool_decide_unpack _); vm_compute.
  - reflexivity.
  - reflexivity.
Defined.
Lemma queries_stay_in_the_workspace_witness :
  let answer := (ClientWriter, ["example.com."]) in
  answer = next "nsmap" ClientWriter ["example.com."] \/
  exists w service ns zone n others, n ∈ namespaces /\ serves "ws" ns n /\
    name_of ["example.com."] = dns_name service ns zone /\
    answer = next "nsmap" w (dns_name service (GetName n) zone :: others).
Proof.
  intros answer.
  apply (queries_stay_in_the_workspace name_of next loaded "ws" namespaces ["example.com."] answer);
    [reflexivity|by vm_compute].
Defined.
(** A record of the answer, with its own name and one that is not of the workspace. *)
Example answer_is_renamed :
  let r := {| orig := "cart.kcp-2.svc.cluster.local."; replacement := "cart.shop.svc.cluster.local." |} in
  renamed r {| rr_Name := "cart.kcp-2.svc.cluster.local."; rr_Data := CNAME "lb.example.com."; rr_more := ["5"] |} =
    {| rr_Name := "cart.shop.svc.cluster.local."; rr_Data := CNAME "lb.example.com."; rr_more := ["5"] |} /\
  renamed r {| rr_Name := "x."; rr_Data := SRV "cart.kcp-2.svc.cluster.local."; rr_more := [] |} =
    {| rr_Name := "x."; rr_Data := SRV "cart.shop.svc.cluster.local."; rr_more := [] |}.
Proof. by vm_compute. Qed.
(** The example of the comment in the code: a name of two parts, fully qualified, is
    not looked up in the table; one that only starts like a cluster name is. *)
Example short_names_fall_through :
  let m := {| Namespaces := Some {[ "ly" := "kcp-3" ]} |} in
  Rewrite name_of m ["bit.ly."] = Ok (["bit.ly."], None) /\
  fst <$> Rewrite name_of m ["bit.ly.svcs.example.com."] = Ok ["bit.kcp-3.svcs.example.com."].
Proof. by vm_compute. Qed.
End Examples.
