(* ===== verification/ApiImporter.v ===== *)
(** * The API importer of the syncer ([pkg/syncer/apiimporter.go])

    It pulls the definitions of the resources to sync from the physical cluster and
    keeps one APIResourceImport per type and SyncTarget in the workspace, which the
    negotiation then reads; when the syncer stops it deletes them. *)

From S2P Require Import Prelude Platform ApiTypes ApiResource Shards Negotiation ApiExports.
Local Open Scope nat_scope.

(** ** Data *)

Section importer.
Context {SC : SchemaCompatLib} {MO : MapOrder} {KR : KeyOrder GroupResource}.

Inductive import_call :=
  | PullCRDs (resourceNames : list string)
  | CreateImport (i : APIResourceImport)
  | UpdateImport (i : APIResourceImport)
  | DeleteImport (name : string).
#[local] Abbreviation history := (list import_call) (only parsing).
(** The lister of SyncTargets and the store of imports of the workspace, and the
    answers of the physical cluster and of the server. *)
Record APIImporter := {
  resourcesToSync : list string;
  syncTargetName : string;
  syncTargetUID : string;
  SyncedGVRs : gmap string GroupVersionResource;
  syncTargetLister : history -> string -> result SyncTarget;
  apiresourceImportIndexer : history -> result (list APIResourceImport);
  PullAnswer : history -> result (gmap GroupResource CustomResourceDefinition);
  WriteAnswer : history -> result unit;
}.

(** ** Indexes *)

Definition GetGVRForLocationIndexKey (location : string) (gvr : GroupVersionResource) : string :=
  location +:+ "$$" +:+ MetaGVRString gvr.
Definition GetLocationIndexKey (location : string) : string := location.
Definition GVRForLocation (i : APIResourceImport) : list string :=
  [GetGVRForLocationIndexKey (i_Location i) (APIResourceImport_GVR i)].
Definition LocationIndex (i : APIResourceImport) : list string := [GetLocationIndexKey (i_Location i)].
Definition ByIndex (i : APIImporter) (index : APIResourceImport -> list string) (key : string)
    : M import_call (list APIResourceImport) := fun h =>
  (h, of_result (by_index index key (apiresourceImportIndexer i h))).

(** ** Imports *)

Definition clusterAsOwnerReference (obj : SyncTarget) (controller : bool) : OwnerReference := {|
  or_APIVersion := "workload.kcp.io/v1alpha1"; or_Kind := "SyncTarget";
  or_Name := Name (st_Meta obj); or_UID := UID (st_Meta obj);
  or_Controller := Some controller; or_BlockOwnerDeletion := None |}.

Definition pulled_gvr (gr : GroupResource) (pulledCrd : CustomResourceDefinition) (crdVersion : CRDVersion)
    : GroupVersionResource := {|
  gvr_Group := crd_Group pulledCrd; gvr_Version := v_Name crdVersion; gvr_Resource := gr_Resource gr |}.
Definition import_name (i : APIImporter) (gvr : GroupVersionResource) : string :=
  gvr_Resource gvr +:+ "." +:+ syncTargetName i +:+ "." +:+ gvr_Version gvr +:+ "." +:+
  (if decide (gvr_Group gvr = "") then "core" else gvr_Group gvr).
Definition new_spec (gvr : GroupVersionResource) (pulledCrd : CustomResourceDefinition) (crdVersion : CRDVersion)
    : CommonAPIResourceSpec := {|
  cs_GroupVersion := {| gv_Group := gvr_Group gvr; gv_Version := gvr_Version gvr |};
  cs_Scope := crd_Scope pulledCrd; cs_Names := crd_Names pulledCrd; cs_OpenAPIV3Schema := "";
  cs_SubResources := SubResources_ImportFromCRDVersion [] crdVersion;
  cs_ColumnDefinitions := ColumnDefinitions_ImportFromCRDVersion [] crdVersion |}.
Definition import_annotations (gvr : GroupVersionResource) (pulledCrd : CustomResourceDefinition)
    : gmap string string :=
  let annotations := {[ APIVersionAnnotation :=
    APIVersion {| gv_Group := gvr_Group gvr; gv_Version := gvr_Version gvr |} ]} in
  match map_get (Annotations (crd_Meta pulledCrd)) KubeAPIApprovedAnnotation with
  | Some value => <[ KubeAPIApprovedAnnotation := value ]> annotations
  | None => annotations
  end.
Definition new_import (i : APIImporter) (syncTarget : SyncTarget) (gvr : GroupVersionResource)
    (pulledCrd : CustomResourceDefinition) (spec : CommonAPIResourceSpec) : APIResourceImport := {|
  i_Meta := {| Name := import_name i gvr; Namespace := ""; UID := ""; ResourceVersion := ""; Labels := None;
    Annotations := Some (import_annotations gvr pulledCrd); Finalizers := []; DeletionTimestamp := None;
    CreationTimestamp := ZeroTime; OwnerReferences := [clusterAsOwnerReference syncTarget true] |};
  i_Generation := 0%Z; i_Spec := spec; SchemaUpdateStrategy := UpdateUnpublished;
  i_Location := syncTargetName i; i_Conditions := [] |}.
Definition with_i_spec (o : APIResourceImport) (spec : CommonAPIResourceSpec) : APIResourceImport := {|
  i_Meta := i_Meta o; i_Generation := i_Generation o; i_Spec := spec;
  SchemaUpdateStrategy := SchemaUpdateStrategy o; i_Location := i_Location o; i_Conditions := i_Conditions o |}.
(** [Spec.SetSchema(crdVersion.Schema.OpenAPIV3Schema)]. *)
Definition set_pulled_schema (crdVersion : CRDVersion) (spec : CommonAPIResourceSpec)
    : res (result CommonAPIResourceSpec) :=
  match v_Schema crdVersion with
  | None => Panic "invalid memory address or nil pointer dereference"
  | Some schema => Ok (SetSchema spec schema)
  end.

(** ** [ImportAPIs]: errors are logged, and the type is left out *)

Definition create_import (i : APIImporter) (syncTarget : SyncTarget) (gvr : GroupVersionResource)
    (pulledCrd : CustomResourceDefinition) (crdVersion : CRDVersion) : M import_call (option GroupVersionResource) :=
  spec ← lift (set_pulled_schema crdVersion (new_spec gvr pulledCrd crdVersion));
  match spec with
  | inl _ => mret None
  | inr spec =>
      r ← try (call (CreateImport (new_import i syncTarget gvr pulledCrd spec)) (WriteAnswer i));
      mret (match r with inl _ => None | inr _ => Some gvr end)
  end.
Definition refresh_import (i : APIImporter) (gvr : GroupVersionResource) (o : APIResourceImport)
    (crdVersion : CRDVersion) : M import_call (option GroupVersionResource) :=
  spec ← lift (set_pulled_schema crdVersion (i_Spec o));
  match spec with
  | inl _ => mret None
  | inr spec =>
      r ← try (call (UpdateImport (with_i_spec o spec)) (WriteAnswer i));
      mret (match r with inl _ => None | inr _ => Some gvr end)
  end.
Definition import_crd (i : APIImporter) (syncTarget : SyncTarget) (gr : GroupResource)
    (pulledCrd : CustomResourceDefinition) : M import_call (option GroupVersionResource) :=
  match crd_Versions pulledCrd with
  | [] => lift (Panic "index out of range")
  | crdVersion :: _ =>
      let gvr := pulled_gvr gr pulledCrd crdVersion in
      objs ← try (ByIndex i GVRForLocation (GetGVRForLocationIndexKey (syncTargetName i) gvr));
      match objs with
      | inr [] => create_import i syncTarget gvr pulledCrd crdVersion
      | inr [o] => refresh_import i gvr o crdVersion
      | inl _ | inr (_ :: _ :: _) => mret None
      end
  end.
Fixpoint import_crds (i : APIImporter) (syncTarget : SyncTarget)
    (crds : list (GroupResource * CustomResourceDefinition)) (gvrsToSync : gmap string GroupVersionResource)
    : M import_call (gmap string GroupVersionResource) :=
  match crds with
  | [] => mret gvrsToSync
  | (gr, pulledCrd) :: crds =>
      gvr ← import_crd i syncTarget gr pulledCrd;
      import_crds i syncTarget crds
        (match gvr with Some gvr => <[ MetaGVRString gvr := gvr ]> gvrsToSync | None => gvrsToSync end)
  end.
Definition zero_gvr : GroupVersionResource := {| gvr_Group := ""; gvr_Version := ""; gvr_Resource := "" |}.
Definition remove_gvr (i : APIImporter) (gvrToRemove : string) : M import_call unit :=
  let gvr := default zero_gvr (SyncedGVRs i !! gvrToRemove) in
  objs ← try (ByIndex i GVRForLocation (GetGVRForLocationIndexKey (syncTargetName i) gvr));
  match objs with
  | inr [o] => try (call (DeleteImport (Name (i_Meta o))) (WriteAnswer i));; mret tt
  | _ => mret tt
  end.
(** The names to pull: those of the flag and those of the SyncTarget's status. *)
Definition resource_names (i : APIImporter) (syncTarget : SyncTarget) : list string :=
  set_list (list_to_set (resourcesToSync i) ∪
    list_to_set ((fun rs => gr_Resource (rs_GroupResource rs) +:+ "." +:+ gr_Group (rs_GroupResource rs))
      <$> SyncedResources (st_Status syncTarget))).
Definition ImportAPIs (i : APIImporter) : M import_call unit :=
  syncTarget ← try (fun h => (h, of_result (syncTargetLister i h (syncTargetName i))));
  match syncTarget with
  | inl _ => mret tt
  | inr syncTarget =>
      if decide (UID (st_Meta syncTarget) = syncTargetUID i) then
        let names := resource_names i syncTarget in
        if decide (names = []) then mret tt
        else
          crds ← try (call (PullCRDs names) (PullAnswer i));
          match crds with
          | inl _ => mret tt
          | inr crds =>
              gvrsToSync ← import_crds i syncTarget (range_map crds) ∅;
              for_each (set_range (dom (SyncedGVRs i) ∖ dom gvrsToSync)) (remove_gvr i)
          end
      else mret tt
  end.

(** ** [Stop] *)

Definition Stop (i : APIImporter) : M import_call unit :=
  objs ← try (ByIndex i LocationIndex (GetLocationIndexKey (syncTargetName i)));
  for_each (match objs with inl _ => [] | inr objs => objs end)
    (fun o => try (call (DeleteImport (Name (i_Meta o))) (WriteAnswer i));; mret tt).
End importer.

(** * Theorems *)

Section theorems.
Context {SC : SchemaCompatLib} {MO : MapOrder} {KR : KeyOrder GroupResource}.
Variable i : APIImporter.
#[local] Abbreviation name := (syncTargetName i) (only parsing).

(** What a pass asks of the server for one type, by the imports that are cached for it. *)
Definition with_schema_text (spec : CommonAPIResourceSpec) (schema : string) : CommonAPIResourceSpec := {|
  cs_GroupVersion := cs_GroupVersion spec; cs_Scope := cs_Scope spec; cs_Names := cs_Names spec;
  cs_OpenAPIV3Schema := schema; cs_SubResources := cs_SubResources spec;
  cs_ColumnDefinitions := cs_ColumnDefinitions spec |}.
Definition wanted (syncTarget : SyncTarget) (gr : GroupResource) (pulledCrd : CustomResourceDefinition)
    (cached : list APIResourceImport) : option import_call :=
  crdVersion ← head (crd_Versions pulledCrd);
  schema ← v_Schema crdVersion;
  match MarshalSchema schema, cached with
  | inr text, [] =>
      let gvr := pulled_gvr gr pulledCrd crdVersion in
      Some (CreateImport (new_import i syncTarget gvr pulledCrd
                            (with_schema_text (new_spec gvr pulledCrd crdVersion) text)))
  | inr text, [o] => Some (UpdateImport (with_i_spec o (with_schema_text (i_Spec o) text)))
  | _, _ => None
  end.
(** A definition that can be imported, and the index key of its type. *)
Definition pulled_ok (pulledCrd : CustomResourceDefinition) : Prop :=
  exists v vs schema text, crd_Versions pulledCrd = v :: vs /\ v_Schema v = Some schema /\
    MarshalSchema schema = inr text.
Definition type_key (gr : GroupResource) (pulledCrd : CustomResourceDefinition) : string :=
  match crd_Versions pulledCrd with
  | v :: _ => GetGVRForLocationIndexKey name (pulled_gvr gr pulledCrd v)
  | [] => ""
  end.
Definition cached_for (h : list import_call) (key : string) : list APIResourceImport :=
  match by_index GVRForLocation key (apiresourceImportIndexer i h) with inr l => l | inl _ => [] end.
Definition server_ok : Prop :=
  (forall h, WriteAnswer i h = inr tt) /\
  (forall h key, is_Some (match apiresourceImportIndexer i h with inr l => Some l | inl _ => None end) /\
     length (cached_for h key) <= 1).

Lemma import_crd_wanted st gr crd h :
  server_ok -> pulled_ok crd ->
  exists e gvr, wanted st gr crd (cached_for h (type_key gr crd)) = Some e /\
    import_crd i st gr crd h = (h ++ [e], Ok (Some gvr)).
Proof.
  intros [Hw Hs] (v & vs & schema & text & Hv & Hsch & Htext).
  unfold import_crd, wanted, type_key. rewrite Hv. cbn [head]. cbn [mbind option_bind]. rewrite Hsch.
  cbn [mbind option_bind]. rewrite Htext.
  set (key := GetGVRForLocationIndexKey _ _). destruct (Hs h key) as [[l Hl] Hlen].
  destruct (apiresourceImportIndexer i h) as [|l'] eqn:El; [done|].
  unfold cached_for in *. rewrite El in *.
  unfold try, ByIndex, mbind, M_bind. rewrite El.
  destruct (by_index GVRForLocation key (inr l')) as [|objs] eqn:Eo; [done|]. cbn [of_result].
  unfold create_import, refresh_import, set_pulled_schema, SetSchema. rewrite Hsch, Htext.
  destruct objs as [|o [|]]; [| |simpl in Hlen; lia]; run_M; rewrite Hw; by eexists _, _.
Qed.
Lemma import_crds_wanted st crds gvrs h :
  server_ok -> Forall (fun kv => pulled_ok kv.2) crds ->
  exists events gvrs', import_crds i st crds gvrs h = (h ++ events, Ok gvrs') /\
    Forall2 (fun kv e => exists h', h `prefix_of` h' /\
      wanted st kv.1 kv.2 (cached_for h' (type_key kv.1 kv.2)) = Some e) crds events.
Proof.
  intros Hok. revert gvrs h. induction crds as [|[gr crd] crds IH]; intros gvrs h Hc.
  { exists [], gvrs. rewrite app_nil_r. by split. }
  apply Forall_cons in Hc as [H1 Hc]. destruct (import_crd_wanted st gr crd h Hok H1) as (e & gvr & He & E).
  destruct (IH (<[ MetaGVRString gvr := gvr ]> gvrs) (h ++ [e]) Hc) as (events & gvrs' & E' & HF).
  exists (e :: events), gvrs'. cbn [import_crds]. rewrite (bind_ok _ _ _ _ _ E), E', <-app_assoc.
  split; [done|]. constructor; [by exists h|].
  eapply Forall2_impl; [exact HF|]. intros kv e' (h' & Hp & Hw). exists h'. split; [|done].
  etransitivity; [|exact Hp]. by apply prefix_app_r.
Qed.

(** C27: a pass imports every type that the physical cluster has: when the requests
    succeed, each definition that was pulled is written, to a new import where the
    SyncTarget has none for the type and to the one that it has otherwise, with the
    schema of the definition. *)
Theorem every_type_is_imported st crds h :
  server_ok -> SyncedGVRs i = ∅ ->
  syncTargetLister i h name = inr st -> UID (st_Meta st) = syncTargetUID i ->
  resource_names i st <> [] ->
  let h1 := h ++ [PullCRDs (resource_names i st)] in
  PullAnswer i h1 = inr crds -> (forall gr crd, crds !! gr = Some crd -> pulled_ok crd) ->
  exists events, ImportAPIs i h = (h1 ++ events, Ok tt) /\
    Forall2 (fun kv e => exists h', h1 `prefix_of` h' /\
      wanted st kv.1 kv.2 (cached_for h' (type_key kv.1 kv.2)) = Some e) (range_map crds) events.
Proof.
  intros Hok Hg Hl Hu Hn h1 Hp Hc. unfold ImportAPIs.
  rewrite (bind_ok _ _ h h (inr st)) by (unfold try; by rewrite Hl).
  rewrite decide_True, decide_False by done.
  rewrite (bind_ok _ _ h h1 (inr crds)) by (unfold try, call; fold h1; by rewrite Hp).
  destruct (import_crds_wanted st (range_map crds) ∅ h1 Hok) as (events & gvrs & E & HF).
  { apply Forall_forall. intros [gr crd] Hin%elem_of_range_map. by eapply Hc. }
  exists events. split; [|done]. rewrite (bind_ok _ _ _ _ _ E), Hg, dom_empty_L.
  replace (∅ ∖ dom gvrs) with (∅ : gset string) by set_solver.
  assert (E0 : set_range ∅ = []).
  { apply elem_of_nil_inv. intros x. rewrite elem_of_set_range. set_solver. }
  by rewrite E0.
Qed.

(** A second pass changes nothing: the import that was made for a type is found
    under the key by which the type is looked up, and what the next pass writes for
    it is the same import. *)
Theorem the_import_is_found_again st gr crd o :
  Plural (crd_Names crd) = gr_Resource gr ->
  wanted st gr crd [] = Some (CreateImport o) ->
  by_index GVRForLocation (type_key gr crd) (inr [o]) = inr [o] /\
  wanted st gr crd [o] = Some (UpdateImport o).
Proof.
  intros Hp. unfold wanted, type_key. destruct (crd_Versions crd) as [|v vs]; [done|]. cbn.
  destruct (v_Schema v) as [schema|]; [|done]. cbn. destruct (MarshalSchema schema) as [|text]; [done|].
  intros [= <-]. split; [|done].
  unfold by_index, GVRForLocation, APIResourceImport_GVR, spec_GVR. cbn.
  rewrite Hp. unfold pulled_gvr. cbn. rewrite bool_decide_true; [done|]. by apply list_elem_of_singleton.
Qed.
(** What a pass may ask for. *)
Definition importer_call (h : list import_call) (e : import_call) : Prop :=
  match e with
  | PullCRDs names => exists h0 st, syncTargetLister i h0 name = inr st /\
      UID (st_Meta st) = syncTargetUID i /\ names = resource_names i st
  | CreateImport o => exists h0 st, syncTargetLister i h0 name = inr st /\
      UID (st_Meta st) = syncTargetUID i /\ i_Location o = name /\
      OwnerReferences (i_Meta o) = [clusterAsOwnerReference st true] /\
      exists gvr, by_index GVRForLocation (GetGVRForLocationIndexKey name gvr) (apiresourceImportIndexer i h) = inr []
  | UpdateImport o => exists gvr o0 text, o = with_i_spec o0 (with_schema_text (i_Spec o0) text) /\
      by_index GVRForLocation (GetGVRForLocationIndexKey name gvr) (apiresourceImportIndexer i h) = inr [o0]
  | DeleteImport n => exists k gvr o, SyncedGVRs i !! k = Some gvr /\ n = Name (i_Meta o) /\
      by_index GVRForLocation (GetGVRForLocationIndexKey name gvr) (apiresourceImportIndexer i h) = inr [o]
  end.
Lemma try_ByIndex index key h h' r :
  try (ByIndex i index key) h = (h', Ok r) -> h' = h /\ by_index index key (apiresourceImportIndexer i h) = r.
Proof. unfold try, ByIndex. destruct (by_index index key _); by intros [= <- <-]. Qed.
Lemma set_pulled_schema_inv v spec r h h' :
  lift (Ev:=import_call) (set_pulled_schema v spec) h = (h', Ok r) ->
  h' = h /\ (exists e, r = inl e) \/ (h' = h /\ exists text, r = inr (with_schema_text spec text)).
Proof.
  unfold lift, set_pulled_schema, SetSchema. destruct (v_Schema v) as [s|]; [|done].
  destruct (MarshalSchema s) as [e|text]; intros [= <- <-]; [left; eauto|right; eauto].
Qed.
Lemma import_crd_guarded h0 st gr crd h :
  syncTargetLister i h0 name = inr st -> UID (st_Meta st) = syncTargetUID i ->
  guarded importer_call (import_crd i st gr crd) h.
Proof.
  intros Hl Hu. unfold import_crd. destruct (crd_Versions crd) as [|v vs]; [apply guarded_lift|].
  apply guarded_bind; [by apply guarded_quiet; unfold try, ByIndex; destruct (by_index _ _ _)|].
  intros h' objs [-> E]%try_ByIndex. destruct objs as [|[|o [|]]]; [apply guarded_ret| | |apply guarded_ret].
  - apply guarded_bind; [apply guarded_lift|]. intros h' r [[-> [? ->]]|[-> [text ->]]]%set_pulled_schema_inv;
      [apply guarded_ret|]. apply guarded_bind; [|intros; apply guarded_ret].
    apply guarded_try, guarded_call. exists h0, st. split_and!; try done. by eexists.
  - apply guarded_bind; [apply guarded_lift|]. intros h' r [[-> [? ->]]|[-> [text ->]]]%set_pulled_schema_inv;
      [apply guarded_ret|]. apply guarded_bind; [|intros; apply guarded_ret].
    apply guarded_try, guarded_call. by eexists _, o, text.
Qed.
Lemma import_crds_guarded h0 st crds gvrs h :
  syncTargetLister i h0 name = inr st -> UID (st_Meta st) = syncTargetUID i ->
  guarded importer_call (import_crds i st crds gvrs) h.
Proof.
  intros Hl Hu. revert gvrs h. induction crds as [|[gr crd] crds IH]; intros gvrs h; [apply guarded_ret|].
  apply guarded_bind; [by eapply import_crd_guarded|]. intros h' a _. apply IH.
Qed.
Lemma remove_gvr_guarded k h : k ∈ dom (SyncedGVRs i) -> guarded importer_call (remove_gvr i k) h.
Proof.
  intros [gvr Hk]%elem_of_dom. unfold remove_gvr. rewrite Hk. cbn [default from_option].
  apply guarded_bind; [by apply guarded_quiet; unfold try, ByIndex; destruct (by_index _ _ _)|].
  intros h' objs [-> E]%try_ByIndex. destruct objs as [|[|o [|]]]; try apply guarded_ret.
  apply guarded_bind; [|intros; apply guarded_ret]. apply guarded_try, guarded_call.
  by exists k, gvr, o.
Qed.

Lemma imports_of_the_location h : guarded importer_call (ImportAPIs i) h.
Proof.
  unfold ImportAPIs. apply guarded_bind.
  { apply guarded_quiet. unfold try. by destruct (syncTargetLister i h _). }
  intros h' r Hr. unfold try in Hr. destruct (syncTargetLister i h _) as [e|st] eqn:Hl;
    injection Hr as <- <-; [apply guarded_ret|].
  destruct (decide _) as [Hu|]; [|apply guarded_ret]. destruct (decide _); [apply guarded_ret|].
  apply guarded_bind.
  { apply guarded_try, guarded_call. by exists h, st. }
  intros h' [e|crds] _; [apply guarded_ret|].
  apply guarded_bind; [by eapply import_crds_guarded|]. intros h2 gvrs _.
  apply guarded_for_each. intros k h3 Hk%elem_of_set_range. apply remove_gvr_guarded. set_solver.
Qed.

(** The importer touches only the imports of its SyncTarget: it acts while the
    SyncTarget has the UID that it was started for, makes an import only for a type
    that has none, at its own location and owned by the SyncTarget, changes nothing
    but the schema of the one that there is, and deletes only those of types that
    are recorded as synced. *)
Theorem importer_keeps_to_its_location h : guarded importer_call (ImportAPIs i) h.
Proof. apply imports_of_the_location. Qed.

(** The types that the importer has synced are never recorded, so that no import
    is ever removed while it runs: those of a type, or of a version, that the
    physical cluster no longer has stay. *)
Theorem imports_are_never_removed h :
  SyncedGVRs i = ∅ -> guarded (fun _ e => forall n, e <> DeleteImport n) (ImportAPIs i) h.
Proof.
  intros Hs. eapply guarded_mono; [apply imports_of_the_location|].
  intros h' [] Hc n; try done. destruct Hc as (k & gvr & o & Hk & _). by rewrite Hs in Hk.
Qed.

(** When the syncer stops, it asks for the deletion of every import of its SyncTarget,
    whatever the answers. *)
Theorem stop_deletes_the_imports h l :
  apiresourceImportIndexer i h = inr l ->
  Stop i h = (h ++ ((fun o => DeleteImport (Name (i_Meta o))) <$> List.filter (fun o => bool_decide (i_Location o = name)) l),
              Ok tt).
Proof.
  intros Hl. unfold Stop.
  erewrite bind_ok by (unfold try, ByIndex; rewrite Hl; reflexivity).
  rewrite (for_each_total _ (fun o => [DeleteImport (Name (i_Meta o))])).
  - rewrite concat_singletons. f_equal. f_equal. f_equal. apply List.filter_ext. intros o.
    apply bool_decide_ext. unfold LocationIndex, GetLocationIndexKey.
    rewrite list_elem_of_singleton. by split.
  - intros o h' _. run_M. by destruct (WriteAnswer i _).
Qed.
End theorems.

(** * Examples *)

Module Examples.
#[local] Instance resources_in_order : KeyOrder GroupResource := canonical_range GroupResource.
#[local] Existing Instance canonical_order.
#[local] Instance schemas_as_text : SchemaCompatLib := {|
  JSONSchemaProps := string; MarshalSchema s := inr (default "" s); UnmarshalSchema := inr;
  EnsureStructuralSchemaCompatibility _ existing _ _ := inr existing;
  CompareKubeAwareVersionStrings _ _ := 0%Z; IsProtectedCommunityGroup _ := false;
  IsCRDConditionTrue _ _ := false; IsCRDConditionFalse _ _ := false;
  GroupVersionString g v := g +:+ "/" +:+ v;
  MetaGVRString g := gvr_Group g +:+ "/" +:+ gvr_Version g +:+ "/" +:+ gvr_Resource g |}.

Definition widgets : GroupResource := {| gr_Group := "example.com"; gr_Resource := "widgets" |}.
Definition version (v : string) : CRDVersion := {|
  v_Name := v; v_Served := true; v_Storage := true; v_Schema := Some (Some ("schema of " +:+ v));
  v_Subresources := None; v_AdditionalPrinterColumns := []; v_Deprecated := false |}.
Definition widget_crd (v : string) : CustomResourceDefinition := {|
  crd_Meta := mk_meta "widgets.example.com" "" None None []; crd_Generation := 1%Z; crd_Group := "example.com";
  crd_Names := {| Plural := "widgets"; Singular := "widget"; ShortNames := []; Kind := "Widget";
                  ListKind := "WidgetList"; Categories := [] |};
  crd_Scope := "Namespaced"; crd_Versions := [version v]; crd_Conditions := [] |}.
Definition target : SyncTarget := {|
  st_Meta := {| Name := "st"; Namespace := ""; UID := "uid"; ResourceVersion := "1"; Labels := None;
    Annotations := None; Finalizers := []; DeletionTimestamp := None; CreationTimestamp := ZeroTime;
    OwnerReferences := [] |};
  st_Spec := {| Unschedulable := false; EvictAfter := None; SupportedAPIExports := []; Cells := None |};
  st_Status := {| Allocatable := None; Capacity := None; st_Conditions := []; SyncedResources := [];
    LastSyncerHeartbeatTime := None; VirtualWorkspaces := []; TunnelWorkspaces := [] |} |}.
(** A physical cluster that serves widgets at one version, and a store of imports. *)
Definition importer (v : string) (store : list APIResourceImport) : APIImporter := {|
  resourcesToSync := ["widgets.example.com"]; syncTargetName := "st"; syncTargetUID := "uid"; SyncedGVRs := ∅;
  syncTargetLister _ _ := inr target; apiresourceImportIndexer _ := inr store;
  PullAnswer _ := inr {[ widgets := widget_crd v ]}; WriteAnswer _ := inr tt |}.
Definition calls (t : list import_call) : list (string * string) :=
  (fun e => match e with
            | PullCRDs names => ("pull", Join names ",")
            | CreateImport o => ("create " +:+ Name (i_Meta o), cs_OpenAPIV3Schema (i_Spec o))
            | UpdateImport o => ("update " +:+ Name (i_Meta o), cs_OpenAPIV3Schema (i_Spec o))
            | DeleteImport n => ("delete", n)
            end) <$> t.
Definition made : APIResourceImport :=
  match (ImportAPIs (importer "v1" []) []).1 with
  | [_; CreateImport o] => o
  | _ => new_import (importer "v1" []) target zero_gvr (widget_crd "v1") (new_spec zero_gvr (widget_crd "v1") (version "v1"))
  end.
Example first_and_second_pass :
  calls (ImportAPIs (importer "v1" []) []).1 =
    [("pull", "widgets.example.com"); ("create widgets.st.v1.example.com", "schema of v1")] /\
  calls (ImportAPIs (importer "v1" [made]) []).1 =
    [("pull", "widgets.example.com"); ("update widgets.st.v1.example.com", "schema of v1")].
Proof. by vm_compute. Qed.
(** The physical cluster moves to another version: the import of the former one stays. *)
Example old_version_stays :
  calls (ImportAPIs (importer "v2" [made]) []).1 =
    [("pull", "widgets.example.com"); ("create widgets.st.v2.example.com", "schema of v2")].
Proof. by vm_compute. Qed.

Lemma widgets_ok gr crd :
  ({[ widgets := widget_crd "v1" ]} : gmap GroupResource CustomResourceDefinition) !! gr = Some crd -> pulled_ok crd.
Proof. intros [_ <-]%lookup_singleton_Some. by eexists _, _, _, _. Qed.
Lemma one_import : server_ok (importer "v1" [made]).
Proof.
  split; [done|]. intros h key. split; [by eexists|]. unfold cached_for, by_index.
  cbn [apiresourceImportIndexer importer mbind result_bind mret result_ret List.filter].
  case_match; simpl; lia.
Qed.
Lemma every_type_is_imported_witness :
  exists events, ImportAPIs (importer "v1" [made]) [] = ([PullCRDs ["widgets.example.com"]] ++ events, Ok tt) /\
    Forall2 (fun kv e => exists h', [PullCRDs ["widgets.example.com"]] `prefix_of` h' /\
      wanted (importer "v1" [made]) target kv.1 kv.2
        (cached_for (importer "v1" [made]) h' (type_key (importer "v1" [made]) kv.1 kv.2)) = Some e)
      (range_map {[ widgets := widget_crd "v1" ]}) events.
Proof.
  apply (every_type_is_imported (importer "v1" [made]) target {[ widgets := widget_crd "v1" ]} []).
  - exact one_import.
  - reflexivity.
  - reflexivity.
  - reflexivity.
  - apply (bool_decide_unpack _). by vm_compute.
  - reflexivity.
  - exact widgets_ok.
Defined.
Lemma the_import_is_found_again_witness :
  by_index GVRForLocation (type_key (importer "v1" []) widgets (widget_crd "v1")) (inr [made]) = inr [made] /\
  wanted (importer "v1" []) target widgets (widget_crd "v1") [made] = Some (UpdateImport made).
Proof. apply the_import_is_found_again; by vm_compute. Defined.
Lemma imports_are_never_removed_witness :
  guarded (fun _ e => forall n, e <> DeleteImport n) (ImportAPIs (importer "v2" [made])) [].
Proof. by apply (imports_are_never_removed (importer "v2" [made]) []). Defined.
End Examples.
