(* ===== verification/WorkspaceControllers.v ===== *)
(** * Default locations and replication ([pkg/reconciler/workload/defaultlocation],
    [.../replicateclusterrole], [.../replicatelogicalcluster])

    A workspace with SyncTargets gets a location that selects all of them; the roles
    that let a syncer in, and the logical clusters that have SyncTargets, are marked
    for replication to the other shards. The marking is done by a controller of kcp, to
    which this code gives a predicate. *)

From S2P Require Import Prelude Platform ApiTypes SyncerShared GoPath SyncTargetUrls VirtualServer Location Workqueue.
Local Open Scope nat_scope.

(** ** The default location ([defaultlocation_controller.go]) *)

Definition DefaultLocationName : string := "default".
Inductive location_create := CreateLocation (cluster : string) (location : Location).
Abbreviation DM := (M (event location_create)) (only parsing).

Section default_location.
Context {EL : ErrorLib} {CL : ClusterLib}.
Record Controller := {
  listSyncTargets : list (event location_create) -> string -> result (list SyncTarget);
  getLocation : list (event location_create) -> string -> string -> result Location;
  CreateAnswer : list (event location_create) -> result Location;
}.
Variable c : Controller.

Definition default_location (clusterName : string) : Location := {|
  l_Meta := mk_meta DefaultLocationName "" None (Some {[ "kcp.io/cluster" := clusterName ]}) [];
  l_Spec := {|
    l_Resource := {| gvr_Group := "workload.kcp.io"; gvr_Version := "v1alpha1"; gvr_Resource := "synctargets" |};
    l_Description := ""; l_AvailableSelectorLabels := [];
    l_InstanceSelector := Some {| MatchLabels := None; MatchExpressions := [] |} |};
  l_Status := {| Instances := None; AvailableInstances := None |} |}.
(** The key is the name of the logical cluster. *)
Definition process (key : string) : DM bool :=
  syncTargets ← (fun h => (h, of_result (listSyncTargets c h key)));
  if decide (syncTargets = []) then mret false
  else
    r ← try (fun h => (h, of_result (getLocation c h key DefaultLocationName)));
    match r with
    | inr _ => mret false
    | inl err =>
        if negb (IsNotFound err) then fail err
        else
          r ← try (call (EvCall (CreateLocation key (default_location key))) (CreateAnswer c));
          match r with
          | inl err => if IsAlreadyExists err then mret false else fail err
          | inr _ => mret false
          end
    end.
Definition processNextWorkItem : string -> DM unit := Workqueue.processNextWorkItem process.

(** What an informer hands to the handler of a deletion. *)
Inductive delivered := Live (obj : ObjectMeta) | DeletedFinalStateUnknown (key : string) (obj : ObjectMeta).
Definition deletion_key (d : delivered) : result string :=
  match d with Live obj => MetaClusterNamespaceKeyFunc obj | DeletedFinalStateUnknown key _ => inr key end.
Definition enqueue (d : delivered) : DM unit :=
  match deletion_key d with
  | inl err => emit (EvHandleError err)
  | inr key =>
      match SplitMetaClusterNamespaceKey key with
      | inl err => emit (EvHandleError err)
      | inr (clusterName, _, _) => emit (EvAdd clusterName)
      end
  end.
(** The filter looks at the type of what is delivered, before the handler. *)
Definition is_default_location (d : delivered) : bool :=
  match d with Live obj => bool_decide (Name obj = DefaultLocationName) | DeletedFinalStateUnknown _ _ => false end.
Definition location_deleted (d : delivered) : DM unit :=
  if is_default_location d then enqueue d else mret tt.
End default_location.

(** ** Roles ([replicateclusterrole_controller.go]) *)

Definition GroupName : string := "workload.kcp.io".
Record ClusterRole := { cr_Meta : ObjectMeta; cr_Rules : list PolicyRule }.
Definition Has (l : list string) (x : string) : bool := bool_decide (x ∈ l).
Definition is_sync_rule (rule : PolicyRule) : bool :=
  if negb (Has (pr_APIGroups rule) GroupName) && negb (Has (pr_APIGroups rule) "*") then false
  else (Has (pr_Resources rule) "synctargets" || Has (pr_Resources rule) "*")
       && (Has (pr_Verbs rule) "sync" || Has (pr_Verbs rule) "*").
Definition HasSyncRule (clusterName : string) (cr : ClusterRole) : bool := existsb is_sync_rule (cr_Rules cr).

(** ** Logical clusters ([replicatelogicalcluster_controller.go]) *)

Inductive lc_event := LCHandleError (msg : string) | EnqueueLogicalCluster (cluster : string).
Section logical_cluster.
Context {EL : ErrorLib} {CL : ClusterLib}.
(** The keys of the SyncTargets of a logical cluster, and the lister. *)
Variable IndexKeys : string -> result (list string).
Variable getLogicalCluster : string -> result ObjectMeta.

Definition is_replicated (cluster : ObjectMeta) : M lc_event bool :=
  match IndexKeys (ClusterFrom cluster) with
  | inl err => emit (LCHandleError ("failed to list SyncTargets: " +:+ error_text err));; mret false
  | inr keys => mret (negb (bool_decide (keys = [])))
  end.
Definition enqueue_logical_cluster (syncTarget : delivered) : M lc_event unit :=
  let obj := match syncTarget with Live obj => obj | DeletedFinalStateUnknown _ obj => obj end in
  match getLogicalCluster (ClusterFrom obj) with
  | inr cluster => emit (EnqueueLogicalCluster (ClusterFrom cluster))
  | inl err => if IsNotFound err then mret tt
               else emit (LCHandleError ("failed to get logical cluster: " +:+ error_text err))
  end.
(** The handler of an addition or a deletion, behind kcp's filter. *)
Variable IsNoSystemClusterName : delivered -> bool.
Definition on_sync_target (syncTarget : delivered) : M lc_event unit :=
  if IsNoSystemClusterName syncTarget then enqueue_logical_cluster syncTarget else mret tt.
End logical_cluster.

(** * Theorems *)

Section theorems.
Context {EL : ErrorLib} {CL : ClusterLib} {LL : LabelLib}.
Variable c : Controller.

(** Every branch of a pass. *)
Theorem default_location_process key h :
  process c key h =
    match listSyncTargets c h key, getLocation c h key DefaultLocationName with
    | inl err, _ => (h, Err err)
    | inr [], _ => (h, Ok false)
    | inr _, inr _ => (h, Ok false)
    | inr _, inl err =>
        if IsNotFound err then
          let h' := h ++ [EvCall (CreateLocation key (default_location key))] in
          (h', match CreateAnswer c h' with
               | inl err => if IsAlreadyExists err then Ok false else Err err
               | inr _ => Ok false
               end)
        else (h, Err err)
    end.
Proof.
  unfold process, mbind, M_bind, try. destruct (listSyncTargets c h key) as [err|[|t l]]; [done..|].
  cbn [of_result]. rewrite decide_False by done.
  destruct (getLocation c h key DefaultLocationName) as [err|]; [|done]. cbn [of_result].
  destruct (IsNotFound err); [|done]. cbn [negb]. unfold call. cbn.
  by destruct (CreateAnswer c _) as [err'|]; cbn; [destruct (IsAlreadyExists err')|].
Qed.

(** A workspace whose SyncTargets have no default location gets one, and this
    location selects all of them: until somebody restricts it, placements choose among
    every SyncTarget of the workspace. With the location there, or without a
    SyncTarget, a pass does nothing. *)
Theorem default_location_selects_all key h syncTargets err :
  LabelSelectorAsSelector (Some {| MatchLabels := None; MatchExpressions := [] |}) = inr (fun _ => true) ->
  listSyncTargets c h key = inr syncTargets -> syncTargets <> [] ->
  getLocation c h key DefaultLocationName = inl err -> IsNotFound err = true ->
  (forall h, exists l, CreateAnswer c h = inr l) ->
  exists location, process c key h = (h ++ [EvCall (CreateLocation key location)], Ok false) /\
    Name (l_Meta location) = DefaultLocationName /\
    LocationSyncTargets syncTargets location = inr syncTargets.
Proof.
  intros Hs Hl Hne Hg Hn Hc. exists (default_location key). split; [|split; [done|]].
  - rewrite default_location_process, Hl, Hg, Hn. destruct syncTargets; [done|]. cbn.
    by destruct (Hc (h ++ [EvCall (CreateLocation key (default_location key))])) as [l ->].
  - unfold LocationSyncTargets. cbn [l_InstanceSelector l_Spec default_location]. rewrite Hs. f_equal.
    clear. induction syncTargets as [|t l IH]; [done|]. by rewrite filter_cons_True, IH.
Qed.
End theorems.

(** ** Roles *)

Section roles.
Context {CL : ClusterLib}.
(** The API server's evaluation of a rule: verb, group and resource must be named, or
    all of them. *)
Variable RuleAllows : AttributesRecord -> PolicyRule -> bool.
Hypothesis RuleAllows_names : forall a rule, RuleAllows a rule = true ->
  (a_Verb a ∈ pr_Verbs rule \/ "*" ∈ pr_Verbs rule) /\
  (a_APIGroup a ∈ pr_APIGroups rule \/ "*" ∈ pr_APIGroups rule) /\
  (a_Resource a ∈ pr_Resources rule \/ "*" ∈ pr_Resources rule).
(** The roles bound to a user in a logical cluster. *)
Variable RolesFor : string -> string -> list ClusterRole.
Definition by_roles (cluster : string) : result (AttributesRecord -> Decision * string * option error) :=
  inr (fun a =>
    if existsb (fun role => existsb (RuleAllows a) (cr_Rules role)) (RolesFor cluster (a_User a))
    then (DecisionAllow, "", None) else (DecisionNoOpinion, "", None)).

(** Whoever the virtual workspace lets in holds a role that is replicated: the
    predicate misses no role by which a request to sync a SyncTarget is allowed, so
    that the shard that serves the virtual workspace knows the role. *)
Theorem admitted_roles_are_replicated syncTargetKey user reason err :
  authorize by_roles syncTargetKey user = (DecisionAllow, reason, err) ->
  exists cluster role, role ∈ RolesFor cluster user /\ HasSyncRule cluster role = true.
Proof.
  unfold authorize. destruct (SplitMetaClusterNamespaceKey syncTargetKey) as [|[[cluster ns] name]]; [done|].
  cbn [by_roles]. set (a := {| a_User := user |}). cbn [a_User a].
  destruct (existsb _ (RolesFor cluster user)) eqn:E; [|done]. intros _.
  apply existsb_exists in E as (role & Hrole & (rule & Hrule & Ha)%existsb_exists).
  exists cluster, role. split; [by apply list_elem_of_In|].
  apply existsb_exists. exists rule. split; [done|].
  apply RuleAllows_names in Ha as (Hv & Hg & Hr). cbn in Hv, Hg, Hr.
  unfold is_sync_rule, Has, GroupName.
  assert (Ho : forall (l : list string) x, x ∈ l \/ "*" ∈ l ->
    bool_decide (x ∈ l) || bool_decide ("*" ∈ l) = true).
  { intros l x H. by rewrite orb_true_iff, !bool_decide_eq_true. }
  rewrite <-negb_orb. by rewrite !Ho.
Qed.
End roles.

(** * Examples *)

Module Examples.
Import SyncTargetUrls.Examples.
#[local] Existing Instances simple_errors simple_clusters simple_labels.

(** Label selectors that match by their labels: the empty one matches all. *)
#[local] Instance selectors : LabelLib := {|
  LabelSelectorAsSelector s := inr (fun labels =>
    match s with
    | None => false
    | Some s => match MatchLabels s with None => true | Some m => bool_decide (m ⊆ labels) end
    end) |}.
Definition config : Controller := {|
  listSyncTargets _ _ := inr [target];
  getLocation _ _ _ := inl (ErrLib "NotFound" "");
  CreateAnswer _ := inr (default_location "ws") |}.
Lemma default_location_selects_all_witness :
  exists location, process config "ws" [] = ([] ++ [EvCall (CreateLocation "ws" location)], Ok false) /\
    Name (l_Meta location) = DefaultLocationName /\
    LocationSyncTargets [target] location = inr [target].
Proof.
  apply (default_location_selects_all config "ws" [] [target] (ErrLib "NotFound" "")).
  - reflexivity.
  - reflexivity.
  - discriminate.
  - reflexivity.
  - reflexivity.
  - intros h. by eexists.
Defined.

Definition allows (a : AttributesRecord) (rule : PolicyRule) : bool :=
  bool_decide ((a_Verb a ∈ pr_Verbs rule \/ "*" ∈ pr_Verbs rule) /\
    (a_APIGroup a ∈ pr_APIGroups rule \/ "*" ∈ pr_APIGroups rule) /\
    (a_Resource a ∈ pr_Resources rule \/ "*" ∈ pr_Resources rule) /\
    (pr_ResourceNames rule = [] \/ a_Name a ∈ pr_ResourceNames rule)).
Lemma allows_names a rule : allows a rule = true ->
  (a_Verb a ∈ pr_Verbs rule \/ "*" ∈ pr_Verbs rule) /\
  (a_APIGroup a ∈ pr_APIGroups rule \/ "*" ∈ pr_APIGroups rule) /\
  (a_Resource a ∈ pr_Resources rule \/ "*" ∈ pr_Resources rule).
Proof. intros (H1 & H2 & H3 & _)%bool_decide_eq_true. done. Qed.
Definition syncer_role : ClusterRole := {|
  cr_Meta := mk_meta "syncer" "" None None [];
  cr_Rules := [{| pr_APIGroups := ["workload.kcp.io"]; pr_Resources := ["synctargets"];
                  pr_ResourceNames := ["test-cluster"]; pr_Verbs := ["sync"; "get"]; pr_NonResourceURLs := [] |}] |}.
Definition roles (cluster user : string) : list ClusterRole :=
  if decide (user = "syncer") then [syncer_role] else [].
Lemma admitted_roles_are_replicated_witness :
  exists cluster role, role ∈ roles cluster "syncer" /\ HasSyncRule cluster role = true.
Proof.
  apply (admitted_roles_are_replicated allows allows_names roles "ws|test-cluster" "syncer" "" None).
  by vm_compute.
Defined.
(** A deletion that the informer only learns of later is not seen as one of the
    default location. *)
Example late_deletions_are_missed (m : ObjectMeta) :
  location_deleted (DeletedFinalStateUnknown "ws|default" m) [] = ([], Ok tt).
Proof. reflexivity. Qed.
End Examples.
