(* ===== verification/CliSync.v ===== *)
(** * The command that enables a syncer ([pkg/cliplugins/workload/plugin/sync.go])

    It prepares a workspace for a physical cluster: the SyncTarget, the export of the
    resources asked for, and a service account with the role by which the syncer gets
    into the virtual workspace; then it fills in the manifest of the syncer. *)

From S2P Require Import Prelude Platform Digest ApiTypes Committer SyncerShared GoPath SyncTargetUrls VirtualServer StatusSync Mutators WorkspaceControllers ApiResource Shards ApiExports.
Local Open Scope nat_scope.

(** ** Options *)

Definition SyncerSecretConfigKey : string := "kubeconfig".
Definition DNSIDPrefix : string := "kcp-dns-".
(** [DNS1123SubdomainMaxLength] is 253. *)
Definition MaxSyncTargetNameLength : nat := 253 - (9 + String.length SyncerIDPrefix).

(** The flags; [o_passed] are those that are only handed on to the template. *)
Record SyncOptions := {
  o_ResourcesToSync : list string;
  o_APIExports : list string;
  o_SyncerImage : string;
  o_Replicas : Z;
  o_OutputFile : string;
  o_DownstreamNamespace : string;
  o_KCPNamespace : string;
  o_SyncTargetName : string;
  o_SyncTargetLabels : list string;
  o_passed : list (string * string);
}.

(** [logicalcluster.NewPath(s).Split()]: the parent path and the last name. *)
Class PathSplitLib := { PathSplit : string -> string * string }.

Section options.
Context {EL : ErrorLib} {PS : PathSplitLib}.
Definition check (b : bool) (msg : string) : list error := if b then [ErrMsg msg] else [].
(** [base] is the answer of the embedded options. *)
Definition Validate (o : SyncOptions) (base : option error) : option error :=
  NewAggregate (option_list base
    ++ check (bool_decide (o_SyncerImage o = "")) "--syncer-image is required"
    ++ check (bool_decide (o_KCPNamespace o = "")) "--kcp-namespace is required"
    ++ check (o_Replicas o <? 0)%Z "--replicas cannot be negative"
    ++ check (1 <? o_Replicas o)%Z "only 0 and 1 are valid values for --replicas"
    ++ check (bool_decide (o_OutputFile o = "")) "--output-file is required"
    ++ check (254 <? String.length (o_SyncTargetName o) + String.length DNSIDPrefix + 8 + 8 + 2)
         "the maximum length of the sync-target-name is 233"
    ++ concat ((fun l => check (negb (length (Split l "=") =? 2))
                           ("label '" +:+ l +:+ "' is not in the format of key=value")) <$> o_SyncTargetLabels o)
    ++ concat ((fun e => check (bool_decide ((PathSplit e).2 = ImportedAPISExportName))
                           (ImportedAPISExportName +:+ " is a reserved APIExport name and should not be set"))
                 <$> o_APIExports o)).
Definition parse_labels (l : list string) : gmap string string :=
  foldl (fun labels l => match Split l "=" with [k; v] => <[ k := v ]> labels | _ => labels end) ∅ l.
End options.

(** ** The export of the resources asked for *)

Section export.
Context {GL : GroupResourceLib}.
(** The resources that the export has schemas of. *)
Definition desired_groups (schemas : list string) : gset string :=
  list_to_set (omap (fun schema => GR_String <$> ParseAPIResourceSchemaName schema) schemas).
Definition asked (resource : string) : GroupResource :=
  let gr := ParseGroupResource resource in
  {| gr_Group := if decide (gr_Group gr = "") then "core" else gr_Group gr; gr_Resource := gr_Resource gr |}.
Definition placeholder (gr : GroupResource) : string := "rev-0." +:+ GR_String gr.
Definition mergeLatestResourceSchema (apiExport : APIExport) (resourceToSync : list string)
    : APIExport * bool :=
  let desiredResourceGroup := desired_groups (LatestResourceSchemas apiExport) in
  foldl (fun p resource =>
      let gr := asked resource in
      if decide (GR_String gr ∈ desiredResourceGroup) then p
      else (with_schemas p.1 (LatestResourceSchemas p.1 ++ [placeholder gr]), true))
    (apiExport, false) resourceToSync.
End export.

(** ** Roles and owners *)

Definition mergeOwnerReference (ownerReferences newOwnerReferences : list OwnerReference) : list OwnerReference :=
  foldl (fun merged r => if existsb (fun m => bool_decide (or_UID m = or_UID r)) merged then merged else merged ++ [r])
    ownerReferences newOwnerReferences.

Definition syncer_rule (verbs groups resources names : list string) : PolicyRule := {|
  pr_APIGroups := groups; pr_Resources := resources; pr_ResourceNames := names; pr_Verbs := verbs;
  pr_NonResourceURLs := [] |}.
Definition syncer_rules (syncTargetName : string) : list PolicyRule := [
  syncer_rule ["sync"] ["workload.kcp.io"] ["synctargets"] [syncTargetName];
  syncer_rule ["get"] ["workload.kcp.io"] ["synctargets/tunnel"] [syncTargetName];
  syncer_rule ["get"; "list"; "watch"] ["workload.kcp.io"] ["synctargets"] [syncTargetName];
  syncer_rule ["update"; "patch"] ["workload.kcp.io"] ["synctargets"; "synctargets/status"] [syncTargetName];
  syncer_rule ["get"; "create"; "update"; "delete"; "list"; "watch"] ["apiresource.kcp.io"] ["apiresourceimports"] [];
  {| pr_APIGroups := []; pr_Resources := []; pr_ResourceNames := []; pr_Verbs := ["access"];
     pr_NonResourceURLs := ["/"] |}].

Section id.
Context {B36 : Base36Lib}.
Definition getSyncerID (syncTarget : SyncTarget) : res string :=
  p ← slice_to (base36hash (UID (st_Meta syncTarget))) 8;
  mret ("kcp-syncer-" +:+ Name (st_Meta syncTarget) +:+ "-" +:+ p).
End id.

(** ** Requests *)

Record ServiceAccount := { sa_Meta : ObjectMeta; sa_Secrets : list string }.
Record ClusterRoleBinding := {
  b_Meta : ObjectMeta; b_Subjects : list (string * string * string); b_RoleRef : string * string * string }.
Inductive cli_call :=
  | GetExport (name : string) | CreateExport (e : APIExport) | UpdateExport (e : APIExport)
  | GetTarget (name : string) | CreateTarget (t : SyncTarget) | PatchTarget (name patch : string)
  | GetServiceAccount (ns name : string) | CreateServiceAccount (ns : string) (sa : ServiceAccount)
  | PatchServiceAccount (ns name patch : string)
  | GetRole (name : string) | CreateRole (r : ClusterRole) | PatchRole (name patch : string)
  | GetBinding (name : string) | DeleteBinding (name : string) | CreateBinding (b : ClusterRoleBinding)
  | GetSecret (ns name : string).

(** The answers of the workspace's server; [attempts] is how often a poll tests its
    condition before the time is up. *)
Record workspace := {
  export_answer : list cli_call -> result APIExport;
  target_answer : list cli_call -> result SyncTarget;
  account_answer : list cli_call -> result ServiceAccount;
  role_answer : list cli_call -> result ClusterRole;
  binding_answer : list cli_call -> result unit;
  secret_answer : list cli_call -> result (gmap string string);
  attempts : nat;
}.
(** [wait.PollImmediateWithContext] with a condition that reports no error. *)
Fixpoint poll {Ev A} (n : nat) (condition : M Ev (option A)) : M Ev A :=
  match n with
  | O => fail (ErrMsg "timed out waiting for the condition")
  | S n => r ← condition; match r with Some a => mret a | None => poll n condition end
  end.

(** Objects that a client returns with an error. *)
Definition zero_meta : ObjectMeta := mk_meta "" "" None None [].
Definition zero_target : SyncTarget := {|
  st_Meta := zero_meta;
  st_Spec := {| Unschedulable := false; EvictAfter := None; SupportedAPIExports := []; Cells := None |};
  st_Status := {| Allocatable := None; Capacity := None; st_Conditions := []; SyncedResources := [];
    LastSyncerHeartbeatTime := None; VirtualWorkspaces := []; TunnelWorkspaces := [] |} |}.
Definition zero_account : ServiceAccount := {| sa_Meta := zero_meta; sa_Secrets := [] |}.

Section requests.
Context {EL : ErrorLib} {GL : GroupResourceLib} {PS : PathSplitLib} {B36 : Base36Lib}.
(** [json.Marshal] of the objects, and [jsonpatch.CreateMergePatch]. *)
Variable Marshal_target : SyncTarget -> result string.
Variable Marshal_account : ServiceAccount -> result string.
Variable Marshal_role : ClusterRole -> result string.
Variable CreateMergePatch : string -> string -> result string.
Variable w : workspace.
Variable o : SyncOptions.
#[local] Abbreviation CM := (M cli_call) (only parsing).

Definition wrap {A} (msg : string) (m : CM A) : CM A :=
  r ← try m; match r with inl err => fail (ErrWrap msg err) | inr a => mret a end.
(** The patch from one object to another. *)
Definition patch_between {A} (Marshal : A -> result string) (old new : A) : CM string :=
  oldData ← wrap "failed to marshal old data" (read (Marshal old));
  newData ← wrap "failed to marshal new data" (read (Marshal new));
  wrap "failed to create merge patch" (read (CreateMergePatch oldData newData)).

(** *** The SyncTarget *)

Definition export_reference (export : string) : APIExportReference :=
  {| ref_Path := (PathSplit export).1; ref_Export := (PathSplit export).2 |}.
Definition imported_export (schemas : list string) : APIExport := {|
  e_Meta := mk_meta ImportedAPISExportName "" None (Some {[ ComputeAPIExportAnnotationKey := "true" ]}) [];
  LatestResourceSchemas := schemas |}.
Definition apply_export : CM unit :=
  r ← try (call (GetExport ImportedAPISExportName) (export_answer w));
  match r with
  | inl err =>
      if IsNotFound err then
        r ← try (call (CreateExport (mergeLatestResourceSchema (imported_export []) (o_ResourcesToSync o)).1)
                   (export_answer w));
        match r with
        | inl err => if IsAlreadyExists err then mret tt else fail err
        | inr _ => mret tt
        end
      else fail err
  | inr apiExport =>
      let '(apiExport, modified) := mergeLatestResourceSchema apiExport (o_ResourcesToSync o) in
      if modified then call (UpdateExport apiExport) (export_answer w);; mret tt else mret tt
  end.
Definition supported_exports : list APIExportReference :=
  (export_reference <$> o_APIExports o) ++
  (if decide (o_ResourcesToSync o = []) then []
   else if decide (ImportedAPISExportName ∈ o_APIExports o) then []
   else [{| ref_Path := ""; ref_Export := ImportedAPISExportName |}]).
Definition target_body (uid version : string) (labels : gomap) (exports : list APIExportReference) : SyncTarget := {|
  st_Meta := {| Name := ""; Namespace := ""; UID := uid; ResourceVersion := version; Labels := labels;
    Annotations := None; Finalizers := []; DeletionTimestamp := None; CreationTimestamp := ZeroTime;
    OwnerReferences := [] |};
  st_Spec := {| Unschedulable := false; EvictAfter := None; SupportedAPIExports := exports; Cells := None |};
  st_Status := st_Status zero_target |}.
(** [equality.Semantic.DeepEqual] takes nil and empty maps as equal. *)
Definition update_target (syncTargetName : string) (labels : gmap string string)
    (exports : list APIExportReference) (syncTarget : SyncTarget) : CM SyncTarget :=
  if decide (labels = entries (Labels (st_Meta syncTarget)) /\
             exports = SupportedAPIExports (st_Spec syncTarget)) then mret syncTarget
  else
    patchBytes ← patch_between Marshal_target
      (target_body "" "" (Labels (st_Meta syncTarget)) (SupportedAPIExports (st_Spec syncTarget)))
      (target_body (UID (st_Meta syncTarget)) (ResourceVersion (st_Meta syncTarget)) (Some labels) exports);
    wrap "failed to patch syncTarget" (call (PatchTarget syncTargetName patchBytes) (target_answer w)).
Definition new_target (syncTargetName : string) (labels : gmap string string) (exports : list APIExportReference)
    : SyncTarget := {|
  st_Meta := mk_meta syncTargetName "" (Some labels) None [];
  st_Spec := {| Unschedulable := false; EvictAfter := None; SupportedAPIExports := exports; Cells := None |};
  st_Status := st_Status zero_target |}.
Definition applySyncTarget (syncTargetName : string) (labels : gmap string string) : CM SyncTarget :=
  (if decide (o_ResourcesToSync o = []) then mret tt else apply_export);;
  let exports := supported_exports in
  r ← try (call (GetTarget syncTargetName) (target_answer w));
  match r with
  | inl err =>
      if IsNotFound err then
        r ← try (call (CreateTarget (new_target syncTargetName labels exports)) (target_answer w));
        match r with
        | inr syncTarget => mret syncTarget
        | inl err =>
            if IsAlreadyExists err then update_target syncTargetName labels exports zero_target
            else fail (ErrWrap "failed to create synctarget" err)
        end
      else fail err
  | inr syncTarget => update_target syncTargetName labels exports syncTarget
  end.

(** *** The service account and its role *)

Definition owner_of (syncTarget : SyncTarget) : OwnerReference := {|
  or_APIVersion := "workload.kcp.io/v1alpha1"; or_Kind := "SyncTarget"; or_Name := Name (st_Meta syncTarget);
  or_UID := UID (st_Meta syncTarget); or_Controller := None; or_BlockOwnerDeletion := None |}.
Definition owned_meta (name uid version : string) (owners : list OwnerReference) : ObjectMeta := {|
  Name := name; Namespace := ""; UID := uid; ResourceVersion := version; Labels := None; Annotations := None;
  Finalizers := []; DeletionTimestamp := None; CreationTimestamp := ZeroTime; OwnerReferences := owners |}.
Definition apply_account (ns syncerID : string) (owners : list OwnerReference) : CM ServiceAccount :=
  r ← try (call (GetServiceAccount ns syncerID) (account_answer w));
  match r with
  | inl err =>
      if IsNotFound err then
        r ← try (call (CreateServiceAccount ns {| sa_Meta := owned_meta syncerID "" "" owners; sa_Secrets := [] |})
                   (account_answer w));
        match r with
        | inr sa => mret sa
        | inl err => if IsAlreadyExists err then mret zero_account
                     else fail (ErrWrap "failed to create ServiceAccount" err)
        end
      else fail (ErrWrap "failed to get the ServiceAccount" err)
  | inr sa =>
      let m := sa_Meta sa in
      patchBytes ← patch_between Marshal_account
        {| sa_Meta := owned_meta "" "" "" (OwnerReferences m); sa_Secrets := [] |}
        {| sa_Meta := owned_meta "" (UID m) (ResourceVersion m) (mergeOwnerReference (OwnerReferences m) owners);
           sa_Secrets := [] |};
      wrap "failed to patch ServiceAccount" (call (PatchServiceAccount ns (Name m) patchBytes) (account_answer w))
  end.
Definition apply_role (syncTargetName syncerID : string) (owners : list OwnerReference) : CM unit :=
  r ← try (call (GetRole syncerID) (role_answer w));
  match r with
  | inl err =>
      if IsNotFound err then
        r ← try (call (CreateRole {| cr_Meta := owned_meta syncerID "" "" owners; cr_Rules := syncer_rules syncTargetName |})
                   (role_answer w));
        match r with
        | inr _ => mret tt
        | inl err => if IsAlreadyExists err then mret tt else fail err
        end
      else fail err
  | inr cr =>
      let m := cr_Meta cr in
      patchBytes ← patch_between Marshal_role
        {| cr_Meta := owned_meta "" "" "" (OwnerReferences m); cr_Rules := cr_Rules cr |}
        {| cr_Meta := owned_meta "" (UID m) (ResourceVersion m) (mergeOwnerReference (OwnerReferences m) owners);
           cr_Rules := syncer_rules syncTargetName |};
      wrap "failed to patch ClusterRole" (call (PatchRole (Name m) patchBytes) (role_answer w));; mret tt
  end.
Definition role_binding (ns syncerID : string) (owners : list OwnerReference) : ClusterRoleBinding := {|
  b_Meta := owned_meta syncerID "" "" owners;
  b_Subjects := [("ServiceAccount", syncerID, ns)];
  b_RoleRef := ("ClusterRole", syncerID, "rbac.authorization.k8s.io") |}.
Definition apply_binding (ns syncerID : string) (owners : list OwnerReference) : CM unit :=
  r ← try (call (GetBinding syncerID) (binding_answer w));
  match r with
  | inl err => if negb (IsNotFound err) then fail err else mret tt
  | inr _ => call (DeleteBinding syncerID) (binding_answer w)
  end;;
  r ← try (call (CreateBinding (role_binding ns syncerID owners)) (binding_answer w));
  match r with
  | inl err => if negb (IsAlreadyExists err) then fail err else mret tt
  | inr _ => mret tt
  end.
(** *** The token *)

Definition token_secret (ns name : string) : CM (option string) :=
  r ← try (call (GetServiceAccount ns name) (account_answer w));
  mret (match r with inl _ => None | inr sa => head (sa_Secrets sa) end).
Definition get_token (ns : string) (sa : ServiceAccount) : CM string :=
  r ← try (poll (attempts w) (token_secret ns (Name (sa_Meta sa))));
  match r with
  | inl _ => fail (ErrMsg "timed out waiting for token secret name to be set on ServiceAccount")
  | inr tokenSecretName =>
      data ← wrap "failed to retrieve Secret" (call (GetSecret ns tokenSecretName) (secret_answer w));
      let saTokenBytes := default "" (data !! "token") in
      if decide (saTokenBytes = "") then fail (ErrMsg "token secret is missing a value for `token`")
      else mret saTokenBytes
  end.
Definition enableSyncerForWorkspace (syncTargetName namespace : string) (labels : gmap string string)
    : CM (string * string * SyncTarget) :=
  syncTarget ← wrap "failed to apply synctarget" (applySyncTarget syncTargetName labels);
  syncerID ← lift (getSyncerID syncTarget);
  let owners := [owner_of syncTarget] in
  sa ← apply_account namespace syncerID owners;
  apply_role syncTargetName syncerID owners;;
  apply_binding namespace syncerID owners;;
  token ← get_token namespace sa;
  mret (token, syncerID, syncTarget).

(** *** The resources that the syncer needs permissions for *)

Definition synced_names (syncTarget : SyncTarget) : list string :=
  (fun rs => gr_Resource (rs_GroupResource rs) +:+ "." +:+ gr_Group (rs_GroupResource rs))
    <$> SyncedResources (st_Status syncTarget).
Definition resources_known (syncTargetName : string) : CM (option (list string)) :=
  r ← try (call (GetTarget syncTargetName) (target_answer w));
  mret (match r with
        | inl _ => None
        | inr syncTarget =>
            match SupportedAPIExports (st_Spec syncTarget) with
            | [] => Some []
            | exports =>
                if decide (ref_Export <$> exports = [ImportedAPISExportName]) then Some []
                else if decide (SyncedResources (st_Status syncTarget) = []) then None
                else Some (synced_names syncTarget)
            end
        end).
Definition getResourcesForPermission (syncTargetName : string) : CM (gset string) :=
  l ← wrap "error waiting for getting resources to sync in syncTarget"
        (poll (attempts w) (resources_known syncTargetName));
  mret (list_to_set (o_ResourcesToSync o) ∪ {[ "secrets"; "configmaps" ]} ∪ list_to_set l).
End requests.

(** ** The manifest *)

Record groupMapping := { APIGroup : string; gm_Resources : list string }.
Definition podSubresources : list string :=
  ["pods/log"; "pods/exec"; "pods/attach"; "pods/binding"; "pods/portforward"; "pods/proxy"; "pods/ephemeralcontainers"].

Section manifest.
Context {MO : MapOrder} {SS : SliceSort}.
(** The name and the group of a resource. *)
Definition resource_parts (resource : string) : string * string :=
  match SplitN resource "." 2 with
  | [name; apiGroup] => (name, apiGroup)
  | name :: _ => (name, "")
  | [] => ("", "")
  end.
Definition add_resource (groupMap : gmap string (list string)) (resource : string) : gmap string (list string) :=
  let '(name, apiGroup) := resource_parts resource in
  let groupMap := <[ apiGroup := default [] (groupMap !! apiGroup) ++ [name] ]> groupMap in
  if decide (apiGroup = "" /\ name = "pods")
  then <[ apiGroup := default [] (groupMap !! apiGroup) ++ podSubresources ]> groupMap
  else groupMap.
Definition string_lt (a b : string) : bool := negb (string_leb b a).
Definition group_less (a b : groupMapping) : bool :=
  if decide (APIGroup a = APIGroup b) then string_lt (Join (gm_Resources a) ",") (Join (gm_Resources b) ",")
  else string_lt (APIGroup a) (APIGroup b).
Definition sortGroupMappings (l : list groupMapping) : list groupMapping := SortSlice group_less l.
Definition getGroupMappings (resourcesToSync : list string) : list groupMapping :=
  sortGroupMappings ((fun kv => {| APIGroup := kv.1; gm_Resources := kv.2 |})
    <$> map_range (foldl add_resource ∅ resourcesToSync)).

(** [strings.Replace(s, old, new, 1)]. *)
Definition ReplaceOnce (s old new : string) : string :=
  match Cut s old with Some (a, b) => a +:+ new +:+ b | None => s end.
Record templateInput := {
  ServerURL : string; CAData : string; Token : string; ti_KCPNamespace : string; ti_Namespace : string;
  SyncTargetPath : string; ti_SyncTarget : string; SyncTargetUID : string; ti_ResourcesToSync : list string;
  ti_Image : string; ti_Replicas : Z; ti_passed : list (string * string) }.
Record templateArgs := {
  input : templateInput; ta_ServiceAccount : string; ta_ClusterRole : string; ta_ClusterRoleBinding : string;
  DNSRole : string; DNSRoleBinding : string; GroupMappings : list groupMapping; ta_Secret : string;
  SecretConfigKey : string; ta_Deployment : string; DeploymentApp : string }.
(** The arguments that the template [syncer.yaml] is executed with. *)
Definition syncer_args (input : templateInput) (syncerID : string) (resourceForPermission : list string)
    : templateArgs :=
  let dnsSyncerID := ReplaceOnce syncerID "syncer" "dns" in {|
  input := input; ta_ServiceAccount := syncerID; ta_ClusterRole := syncerID; ta_ClusterRoleBinding := syncerID;
  DNSRole := dnsSyncerID; DNSRoleBinding := dnsSyncerID;
  GroupMappings := getGroupMappings resourceForPermission; ta_Secret := syncerID;
  SecretConfigKey := SyncerSecretConfigKey; ta_Deployment := syncerID; DeploymentApp := syncerID |}.

(** The URL of the client's configuration, and what [net.SplitHostPort] says of its host. *)
Record host_url := { Scheme : string; Host : string }.
Inductive host_port := HasPort | MissingPort | BadAddress (err : error).
Definition with_port (u : host_url) (port : string -> host_port) (JoinHostPort : string -> string -> string)
    : result host_url :=
  match port (Host u) with
  | HasPort => inr u
  | MissingPort =>
      inr {| Scheme := Scheme u;
             Host := JoinHostPort (Host u) (if decide (Scheme u = "https") then "443" else "80") |}
  | BadAddress err => inl (ErrWrap "failed to parse host" err)
  end.
End manifest.

(** ** [Run] *)

Section run.
Context {EL : ErrorLib} {GL : GroupResourceLib} {PS : PathSplitLib} {B36 : Base36Lib}.
Context {MO : MapOrder} {SS : SliceSort} {CL : ClusterLib}.
Variable Marshal_target : SyncTarget -> result string.
Variable Marshal_account : ServiceAccount -> result string.
Variable Marshal_role : ClusterRole -> result string.
Variable CreateMergePatch : string -> string -> result string.
(** The configuration: the server's URL, where it points to a workspace, and the
    certificate authority in base 64. *)
Variable ParseClusterURL : result host_url.
Variable SplitHostPort : string -> host_port.
Variable JoinHostPort : string -> string -> string.
Variable config_CAData : string.
(** [text/template] with [syncer.yaml]. *)
Variable Execute : templateArgs -> result string.
Variable w : workspace.

(** The manifest that is written. *)
Definition Run (o : SyncOptions) : M cli_call string :=
  '(token, syncerID, syncTarget) ← enableSyncerForWorkspace Marshal_target Marshal_account Marshal_role
     CreateMergePatch w o (o_SyncTargetName o) (o_KCPNamespace o) (parse_labels (o_SyncTargetLabels o));
  expectedResourcesForPermission ← getResourcesForPermission w o (o_SyncTargetName o);
  configURL ← (match ParseClusterURL with
               | inl _ => fail (ErrMsg "current URL does not point to workspace")
               | inr u => mret u
               end);
  configURL ← read (with_port configURL SplitHostPort JoinHostPort);
  let namespace := if decide (o_DownstreamNamespace o = "") then syncerID else o_DownstreamNamespace o in
  read (Execute (syncer_args {|
    ServerURL := Scheme configURL +:+ "://" +:+ Host configURL; CAData := config_CAData; Token := token;
    ti_KCPNamespace := o_KCPNamespace o; ti_Namespace := namespace;
    SyncTargetPath := ClusterFrom (st_Meta syncTarget); ti_SyncTarget := o_SyncTargetName o;
    SyncTargetUID := UID (st_Meta syncTarget); ti_ResourcesToSync := o_ResourcesToSync o;
    ti_Image := o_SyncerImage o; ti_Replicas := o_Replicas o; ti_passed := o_passed o |}
    syncerID (set_list expectedResourcesForPermission))).
End run.

(** * Theorems *)

(** ** Group mappings *)

Section mappings.
Context {MO : MapOrder} {SS : SliceSort}.

(** The reference: the groups in order, each with the resources that are named for it,
    in the order in which they are named, pods with their subresources. *)
Definition resources_of (group resource : string) : list string :=
  let '(name, apiGroup) := resource_parts resource in
  if decide (apiGroup = group)
  then name :: (if decide (apiGroup = "" /\ name = "pods") then podSubresources else []) else [].
Definition group_of (resource : string) : string := (resource_parts resource).2.
Definition group_mappings (resources : list string) : list groupMapping :=
  (fun g => {| APIGroup := g; gm_Resources := concat (resources_of g <$> resources) |})
    <$> set_list (list_to_set (group_of <$> resources)).

Lemma add_resource_lookup m r g :
  add_resource m r !! g = if decide (group_of r = g) then Some (default [] (m !! g) ++ resources_of g r) else m !! g.
Proof.
  unfold add_resource, group_of, resources_of. destruct (resource_parts r) as [n g']. cbn.
  destruct (decide (g' = "" /\ n = "pods")) as [[-> ->]|H]; destruct (decide (_ = g)) as [<-|Hg].
  - rewrite lookup_insert_eq, lookup_insert_eq. cbn. by rewrite <-app_assoc.
  - by rewrite !lookup_insert_ne.
  - by rewrite lookup_insert_eq.
  - by rewrite lookup_insert_ne.
Qed.
Lemma group_map_lookup l g :
  foldl add_resource ∅ l !! g =
    if decide (g ∈ group_of <$> l) then Some (concat (resources_of g <$> l)) else None.
Proof.
  induction l as [|r l IH] using rev_ind.
  { cbn. rewrite lookup_empty. by rewrite decide_False by apply not_elem_of_nil. }
  rewrite foldl_app. cbn [foldl]. rewrite add_resource_lookup, IH, !fmap_app, concat_app. cbn [fmap list_fmap concat].
  rewrite app_nil_r. destruct (decide (group_of r = g)) as [<-|Hg].
  - rewrite (decide_True (P := group_of r ∈ _ ++ _)) by (apply elem_of_app; right; apply list_elem_of_here).
    destruct (decide (group_of r ∈ group_of <$> l)) as [|Hn]; [done|]. f_equal. f_equal. cbn.
    symmetry. clear IH. induction l as [|s l IHl]; [done|]. cbn in *.
    apply not_elem_of_cons in Hn as [Hs Hn]. unfold resources_of at 1. unfold group_of in Hs at 2.
    destruct (resource_parts s) as [n g]. cbn in Hs. rewrite decide_False by congruence. by apply IHl.
  - destruct (decide (g ∈ group_of <$> l)) as [H|H].
    + rewrite decide_True by (apply elem_of_app; by left). unfold resources_of at 3. unfold group_of in Hg.
      destruct (resource_parts r) as [n g']. cbn in Hg. rewrite decide_False by done. by rewrite app_nil_r.
    + rewrite decide_False; [done|]. intros [?|Hx]%elem_of_app; [done|].
      apply list_elem_of_singleton in Hx. by subst.
Qed.

Lemma string_lt_false a b : string_lt a b = false <-> string_le b a.
Proof. unfold string_lt, string_le. by rewrite negb_false_iff. Qed.
Lemma string_lt_asym a b : string_lt a b = true -> string_lt b a = false.
Proof.
  intros H. apply string_lt_false. destruct (total string_le a b) as [|Hb]; [done|].
  apply string_lt_false in Hb. congruence.
Qed.
Lemma group_less_order : strict_weak_order group_less.
Proof.
  split.
  - intros a b. unfold group_less. destruct (decide (APIGroup a = APIGroup b)) as [E|E].
    + rewrite decide_True by done. apply string_lt_asym.
    + rewrite decide_False by done. apply string_lt_asym.
  - intros a b c. unfold group_less.
    destruct (decide (APIGroup a = APIGroup b)) as [E1|E1], (decide (APIGroup b = APIGroup c)) as [E2|E2];
      rewrite !string_lt_false; intros H1 H2.
    + rewrite decide_True by congruence. apply string_lt_false. by etransitivity.
    + rewrite decide_False by congruence. apply string_lt_false. by rewrite E1.
    + rewrite decide_False by congruence. apply string_lt_false. by rewrite <-E2.
    + destruct (decide (APIGroup a = APIGroup c)) as [E3|E3].
      * exfalso. apply E1. rewrite E3 in *. by apply (anti_symm string_le).
      * apply string_lt_false. by etransitivity.
Qed.
(** A list of pairs is determined by its keys, when the keys are distinct. *)
Lemma mappings_by_group (f : string -> list string) (l : list groupMapping) (l' : list string) :
  (forall x, x ∈ l -> gm_Resources x = f (APIGroup x)) -> APIGroup <$> l = l' ->
  l = (fun g => {| APIGroup := g; gm_Resources := f g |}) <$> l'.
Proof.
  intros Hf <-. induction l as [|[g r] l IH]; [done|]. cbn. f_equal.
  - f_equal. apply (Hf {| APIGroup := g; gm_Resources := r |}), list_elem_of_here.
  - apply IH. intros. by apply Hf, list_elem_of_further.
Qed.

End mappings.

(** ** The export of the resources asked for *)

Section export_theorems.
Context {GL : GroupResourceLib}.
(** The text of a group and resource; a parsed resource has no dot. *)
Hypothesis GR_String_text : forall gr,
  GR_String gr = if decide (gr_Group gr = "") then gr_Resource gr else gr_Resource gr +:+ "." +:+ gr_Group gr.
Hypothesis parsed_resource : forall s, "."%char ∉ String.list_ascii_of_string (gr_Resource (ParseGroupResource s)).
#[local] Abbreviation dotless s := ("."%char ∉ String.list_ascii_of_string s).

Lemma asked_group r : gr_Group (asked r) <> "".
Proof. unfold asked. cbn. by destruct (decide _). Qed.
Lemma asked_text r : GR_String (asked r) = gr_Resource (asked r) +:+ "." +:+ gr_Group (asked r).
Proof. rewrite GR_String_text, decide_False; [done|apply asked_group]. Qed.
Lemma placeholder_parses r : ParseAPIResourceSchemaName (placeholder (asked r)) = Some (asked r).
Proof.
  unfold ParseAPIResourceSchemaName, placeholder. rewrite asked_text.
  change "." with (String "." "") at 3.
  change ("rev-0." +:+ gr_Resource (asked r) +:+ "." +:+ gr_Group (asked r)) with
    ("rev-0" +:+ String "." (gr_Resource (asked r) +:+ String "." (gr_Group (asked r)))).
  rewrite SplitN_byte by (apply (bool_decide_unpack _); by vm_compute).
  rewrite SplitN_byte by apply parsed_resource. cbn [SplitN]. by destruct (asked r).
Qed.
Lemma parse_dotless name gr : ParseAPIResourceSchemaName name = Some gr -> dotless (gr_Resource gr).
Proof.
  unfold ParseAPIResourceSchemaName. cbn [SplitN].
  destruct (Cut name ".") as [[a b]|]; [|done]. destruct (Cut b ".") as [[c d]|] eqn:E; [|done].
  intros [= <-]. cbn. by eapply (Cut_before b ".").
Qed.
Lemma text_injective name gr r :
  ParseAPIResourceSchemaName name = Some gr -> GR_String gr = GR_String (asked r) -> gr = asked r.
Proof.
  intros Hd%parse_dotless. rewrite asked_text, GR_String_text.
  pose proof (parsed_resource r) as Hr. change (dotless (gr_Resource (asked r))) in Hr.
  destruct gr as [g n], (asked r) as [g' n'] eqn:Ea. cbn in *. intros E.
  destruct (decide (g = "")) as [->|Hg].
  - exfalso. apply Hd. rewrite E. clear. induction n' as [|a n' IH]; [apply list_elem_of_here|].
    by apply list_elem_of_further.
  - assert (Hc : Cut (n +:+ "." +:+ g) "." = Some (n, g)) by exact (Cut_first n "." "" g Hd).
    assert (Hc' : Cut (n' +:+ "." +:+ g') "." = Some (n', g')) by exact (Cut_first n' "." "" g' Hr).
    rewrite E, Hc' in Hc. by injection Hc as <- <-.
Qed.
Lemma in_desired r schemas :
  GR_String (asked r) ∈ desired_groups schemas <->
  exists n, n ∈ schemas /\ ParseAPIResourceSchemaName n = Some (asked r).
Proof.
  unfold desired_groups. rewrite elem_of_list_to_set, list_elem_of_omap. split.
  - intros (n & Hn & Hp). destruct (ParseAPIResourceSchemaName n) as [gr|] eqn:E; [|done].
    injection Hp as Hp. exists n. split; [done|]. by rewrite <-(text_injective n gr r).
  - intros (n & Hn & Hp). exists n. split; [done|]. by rewrite Hp.
Qed.
(** What is added, in the order of the flag. *)
Definition added (schemas resources : list string) : list string :=
  (fun r => placeholder (asked r)) <$> filter (fun r => GR_String (asked r) ∉ desired_groups schemas) resources.
Lemma merge_added e resources :
  mergeLatestResourceSchema e resources =
    (with_schemas e (LatestResourceSchemas e ++ added (LatestResourceSchemas e) resources),
     negb (bool_decide (added (LatestResourceSchemas e) resources = []))).
Proof.
  unfold mergeLatestResourceSchema, added. generalize (desired_groups (LatestResourceSchemas e)) as d. intros d.
  assert (H : forall e b,
    foldl (fun p resource =>
      if decide (GR_String (asked resource) ∈ d) then p
      else (with_schemas p.1 (LatestResourceSchemas p.1 ++ [placeholder (asked resource)]), true)) (e, b) resources =
    (with_schemas e (LatestResourceSchemas e ++
       ((fun r => placeholder (asked r)) <$> filter (fun r => GR_String (asked r) ∉ d) resources)),
     b || negb (bool_decide ((fun r => placeholder (asked r)) <$> filter (fun r => GR_String (asked r) ∉ d) resources = [])))).
  { induction resources as [|r l IH]; intros e' b.
    - cbn. rewrite app_nil_r, orb_false_r. by destruct e'.
    - cbn [foldl]. rewrite filter_cons. destruct (decide (GR_String (asked r) ∈ d)) as [Hr|Hr].
      + rewrite decide_False by tauto. apply IH.
      + rewrite decide_True by done. rewrite IH. cbn. rewrite <-app_assoc, orb_true_r. done. }
  apply H.
Qed.

(** The export lists a schema of every resource that is asked for, under a name that
    the controller of the export reads back as that resource: the names that it had
    stay, those added are placeholders of the resources that were missing, and asking
    again changes nothing. *)
Theorem every_resource_is_exported e resources e' modified :
  mergeLatestResourceSchema e resources = (e', modified) ->
  (forall r, r ∈ resources -> exists n, n ∈ LatestResourceSchemas e' /\
     ParseAPIResourceSchemaName n = Some (asked r)) /\
  (exists l, LatestResourceSchemas e' = LatestResourceSchemas e ++ l /\ (modified = true <-> l <> []) /\
     forall n, n ∈ l -> exists r, r ∈ resources /\ ParseAPIResourceSchemaName n = Some (asked r) /\
       ~ exists n', n' ∈ LatestResourceSchemas e /\ ParseAPIResourceSchemaName n' = Some (asked r)) /\
  e_Meta e' = e_Meta e /\ mergeLatestResourceSchema e' resources = (e', false).
Proof.
  rewrite merge_added. set (l := added (LatestResourceSchemas e) resources). intros [= <- <-].
  assert (H : forall r, r ∈ resources -> exists n, n ∈ LatestResourceSchemas e ++ l /\
    ParseAPIResourceSchemaName n = Some (asked r)).
  { intros r Hr. destruct (decide (GR_String (asked r) ∈ desired_groups (LatestResourceSchemas e))) as [Hd|Hd].
    - apply in_desired in Hd as (n & Hn & Hp). exists n. split; [|done]. apply elem_of_app. by left.
    - exists (placeholder (asked r)). split; [|apply placeholder_parses]. apply elem_of_app. right.
      apply list_elem_of_fmap. exists r. split; [done|]. by apply list_elem_of_filter. }
  split; [exact H|]. split; [|split; [done|]].
  - exists l. split; [done|]. split; [by rewrite negb_true_iff, bool_decide_eq_false|].
    intros n Hn. apply list_elem_of_fmap in Hn as (r & -> & Hr). apply list_elem_of_filter in Hr as [Hd Hr].
    exists r. split; [done|]. split; [apply placeholder_parses|]. by rewrite <-in_desired.
  - rewrite merge_added. cbn [LatestResourceSchemas with_schemas].
    assert (E : added (LatestResourceSchemas e ++ l) resources = []).
    { unfold added. assert (Hf : filter (fun r => GR_String (asked r) ∉ desired_groups (LatestResourceSchemas e ++ l)) resources = []).
      { apply elem_of_nil_inv. intros r [Hn Hr]%list_elem_of_filter. apply Hn, in_desired, H, Hr. }
      by rewrite Hf. }
    rewrite E, app_nil_r. done.
Qed.
End export_theorems.

(** ** What the role lets the syncer do *)

Section access.
Context {CL : ClusterLib}.
(** The API server's evaluation of a rule, for requests on resources. *)
Variable RuleAllows : AttributesRecord -> PolicyRule -> bool.
Hypothesis RuleAllows_iff : forall a rule, RuleAllows a rule = true <->
  (a_Verb a ∈ pr_Verbs rule \/ "*" ∈ pr_Verbs rule) /\
  (a_APIGroup a ∈ pr_APIGroups rule \/ "*" ∈ pr_APIGroups rule) /\
  (a_Resource a ∈ pr_Resources rule \/ "*" ∈ pr_Resources rule) /\
  (pr_ResourceNames rule = [] \/ a_Name a ∈ pr_ResourceNames rule).
Variable RolesFor : string -> string -> list ClusterRole.

(** C25: the role that the command makes is the one that the virtual workspace asks for:
    whoever holds it is let in for its SyncTarget, and the role is replicated to where
    the virtual workspace is served; and among the workload resources it allows nothing
    on any other SyncTarget. *)
Theorem the_role_lets_the_syncer_in syncTargetName role user key cluster ns :
  cr_Rules role = syncer_rules syncTargetName -> role ∈ RolesFor cluster user ->
  SplitMetaClusterNamespaceKey key = inr (cluster, ns, syncTargetName) ->
  authorize (by_roles RuleAllows RolesFor) key user = (DecisionAllow, "", None) /\
  HasSyncRule cluster role = true /\
  forall a rule, rule ∈ cr_Rules role -> RuleAllows a rule = true -> a_APIGroup a = "workload.kcp.io" ->
    a_Name a = syncTargetName.
Proof.
  intros Hr Hin Hk. split; [|split].
  - unfold authorize. rewrite Hk. cbn [by_roles]. set (a := {| a_User := user |}). cbn [a_User a].
    assert (E : existsb (fun role => existsb (RuleAllows a) (cr_Rules role)) (RolesFor cluster user) = true).
    { apply existsb_exists. exists role. split; [by apply list_elem_of_In|]. rewrite Hr.
      cbn [syncer_rules existsb]. apply orb_true_iff. left. apply RuleAllows_iff. cbn. set_solver. }
    by rewrite E.
  - unfold HasSyncRule. rewrite Hr. apply orb_true_iff. left. done.
  - intros a rule Hrule Ha Hg. apply RuleAllows_iff in Ha as (_ & HG & _ & HN). rewrite Hr in Hrule.
    unfold syncer_rules, syncer_rule in Hrule. rewrite Hg in HG.
    repeat (apply elem_of_cons in Hrule as [->|Hrule]; [cbn in HG, HN; set_solver|]).
    by apply not_elem_of_nil in Hrule.
Qed.
End access.

(** ** Names *)

Section names.
Context {EL : ErrorLib} {PS : PathSplitLib} {B36 : Base36Lib}.

Lemma slice_to_length s n p : slice_to s n = Ok p -> String.length p = n.
Proof.
  unfold slice_to. destruct (decide _) as [H|]; [|done]. intros [= <-]. revert s H.
  induction n as [|n IH]; intros [|a s] H; cbn in *; [done..|lia|]. f_equal. apply IH. lia.
Qed.
Lemma aggregate_none l : NewAggregate l = None -> l = [].
Proof. destruct l as [|e es]; [done|]. intros H. destruct (NewAggregate_cons e es). congruence. Qed.
Lemma check_nil b msg : check b msg = [] -> b = false.
Proof. by destruct b. Qed.

(** How long the names may become that are made of an accepted name. The name of
    the syncer has at most 248 bytes; the one of the nameserver has 254 for the longest
    name, one more than an object's name may have. *)
Theorem accepted_names_fit o base syncTarget cluster id dns :
  Validate o base = None -> Name (st_Meta syncTarget) = o_SyncTargetName o ->
  getSyncerID syncTarget = Ok id ->
  GetDNSID cluster (UID (st_Meta syncTarget)) (o_SyncTargetName o) = Ok dns ->
  String.length id <= 248 /\ String.length dns <= 254 /\
  (253 < String.length dns <-> String.length (o_SyncTargetName o) = 228).
Proof.
  intros Hv Hn Hid Hdns. apply aggregate_none in Hv.
  repeat (apply app_eq_nil in Hv as [?Hc Hv]).
  match goal with H : check (254 <? _) _ = [] |- _ => apply check_nil, Nat.ltb_ge in H; rename H into Hlen end.
  change (String.length DNSIDPrefix) with 8 in Hlen.
  unfold getSyncerID in Hid. destruct (slice_to _ 8) as [p| |] eqn:Ep; try done. injection Hid as <-.
  unfold GetDNSID in Hdns. rewrite Ep in Hdns. cbn in Hdns.
  destruct (slice_to (base36hash cluster) 8) as [q| |] eqn:Eq; try done. injection Hdns as <-.
  apply slice_to_length in Ep, Eq. rewrite Hn, !string_app_length, Ep, Eq. simpl String.length. lia.
Qed.
End names.

(** ** The requests *)

Section guards.
Context {EL : ErrorLib} {GL : GroupResourceLib} {PS : PathSplitLib} {B36 : Base36Lib}.
Variable Marshal_target : SyncTarget -> result string.
Variable Marshal_account : ServiceAccount -> result string.
Variable Marshal_role : ClusterRole -> result string.
Variable CreateMergePatch : string -> string -> result string.
Variable w : workspace.
Variable o : SyncOptions.
#[local] Abbreviation apply_target := (applySyncTarget Marshal_target CreateMergePatch w o).
#[local] Abbreviation enable := (enableSyncerForWorkspace Marshal_target Marshal_account Marshal_role CreateMergePatch w o).

Lemma guarded_prefix {Ev A} (P : list Ev -> Ev -> Prop) (m : M Ev A) h :
  guarded P m h -> guarded (fun h' e => h `prefix_of` h' /\ P h' e) m h.
Proof.
  intros (t & Ht & Hm). exists t. split; [done|]. intros t1 e t2 ->. split; [by apply prefix_app_r|by eapply Hm].
Qed.
Lemma guarded_wrap {A} P msg (m : M cli_call A) h : guarded P m h -> guarded P (wrap msg m) h.
Proof.
  intros H. unfold wrap. apply guarded_bind; [by apply guarded_try|]. intros h' [e|a] _;
    [apply guarded_fail|apply guarded_ret].
Qed.
Lemma guarded_patch {A} P (Marshal : A -> result string) old new h :
  guarded P (patch_between CreateMergePatch Marshal old new) h.
Proof.
  unfold patch_between. repeat (apply guarded_bind; [apply guarded_wrap, guarded_lift|intros]).
  apply guarded_wrap, guarded_lift.
Qed.
Lemma guarded_attempts {Ev A} (P : list Ev -> Ev -> Prop) n (c : M Ev (option A)) h :
  (forall h, guarded P c h) -> guarded P (poll n c) h.
Proof.
  intros Hc. revert h. induction n as [|n IH]; intros h; [apply guarded_fail|].
  cbn [poll]. apply guarded_bind; [apply Hc|]. intros h' [a|] _; [apply guarded_ret|apply IH].
Qed.

(** What is asked for the SyncTarget: it, and the export of imported APIs. *)
Definition target_call (syncTargetName : string) (labels : gmap string string) (e : cli_call) : Prop :=
  match e with
  | GetExport n => n = ImportedAPISExportName
  | CreateExport x => x = (mergeLatestResourceSchema (imported_export []) (o_ResourcesToSync o)).1
  | UpdateExport x => exists x0, mergeLatestResourceSchema x0 (o_ResourcesToSync o) = (x, true)
  | GetTarget n | PatchTarget n _ => n = syncTargetName
  | CreateTarget t => t = new_target syncTargetName labels (supported_exports o)
  | _ => False
  end.
Ltac guards := repeat (guarded_step || apply guarded_wrap || apply guarded_patch || case_decide).
Lemma update_target_guarded n labels exports t h :
  guarded (fun _ => target_call n labels) (update_target Marshal_target CreateMergePatch w n labels exports t) h.
Proof. unfold update_target. by guards. Qed.
Lemma apply_target_guarded n labels h : guarded (fun _ => target_call n labels) (apply_target n labels) h.
Proof.
  unfold applySyncTarget, apply_export. guards; try done; try apply update_target_guarded.
  by eexists.
Qed.

(** What is asked for the syncer, once the SyncTarget is there. *)
Definition syncer_call (syncTargetName ns : string) (t : SyncTarget) (id : string) (e : cli_call) : Prop :=
  match e with
  | GetServiceAccount ns' _ | GetSecret ns' _ | PatchServiceAccount ns' _ _ => ns' = ns
  | CreateServiceAccount ns' sa => ns' = ns /\ sa_Meta sa = owned_meta id "" "" [owner_of t]
  | GetRole n | GetBinding n | DeleteBinding n => n = id
  | CreateRole r => cr_Meta r = owned_meta id "" "" [owner_of t] /\ cr_Rules r = syncer_rules syncTargetName
  | PatchRole _ patch => exists old new, CreateMergePatch old new = inr patch /\
      exists uid version owners, Marshal_role {| cr_Meta := owned_meta "" uid version owners;
                                                cr_Rules := syncer_rules syncTargetName |} = inr new /\
        exists m, m ∈ owners /\ or_UID m = UID (st_Meta t)
  | CreateBinding b => b = role_binding ns id [owner_of t]
  | _ => False
  end.
Lemma account_guarded n ns t id h :
  guarded (fun _ => syncer_call n ns t id) (apply_account Marshal_account CreateMergePatch w ns id [owner_of t]) h.
Proof. unfold apply_account. by guards. Qed.
Lemma merged_owner owners r : exists m, m ∈ mergeOwnerReference owners [r] /\ or_UID m = or_UID r.
Proof.
  unfold mergeOwnerReference. cbn [foldl]. destruct (existsb _ owners) eqn:E.
  - apply existsb_exists in E as (m & Hm%list_elem_of_In & Hu%bool_decide_eq_true). by exists m.
  - exists r. split; [|done]. apply elem_of_app. right. apply list_elem_of_here.
Qed.
Lemma patch_between_inv {A} (Marshal : A -> result string) old new h h' p :
  patch_between CreateMergePatch Marshal old new h = (h', Ok p) ->
  exists x y, Marshal new = inr y /\ CreateMergePatch x y = inr p.
Proof.
  unfold patch_between, wrap. run_M. destruct (Marshal old) as [|x]; [done|]. cbn.
  destruct (Marshal new) as [|y]; [done|]. cbn. destruct (CreateMergePatch x y) eqn:E; [done|]. cbn.
  intros [= _ <-]. by exists x, y.
Qed.
Lemma role_guarded n ns t id h :
  guarded (fun _ => syncer_call n ns t id) (apply_role Marshal_role CreateMergePatch w n id [owner_of t]) h.
Proof.
  unfold apply_role. apply guarded_bind; [by guards|]. intros h' [err|cr] _; [by guards|].
  apply guarded_bind; [apply guarded_patch|]. intros h2 p (x & y & Hy & Hp)%patch_between_inv.
  apply guarded_bind; [|intros; apply guarded_ret]. apply guarded_wrap, guarded_call.
  exists x, y. split; [done|]. eexists _, _, _. split; [exact Hy|]. apply (merged_owner _ (owner_of t)).
Qed.
Lemma binding_guarded n ns t id h :
  guarded (fun _ => syncer_call n ns t id) (apply_binding w ns id [owner_of t]) h.
Proof. unfold apply_binding. by guards. Qed.
Lemma token_guarded n ns t id sa h : guarded (fun _ => syncer_call n ns t id) (get_token w ns sa) h.
Proof.
  unfold get_token. apply guarded_bind; [apply guarded_try, guarded_attempts; intros; unfold token_secret; by guards|].
  intros h' [e|s] _; [apply guarded_fail|]. by guards.
Qed.

(** What the command asks of the workspace: first the SyncTarget and the export of
    imported APIs, and nothing for the syncer before the SyncTarget is there; then the
    account, the role and the binding under the syncer's name, owned by that
    SyncTarget, with the rules of the role whatever was there before. Nothing else is
    written, and of what it deletes only the former binding is. *)
Theorem enable_asks_for_its_own n ns labels h :
  guarded (fun h' e => target_call n labels e \/
      exists h1 t id, apply_target n labels h = (h1, Ok t) /\ h1 `prefix_of` h' /\
        getSyncerID t = Ok id /\ syncer_call n ns t id e)
    (enable n ns labels) h.
Proof.
  unfold enableSyncerForWorkspace. apply guarded_bind.
  { apply guarded_wrap. eapply guarded_mono; [apply apply_target_guarded|]. by left. }
  intros h1 t Ht. assert (Ha : apply_target n labels h = (h1, Ok t)).
  { revert Ht. unfold wrap, mbind, M_bind, try. destruct (apply_target n labels h) as [? []]; [|done..]. done. }
  apply guarded_bind; [apply guarded_lift|]. intros h2 id [= -> Hid].
  eapply guarded_mono; [apply (guarded_prefix (fun _ => syncer_call n ns t id))|].
  2:{ intros h' e [Hp He]. right. by exists h2, t, id. }
  apply guarded_bind; [apply account_guarded|]. intros h3 sa _.
  apply guarded_bind; [apply role_guarded|]. intros h4 _ _.
  apply guarded_bind; [apply binding_guarded|]. intros h5 _ _.
  apply guarded_bind; [apply token_guarded|]. intros h6 token _. apply guarded_ret.
Qed.
End guards.

Section token.
Context {EL : ErrorLib} {GL : GroupResourceLib} {PS : PathSplitLib} {B36 : Base36Lib}.
Variable Marshal_target : SyncTarget -> result string.
Variable Marshal_account : ServiceAccount -> result string.
Variable Marshal_role : ClusterRole -> result string.
Variable CreateMergePatch : string -> string -> result string.
Variable w : workspace.
Variable o : SyncOptions.
#[local] Abbreviation enable := (enableSyncerForWorkspace Marshal_target Marshal_account Marshal_role CreateMergePatch w o).

Lemma wrap_inv {A} msg (m : M cli_call A) h h' a : wrap msg m h = (h', Ok a) -> m h = (h', Ok a).
Proof. unfold wrap, mbind, M_bind, try. by destruct (m h) as [? []]. Qed.
Lemma binding_asked ns id owners h h' r :
  apply_binding w ns id owners h = (h', Ok r) -> CreateBinding (role_binding ns id owners) ∈ h'.
Proof.
  unfold apply_binding. intros (h1 & a1 & _ & H)%bind_inv. apply bind_inv in H as (h2 & a2 & _ & H).
  apply bind_inv in H as (h3 & a3 & Hm & H). apply try_inv in Hm. unfold call in Hm. injection Hm as <- _.
  assert (E : h2 ++ [CreateBinding (role_binding ns id owners)] = h').
  { revert H. destruct a3 as [err|]; [destruct (negb _)|]; cbn; unfold fail, lift, mret, M_ret; by intros [= <-]. }
  rewrite <-E. apply elem_of_app. right. apply list_elem_of_here.
Qed.
Lemma get_token_inv ns sa h h' token :
  get_token w ns sa h = (h', Ok token) ->
  h `prefix_of` h' /\ token <> "" /\ exists h2 name data, h' = h2 ++ [GetSecret ns name] /\
    secret_answer w h' = inr data /\ data !! "token" = Some token.
Proof.
  unfold get_token. intros (h1 & a1 & Hp & H)%bind_inv.
  assert (Hpre : h `prefix_of` h1).
  { assert (G : guarded (fun _ _ => True) (try (poll (attempts w) (token_secret w ns (Name (sa_Meta sa))))) h).
    { apply guarded_try, guarded_attempts. intros. unfold token_secret. repeat guarded_step; done. }
    destruct G as (t & Ht & _). rewrite Hp in Ht. cbn in Ht. subst. by apply prefix_app_r. }
  destruct a1 as [|name]; [done|]. apply bind_inv in H as (h2 & data & Hs & H).
  apply wrap_inv in Hs. unfold call in Hs. destruct (secret_answer w _) as [|d] eqn:E; [done|].
  injection Hs as <- <-. destruct (decide _) as [|Hne]; [done|]. injection H as <- <-.
  split; [by apply prefix_app_r|]. split; [done|]. exists h1, name, d. split; [done|]. split; [done|].
  revert Hne. by destruct (d !! "token").
Qed.

(** A token that is handed to the syncer is one of its own account's: it is not empty
    and stands in the secret that was read last, and the account has been bound to the
    role by then. *)
Theorem the_token_is_bound n ns labels h h' token id t :
  enable n ns labels h = (h', Ok (token, id, t)) ->
  getSyncerID t = Ok id /\ CreateBinding (role_binding ns id [owner_of t]) ∈ h' /\ token <> "" /\
  exists h2 name data, h' = h2 ++ [GetSecret ns name] /\ secret_answer w h' = inr data /\
    data !! "token" = Some token.
Proof.
  unfold enableSyncerForWorkspace. intros (h1 & t1 & _ & H)%bind_inv.
  apply bind_inv in H as (h2 & id1 & Hid & H). injection Hid as -> Hid.
  apply bind_inv in H as (h3 & sa & _ & H). apply bind_inv in H as (h4 & ? & _ & H).
  apply bind_inv in H as (h5 & ? & Hb & H). apply bind_inv in H as (h6 & tok & Ht & H).
  injection H as -> -> -> ->. apply get_token_inv in Ht as (Hp & Hne & Hs). apply binding_asked in Hb.
  split; [done|]. split; [|done]. destruct Hp as [k ->]. apply elem_of_app. by left.
Qed.
End token.

(** * Examples *)

Module Examples.
#[local] Existing Instances simple_errors simple_clusters.
#[local] Instance b36 : Base36Lib := {| EncodeBytes l := Text62 (SetBytes l) |}.
#[local] Program Instance group_resources : GroupResourceLib := {|
  GR_String gr := if decide (gr_Group gr = "") then gr_Resource gr else gr_Resource gr +:+ "." +:+ gr_Group gr;
  ParseGroupResource s := match Cut s "." with
                          | Some (r, g) => {| gr_Resource := r; gr_Group := g |}
                          | None => {| gr_Resource := s; gr_Group := "" |}
                          end |}.
Next Obligation.
  intros [g r] H. cbn in *. destruct (decide (g = "")) as [->|Hg].
  - by rewrite (Cut_none r "." "" H).
  - change (r +:+ "." +:+ g) with (r +:+ String "." "" +:+ g). by rewrite (Cut_first r "." "" g H).
Qed.
#[local] Instance paths : PathSplitLib := {|
  PathSplit s := match reverse (Split s ":") with
                 | name :: parents => (Join (reverse parents) ":", name)
                 | [] => ("", "")
                 end |}.
Lemma texts gr : GR_String gr = if decide (gr_Group gr = "") then gr_Resource gr else gr_Resource gr +:+ "." +:+ gr_Group gr.
Proof. done. Qed.
Lemma Cut_none_inv s : Cut s "." = None -> "."%char ∉ String.list_ascii_of_string s.
Proof.
  induction s as [|a s IH]; [intros _; apply not_elem_of_nil|]. cbn [Cut strip_prefix].
  destruct (decide ("."%char = a)) as [|Hne]; [by destruct s|].
  destruct (Cut s ".") as [[]|]; [done|]. intros _. cbn. apply not_elem_of_cons. auto.
Qed.
Lemma parsed s : "."%char ∉ String.list_ascii_of_string (gr_Resource (ParseGroupResource s)).
Proof.
  cbn. destruct (Cut s ".") as [[r g]|] eqn:E; cbn; [by eapply (Cut_before s ".")|by apply Cut_none_inv].
Qed.

Definition exported : APIExport := imported_export ["rev-7.pods.core"; "other"].
Definition merged : APIExport := with_schemas exported ["rev-7.pods.core"; "other"; "rev-0.deployments.apps"].
Lemma every_resource_is_exported_witness :
  (forall r, r ∈ ["pods"; "deployments.apps"] -> exists n, n ∈ LatestResourceSchemas merged /\
     ParseAPIResourceSchemaName n = Some (asked r)) /\
  (exists l, LatestResourceSchemas merged = LatestResourceSchemas exported ++ l /\ (true = true <-> l <> []) /\
     forall n, n ∈ l -> exists r, r ∈ ["pods"; "deployments.apps"] /\ ParseAPIResourceSchemaName n = Some (asked r) /\
       ~ exists n', n' ∈ LatestResourceSchemas exported /\ ParseAPIResourceSchemaName n' = Some (asked r)) /\
  e_Meta merged = e_Meta exported /\ mergeLatestResourceSchema merged ["pods"; "deployments.apps"] = (merged, false).
Proof.
  apply (every_resource_is_exported texts parsed exported ["pods"; "deployments.apps"] merged true).
  by vm_compute.
Defined.
(** A resource that is named twice is listed twice. *)
Example named_twice :
  LatestResourceSchemas (mergeLatestResourceSchema (imported_export []) ["pods"; "pods.core"]).1 =
    ["rev-0.pods.core"; "rev-0.pods.core"].
Proof. by vm_compute. Qed.

Definition kept : SyncTarget := {|
  st_Meta := SetUIDVersion (mk_meta "st" "" None (Some {[ "kcp.io/cluster" := "ws" ]}) []) "uid" "1";
  st_Spec := {| Unschedulable := false; EvictAfter := None; Cells := None;
    SupportedAPIExports := [{| ref_Path := "root:compute"; ref_Export := "kubernetes" |}] |};
  st_Status := st_Status zero_target |}.
Definition role : ClusterRole := {| cr_Meta := mk_meta "kcp-syncer-st" "" None None []; cr_Rules := syncer_rules "st" |}.
Definition allows (a : AttributesRecord) (rule : PolicyRule) : bool :=
  bool_decide ((a_Verb a ∈ pr_Verbs rule \/ "*" ∈ pr_Verbs rule) /\
    (a_APIGroup a ∈ pr_APIGroups rule \/ "*" ∈ pr_APIGroups rule) /\
    (a_Resource a ∈ pr_Resources rule \/ "*" ∈ pr_Resources rule) /\
    (pr_ResourceNames rule = [] \/ a_Name a ∈ pr_ResourceNames rule)).
Definition roles (cluster user : string) : list ClusterRole := if decide (user = "syncer") then [role] else [].
Lemma allows_iff a rule : allows a rule = true <->
  (a_Verb a ∈ pr_Verbs rule \/ "*" ∈ pr_Verbs rule) /\
  (a_APIGroup a ∈ pr_APIGroups rule \/ "*" ∈ pr_APIGroups rule) /\
  (a_Resource a ∈ pr_Resources rule \/ "*" ∈ pr_Resources rule) /\
  (pr_ResourceNames rule = [] \/ a_Name a ∈ pr_ResourceNames rule).
Proof. apply bool_decide_eq_true. Qed.
Lemma the_role_lets_the_syncer_in_witness :
  authorize (by_roles allows roles) "ws|st" "syncer" = (DecisionAllow, "", None) /\
  HasSyncRule "ws" role = true /\
  forall a rule, rule ∈ cr_Rules role -> allows a rule = true -> a_APIGroup a = "workload.kcp.io" -> a_Name a = "st".
Proof.
  apply (the_role_lets_the_syncer_in allows allows_iff roles "st" role "syncer" "ws|st" "ws" "").
  - reflexivity.
  - apply list_elem_of_here.
  - reflexivity.
Defined.

Definition options : SyncOptions := {|
  o_ResourcesToSync := []; o_APIExports := ["root:compute:kubernetes"]; o_SyncerImage := "image"; o_Replicas := 1;
  o_OutputFile := "-"; o_DownstreamNamespace := ""; o_KCPNamespace := "default"; o_SyncTargetName := "st";
  o_SyncTargetLabels := ["a=b"]; o_passed := [] |}.
Definition syncer_id : string := match getSyncerID kept with Ok id => id | _ => "" end.
Definition dns_id : string := match GetDNSID "ws" "uid" "st" with Ok id => id | _ => "" end.
Lemma accepted_names_fit_witness :
  String.length syncer_id <= 248 /\ String.length dns_id <= 254 /\
  (253 < String.length dns_id <-> String.length (o_SyncTargetName options) = 228).
Proof.
  apply (accepted_names_fit options None kept "ws" syncer_id dns_id).
  - by vm_compute.
  - reflexivity.
  - by vm_compute.
  - by vm_compute.
Defined.

(** A workspace with the SyncTarget, and nothing for the syncer. *)
Definition account (name : string) : ServiceAccount := {|
  sa_Meta := mk_meta name "default" None None []; sa_Secrets := ["token-1"] |}.
Definition not_found {A} : result A := inl (ErrLib "NotFound" "").
Definition already {A} : result A := inl (ErrLib "AlreadyExists" "").
Definition answers (exists_ : bool) : workspace := {|
  export_answer _ := not_found;
  target_answer _ := inr kept;
  account_answer h := match last h with
                      | Some (CreateServiceAccount _ sa) =>
                          if exists_ then already else inr (account (Name (sa_Meta sa)))
                      | Some (GetServiceAccount _ n) =>
                          if decide (length h <= 3) then not_found
                          else if decide (n = "") then inl (ErrLib "BadRequest" "resource name may not be empty")
                          else inr (account n)
                      | _ => not_found
                      end;
  role_answer h := match last h with Some (CreateRole r) => inr r | _ => not_found end;
  binding_answer h := match last h with Some (CreateBinding _) => inr tt | _ => not_found end;
  secret_answer _ := inr {[ "token" := "secret" ]};
  attempts := 3 |}.
Definition enabled (exists_ : bool) : list cli_call * res (string * string * SyncTarget) :=
  enableSyncerForWorkspace (fun _ => inr "{}") (fun _ => inr "{}") (fun _ => inr "{}") (fun _ _ => inr "{}")
    (answers exists_) options "st" "default" (parse_labels ["a=b"]) [].
Lemma enabled_ok : (enabled false).2 = Ok ("secret", syncer_id, kept).
Proof. by vm_compute. Qed.
Lemma the_token_is_bound_witness :
  getSyncerID kept = Ok syncer_id /\
  CreateBinding (role_binding "default" syncer_id [owner_of kept]) ∈ (enabled false).1 /\ "secret" <> "" /\
  exists h2 name data, (enabled false).1 = h2 ++ [GetSecret "default" name] /\
    secret_answer (answers false) (enabled false).1 = inr data /\ data !! "token" = Some "secret".
Proof.
  apply (the_token_is_bound (fun _ => inr "{}") (fun _ => inr "{}") (fun _ => inr "{}") (fun _ _ => inr "{}")
    (answers false) options "st" "default" (parse_labels ["a=b"]) []).
  transitivity (enabled false); [reflexivity|]. rewrite <-enabled_ok. by destruct (enabled false).
Defined.
(** When somebody else makes the account first, the command waits for the token of an
    account without a name. *)
Example lost_race_waits_in_vain :
  (enabled true).2 = Err (ErrMsg "timed out waiting for token secret name to be set on ServiceAccount") /\
  existsb (fun e => match e with GetServiceAccount _ n => bool_decide (n = "") | _ => false end) (enabled true).1 = true.
Proof. split; by vm_compute. Qed.
(** When somebody else makes the SyncTarget first, and nothing is to be changed in the
    empty one, the syncer is set up for a SyncTarget without name and UID. *)
Example lost_race_forgets_the_target :
  let w := {| export_answer _ := not_found;
              target_answer h := match last h with Some (CreateTarget _) => already | _ => not_found end;
              account_answer _ := not_found; role_answer _ := not_found; binding_answer _ := not_found;
              secret_answer _ := not_found; attempts := 1 |} in
  let o := {| o_ResourcesToSync := []; o_APIExports := []; o_SyncerImage := "image"; o_Replicas := 1;
              o_OutputFile := "-"; o_DownstreamNamespace := ""; o_KCPNamespace := "default"; o_SyncTargetName := "st";
              o_SyncTargetLabels := []; o_passed := [] |} in
  (applySyncTarget (fun _ => inr "{}") (fun _ _ => inr "{}") w o "st" ∅ []).2 = Ok zero_target.
Proof. by vm_compute. Qed.
End Examples.
