(* ===== verification/CliWorkload.v ===== *)
(** * Cordon and drain ([pkg/cliplugins/workload/plugin/workload.go])

    The commands that take a SyncTarget out of scheduling, evict what runs there, and
    take it back: each sends one JSON patch, or nothing when there is nothing to do. *)

From S2P Require Import Prelude Platform GoTime Digest ApiTypes Json JsonValue Location.
Local Open Scope nat_scope.

(** ** Patches *)

(** A literal of the code, with its double quotes written as single ones. *)
Fixpoint raw (s : string) : string :=
  match s with
  | EmptyString => EmptyString
  | String a s => String (if decide (a = "'"%char) then quote_char else a) (raw s)
  end.
Definition cordon_patch : string := raw "[{'op':'replace','path':'/spec/unschedulable','value':true}]".
Definition uncordon_patch (syncTarget : SyncTarget) : string :=
  let evict := match EvictAfter (st_Spec syncTarget) with
               | Some _ => raw ",{'op':'remove','path':'/spec/evictAfter'}"
               | None => ""
               end in
  raw "[{'op':'replace','path':'/spec/unschedulable','value':false}" +:+ evict +:+ "]".
(** The time is in UTC. *)
Definition drain_patch (nowTime : Time) : string :=
  raw "[{'op':'replace','path':'/spec/unschedulable','value':true},{'op':'replace','path':'/spec/evictAfter','value':'"
  +:+ Format_RFC3339 0 nowTime +:+ raw "'}]".

(** ** The commands *)

Inductive workload_call :=
  | GetTarget (name : string)
  | PatchTarget (name patch : string)
  | PrintLine (line : string).
Section commands.
Variable GetAnswer : list workload_call -> result SyncTarget.
Variable PatchAnswer : list workload_call -> result SyncTarget.
Variable Now : list workload_call -> Time.
#[local] Abbreviation CM := (M workload_call) (only parsing).

Definition ValidateName (SyncTarget : string) : option error :=
  if decide (SyncTarget = "") then Some (ErrMsg "sync target name is required") else None.
Definition get_target (name : string) : CM SyncTarget :=
  r ← try (call (GetTarget name) GetAnswer);
  match r with inl err => fail (ErrWrap ("failed to get SyncTarget " +:+ name) err) | inr t => mret t end.
Definition patch_target (name patch : string) : CM unit :=
  r ← try (call (PatchTarget name patch) PatchAnswer);
  match r with inl err => fail (ErrWrap ("failed to update SyncTarget " +:+ name) err) | inr _ => mret tt end.
Definition RunCordon (name : string) (Cordon : bool) : CM unit :=
  syncTarget ← get_target name;
  let unschedulable := Unschedulable (st_Spec syncTarget) in
  if Cordon && unschedulable then emit (PrintLine (name +:+ " already cordoned"))
  else if negb Cordon && negb unschedulable then emit (PrintLine (name +:+ " already uncordoned"))
  else
    patch_target name (if Cordon then cordon_patch else uncordon_patch syncTarget);;
    emit (PrintLine (name +:+ (if Cordon then " cordoned" else " uncordoned"))).
Definition RunDrain (name : string) : CM unit :=
  syncTarget ← get_target name;
  if bool_decide (is_Some (EvictAfter (st_Spec syncTarget))) && Unschedulable (st_Spec syncTarget)
  then emit (PrintLine (name +:+ " already draining"))
  else
    nowTime ← (fun h => (h, Ok (Now h)));
    patch_target name (drain_patch nowTime);;
    emit (PrintLine (name +:+ " draining")).
End commands.

(** * Theorems *)

(** ** What the patches say *)

Lemma digits_simple w x rest : simple_text rest = true -> simple_text (digits w x rest) = true.
Proof.
  revert x rest. induction w as [|w IH]; intros x rest H; [done|]. cbn [digits]. apply IH.
  unfold simple_text. cbn [String.list_ascii_of_string forallb]. rewrite andb_true_iff. split; [|exact H].
  assert (Hd : forallb (fun n => simple_char (digit (Z.of_nat n))) (seq 0 10) = true) by (vm_compute; reflexivity).
  rewrite forallb_forall in Hd. specialize (Hd (Z.to_nat (x mod 10))).
  pose proof (Z.mod_pos_bound x 10 ltac:(lia)) as Hx. rewrite Z2Nat.id in Hd by lia. apply Hd, in_seq. lia.
Qed.
Lemma simple_cons a s : simple_char a = true -> simple_text s = true -> simple_text (String a s) = true.
Proof. intros Ha Hs. unfold simple_text. cbn [String.list_ascii_of_string forallb]. rewrite Ha. exact Hs. Qed.
Lemma time_simple t : simple_text (Format_RFC3339 0 t) = true.
Proof.
  unfold Format_RFC3339. destruct (civil_of_days _) as [[y m] d].
  repeat first [apply digits_simple | apply simple_cons; [by vm_compute|]]. by vm_compute.
Qed.

Definition replace_op (path : string) (value : json) : json :=
  JObject [("op", JString "replace"); ("path", JString path); ("value", value)].
Definition remove_op (path : string) : json := JObject [("op", JString "remove"); ("path", JString path)].
Lemma parse_cordon : parse cordon_patch = inr (JArray [replace_op "/spec/unschedulable" (JBool true)]).
Proof. by vm_compute. Qed.
Lemma parse_uncordon t : parse (uncordon_patch t) = inr (JArray (replace_op "/spec/unschedulable" (JBool false) ::
  match EvictAfter (st_Spec t) with Some _ => [remove_op "/spec/evictAfter"] | None => [] end)).
Proof. unfold uncordon_patch. by destruct (EvictAfter (st_Spec t)); vm_compute. Qed.
Lemma quoted_app s r : quoted s +:+ r = String quote_char (s +:+ String quote_char r).
Proof. unfold quoted. by rewrite string_app_cons, string_app_assoc. Qed.
Lemma parse_drain now : parse (drain_patch now) = inr (JArray [replace_op "/spec/unschedulable" (JBool true);
  replace_op "/spec/evictAfter" (JString (Format_RFC3339 0 now))]).
Proof.
  unfold drain_patch. pose proof (time_simple now) as Hs. revert Hs. generalize (Format_RFC3339 0 now). intros s Hs.
  rewrite <-(parse_print (JArray _)).
  - f_equal. cbn [print List.map Join replace_op]. rewrite !string_app_assoc, <-(quoted_simple s Hs), !quoted_app.
    reflexivity.
  - cbn [ascii_json replace_op forallb snd fst]. rewrite (simple_ascii s Hs). by vm_compute.
  - by vm_compute.
Qed.

(** ** What they do to the SyncTarget *)

(** The reading of a patch of the spec, by RFC 6902, for the fields of the commands. *)
Definition member (k : string) (l : list (string * json)) : option json :=
  kv ← list_find (fun kv => kv.1 = k) l; Some kv.2.2.
Definition set_unschedulable (spec : SyncTargetSpec) (b : bool) : SyncTargetSpec := {|
  Unschedulable := b; EvictAfter := EvictAfter spec; SupportedAPIExports := SupportedAPIExports spec;
  Cells := Cells spec |}.
Definition set_evict (spec : SyncTargetSpec) (t : option Time) : SyncTargetSpec := {|
  Unschedulable := Unschedulable spec; EvictAfter := t; SupportedAPIExports := SupportedAPIExports spec;
  Cells := Cells spec |}.
Definition apply_op (spec : SyncTargetSpec) (op : json) : SyncTargetSpec :=
  match op with
  | JObject l =>
      match member "op" l, member "path" l, member "value" l with
      | Some (JString "replace"), Some (JString "/spec/unschedulable"), Some (JBool b) => set_unschedulable spec b
      | Some (JString "replace"), Some (JString "/spec/evictAfter"), Some (JString s) => set_evict spec (Parse_RFC3339 s)
      | Some (JString "remove"), Some (JString "/spec/evictAfter"), None => set_evict spec None
      | _, _, _ => spec
      end
  | _ => spec
  end.
Definition patched (patch : string) (spec : SyncTargetSpec) : option SyncTargetSpec :=
  match parse patch with inr (JArray ops) => Some (foldl apply_op spec ops) | _ => None end.

Lemma patched_cordon spec : patched cordon_patch spec = Some (set_unschedulable spec true).
Proof. unfold patched. by rewrite parse_cordon. Qed.
Lemma patched_uncordon t :
  patched (uncordon_patch t) (st_Spec t) = Some (set_evict (set_unschedulable (st_Spec t) false) None).
Proof.
  unfold patched. rewrite parse_uncordon. destruct (EvictAfter (st_Spec t)) eqn:E; [done|].
  transitivity (Some (set_unschedulable (st_Spec t) false)); [done|]. unfold set_evict, set_unschedulable. cbn. by rewrite E.
Qed.
Lemma patched_drain now spec :
  (0 <= local_year 0 now < 10000)%Z ->
  patched (drain_patch now) spec = Some (set_evict (set_unschedulable spec true) (Some (now / Second * Second)%Z)).
Proof.
  intros Hy. unfold patched. rewrite parse_drain. cbn [foldl]. rewrite <-(Parse_Format 0 now) by (done || by split).
  done.
Qed.

Section effects.
Context {CO : ConditionLib}.
Variable GetAnswer : list workload_call -> result SyncTarget.
Variable PatchAnswer : list workload_call -> result SyncTarget.
Variable Now : list workload_call -> Time.
Hypothesis patches_succeed : forall h, exists t, PatchAnswer h = inr t.

(** The command ends well, with the spec [spec'] in the place of the one of [t]. *)
Definition ends_with (m : M workload_call unit) (h : list workload_call) (name : string) (t : SyncTarget)
    (spec' : SyncTargetSpec) : Prop :=
  exists events, m h = (h ++ GetTarget name :: events, Ok tt) /\
    ((exists line, events = [PrintLine line] /\ spec' = st_Spec t) \/
     (exists patch line, events = [PatchTarget name patch; PrintLine line] /\
        patched patch (st_Spec t) = Some spec')).
Lemma sends name t patch line h spec' (m : M workload_call unit) :
  m h = (patch_target PatchAnswer name patch;; emit (PrintLine line)) (h ++ [GetTarget name]) ->
  patched patch (st_Spec t) = Some spec' -> ends_with m h name t spec'.
Proof.
  intros Hm Hp. destruct (patches_succeed ((h ++ [GetTarget name]) ++ [PatchTarget name patch])) as [t' Ht].
  exists [PatchTarget name patch; PrintLine line]. split; [|right; by eexists _, _].
  rewrite Hm. unfold patch_target. run_M. rewrite Ht. cbn. by rewrite <-!app_assoc.
Qed.
Lemma says name t line h (m : M workload_call unit) :
  m h = emit (PrintLine line) (h ++ [GetTarget name]) -> ends_with m h name t (st_Spec t).
Proof.
  intros Hm. exists [PrintLine line]. split; [|left; by eexists]. rewrite Hm. unfold emit. by rewrite <-app_assoc.
Qed.

(** A cordoned SyncTarget is not ready for scheduling, and an uncordoned one is
    again as far as its conditions say so; the eviction that a drain set is undone by
    the uncordon that takes effect, and by nothing else. *)
Theorem cordon_takes_effect name Cordon t h :
  GetAnswer (h ++ [GetTarget name]) = inr t ->
  exists spec', ends_with (RunCordon GetAnswer PatchAnswer name Cordon) h name t spec' /\
    Unschedulable spec' = Cordon /\
    EvictAfter spec' = (if negb Cordon && Unschedulable (st_Spec t) then None else EvictAfter (st_Spec t)) /\
    SupportedAPIExports spec' = SupportedAPIExports (st_Spec t) /\ Cells spec' = Cells (st_Spec t) /\
    forall st, st_Spec st = spec' -> is_ready st = IsTrue (st_Conditions (st_Status st)) ReadyCondition && negb Cordon.
Proof.
  intros Ht. assert (Hr : forall b spec', Unschedulable spec' = b -> forall st, st_Spec st = spec' ->
    is_ready st = IsTrue (st_Conditions (st_Status st)) ReadyCondition && negb b).
  { intros b spec' <- st <-. done. }
  destruct Cordon, (Unschedulable (st_Spec t)) eqn:Hu.
  - exists (st_Spec t). split; [|rewrite Hu; split_and!; try done; by apply Hr].
    eapply says. unfold RunCordon, get_target. run_M. rewrite Ht. cbn. by rewrite Hu.
  - exists (set_unschedulable (st_Spec t) true). split; [|split_and!; try done; by apply Hr].
    eapply (sends _ _ _ (name +:+ " cordoned")); [|apply patched_cordon].
    unfold RunCordon, get_target. run_M. rewrite Ht. cbn. by rewrite Hu.
  - exists (set_evict (set_unschedulable (st_Spec t) false) None). split; [|split_and!; try done; by apply Hr].
    eapply (sends _ _ _ (name +:+ " uncordoned")); [|apply patched_uncordon].
    unfold RunCordon, get_target. run_M. rewrite Ht. cbn. by rewrite Hu.
  - exists (st_Spec t). split; [|rewrite Hu; split_and!; try done; by apply Hr].
    eapply says. unfold RunCordon, get_target. run_M. rewrite Ht. cbn. by rewrite Hu.
Qed.

(** A drained SyncTarget is neither chosen nor kept: from the moment of the command
    on no placement takes it for a ready SyncTarget or for one that does not evict,
    unless it was draining already, and then its former time holds. *)
Theorem drain_takes_effect name t h :
  GetAnswer (h ++ [GetTarget name]) = inr t -> (0 <= local_year 0 (Now (h ++ [GetTarget name])) < 10000)%Z ->
  exists spec', ends_with (RunDrain GetAnswer PatchAnswer Now name) h name t spec' /\ Unschedulable spec' = true /\
    (forall st, st_Spec st = spec' -> is_ready st = false) /\
    ((Unschedulable (st_Spec t) = true /\ is_Some (EvictAfter (st_Spec t)) /\ spec' = st_Spec t) \/
     forall st now, st_Spec st = spec' -> (Now (h ++ [GetTarget name]) <= now)%Z -> not_evicting now st = false).
Proof.
  intros Ht Hy. set (start := Now (h ++ [GetTarget name])) in *.
  assert (Hr : forall spec', Unschedulable spec' = true -> forall st, st_Spec st = spec' -> is_ready st = false).
  { intros spec' Hu st <-. unfold is_ready. by rewrite Hu, andb_false_r. }
  destruct (bool_decide (is_Some (EvictAfter (st_Spec t))) && Unschedulable (st_Spec t)) eqn:Hd.
  - apply andb_prop in Hd as [He%bool_decide_eq_true Hu]. exists (st_Spec t).
    split; [|split_and!; [done|by apply Hr|by left]].
    eapply says. unfold RunDrain, get_target. run_M. rewrite Ht. cbn. by rewrite bool_decide_true, Hu.
  - exists (set_evict (set_unschedulable (st_Spec t) true) (Some (start / Second * Second)%Z)).
    split; [|split_and!; [done|by apply Hr|right]].
    + eapply (sends _ _ _ (name +:+ " draining")); [|by apply patched_drain].
      unfold RunDrain, get_target. run_M. rewrite Ht. cbn. by rewrite Hd.
    + intros st now Hst Hle. unfold not_evicting. rewrite Hst. cbn. apply Z.ltb_ge.
      pose proof (Z.mul_div_le start Second ltac:(done)). lia.
Qed.
End effects.

(** * Examples *)

Module Examples.
#[local] Existing Instance simple_conditions.
Definition target : SyncTarget := {|
  st_Meta := mk_meta "st" "" None None [];
  st_Spec := {| Unschedulable := false; EvictAfter := None; SupportedAPIExports := []; Cells := None |};
  st_Status := {| Allocatable := None; Capacity := None; SyncedResources := []; LastSyncerHeartbeatTime := None;
    VirtualWorkspaces := []; TunnelWorkspaces := [];
    st_Conditions := [mk_cond "Ready" ConditionTrue "" "" ""] |} |}.
Definition get (_ : list workload_call) : result SyncTarget := inr target.
Definition now (_ : list workload_call) : Time := 1700000000123456789%Z.
Lemma succeed : forall h : list workload_call, exists t, get h = inr t.
Proof. intros h. by exists target. Qed.

Lemma cordon_takes_effect_witness :
  exists spec', ends_with (RunCordon get get "st" true) [] "st" target spec' /\
    Unschedulable spec' = true /\
    EvictAfter spec' = (if negb true && Unschedulable (st_Spec target) then None else EvictAfter (st_Spec target)) /\
    SupportedAPIExports spec' = SupportedAPIExports (st_Spec target) /\ Cells spec' = Cells (st_Spec target) /\
    forall st, st_Spec st = spec' -> is_ready st = IsTrue (st_Conditions (st_Status st)) ReadyCondition && negb true.
Proof. apply (cordon_takes_effect get get succeed "st" true target []). reflexivity. Defined.
Lemma drain_takes_effect_witness :
  exists spec', ends_with (RunDrain get get now "st") [] "st" target spec' /\ Unschedulable spec' = true /\
    (forall st, st_Spec st = spec' -> is_ready st = false) /\
    ((Unschedulable (st_Spec target) = true /\ is_Some (EvictAfter (st_Spec target)) /\ spec' = st_Spec target) \/
     forall st t, st_Spec st = spec' -> (now [GetTarget "st"] <= t)%Z -> not_evicting t st = false).
Proof.
  apply (drain_takes_effect get get now succeed "st" target []); [reflexivity|].
  split; [by vm_compute|by vm_compute].
Defined.
(** A time of eviction that lies ahead is kept by a drain. *)
Example draining_already :
  let t := {| st_Meta := st_Meta target; st_Status := st_Status target;
              st_Spec := {| Unschedulable := true; EvictAfter := Some 1800000000000000000%Z;
                            SupportedAPIExports := []; Cells := None |} |} in
  RunDrain (fun _ => inr t) get now "st" [] = ([GetTarget "st"; PrintLine "st already draining"], Ok tt) /\
  not_evicting (now []) t = true.
Proof. by vm_compute. Qed.
End Examples.
