(* ===== verification/CliBind.v ===== *)
(** * Binding a workspace ([pkg/cliplugins/bind/plugin])

    The commands that bind a workspace to the exports and locations of a compute
    workspace: they make the bindings that are missing and a placement, and wait
    until these are bound, scheduled and ready. *)

From S2P Require Import Prelude Platform Digest ApiTypes Committer SyncerShared GoPath SyncTargetUrls VirtualServer StatusSync Mutators WorkspaceControllers ApiResource Shards ApiExports CliSync.
Local Open Scope nat_scope.

(** ** Data *)

(** [apisv1alpha1.APIBinding]: the path and the name of the export that it refers to. *)
Record APIBinding := {
  ab_Meta : ObjectMeta; ab_Export : option (string * string); ab_Phase : string; ab_Conditions : Conditions }.
Definition APIBindingPhaseBound : string := "Bound".
Definition InitialBindingCompleted : string := "InitialBindingCompleted".
Definition APIExportValid : string := "APIExportValid".
Definition LogicalClusterName : string := "cluster".
Definition LogicalClusterPathAnnotationKey : string := "kcp.io/path".
(** What a client returns with an error. *)
Definition zero_binding : APIBinding := {|
  ab_Meta := zero_meta; ab_Export := None; ab_Phase := ""; ab_Conditions := [] |}.

Inductive bind_call :=
  | ListBindings | GetLogicalCluster (name : string) | CreateAPIBinding (b : APIBinding)
  | GetAPIBinding (name : string) | CreatePlacement (p : Placement) | GetPlacement (name : string)
  | PrintOut (line : string).
#[local] Abbreviation BM := (M bind_call) (only parsing).
Record server := {
  list_answer : list bind_call -> result (list APIBinding);
  cluster_answer : list bind_call -> result ObjectMeta;
  binding_answer : list bind_call -> result APIBinding;
  placement_answer : list bind_call -> result Placement;
  attempts : nat;
}.

(** ** [bind_compute.go] *)

Record BindComputeOptions := {
  PlacementName : string;
  APIExports : list string;
  namespaceSelector : option LabelSelector;
  NamespaceSelectorString : string;
  locationSelectors : list LabelSelector;
  LocationSelectorsStrings : list string;
  LocationWorkspace : string;
}.

Section compute.
Context {EL : ErrorLib} {CL : ClusterLib} {CO : ConditionLib} {CP : ClusterPathLib} {PS : PathSplitLib}.
Context {B36 : Base36Lib} {MO : MapOrder}.

(** [Complete]: an argument, the selectors, and a name where none is given. *)
Variable NewValidatedPath : string -> string * bool.
Variable ParseToLabelSelector : string -> result LabelSelector.
Fixpoint parse_selectors (l : list string) : res (list LabelSelector) :=
  match l with
  | [] => mret []
  | s :: l =>
      match ParseToLabelSelector s with
      | inl err => Err (ErrWrap ("location selector " +:+ s +:+ " format not correct") err)
      | inr selector => selectors ← parse_selectors l; mret (selector :: selectors)
      end
  end.
Definition hashed_text (o : BindComputeOptions) (workspace : string) : string :=
  NamespaceSelectorString o +:+ Join (LocationSelectorsStrings o) "," +:+ workspace.
Definition Complete (o : BindComputeOptions) (args : list string) : res BindComputeOptions :=
  match args with
  | [arg] =>
      let '(clusterName, validated) := NewValidatedPath arg in
      if negb validated then Err (ErrMsg "location workspace type is incorrect")
      else
        match ParseToLabelSelector (NamespaceSelectorString o) with
        | inl err => Err (ErrWrap "namespace selector format not correct" err)
        | inr selector =>
            selectors ← parse_selectors (LocationSelectorsStrings o);
            name ← (if decide (PlacementName o = "")
                    then p ← slice_to (base36hash (hashed_text o clusterName)) 8; mret ("placement-" +:+ p)
                    else mret (PlacementName o));
            mret {| PlacementName := name; APIExports := APIExports o; namespaceSelector := Some selector;
                    NamespaceSelectorString := NamespaceSelectorString o;
                    locationSelectors := locationSelectors o ++ selectors;
                    LocationSelectorsStrings := LocationSelectorsStrings o; LocationWorkspace := clusterName |}
        end
  | _ => Err (ErrMsg "a location workspace should be specified")
  end.

Definition GetMessage (cs : Conditions) (t : string) : string :=
  match GetCondition cs t with Some c => c_Message c | None => "" end.
Definition placementReadyAndScheduled (placement : Placement) : bool * string :=
  let cs := p_Conditions (p_Status placement) in
  if negb (IsTrue cs PlacementScheduled) then
    let msg := GetMessage cs PlacementScheduled in
    (false, if decide (msg = "") then "placement is not scheduled" else "placement is not scheduled: " +:+ msg)
  else if negb (IsTrue cs PlacementReady) then
    let msg := GetMessage cs PlacementReady in
    (false, if decide (msg = "") then "placement is not ready" else "placement is not ready: " +:+ msg)
  else (true, "").
Fixpoint bindingsReady (bindings : list APIBinding) : res (bool * string) :=
  match bindings with
  | [] => Ok (true, "")
  | binding :: bindings =>
      if decide (ab_Phase binding = APIBindingPhaseBound) then bindingsReady bindings
      else
        let cs := ab_Conditions binding in
        let conditionMessage :=
          if IsFalse cs InitialBindingCompleted then GetMessage cs InitialBindingCompleted
          else if IsFalse cs APIExportValid then GetMessage cs APIExportValid else "unknown reason" in
        match ab_Export binding with
        | None => Panic "invalid memory address or nil pointer dereference"
        | Some (path, name) =>
            let bindTo := if decide (path = "") then "local APIExport " +:+ name
                          else "APIExport " +:+ PathJoin path name in
            Ok (false, "APIBinding " +:+ Name (ab_Meta binding) +:+ " is not bound to APIExport " +:+ bindTo +:+
                       " yet: " +:+ conditionMessage)
        end
  end.

(** [apiBindingName]: a name of at most 253 bytes; [s[:n]] of what is longer. *)
Definition maxBindingNamePrefixLength : nat := 253 - 1 - 8.
Definition apiBindingName (clusterName apiExportName : string) : res string :=
  bindingNamePrefix ← slice_to apiExportName (Nat.min (String.length apiExportName) maxBindingNamePrefixLength);
  p ← slice_to (base36hash (RequestPath clusterName)) 8;
  mret (bindingNamePrefix +:+ "-" +:+ p).

Variable w : server.

(** The loop over the bindings that there are. *)
Record bound := { localClusterName : string; localPath : string; existingAPIExports : gset string }.
Fixpoint scan_bindings (items : list APIBinding) (st : bound) : BM bound :=
  match items with
  | [] => mret st
  | binding :: items =>
      match ab_Export binding with
      | None => scan_bindings items st
      | Some (path, name) =>
          let local := ClusterFrom (ab_Meta binding) in
          let path := if decide (path = "") then local else path in
          let existing := {[ PathJoin path name ]} ∪ existingAPIExports st in
          lp ← (if decide (localPath st = "") then
                  cluster ← call (GetLogicalCluster LogicalClusterName) (cluster_answer w);
                  mret (map_index (Annotations cluster) LogicalClusterPathAnnotationKey)
                else mret (localPath st));
          scan_bindings items {| localClusterName := local; localPath := lp;
            existingAPIExports := if decide (lp = "") then existing else {[ PathJoin lp name ]} ∪ existing |}
      end
  end.
(** A local export may be named without a path. *)
Definition with_local (local : string) (desired : gset string) : gset string :=
  if decide (local = "") then desired
  else list_to_set ((fun export => let '(path, name) := PathSplit export in
                                   PathJoin (if decide (path = "") then local else path) name) <$> set_list desired).
Definition new_binding (local export : string) : res APIBinding :=
  let '(path, name) := PathSplit export in
  let path := if decide (path = local) then "" else path in
  bindingName ← apiBindingName path name;
  mret {| ab_Meta := mk_meta bindingName "" None None []; ab_Export := Some (path, name); ab_Phase := "";
          ab_Conditions := [] |}.
Definition export_of (b : APIBinding) : string :=
  match ab_Export b with Some (path, name) => PathJoin path name | None => "" end.
Fixpoint create_bindings (local : string) (exports : list string) (bindings : list APIBinding) (errs : list error)
    : BM (list APIBinding * list error) :=
  match exports with
  | [] => mret (bindings, errs)
  | export :: exports =>
      apiBinding ← lift (new_binding local export);
      r ← try (call (CreateAPIBinding apiBinding) (binding_answer w));
      match r with
      | inr binding =>
          emit (PrintOut ("Binding APIExport " +:+ export));;
          create_bindings local exports (bindings ++ [binding]) errs
      | inl err =>
          if IsAlreadyExists err then
            emit (PrintOut ("Binding APIExport " +:+ export));;
            create_bindings local exports (bindings ++ [zero_binding]) errs
          else create_bindings local exports bindings (errs ++ [ErrWrap ("failed binding APIExport " +:+ export_of apiBinding) err])
      end
  end.
Definition applyAPIBinding (desiredAPIExports : gset string) : BM (list APIBinding) :=
  items ← call ListBindings (list_answer w);
  st ← scan_bindings items {| localClusterName := ""; localPath := ""; existingAPIExports := ∅ |};
  let desired := with_local (localClusterName st) desiredAPIExports in
  '(bindings, errs) ← create_bindings (localClusterName st) (set_range (desired ∖ existingAPIExports st)) [] [];
  match NewAggregate errs with Some err => fail err | None => mret bindings end.
Definition new_placement (o : BindComputeOptions) : Placement := {|
  p_Meta := mk_meta (PlacementName o) "" None None [];
  p_Spec := {| LocationSelectors := locationSelectors o;
    LocationResource := {| gvr_Group := "workload.kcp.io"; gvr_Version := "v1alpha1"; gvr_Resource := "synctargets" |};
    ApiTypes.NamespaceSelector := namespaceSelector o; ApiTypes.LocationWorkspace := LocationWorkspace o |};
  p_Status := {| p_Phase := ""; p_SelectedLocation := None; p_Conditions := [] |} |}.
Definition applyPlacement (o : BindComputeOptions) : BM unit :=
  r ← try (call (CreatePlacement (new_placement o)) (placement_answer w));
  match r with
  | inr _ => emit (PrintOut ("placement " +:+ PlacementName o +:+ " created."))
  | inl err => if IsAlreadyExists err then emit (PrintOut ("placement " +:+ PlacementName o +:+ " already exists."))
               else fail err
  end.

(** The polls; [message] is the last one when the time is up. *)
Fixpoint get_bindings (bindings : list APIBinding) : BM (list APIBinding) :=
  match bindings with
  | [] => mret []
  | binding :: bindings =>
      b ← call (GetAPIBinding (Name (ab_Meta binding))) (binding_answer w);
      updated ← get_bindings bindings; mret (b :: updated)
  end.
Fixpoint wait_bindings (n : nat) (bindings : list APIBinding) (message : string) : BM unit :=
  match n with
  | O => fail (ErrMsg ("APIBindings not ready: " +:+ message))
  | S n =>
      '(ready, message) ← lift (bindingsReady bindings);
      if (ready : bool) then mret tt
      else
        r ← try (get_bindings bindings);
        match r with
        | inl err => fail (ErrWrap "APIBindings not ready" err)
        | inr updated => wait_bindings n updated message
        end
  end.
Fixpoint wait_placement (n : nat) (name message : string) : BM unit :=
  match n with
  | O => fail (ErrMsg ("placement not ready: " +:+ message))
  | S n =>
      r ← try (call (GetPlacement name) (placement_answer w));
      match r with
      | inl err => fail (ErrWrap "placement not ready" err)
      | inr placement =>
          let '(done, message) := placementReadyAndScheduled placement in
          if done : bool then mret tt else wait_placement n name message
      end
  end.
Definition Run (o : BindComputeOptions) : BM unit :=
  bindings ← applyAPIBinding (list_to_set (APIExports o));
  wait_bindings (attempts w) bindings "";;
  applyPlacement o;;
  wait_placement (attempts w) (PlacementName o) "";;
  emit (PrintOut ("Placement " +:+ PlacementName o +:+ " is ready.")).
End compute.

(** * Theorems *)

Section theorems.
Context {EL : ErrorLib} {CL : ClusterLib} {CO : ConditionLib} {CP : ClusterPathLib} {PS : PathSplitLib}.
Context {B36 : Base36Lib} {MO : MapOrder}.
Variable w : server.

(** ** Waiting *)

Lemma bindingsReady_bound bs message :
  bindingsReady bs = Ok (true, message) -> Forall (fun b => ab_Phase b = APIBindingPhaseBound) bs.
Proof.
  induction bs as [|b bs IH]; [by constructor|]. cbn [bindingsReady].
  destruct (decide _) as [Hb|]; [intros H; constructor; [done|by apply IH]|].
  by destruct (ab_Export b) as [[]|].
Qed.
(** A binding that the client does not know is not bound, and has no export. *)
Lemma bindingsReady_panics l1 b l2 :
  Forall (fun b => ab_Phase b = APIBindingPhaseBound) l1 -> ab_Phase b <> APIBindingPhaseBound -> ab_Export b = None ->
  is_panic (bindingsReady (l1 ++ b :: l2)) = true.
Proof.
  intros Hl Hb He. induction Hl as [|x l Hx _ IH]; cbn [app bindingsReady].
  - rewrite decide_False by done. by rewrite He.
  - by rewrite decide_True.
Qed.
Lemma placement_done p message : placementReadyAndScheduled p = (true, message) ->
  IsTrue (p_Conditions (p_Status p)) PlacementScheduled = true /\
  IsTrue (p_Conditions (p_Status p)) PlacementReady = true.
Proof.
  unfold placementReadyAndScheduled. destruct (IsTrue _ PlacementScheduled); [|done].
  by destruct (IsTrue _ PlacementReady).
Qed.
Lemma wait_placement_ok n name message h h' :
  wait_placement w n name message h = (h', Ok tt) ->
  exists h0 p, h' = h0 ++ [GetPlacement name] /\ h `prefix_of` h0 /\ placement_answer w h' = inr p /\
    IsTrue (p_Conditions (p_Status p)) PlacementScheduled = true /\
    IsTrue (p_Conditions (p_Status p)) PlacementReady = true.
Proof.
  revert message h. induction n as [|n IH]; intros message h; [done|]. cbn [wait_placement].
  intros (h1 & r & Hr & H)%bind_inv. apply try_inv in Hr. unfold call in Hr. injection Hr as <- Hr.
  destruct (placement_answer w (h ++ [GetPlacement name])) as [err|p] eqn:Ep; destruct r as [err'|p']; try done.
  injection Hr as <-. destruct (placementReadyAndScheduled p) as [[] msg] eqn:Ed.
  - injection H as <-. apply placement_done in Ed as [Hs Hrd]. exists h, p. by split_and!; [|reflexivity|..].
  - apply IH in H as (h0 & q & -> & Hp & Hq). exists h0, q. split; [done|]. split; [|done].
    etransitivity; [|exact Hp]. by apply prefix_app_r.
Qed.
(** The bindings that were bound are those that were made, or what they were read as. *)
Definition read_as (bs bs' : list APIBinding) : Prop :=
  Forall2 (fun b b' => exists h0 n, binding_answer w (h0 ++ [GetAPIBinding n]) = inr b' /\ n = Name (ab_Meta b)) bs bs'.
Lemma get_bindings_read bs h h' bs' : get_bindings w bs h = (h', Ok bs') -> read_as bs bs'.
Proof.
  revert h h' bs'. induction bs as [|b bs IH]; intros h h' bs'; cbn [get_bindings].
  { intros [= _ <-]. constructor. }
  intros (h1 & b' & Hb & H)%bind_inv. apply bind_inv in H as (h2 & l & Hl & H). injection H as _ <-.
  constructor; [|exact (IH _ _ _ Hl)]. unfold call in Hb. injection Hb as _ Hb.
  destruct (binding_answer w (h ++ [GetAPIBinding (Name (ab_Meta b))])) eqn:E; [done|].
  injection Hb as ->. by exists h, (Name (ab_Meta b)).
Qed.
Lemma wait_bindings_ok n bs message h h' :
  wait_bindings w n bs message h = (h', Ok tt) ->
  exists bs', rtc read_as bs bs' /\ Forall (fun b => ab_Phase b = APIBindingPhaseBound) bs'.
Proof.
  revert bs message h. induction n as [|n IH]; intros bs message h; [done|]. cbn [wait_bindings].
  intros (h1 & [ready msg] & Hr & H)%bind_inv. injection Hr as <- Hr. destruct ready.
  - exists bs. split; [apply rtc_refl|by eapply bindingsReady_bound].
  - apply bind_inv in H as (h2 & [err|updated] & Hg & H); [done|]. apply try_inv, get_bindings_read in Hg.
    apply IH in H as (bs' & Hs & Hb). exists bs'. split; [|done]. by eapply rtc_l.
Qed.

(** When the command ends well the workspace is ready to be used: every binding that
    it made has been seen as bound, and the placement, in the answer that it last read,
    is scheduled and ready. *)
Theorem success_means_ready o h h' :
  Run w o h = (h', Ok tt) ->
  exists h1 bindings bindings' h2 p, applyAPIBinding w (list_to_set (APIExports o)) h = (h1, Ok bindings) /\
    rtc read_as bindings bindings' /\ Forall (fun b => ab_Phase b = APIBindingPhaseBound) bindings' /\
    placement_answer w (h2 ++ [GetPlacement (PlacementName o)]) = inr p /\
    (h2 ++ [GetPlacement (PlacementName o)]) `prefix_of` h' /\
    IsTrue (p_Conditions (p_Status p)) PlacementScheduled = true /\
    IsTrue (p_Conditions (p_Status p)) PlacementReady = true.
Proof.
  unfold Run. intros (h1 & bs & Hb & H)%bind_inv. apply bind_inv in H as (h2 & [] & Hw & H).
  apply bind_inv in H as (h3 & [] & _ & H). apply bind_inv in H as (h4 & [] & Hp & H).
  apply wait_bindings_ok in Hw as (bs' & Hr & Hbound).
  apply wait_placement_ok in Hp as (h0 & p & -> & _ & Hp & Hs & Hready).
  injection H as <-. exists h1, bs, bs', h0, p. split_and!; try done. by apply prefix_app_r.
Qed.

(** ** The bindings that are made *)

Lemma create_guarded (local : string) (all exports : list string) bs errs h :
  (forall x, x ∈ exports -> x ∈ all) ->
  guarded (fun _ e => match e with
                      | CreateAPIBinding b => exists export, export ∈ all /\ new_binding local export = Ok b
                      | PrintOut _ => True
                      | _ => False
                      end) (create_bindings w local exports bs errs) h.
Proof.
  revert bs errs h. induction exports as [|x l IH]; intros bs errs h Hin; [apply guarded_ret|].
  cbn [create_bindings]. apply guarded_bind; [apply guarded_lift|]. intros h1 made [= -> Hm].
  apply guarded_bind.
  { apply guarded_try, guarded_call. exists x. split; [apply Hin, list_elem_of_here|done]. }
  assert (Hl : forall y, y ∈ l -> y ∈ all) by (intros; by apply Hin, list_elem_of_further).
  intros h2 [err|b] _; [destruct (IsAlreadyExists err)|]; [| |];
    try (apply guarded_bind; [by apply guarded_emit|intros]); by apply IH.
Qed.
Lemma create_bindings_all local exports bs errs h h' r :
  create_bindings w local exports bs errs h = (h', Ok r) ->
  h `prefix_of` h' /\ forall export, export ∈ exports -> exists b, new_binding local export = Ok b /\ CreateAPIBinding b ∈ h'.
Proof.
  revert bs errs h. induction exports as [|x l IH]; intros bs errs h.
  { intros [= -> _]. split; [reflexivity|]. by intros ? ?%not_elem_of_nil. }
  cbn [create_bindings]. intros (h1 & made & Hm & H)%bind_inv. injection Hm as <- Hm.
  apply bind_inv in H as (h2 & a & Ha & H). apply try_inv in Ha. unfold call in Ha. injection Ha as <- _.
  assert (Hn : exists h3 bs3 errs3, create_bindings w local l bs3 errs3 h3 = (h', Ok r) /\
    (h ++ [CreateAPIBinding made]) `prefix_of` h3).
  { destruct a as [err|b]; [destruct (IsAlreadyExists err)|]; cbn in H.
    - eexists _, _, _. split; [exact H|]. by apply prefix_app_r.
    - eexists _, _, _. split; [exact H|]. reflexivity.
    - eexists _, _, _. split; [exact H|]. by apply prefix_app_r. }
  destruct Hn as (h3 & bs3 & errs3 & Hc & Hp). apply IH in Hc as [Hp' Hall].
  assert (Hpre : (h ++ [CreateAPIBinding made]) `prefix_of` h') by (by etransitivity).
  split; [etransitivity; [|exact Hpre]; by apply prefix_app_r|].
  intros export [->|Hx]%elem_of_cons; [|by apply Hall]. exists made. split; [done|].
  destruct Hpre as [k ->]. apply elem_of_app. left. apply elem_of_app. right. apply list_elem_of_here.
Qed.

(** The exports that there are bindings for, under their path, or the workspace's own. *)
Definition bound_to (items : list APIBinding) (lp export : string) : Prop :=
  exists b path name, b ∈ items /\ ab_Export b = Some (path, name) /\
    (export = PathJoin (if decide (path = "") then ClusterFrom (ab_Meta b) else path) name \/
     lp <> "" /\ export = PathJoin lp name).
Lemma scan_quiet items st h h' st' :
  scan_bindings w items st h = (h', Ok st') -> forall b, CreateAPIBinding b ∈ h' -> CreateAPIBinding b ∈ h.
Proof.
  revert st h. induction items as [|b items IH]; intros st h; cbn [scan_bindings]; [by intros [= -> _]|].
  destruct (ab_Export b) as [[path name]|]; [|apply IH].
  intros (h1 & lp & Hl & H)%bind_inv x Hx. eapply IH in H; [|exact Hx].
  destruct (decide (localPath st = "")) in Hl; [|by injection Hl as -> _].
  apply bind_inv in Hl as (h2 & m & Hm & Hl). injection Hl as <- _. unfold call in Hm. injection Hm as <- _.
  apply elem_of_app in H as [|H]; [done|]. by apply list_elem_of_singleton in H.
Qed.
Lemma scan_complete items st h h' st' :
  scan_bindings w items st h = (h', Ok st') ->
  existingAPIExports st ⊆ existingAPIExports st' /\
  forall b path name, b ∈ items -> ab_Export b = Some (path, name) ->
    PathJoin (if decide (path = "") then ClusterFrom (ab_Meta b) else path) name ∈ existingAPIExports st'.
Proof.
  revert st h. induction items as [|b items IH]; intros st h; cbn [scan_bindings].
  { intros [= _ ->]. split; [done|]. by intros ? ? ? ?%not_elem_of_nil. }
  destruct (ab_Export b) as [[path name]|] eqn:E.
  - intros (h1 & lp & _ & H)%bind_inv. apply IH in H as [Hs Hc]. cbn in Hs. split.
    + destruct (decide (lp = "")); set_solver.
    + intros b' p n [->|Hb]%elem_of_cons Hp; [|by eapply Hc]. rewrite E in Hp. injection Hp as <- <-.
      apply Hs. destruct (decide (lp = "")); set_solver.
  - intros [Hs Hc]%IH. split; [done|]. intros b' p n [->|Hb]%elem_of_cons Hp; [congruence|by eapply Hc].
Qed.

(** The command binds what is missing and nothing else: a binding is asked for each
    export that is wanted and that no binding of the workspace refers to, and none for
    an export that one of them refers to. *)
Theorem missing_exports_are_bound desired h h' bs :
  (forall b, ~ CreateAPIBinding b ∈ h) ->
  applyAPIBinding w desired h = (h', Ok bs) ->
  exists items (local : string) (existing : gset string),
    list_answer w (h ++ [ListBindings]) = inr items /\
    (forall b path name, b ∈ items -> ab_Export b = Some (path, name) ->
       PathJoin (if decide (path = "") then ClusterFrom (ab_Meta b) else path) name ∈ existing) /\
    (forall export, export ∈ with_local local desired -> (export ∉ existing) ->
       exists b, new_binding local export = Ok b /\ CreateAPIBinding b ∈ h') /\
    (forall b, CreateAPIBinding b ∈ h' ->
       exists export, export ∈ with_local local desired /\ (export ∉ existing) /\ new_binding local export = Ok b).
Proof.
  intros Hno. unfold applyAPIBinding. intros (h1 & items & Hl & H)%bind_inv.
  unfold call in Hl. destruct (list_answer w _) as [|items'] eqn:El; [done|]. injection Hl as <- ->.
  apply bind_inv in H as (h2 & st & Hs & H). apply bind_inv in H as (h3 & [bs1 errs] & Hc & H).
  assert (E : h' = h3) by (destruct (NewAggregate errs); by injection H). subst h3. clear H.
  exists items, (localClusterName st), (existingAPIExports st). split; [done|].
  pose proof (scan_complete _ _ _ _ _ Hs) as [_ Hex]. split; [exact Hex|]. split.
  - intros export Hd He. apply create_bindings_all in Hc as [_ Hall]. apply Hall, elem_of_set_range. set_solver.
  - intros b Hb.
    destruct (create_guarded (localClusterName st) (set_range (with_local (localClusterName st) desired ∖ existingAPIExports st))
      (set_range (with_local (localClusterName st) desired ∖ existingAPIExports st)) [] [] h2 (fun x H => H)) as (t & Ht & Hg).
    rewrite Hc in Ht. cbn in Ht. subst h'. apply elem_of_app in Hb as [Hb|Hb].
    + exfalso. eapply scan_quiet in Hs; [|exact Hb]. apply elem_of_app in Hs as [Hs|Hs]; [by eapply Hno|].
      by apply list_elem_of_singleton in Hs.
    + apply list_elem_of_split in Hb as (t1 & t2 & ->). destruct (Hg t1 _ t2 eq_refl) as (export & Hx & Hn).
      exists export. apply elem_of_set_range, elem_of_difference in Hx as [Hd He]. by split_and!.
Qed.

(** ** Names *)

(** The name of a binding is one that an object may have: 253 bytes at most, however
    long the name of the export is. *)
Theorem binding_names_fit clusterName export name :
  apiBindingName clusterName export = Ok name -> String.length name <= 253.
Proof.
  unfold apiBindingName. destruct (slice_to export _) as [p| |] eqn:Ep; try done. cbn.
  destruct (slice_to (base36hash _) 8) as [q| |] eqn:Eq; try done. intros [= <-].
  apply slice_to_length in Ep, Eq. rewrite !string_app_length, Ep, Eq. simpl String.length.
  unfold maxBindingNamePrefixLength. lia.
Qed.
End theorems.

(** * [bind.go] *)

Module Bind.
Record BindOptions := { APIExportRef : string; APIBindingName : string }.

Section bind.
Context {EL : ErrorLib} {PS : PathSplitLib}.
Variable PathIsValid : string -> bool.
Variable base_Validate : option error.
Variable ParseClusterURL : string -> result string.

(** [Complete]: the argument, when there is one. *)
Definition Complete (b : BindOptions) (args : list string) : BindOptions :=
  match args with arg :: _ => {| APIExportRef := arg; APIBindingName := APIBindingName b |} | [] => b end.
Definition Validate (b : BindOptions) : option error :=
  if decide (APIExportRef b = "") then
    Some (ErrMsg "`root:ws:apiexport_object` reference to bind is required as an argument")
  else if negb (PathIsValid (PathSplit (APIExportRef b)).1) then
    Some (ErrMsg "fully qualified reference to workspace where APIExport exists is required. The format is `<logical-cluster-name>:<apiexport>` or `<full>:<path>:<to>:<apiexport>`")
  else base_Validate.

(** The binding that the options ask for. *)
Definition binding_name (b : BindOptions) : string :=
  if decide (APIBindingName b = "") then (PathSplit (APIExportRef b)).2 else APIBindingName b.
Definition wanted (b : BindOptions) : APIBinding := {|
  ab_Meta := mk_meta (binding_name b) "" None None []; ab_Export := Some (PathSplit (APIExportRef b));
  ab_Phase := ""; ab_Conditions := [] |}.

Variable w : server.
Fixpoint wait_bound (n : nat) (name : string) : BM unit :=
  match n with
  | O => fail (ErrMsg "timed out waiting for the condition")
  | S n =>
      created ← call (GetAPIBinding name) (binding_answer w);
      if decide (ab_Phase created = APIBindingPhaseBound) then mret tt else wait_bound n name
  end.
Definition Run (b : BindOptions) (host : string) : BM unit :=
  match ParseClusterURL host with
  | inl _ => fail (ErrMsg ("current URL " +:+ host +:+ " does not point to workspace"))
  | inr _ =>
      created ← call (CreateAPIBinding (wanted b)) (binding_answer w);
      emit (PrintOut ("apibinding " +:+ binding_name b +:+ " created. Waiting to successfully bind ..."));;
      (if decide (ab_Phase created = APIBindingPhaseBound) then mret tt
       else r ← try (wait_bound (attempts w) (binding_name b));
            match r with
            | inl err => fail (ErrWrap ("could not bind " +:+ binding_name b) err)
            | inr _ => mret tt
            end);;
      emit (PrintOut (binding_name b +:+ " created and bound."))
  end.

Lemma wait_bound_ok n name h h' : wait_bound n name h = (h', Ok tt) ->
  exists k b, h' = (h ++ k) ++ [GetAPIBinding name] /\ k = replicate (length k) (GetAPIBinding name) /\
    length k < n /\ binding_answer w h' = inr b /\ ab_Phase b = APIBindingPhaseBound.
Proof.
  revert h. induction n as [|n IH]; intros h; [done|]. cbn [wait_bound].
  intros (h1 & b & Hb & H)%bind_inv. unfold call in Hb.
  destruct (binding_answer w (h ++ [GetAPIBinding name])) as [|b'] eqn:E; [done|]. injection Hb as <- ->.
  destruct (decide (ab_Phase b = APIBindingPhaseBound)) as [Hp|].
  - injection H as <-. exists [], b. rewrite app_nil_r. split_and!; try done. simpl. lia.
  - apply IH in H as (k & b' & -> & Hk & Hn & Hb & Hp). exists (GetAPIBinding name :: k), b'.
    assert (Heq : h ++ GetAPIBinding name :: k = (h ++ [GetAPIBinding name]) ++ k) by by rewrite <-app_assoc.
    rewrite Heq. split; [done|]. split; [|split; [simpl; lia|done]]. cbn. by rewrite <-Hk.
Qed.

(** A binding that is reported as bound is: one binding has been asked for, of the
    export that the argument names and under the given name or that of the export, and
    the last answer about it, be it to its creation or to the last of at most [attempts]
    readings, says that it is bound. *)
Theorem reported_bindings_are_bound b host h h' :
  Run b host h = (h', Ok tt) ->
  exists k created last, let asked := (h ++ [CreateAPIBinding (wanted b)]) ++
      [PrintOut ("apibinding " +:+ binding_name b +:+ " created. Waiting to successfully bind ...")] in
    h' = asked ++ replicate k (GetAPIBinding (binding_name b)) ++ [PrintOut (binding_name b +:+ " created and bound.")] /\
    k <= attempts w /\
    binding_answer w (h ++ [CreateAPIBinding (wanted b)]) = inr created /\
    (k = 0 /\ last = created \/
     0 < k /\ binding_answer w (asked ++ replicate k (GetAPIBinding (binding_name b))) = inr last) /\
    ab_Phase last = APIBindingPhaseBound.
Proof.
  unfold Run. destruct (ParseClusterURL host); [done|]. intros (h1 & created & Hc & H)%bind_inv. unfold call in Hc.
  destruct (binding_answer w (h ++ [CreateAPIBinding (wanted b)])) as [|c] eqn:E; [done|]. injection Hc as <- ->.
  apply bind_inv in H as (h2 & [] & Hp & H). injection Hp as <-. apply bind_inv in H as (h3 & [] & Hw & H).
  injection H as <-. destruct (decide _) as [Hb|] in Hw.
  - injection Hw as <-. exists 0, created, created. cbn. split_and!; auto with lia.
  - apply bind_inv in Hw as (h4 & [err|[]] & Ht & Hw); [done|]. injection Hw as <-. apply try_inv in Ht.
    apply wait_bound_ok in Ht as (k & last & -> & Hk & Hn & Hl & Hb). exists (S (length k)), created, last. cbv zeta.
    rewrite replicate_S_end, <-Hk, !app_assoc. split_and!; [done|lia|done| |done]. right. split; [lia|]. done.
Qed.
End bind.
End Bind.

(** * Examples *)

Module Examples.
#[local] Existing Instances simple_errors simple_clusters simple_conditions canonical_order.
#[local] Existing Instances CliSync.Examples.b36 CliSync.Examples.paths SyncTargetUrls.Examples.simple_paths.
Definition refused {A} (code : string) : result A := inl (ErrLib code "").
Definition set_bound (b : APIBinding) : APIBinding := {|
  ab_Meta := ab_Meta b; ab_Export := ab_Export b; ab_Phase := APIBindingPhaseBound; ab_Conditions := [] |}.
Definition ready : list Condition := [
  mk_cond PlacementScheduled ConditionTrue "" "" ""; mk_cond PlacementReady ConditionTrue "" "" ""].
Definition options : BindComputeOptions := {|
  PlacementName := "mine"; APIExports := ["root:compute:kubernetes"]; namespaceSelector := None;
  NamespaceSelectorString := ""; locationSelectors := []; LocationSelectorsStrings := [""];
  LocationWorkspace := "root:compute" |}.
(** A workspace with some bindings; a binding is bound when it is read. *)
Definition workspace (items : list APIBinding) (taken : bool) : server := {|
  list_answer _ := inr items;
  cluster_answer _ := inr (mk_meta "cluster" "" None (Some {[ LogicalClusterPathAnnotationKey := "root:me" ]}) []);
  binding_answer h := match last h with
    | Some (CreateAPIBinding b) => if taken then refused "AlreadyExists" else inr b
    | Some (GetAPIBinding n) => inr (set_bound {| ab_Meta := mk_meta n "" None None []; ab_Export := Some ("root:compute", "kubernetes");
                                                  ab_Phase := ""; ab_Conditions := [] |})
    | _ => refused "NotFound"
    end;
  placement_answer _ := inr {| p_Meta := mk_meta "mine" "" None None [];
    p_Spec := {| LocationSelectors := []; LocationResource := {| gvr_Group := ""; gvr_Version := ""; gvr_Resource := "" |};
                 ApiTypes.NamespaceSelector := None; ApiTypes.LocationWorkspace := "" |};
    p_Status := {| p_Phase := ""; p_SelectedLocation := None; p_Conditions := ready |} |};
  attempts := 2 |}.
Definition run (taken : bool) : list bind_call * res unit := Run (workspace [] taken) options [].
Lemma run_ok : (run false).2 = Ok tt.
Proof. by vm_compute. Qed.
Lemma success_means_ready_witness :
  exists h1 bindings bindings' h2 p,
    applyAPIBinding (workspace [] false) (list_to_set (APIExports options)) [] = (h1, Ok bindings) /\
    rtc (read_as (workspace [] false)) bindings bindings' /\
    Forall (fun b => ab_Phase b = APIBindingPhaseBound) bindings' /\
    placement_answer (workspace [] false) (h2 ++ [GetPlacement (PlacementName options)]) = inr p /\
    (h2 ++ [GetPlacement (PlacementName options)]) `prefix_of` (run false).1 /\
    IsTrue (p_Conditions (p_Status p)) PlacementScheduled = true /\
    IsTrue (p_Conditions (p_Status p)) PlacementReady = true.
Proof.
  apply (success_means_ready (workspace [] false) options []).
  transitivity (run false); [reflexivity|]. rewrite <-run_ok. by destruct (run false).
Defined.
(** The creation of a binding that somebody else made first leaves a binding without an
    export, and the command ends with the report that this one is not bound. *)
Example lost_race_panics : is_panic (run true).2 = true.
Proof. by vm_compute. Qed.

Definition other : APIBinding := {|
  ab_Meta := mk_meta "other" "" None (Some {[ "kcp.io/cluster" := "2x3" ]}) [];
  ab_Export := Some ("root:compute", "kubernetes"); ab_Phase := APIBindingPhaseBound; ab_Conditions := [] |}.
Definition desired : gset string := {[ "root:compute:kubernetes"; "own" ]}.
Definition applied (desired : gset string) : list bind_call * res (list APIBinding) :=
  applyAPIBinding (workspace [other] false) desired [].
Definition bs : list APIBinding := match (applied desired).2 with Ok bs => bs | _ => [] end.
Lemma missing_exports_are_bound_witness :
  exists items (local : string) (existing : gset string),
    inr [other] = inr items :> result (list APIBinding) /\
    (forall b path name, b ∈ items -> ab_Export b = Some (path, name) ->
       PathJoin (if decide (path = "") then ClusterFrom (ab_Meta b) else path) name ∈ existing) /\
    (forall export, export ∈ with_local local desired -> (export ∉ existing) ->
       exists b, new_binding local export = Ok b /\ CreateAPIBinding b ∈ (applied desired).1) /\
    (forall b, CreateAPIBinding b ∈ (applied desired).1 ->
       exists export, export ∈ with_local local desired /\ (export ∉ existing) /\ new_binding local export = Ok b).
Proof.
  apply (missing_exports_are_bound (workspace [other] false) desired [] (applied desired).1 bs).
  - intros b. apply not_elem_of_nil.
  - by vm_compute.
Defined.
Definition created (l : list bind_call) : list (option (string * string)) :=
  omap (fun e => match e with CreateAPIBinding b => Some (ab_Export b) | _ => None end) l.
(** A name that is bound from elsewhere counts as bound under the workspace's own path:
    its own export of that name is left out when it is named by that path, and bound when
    it is named without one. *)
Example own_export_is_left_out :
  created (applied {[ "root:me:kubernetes" ]}).1 = [] /\
  created (applied {[ "kubernetes" ]}).1 = [Some ("", "kubernetes")].
Proof. split; by vm_compute. Qed.

Definition long_name : string := String.concat "" (replicate 300 "x").
Lemma binding_names_fit_witness :
  String.length (match apiBindingName "root:compute" long_name with Ok n => n | _ => "" end) <= 253.
Proof. apply (binding_names_fit "root:compute" long_name). by vm_compute. Defined.
(** The text that a placement is named by does not keep the selectors apart. *)
Example selections_share_a_name :
  let with_selectors ns loc := {|
    PlacementName := ""; APIExports := []; namespaceSelector := None; NamespaceSelectorString := ns;
    locationSelectors := []; LocationSelectorsStrings := loc; LocationWorkspace := "" |} in
  hashed_text (with_selectors "env=a" ["b"]) "root" = hashed_text (with_selectors "env=" ["ab"]) "root".
Proof. reflexivity. Qed.

Definition bind : Bind.BindOptions := {| Bind.APIExportRef := "root:compute:kubernetes"; Bind.APIBindingName := "" |}.
Definition bound_run : list bind_call * res unit := Bind.Run inr (workspace [] false) bind "host" [].
Lemma reported_bindings_are_bound_witness :
  exists k created last, let asked := ([] ++ [CreateAPIBinding (Bind.wanted bind)]) ++
      [PrintOut ("apibinding " +:+ Bind.binding_name bind +:+ " created. Waiting to successfully bind ...")] in
    bound_run.1 = asked ++ replicate k (GetAPIBinding (Bind.binding_name bind)) ++
      [PrintOut (Bind.binding_name bind +:+ " created and bound.")] /\
    k <= 2 /\
    binding_answer (workspace [] false) ([] ++ [CreateAPIBinding (Bind.wanted bind)]) = inr created /\
    (k = 0 /\ last = created \/
     0 < k /\ binding_answer (workspace [] false) (asked ++ replicate k (GetAPIBinding (Bind.binding_name bind))) = inr last) /\
    ab_Phase last = APIBindingPhaseBound.
Proof.
  apply (Bind.reported_bindings_are_bound inr (workspace [] false) bind "host" []). by vm_compute.
Defined.
End Examples.
