(* ===== verification/ControllerManager.v ===== *)
(** * The controllers of a syncer that depend on types ([pkg/syncer/controllermanager])

    Some controllers of the syncer need the informers of certain types. The manager
    starts them when all of these are synced and stops them when one is gone, each
    with a context of its own. *)

From S2P Require Import Prelude Platform ApiTypes SyncerShared.
Local Open Scope nat_scope.

(** ** The manager *)

(** What [Informers] returns: the types whose informers are synced, and the others that
    have one. *)
Record informers := { syncedInformers : gset GroupVersionResource; notSynced : list GroupVersionResource }.
(** [startedControllers], with the contexts that their cancel functions belong to; the
    next context. *)
Record ControllerManager := { startedControllers : gmap string nat; next_context : nat }.
Definition NewControllerManager : ControllerManager := {| startedControllers := ∅; next_context := 0 |}.
Inductive manager_event :=
  | ReadInformers
  | CreateController (name : string)
  | StartController (name : string) (context : nat)
  | CancelContext (context : nat)
  | QueueAdd (key : string)
  | QueueAddAfter (key : string) (seconds : nat)
  | QueueForget (key : string)
  | QueueDone (key : string).
#[local] Abbreviation CM := (M manager_event) (only parsing).

Inductive readiness := Startable | Waiting | Absent.
Fixpoint readiness_of (i : informers) (requiredGVRs : list GroupVersionResource) : readiness :=
  match requiredGVRs with
  | [] => Startable
  | gvr :: l =>
      if decide (gvr ∈ syncedInformers i) then readiness_of i l
      else if ContainsGVR (notSynced i) gvr then Waiting else Absent
  end.

Section manager.
Context {MO : MapOrder}.
(** The types that each controller needs. *)
Variable managedControllers : gmap string (list GroupVersionResource).
Variable Informers : list manager_event -> informers.
Variable Create : list manager_event -> result unit.

Fixpoint controllers_to_start (i : informers) (l : list (string * list GroupVersionResource))
    (controllersToStart : gset string) : CM (gset string) :=
  match l with
  | [] => mret controllersToStart
  | (controllerName, requiredGVRs) :: l =>
      match readiness_of i requiredGVRs with
      | Startable => controllers_to_start i l ({[ controllerName ]} ∪ controllersToStart)
      | Waiting => emit (QueueAddAfter "resync" 1);; controllers_to_start i l controllersToStart
      | Absent => controllers_to_start i l controllersToStart
      end
  end.
Fixpoint stop_obsolete (controllersToStart : gset string) (l : list (string * nat)) (c : ControllerManager)
    : CM ControllerManager :=
  match l with
  | [] => mret c
  | (controllerName, context) :: l =>
      if decide (controllerName ∈ controllersToStart) then stop_obsolete controllersToStart l c
      else
        emit (CancelContext context);;
        stop_obsolete controllersToStart l {|
          startedControllers := delete controllerName (startedControllers c); next_context := next_context c |}
  end.
(** Errors of the creation are logged. *)
Fixpoint create_missing (l : list string) (c : ControllerManager) : CM ControllerManager :=
  match l with
  | [] => mret c
  | controllerName :: l =>
      match startedControllers c !! controllerName with
      | Some _ => create_missing l c
      | None =>
          r ← try (call (CreateController controllerName) Create);
          match r with
          | inl _ => create_missing l c
          | inr _ =>
              emit (StartController controllerName (next_context c));;
              create_missing l {|
                startedControllers := <[ controllerName := next_context c ]> (startedControllers c);
                next_context := S (next_context c) |}
          end
      end
  end.
Definition process (c : ControllerManager) : CM ControllerManager :=
  i ← call ReadInformers (fun h => inr (Informers h));
  controllersToStart ← controllers_to_start i (map_range managedControllers) ∅;
  c ← stop_obsolete controllersToStart (map_range (startedControllers c)) c;
  create_missing (set_range controllersToStart) c.
Definition processNextWorkItem (key : string) (c : ControllerManager) : CM ControllerManager :=
  c ← process c; emit (QueueForget key);; emit (QueueDone key);; mret c.
(** The goroutine that follows the notifications of the source of informers. *)
Definition apis_changed : CM unit := emit (QueueAdd "resync").

(** The manager's life: notifications, and passes of its one worker. *)
Inductive step : list manager_event * ControllerManager -> list manager_event * ControllerManager -> Prop :=
  | step_notified h c : step (h, c) ((apis_changed h).1, c)
  | step_pass key h c h' c' :
      processNextWorkItem key c h = (h', Ok c') -> step (h, c) (h', c').

(** * Theorems *)

(** ** One pass *)

Definition startable (i : informers) (name : string) : Prop :=
  exists gvrs, managedControllers !! name = Some gvrs /\ Forall (fun gvr => gvr ∈ syncedInformers i) gvrs.
Lemma readiness_startable i l : readiness_of i l = Startable <-> Forall (fun gvr => gvr ∈ syncedInformers i) l.
Proof.
  induction l as [|gvr l IH]; cbn; [by split|]. rewrite Forall_cons. destruct (decide (gvr ∈ _)); [tauto|].
  destruct (ContainsGVR _ _); split; (done || tauto).
Qed.
Definition resyncs (l : list manager_event) : Prop := Forall (fun e => e = QueueAddAfter "resync" 1) l.
Lemma exists_cons {A} (P : A -> Prop) x l : (exists y, y ∈ x :: l /\ P y) <-> P x \/ exists y, y ∈ l /\ P y.
Proof.
  split.
  - intros (y & [->|Hy]%elem_of_cons & HP); [by left|right; by exists y].
  - intros [HP|(y & Hy & HP)]; [exists x|exists y]; (split; [|done]); [apply list_elem_of_here|by apply list_elem_of_further].
Qed.
Lemma controllers_to_start_spec i l acc h :
  exists t to_start, controllers_to_start i l acc h = (h ++ t, Ok to_start) /\ resyncs t /\
    (forall name, name ∈ to_start <->
       name ∈ acc \/ exists kv, kv ∈ l /\ kv.1 = name /\ readiness_of i kv.2 = Startable) /\
    (t <> [] <-> exists kv, kv ∈ l /\ readiness_of i kv.2 = Waiting).
Proof.
  revert acc h. induction l as [|[name gvrs] l IH]; intros acc h; cbn [controllers_to_start].
  { exists [], acc. rewrite app_nil_r. split_and!; [done|constructor| |].
    - intros name. split; [by left|]. by intros [?|(? & ?%not_elem_of_nil & _)].
    - split; [done|]. by intros (? & ?%not_elem_of_nil & _). }
  setoid_rewrite exists_cons. cbn [fst snd]. destruct (readiness_of i gvrs) eqn:Er.
  - destruct (IH ({[ name ]} ∪ acc) h) as (t & s & E & Ht & Hs & Hw). exists t, s. split_and!; [done..| |].
    + intros n. rewrite Hs, elem_of_union, elem_of_singleton.
      split; [intros [[->|]|]|intros [|[[-> _]|]]]; auto.
    + rewrite Hw. split; [by right|]. by intros [|].
  - destruct (IH acc (h ++ [QueueAddAfter "resync" 1])) as (t & s & E & Ht & Hs & Hw).
    exists (QueueAddAfter "resync" 1 :: t), s. split_and!.
    + by rewrite (bind_ok _ _ h _ () eq_refl), E, <-app_assoc.
    + by constructor.
    + intros n. rewrite Hs. split; [intros [|]|intros [|[[_ ?]|]]]; (done || auto).
    + split; [by left|done].
  - destruct (IH acc h) as (t & s & E & Ht & Hs & Hw). exists t, s. split_and!; [done..| |].
    + intros n. rewrite Hs. split; [intros [|]|intros [|[[_ ?]|]]]; (done || auto).
    + rewrite Hw. split; [by right|]. by intros [|].
Qed.

Definition cancels (to_start : gset string) (l : list (string * nat)) : list manager_event :=
  (fun kv => CancelContext kv.2) <$> filter (fun kv => kv.1 ∉ to_start) l.
Lemma stop_obsolete_spec to_start l c h :
  exists m, stop_obsolete to_start l c h =
      (h ++ cancels to_start l, Ok {| startedControllers := m; next_context := next_context c |}) /\
    forall name, m !! name = if decide (name ∈ l.*1 /\ (name ∉ to_start)) then None else startedControllers c !! name.
Proof.
  revert c h. induction l as [|[name n] l IH]; intros c h; cbn [stop_obsolete].
  { exists (startedControllers c). unfold cancels. cbn. rewrite app_nil_r. split; [by destruct c|].
    intros name. rewrite decide_False; [done|]. by intros [?%not_elem_of_nil _]. }
  unfold cancels. rewrite filter_cons. cbn [fst snd]. rewrite fmap_cons. cbn [fst].
  destruct (decide (name ∈ to_start)) as [Hin|Hin].
  - destruct (IH c h) as (m & E & Hm). exists m. rewrite E, decide_False by (by intros ?). split; [done|].
    intros k. rewrite Hm. pose proof (elem_of_cons l.*1 k name) as Hc.
    assert (k = name -> k ∈ to_start) by (by intros ->).
    destruct (decide (k ∈ l.*1 /\ _)), (decide (k ∈ name :: l.*1 /\ _)); (done || tauto).
  - rewrite (bind_ok _ _ h _ () eq_refl), decide_True by done.
    destruct (IH {| startedControllers := delete name (startedControllers c); next_context := next_context c |}
                 (h ++ [CancelContext n])) as (m & E & Hm).
    exists m. rewrite E. cbn. rewrite <-app_assoc. split; [done|]. intros k. rewrite Hm. cbn.
    pose proof (elem_of_cons l.*1 k name) as Hc. destruct (decide (k = name)) as [->|Hk].
    + rewrite lookup_delete_eq. destruct (decide (name ∈ l.*1 /\ _)), (decide (name ∈ name :: l.*1 /\ _)); (done || tauto).
    + rewrite lookup_delete_ne by done.
      destruct (decide (k ∈ l.*1 /\ _)), (decide (k ∈ name :: l.*1 /\ _)); (done || tauto).
Qed.

Lemma create_missing_spec l c h :
  NoDup l ->
  exists t c', create_missing l c h = (h ++ t, Ok c') /\
    Forall (fun e => match e with CreateController _ | StartController _ _ => True | _ => False end) t /\
    (forall name, (name ∉ l) \/ is_Some (startedControllers c !! name) ->
       startedControllers c' !! name = startedControllers c !! name) /\
    (forall name, name ∈ l -> startedControllers c !! name = None ->
       exists t1 t2, t = t1 ++ CreateController name :: t2 /\
         (is_Some (startedControllers c' !! name) <-> is_ok (of_result (Create (h ++ t1 ++ [CreateController name]))))).
Proof.
  intros Hl. revert c h. induction Hl as [|name l Hname _ IH]; intros c h; cbn [create_missing].
  { exists [], c. rewrite app_nil_r. split_and!; [done|constructor|done|]. by intros ? ?%not_elem_of_nil. }
  destruct (startedControllers c !! name) as [n|] eqn:Ec.
  { destruct (IH c h) as (t & c' & E & He & Hk & Hn). exists t, c'. split_and!; [done..| |].
    - intros k [Hk'|Hk']; [|by apply Hk; right]. apply Hk. left. set_solver.
    - intros k [->|Hk']%elem_of_cons Hc; [congruence|by apply Hn]. }
  unfold call, try, mbind, M_bind. set (h1 := h ++ [CreateController name]).
  destruct (Create h1) as [err|u] eqn:Er; cbn [of_result].
  - destruct (IH c h1) as (t & c' & E & He & Hk & Hn). exists (CreateController name :: t), c'. rewrite E.
    unfold h1. rewrite <-app_assoc. split_and!; [done|by constructor| |].
    + intros k [Hk'|Hk']; apply Hk; [left; set_solver|by right].
    + intros k [->|Hk']%elem_of_cons Hc.
      * exists [], t. split; [done|]. cbn. fold h1. rewrite Er, Hk, Hc by by left. split; [by intros []|done].
      * destruct (Hn k Hk' Hc) as (t1 & t2 & -> & Hs). exists (CreateController name :: t1), t2. split; [done|].
        unfold h1 in Hs. by rewrite <-app_assoc in Hs.
  - set (c1 := {| startedControllers := <[ name := next_context c ]> (startedControllers c);
                  next_context := S (next_context c) |}).
    set (h2 := h1 ++ [StartController name (next_context c)]).
    destruct (IH c1 h2) as (t & c' & E & He & Hk & Hn). cbn [emit]. unfold emit. fold h2 c1. rewrite E.
    exists (CreateController name :: StartController name (next_context c) :: t), c'.
    unfold h2, h1. rewrite <-!app_assoc. split_and!; [done|by repeat constructor| |].
    + intros k Hk'. assert (k <> name).
      { intros ->. destruct Hk' as [Hk'|[? Hk']]; [|congruence]. apply Hk'. apply list_elem_of_here. }
      rewrite Hk; cbn; rewrite lookup_insert_ne by done; [done|]. destruct Hk'; [left; set_solver|by right].
    + intros k [->|Hk']%elem_of_cons Hc.
      * exists [], (StartController name (next_context c) :: t). split; [done|]. cbn. fold h1. rewrite Er.
        rewrite Hk by by left. cbn. rewrite lookup_insert_eq. by split.
      * assert (k <> name) by (by intros ->).
        destruct (Hn k Hk') as (t1 & t2 & -> & Hs); [cbn; by rewrite lookup_insert_ne|].
        exists (CreateController name :: StartController name (next_context c) :: t1), t2. split; [done|].
        unfold h2, h1 in Hs. by rewrite <-!app_assoc in Hs.
Qed.

(** A pass leaves running what can run: afterwards no controller runs that misses a
    synced informer, one that ran and has them all goes on with its context, and one that
    did not run has been made, and runs exactly when that succeeded; another pass is
    asked for after a second when, and only when, a controller waits for an informer
    that is there but not synced. *)
Theorem pass_runs_what_is_ready c h :
  let i := Informers (h ++ [ReadInformers]) in
  exists t c', process c h = (h ++ t, Ok c') /\
    (forall name, ~ startable i name -> startedControllers c' !! name = None) /\
    (forall name n, startable i name -> startedControllers c !! name = Some n ->
       startedControllers c' !! name = Some n) /\
    (forall name, startable i name -> startedControllers c !! name = None ->
       exists t1 t2, t = t1 ++ CreateController name :: t2 /\
         (is_Some (startedControllers c' !! name) <-> is_ok (of_result (Create (h ++ t1 ++ [CreateController name]))))) /\
    (QueueAddAfter "resync" 1 ∈ t <->
     exists name gvrs, managedControllers !! name = Some gvrs /\ readiness_of i gvrs = Waiting).
Proof.
  intros i. unfold process. rewrite (bind_ok _ _ h (h ++ [ReadInformers]) i) by done.
  destruct (controllers_to_start_spec i (map_range managedControllers) ∅ (h ++ [ReadInformers]))
    as (t0 & to_start & E0 & Ht0 & Hstart & Hw). rewrite (bind_ok _ _ _ _ _ E0).
  assert (Hs : forall name, name ∈ to_start <-> startable i name).
  { intros name. rewrite Hstart. split.
    - intros [?%not_elem_of_empty|([k gvrs] & Hkv%elem_of_map_range & <- & Hr%readiness_startable)]; [done|]. by exists gvrs.
    - intros (gvrs & Hg & Hr). right. exists (name, gvrs). by rewrite readiness_startable, elem_of_map_range. }
  destruct (stop_obsolete_spec to_start (map_range (startedControllers c)) c ((h ++ [ReadInformers]) ++ t0))
    as (m & E1 & Hm). rewrite (bind_ok _ _ _ _ _ E1).
  destruct (create_missing_spec (set_range to_start) {| startedControllers := m; next_context := next_context c |}
    (((h ++ [ReadInformers]) ++ t0) ++ cancels to_start (map_range (startedControllers c))))
    as (t & c' & E & He & Hk & Hn); [apply NoDup_set_range|]. cbn [startedControllers] in Hk, Hn.
  setoid_rewrite elem_of_set_range in Hk. setoid_rewrite elem_of_set_range in Hn.
  exists (ReadInformers :: t0 ++ cancels to_start (map_range (startedControllers c)) ++ t), c'.
  assert (Hin : forall name, name ∈ to_start -> m !! name = startedControllers c !! name).
  { intros name Hin. rewrite Hm, decide_False; [done|]. by intros [_ ?]. }
  split_and!.
  - rewrite E. by rewrite <-!app_assoc.
  - intros name Hno. rewrite <-Hs in Hno. rewrite Hk, Hm by by left.
    destruct (decide _) as [|Hd]; [done|]. destruct (startedControllers c !! name) as [n|] eqn:Ec; [|done].
    exfalso. apply Hd. split; [|done]. apply list_elem_of_fmap. exists (name, n). by rewrite elem_of_map_range.
  - intros name n Hst%Hs Hc. by rewrite Hk, Hin by (by auto || (right; rewrite Hin; by eauto)).
  - intros name Hst%Hs Hc. rewrite <-Hin in Hc by done.
    destruct (Hn name Hst Hc) as (t1 & t2 & -> & Hok).
    exists (ReadInformers :: t0 ++ cancels to_start (map_range (startedControllers c)) ++ t1), t2.
    cbn. rewrite <-!app_assoc. split; [done|]. by rewrite <-!app_assoc in Hok.
  - assert (Hq : QueueAddAfter "resync" 1 ∈ ReadInformers :: t0 ++ cancels to_start (map_range (startedControllers c)) ++ t <->
      t0 <> []).
    { rewrite elem_of_cons, !elem_of_app. split.
      - intros [?|[H|[H|H]]]; [done|by intros ->; apply not_elem_of_nil in H| |].
        + apply list_elem_of_fmap in H as (? & ? & _). done.
        + rewrite Forall_forall in He. by apply He in H.
      - intros Hne. right. left. destruct t0 as [|e t0]; [done|]. apply Forall_cons in Ht0 as [-> _].
        apply list_elem_of_here. }
    rewrite Hq, Hw. split.
    + intros ([k gvrs] & Hkv%elem_of_map_range & Hr). by exists k, gvrs.
    + intros (k & gvrs & Hg & Hr). exists (k, gvrs). by rewrite elem_of_map_range.
Qed.

(** ** What runs *)

Definition recorded (h : list manager_event) (c : ControllerManager) : Prop :=
  (forall name n, startedControllers c !! name = Some n <-> StartController name n ∈ h /\ (CancelContext n ∉ h)) /\
  (forall name n, StartController name n ∈ h -> n < next_context c) /\
  (forall n, CancelContext n ∈ h -> n < next_context c) /\
  (forall name name' n, StartController name n ∈ h -> StartController name' n ∈ h -> name = name').
Lemma recorded_cancel h c name n :
  recorded h c -> startedControllers c !! name = Some n ->
  recorded (h ++ [CancelContext n])
    {| startedControllers := delete name (startedControllers c); next_context := next_context c |}.
Proof.
  intros (Hs & Hb & Hc & Hu) Hn. pose proof (proj1 (Hs _ _) Hn) as [Hstart _].
  assert (Hst : forall k m, StartController k m ∈ h ++ [CancelContext n] <-> StartController k m ∈ h).
  { intros. rewrite elem_of_app, list_elem_of_singleton. naive_solver. }
  assert (Hca : forall m, CancelContext m ∈ h ++ [CancelContext n] <-> CancelContext m ∈ h \/ m = n).
  { intros. rewrite elem_of_app, list_elem_of_singleton. naive_solver. }
  split_and!; cbn.
  - intros k m. rewrite Hst, Hca, lookup_delete_Some, Hs. split.
    + intros [Hk [Hm Hm']]. split; [done|]. intros [| ->]; [done|]. apply Hk. by eapply Hu.
    + intros [Hm Hm']. split; [|tauto]. intros <-. apply Hm'. right.
      assert (Hsome : startedControllers c !! name = Some m) by (apply Hs; tauto). congruence.
  - intros k m. rewrite Hst. apply Hb.
  - intros m. rewrite Hca. intros [| ->]; [by apply Hc|by eapply Hb].
  - intros k k' m. rewrite !Hst. apply Hu.
Qed.
Lemma recorded_start h c name :
  recorded h c -> startedControllers c !! name = None ->
  recorded (h ++ [StartController name (next_context c)])
    {| startedControllers := <[ name := next_context c ]> (startedControllers c); next_context := S (next_context c) |}.
Proof.
  intros (Hs & Hb & Hc & Hu) Hn. set (n := next_context c).
  assert (Hst : forall k m, StartController k m ∈ h ++ [StartController name n] <->
    StartController k m ∈ h \/ k = name /\ m = n).
  { intros. rewrite elem_of_app, list_elem_of_singleton. naive_solver. }
  assert (Hca : forall m, CancelContext m ∈ h ++ [StartController name n] <-> CancelContext m ∈ h).
  { intros. rewrite elem_of_app, list_elem_of_singleton. naive_solver. }
  split_and!; cbn; fold n.
  - intros k m. rewrite Hst, Hca, lookup_insert_Some, Hs. split.
    + intros [[<- <-]|[Hk [Hm Hm']]]; [|tauto]. split; [by right|]. intros Hx%Hc; unfold n in Hx; lia.
    + intros [[Hm| [-> ->]] Hm']; [|by left]. right. split; [|done]. intros <-.
      assert (Hsome : startedControllers c !! name = Some m) by by apply Hs. congruence.
  - intros k m. rewrite Hst. intros [Hm%Hb| [_ ->]]; [unfold n; lia|lia].
  - intros m. rewrite Hca. intros Hm%Hc. unfold n; lia.
  - intros k k' m. rewrite !Hst. intros [H1| [-> ->]] [H2| [-> H2]]; try done; [by eapply Hu| |].
    + apply Hb in H1. unfold n in H2. lia.
    + apply Hb in H2. unfold n in H2. lia.
Qed.
Lemma recorded_other h c e :
  (forall name n, e <> StartController name n) -> (forall n, e <> CancelContext n) ->
  recorded h c -> recorded (h ++ [e]) c.
Proof.
  intros He He' (Hs & Hb & Hc & Hu).
  assert (Hst : forall k m, StartController k m ∈ h ++ [e] <-> StartController k m ∈ h).
  { intros k m. rewrite elem_of_app, list_elem_of_singleton. specialize (He k m). naive_solver. }
  assert (Hca : forall m, CancelContext m ∈ h ++ [e] <-> CancelContext m ∈ h).
  { intros m. rewrite elem_of_app, list_elem_of_singleton. specialize (He' m). naive_solver. }
  unfold recorded. setoid_rewrite Hst. setoid_rewrite Hca. done.
Qed.

Lemma stop_obsolete_recorded to_start l c h h' c' :
  NoDup l.*1 -> (forall name n, (name, n) ∈ l -> startedControllers c !! name = Some n) ->
  recorded h c -> stop_obsolete to_start l c h = (h', Ok c') -> recorded h' c'.
Proof.
  revert c h. induction l as [|[name n] l IH]; intros c h Hnd Hl Hr; cbn [stop_obsolete]; [by intros [= <- <-]|].
  apply NoDup_cons in Hnd as [Hname Hnd].
  destruct (decide _); [apply IH; [done| |done]; intros; apply Hl; by apply list_elem_of_further|].
  rewrite (bind_ok _ _ h _ () eq_refl). apply IH; [done| |].
  - intros k m Hk. cbn. rewrite lookup_delete_ne; [by apply Hl, list_elem_of_further|].
    intros ->. apply Hname, list_elem_of_fmap. by exists (k, m).
  - apply recorded_cancel; [done|]. apply Hl, list_elem_of_here.
Qed.
Lemma create_missing_recorded l c h h' c' :
  recorded h c -> create_missing l c h = (h', Ok c') -> recorded h' c'.
Proof.
  revert c h. induction l as [|name l IH]; intros c h Hr; cbn [create_missing]; [by intros [= <- <-]|].
  destruct (startedControllers c !! name) eqn:Ec; [by apply IH|].
  intros (h1 & r & Hc & H)%bind_inv. apply try_inv in Hc. unfold call in Hc. injection Hc as <- _.
  assert (Hr1 : recorded (h ++ [CreateController name]) c) by by apply recorded_other.
  destruct r as [err|u]; [by eapply IH|]. rewrite (bind_ok _ _ _ _ () eq_refl) in H. eapply IH; [|exact H].
  by apply recorded_start.
Qed.
Lemma resyncs_recorded t h c : resyncs t -> recorded h c -> recorded (h ++ t) c.
Proof.
  intros Ht. revert h. induction Ht as [|e t -> _ IH]; intros h Hr; [by rewrite app_nil_r|].
  rewrite (assoc_L _ h [_] t : h ++ _ :: t = _). apply IH. by apply recorded_other.
Qed.

Lemma process_recorded c h h' c' : recorded h c -> process c h = (h', Ok c') -> recorded h' c'.
Proof.
  intros Hr. unfold process. rewrite (bind_ok _ _ h (h ++ [ReadInformers]) (Informers (h ++ [ReadInformers]))) by done.
  destruct (controllers_to_start_spec (Informers (h ++ [ReadInformers])) (map_range managedControllers) ∅
    (h ++ [ReadInformers])) as (t0 & to_start & E0 & Ht0 & _). rewrite (bind_ok _ _ _ _ _ E0).
  intros (h1 & c1 & Hs & H)%bind_inv. eapply create_missing_recorded; [|exact H].
  eapply stop_obsolete_recorded; [apply NoDup_map_range| | |exact Hs].
  - intros name n. apply elem_of_map_range.
  - apply resyncs_recorded; [done|]. by apply recorded_other.
Qed.
Lemma step_recorded x y : step x y -> recorded x.1 x.2 -> recorded y.1 y.2.
Proof.
  intros [h c|key h c h' c' H] Hr; cbn in *; [by apply recorded_other|].
  unfold processNextWorkItem in H. apply bind_inv in H as (h1 & c1 & Hp & H).
  rewrite (bind_ok _ _ _ _ () eq_refl), (bind_ok _ _ _ _ () eq_refl) in H. injection H as <- <-.
  apply recorded_other; [done..|]. apply recorded_other; [done..|]. by eapply process_recorded.
Qed.
Lemma recorded_new : recorded [] NewControllerManager.
Proof.
  split_and!; cbn.
  - intros name n. rewrite lookup_empty. split; [done|]. by intros [?%not_elem_of_nil _].
  - by intros ? ? ?%not_elem_of_nil.
  - by intros ? ?%not_elem_of_nil.
  - by intros ? ? ? ?%not_elem_of_nil.
Qed.

(** C24: what runs is what is recorded, at every moment and whatever the informers and the
    creations answer: the controllers whose start function was called with a context
    that has not been cancelled are exactly those of [startedControllers], under that
    context, and so no controller runs twice and none is left running unrecorded. *)
Theorem running_is_recorded h c :
  rtc step ([], NewControllerManager) (h, c) ->
  (forall name n, startedControllers c !! name = Some n <-> StartController name n ∈ h /\ (CancelContext n ∉ h)) /\
  (forall name name' n, StartController name n ∈ h -> StartController name' n ∈ h -> name = name').
Proof.
  intros H. cut (recorded h c); [by intros (? & _ & _ & ?)|].
  cut (forall x y, rtc step x y -> recorded x.1 x.2 -> recorded y.1 y.2).
  { intros Hinv. exact (Hinv _ _ H recorded_new). }
  clear. induction 1 as [|x y z H1 _ IH]; [done|]. intros Hr. apply IH. by eapply step_recorded.
Qed.

(** A creation that fails is logged, and nothing asks for another try: what the manager
    lacks stays away until the types change. *)
Theorem failed_creations_are_dropped c h :
  (forall name gvrs, managedControllers !! name = Some gvrs ->
     Forall (fun gvr => gvr ∈ syncedInformers (Informers (h ++ [ReadInformers]))) gvrs) ->
  startedControllers c = ∅ -> (forall h, exists err, Create h = inl err) ->
  exists names, process c h = (h ++ ReadInformers :: (CreateController <$> names), Ok c) /\
    forall name, name ∈ names <-> is_Some (managedControllers !! name).
Proof.
  intros Hall Hc Hcreate. unfold process.
  set (i := Informers (h ++ [ReadInformers])) in *.
  rewrite (bind_ok _ _ h (h ++ [ReadInformers]) i) by done.
  destruct (controllers_to_start_spec i (map_range managedControllers) ∅ (h ++ [ReadInformers]))
    as (t0 & to_start & E0 & _ & Hstart & Hw). rewrite (bind_ok _ _ _ _ _ E0).
  assert (t0 = []) as ->.
  { destruct t0; [done|]. destruct (proj1 Hw ltac:(done)) as ([k gvrs] & Hkv%elem_of_map_range & Hr).
    apply Hall, readiness_startable in Hkv. cbn in Hr. congruence. }
  rewrite app_nil_r, Hc. replace (map_range (∅ : gmap string nat)) with (@nil (string * nat)).
  2: { symmetry. apply Permutation_nil_r. rewrite map_range_perm. by rewrite map_to_list_empty. }
  rewrite (bind_ok _ _ _ _ c) by done. exists (set_range to_start). split.
  - assert (E : forall l h, create_missing l c h = (h ++ (CreateController <$> l), Ok c)).
    { induction l as [|name l IH]; intros h0; cbn [create_missing]; [cbn; by rewrite app_nil_r|].
      rewrite Hc, lookup_empty. destruct (Hcreate (h0 ++ [CreateController name])) as [err He].
      unfold call, try, mbind, M_bind. rewrite He. cbn. by rewrite IH, <-app_assoc. }
    by rewrite E, <-app_assoc.
  - intros name. rewrite elem_of_set_range, Hstart. split.
    + intros [?%not_elem_of_empty|([k gvrs] & Hkv%elem_of_map_range & <- & _)]; [done|by exists gvrs].
    + intros [gvrs Hg]. right. exists (name, gvrs). rewrite elem_of_map_range. split_and!; [done..|].
      apply readiness_startable. by eapply Hall.
Qed.
End manager.

(** * Examples *)

Module Examples.
#[local] Existing Instance canonical_order.
Definition pvc : GroupVersionResource := {| gvr_Group := ""; gvr_Version := "v1"; gvr_Resource := "persistentvolumeclaims" |}.
Definition pv : GroupVersionResource := {| gvr_Group := ""; gvr_Version := "v1"; gvr_Resource := "persistentvolumes" |}.
Definition managed : gmap string (list GroupVersionResource) := {[ "volumes" := [pvc; pv]; "claims" := [pvc] ]}.
#[local] Instance event_eq_dec : EqDecision manager_event.
Proof. solve_decision. Defined.
(** At the first pass one informer is not synced, at the second all are, and at the third
    the volumes are gone. *)
Definition reads (h : list manager_event) : nat := length (filter (fun e => e = ReadInformers) h).
Definition source (h : list manager_event) : informers :=
  match reads h with
  | 1 => {| syncedInformers := {[ pvc ]}; notSynced := [pv] |}
  | 2 => {| syncedInformers := {[ pvc; pv ]}; notSynced := [] |}
  | _ => {| syncedInformers := {[ pvc ]}; notSynced := [] |}
  end.
Definition always (_ : list manager_event) : result unit := inr tt.
Definition pass (x : list manager_event * ControllerManager) : list manager_event * ControllerManager :=
  match processNextWorkItem managed source always "resync" x.2 x.1 with
  | (h, Ok c) => (h, c)
  | (h, _) => (h, x.2)
  end.
Definition run : list manager_event * ControllerManager := pass (pass (pass ([], NewControllerManager))).
Lemma pass_step x : is_ok (processNextWorkItem managed source always "resync" x.2 x.1).2 = true ->
  step managed source always x (pass x).
Proof.
  destruct x as [h c]. unfold pass. cbn [fst snd].
  destruct (processNextWorkItem managed source always "resync" c h) as [h' [c'| |]] eqn:E; [|done..].
  intros _. by eapply step_pass.
Qed.
Definition run_events : list manager_event := [
  ReadInformers; QueueAddAfter "resync" 1; CreateController "claims"; StartController "claims" 0;
  QueueForget "resync"; QueueDone "resync";
  ReadInformers; CreateController "volumes"; StartController "volumes" 1;
  QueueForget "resync"; QueueDone "resync";
  ReadInformers; CancelContext 1; QueueForget "resync"; QueueDone "resync"].
Lemma run_is : run = (run_events, {| startedControllers := {[ "claims" := 0 ]}; next_context := 2 |}).
Proof. by vm_compute. Qed.
Lemma running_is_recorded_witness :
  (forall name n, startedControllers run.2 !! name = Some n <->
     StartController name n ∈ run.1 /\ (CancelContext n ∉ run.1)) /\
  (forall name name' n, StartController name n ∈ run.1 -> StartController name' n ∈ run.1 -> name = name').
Proof.
  apply (running_is_recorded managed source always).
  assert (H : rtc (step managed source always) ([], NewControllerManager) run).
  { apply (rtc_l _ _ (pass ([], NewControllerManager))); [by apply pass_step; vm_compute|].
    apply (rtc_l _ _ (pass (pass ([], NewControllerManager)))); [by apply pass_step; vm_compute|].
    apply rtc_once, pass_step. by vm_compute. }
  by destruct run.
Defined.
End Examples.
