(* ===== verification/Tunnels.v ===== *)
(** * Requests on pods through the tunnels ([pkg/tunneler], [pkg/syncer/tunneler.go])

    A request on a subresource of an upsynced pod is proxied by the server over the
    tunnel of the pod's SyncTarget, and let through by its syncer to the physical
    cluster. The pool has a dialer per SyncTarget; a syncer's first connection makes
    it, the later ones are handed to it. *)

From S2P Require Import Prelude Platform Digest ApiTypes Committer SyncerShared GoPath SyncTargetUrls VirtualServer.
Local Open Scope nat_scope.

(** [request.RequestInfo] of the API server library. *)
Record RequestInfo := {
  ri_IsResourceRequest : bool; ri_APIGroup : string; ri_APIVersion : string; ri_Namespace : string;
  ri_Resource : string; ri_Subresource : string; ri_Name : string }.
(** What the context of a request carries, and its path. *)
Record http_request := {
  req_Info : option RequestInfo; req_Cluster : option request_cluster; req_Path : string }.
Definition cluster_name (c : request_cluster) : string :=
  match c with Wildcard => "" | OneCluster name => name end.

(** ** [pkg/indexers/workload.go] *)

Definition IndexSyncTargetsBySyncTargetKey `{!ClusterLib} (syncTarget : SyncTarget) : list string :=
  [ToSyncTargetKey (ClusterFrom (st_Meta syncTarget)) (Name (st_Meta syncTarget))].

(** ** [tunnel.go]: the pool *)

(** The dialers by cluster and SyncTarget; a dialer is known by its control connection. *)
Record tunneler := { pool : gmap (string * string) nat }.
Definition NewTunneler : tunneler := {| pool := ∅ |}.
Definition getDialer (tn : tunneler) (clusterName syncTargetName : string) : option nat :=
  pool tn !! (clusterName, syncTargetName).
Definition createDialer (tn : tunneler) (clusterName syncTargetName : string) (conn : nat) : tunneler :=
  match pool tn !! (clusterName, syncTargetName) with
  | Some _ => tn
  | None => {| pool := <[ (clusterName, syncTargetName) := conn ]> (pool tn) |}
  end.
Definition deleteDialer (tn : tunneler) (clusterName syncTargetName : string) : tunneler :=
  {| pool := delete (clusterName, syncTargetName) (pool tn) |}.

Section urls.
Context {EL : ErrorLib}.
(** [net/url]: the scheme and the host of a URL, its text, and [JoinPath]. *)
Variable Parse : string -> result (string * string * string).
Variable JoinPath : string -> list string -> result string.
Definition tunnelSubresourcePath : string := "tunnel".
Definition SyncerTunnelURL (host ws target : string) : result string :=
  if decide (target = "" \/ ws = "") then inl (ErrMsg "target or ws can not be empty")
  else
    match Parse host with
    | inr (scheme, h, text) =>
        if decide (scheme <> "https" \/ h = "") then inl (ErrMsg "wrong url format, expected https://host<:port>/<path>")
        else JoinPath text ["clusters"; ws; "apis"; "workload.kcp.io/v1alpha1"; "synctargets"; target]
    | inl err => inl (ErrWrap "wrong url format, expected https://host<:port>/<path>" err)
    end.
(** [Listener.dial]: the URL that is connected to. *)
Definition connect_url (url : string) : string := url +:+ "/" +:+ tunnelSubresourcePath.
End urls.

(** ** [podsubresourceproxy_handler.go] *)

(** How a request ends. *)
Inductive response :=
  | ToAPIHandler
  | BadRequest (msg : string)
  | NotFoundPod (name : string)
  | InternalError (err : error)
  | ServiceUnavailable (msg : string)
  | Proxied (clusterName syncTargetName path : string).

Definition proxied_subresources : list string :=
  ["exec"; "log"; "portforward"; "proxy"; "attach"; "ephemeralcontainers"].

Section proxy.
Context {EL : ErrorLib} {CL : ClusterLib} {B36 : Base36Lib} {MO : MapOrder}.
Variable JoinPath : string -> list string -> result string.
(** The path of [url.Parse]. *)
Variable ParsePath : string -> result string.
Variable getPodByName : string -> string -> string -> result ObjectMeta.
Variable ByIndexWithFallback : string -> result (list SyncTarget).

Definition getSyncTargetBySynctargetKey (synctargetKey : string) : result SyncTarget :=
  match ByIndexWithFallback synctargetKey with
  | inl err => inl err
  | inr [synctarget] => inr synctarget
  | inr _ => inl (ErrMsg "expected 1 synctarget for key")
  end.
(** The key of a label that says that the pod is upsynced. *)
Definition upsynced_by (labels : gomap) : string :=
  match list_find (fun kv => HasPrefix kv.1 ClusterResourceStateLabelPrefix && bool_decide (kv.2 = ResourceStateUpsync))
          (map_range (entries labels)) with
  | Some (_, (k, _)) => TrimPrefix k ClusterResourceStateLabelPrefix
  | None => ""
  end.
Definition podSubresourceURL (downstreamNamespaceName podName subresource : string) : result string :=
  if decide (downstreamNamespaceName = "" \/ podName = "" \/ subresource = "") then
    inl (ErrMsg "invalid tunnel path")
  else
    proxyPath ← JoinPath "/api/v1/namespaces" [downstreamNamespaceName; "pods"; podName; subresource];
    ParsePath proxyPath.
Definition pod_locator (synctarget : SyncTarget) (clusterName namespace : string) : NamespaceLocator := {|
  nl_SyncTarget := {| stl_ClusterName := ClusterFrom (st_Meta synctarget); DeprecatedPath := "";
                      stl_Name := Name (st_Meta synctarget); stl_UID := UID (st_Meta synctarget) |};
  nl_ClusterName := clusterName; nl_Namespace := namespace |}.
(** From the pod on. *)
Definition proxy_pod (clusterName namespace podName subresource : string) (pod : ObjectMeta) : res response :=
  let synctargetKey := upsynced_by (Labels pod) in
  if decide (synctargetKey = "") then Ok (BadRequest ("pod " +:+ podName +:+ " is not upsynced"))
  else
    match getSyncTargetBySynctargetKey synctargetKey with
    | inl err =>
        if IsNotFound err then
          Ok (ServiceUnavailable ("subresource " +:+ subresource +:+ " is not available right now for pod " +:+ podName))
        else Ok (InternalError err)
    | inr synctarget =>
        downstreamNamespace ← PhysicalClusterNamespaceName (pod_locator synctarget clusterName namespace);
        match podSubresourceURL downstreamNamespace podName subresource with
        | inl err => Ok (InternalError err)
        | inr path => Ok (Proxied (ClusterFrom (st_Meta synctarget)) (Name (st_Meta synctarget)) path)
        end
    end.
Definition ServeHTTP (req : http_request) : res response :=
  match req_Info req with
  | None => Ok ToAPIHandler
  | Some info =>
      if negb (ri_IsResourceRequest info) then Ok ToAPIHandler
      else
        match req_Cluster req with
        | None => Panic "invalid memory address or nil pointer dereference"
        | Some cluster =>
            let clusterName := cluster_name cluster in
            let '(namespace, podName, subresource) := (ri_Namespace info, ri_Name info, ri_Subresource info) in
            if decide (clusterName = "") then Ok ToAPIHandler
            else if decide (ri_Resource info <> "pods" \/ subresource = "") then Ok ToAPIHandler
            else if decide (namespace = "" \/ podName = "" \/ subresource = "") then Ok ToAPIHandler
            else if negb (bool_decide (subresource ∈ proxied_subresources)) then
              Ok (BadRequest ("invalid subresource or not implemented " +:+ subresource))
            else
              match getPodByName clusterName namespace podName with
              | inl err => if IsNotFound err then Ok (NotFoundPod podName) else Ok (InternalError err)
              | inr pod => proxy_pod clusterName namespace podName subresource pod
              end
        end
  end.
End proxy.

(** [Proxy]: over the dialer of the SyncTarget, if it is open. *)
Inductive proxy_answer := TunnelClosed | BadTarget (err : error) | OverDialer (d : nat) (path : string).
Definition Proxy (Parse : string -> result unit) (tn : tunneler) (closed : gset nat)
    (clusterName syncerName path : string) : proxy_answer :=
  match getDialer tn clusterName syncerName with
  | None => TunnelClosed
  | Some d =>
      if decide (d ∈ closed) then TunnelClosed
      else match Parse ("http://" +:+ syncerName) with
           | inl err => BadTarget err
           | inr _ => OverDialer d path
           end
  end.

(** ** [pkg/syncer/tunneler.go]: what the syncer lets through *)

Inductive access := Forbidden (name : string) | AccessError (err : error) | LetThrough.
Section access.
Context {EL : ErrorLib} {CL : ClusterLib}.
Variable NewRequestInfo : string -> result RequestInfo.
(** The listers of the informers, when there are any; an object that is not
    unstructured is [None]. *)
Variable namespaceLister : result (string -> result (option ObjectMeta)).
Variable podLister : result (string -> string -> result (option ObjectMeta)).
Variable synctargetClusterName synctargetName syncTargetUID : string.

Definition owned_namespace (annotations : gomap) : bool :=
  match LocatorFromAnnotations annotations with
  | inr (Some locator) =>
      bool_decide (stl_Name (nl_SyncTarget locator) = synctargetName) &&
      bool_decide (stl_UID (nl_SyncTarget locator) = syncTargetUID) &&
      bool_decide (stl_ClusterName (nl_SyncTarget locator) = synctargetClusterName)
  | _ => false
  end.
Definition check_pod (namespace podName : string) : access :=
  match podLister with
  | inl err => AccessError (ErrWrap "error while getting pod lister" err)
  | inr get =>
      match get namespace podName with
      | inl _ => Forbidden podName
      | inr None => AccessError (ErrMsg "pod resource should be *unstructured.Unstructured")
      | inr (Some pod) =>
          if decide (map_index (Labels pod) (state_label (ToSyncTargetKey synctargetClusterName synctargetName))
                     <> ResourceStateUpsync)
          then Forbidden podName else LetThrough
      end
  end.
Definition withPodAccessCheck (path : string) : access :=
  match NewRequestInfo path with
  | inl err => AccessError (ErrWrap "could not resolve RequestInfo" err)
  | inr info =>
      if decide (ri_Resource info <> "pods" \/ ri_Subresource info = "" \/ ri_Name info = "" \/ ri_Namespace info = "")
      then Forbidden (ri_Name info)
      else
        match namespaceLister with
        | inl err => AccessError (ErrWrap "error while getting downstream namespace lister" err)
        | inr get =>
            match get (ri_Namespace info) with
            | inl _ => Forbidden (ri_Namespace info)
            | inr None => AccessError (ErrMsg "namespace resource should be *unstructured.Unstructured")
            | inr (Some ns) =>
                if owned_namespace (Annotations ns) then check_pod (ri_Namespace info) (ri_Name info)
                else Forbidden (ri_Name info)
            end
        end
  end.
End access.

(** ** [syncertunnel_handler.go] *)

(** Which requests are for a tunnel, and of which SyncTarget. *)
Definition tunnel_request (ValidClusterFrom : http_request -> result string) (req : http_request)
    : option (string * string) :=
  match req_Info req with
  | None => None
  | Some ri =>
      if decide (ri_IsResourceRequest ri = false \/ ri_Resource ri <> "synctargets" \/
                 ri_Subresource ri <> tunnelSubresourcePath \/ ri_APIGroup ri <> "workload.kcp.io" \/
                 ri_APIVersion ri <> "v1alpha1" \/ ri_Name ri = "")
      then None
      else match ValidClusterFrom req with inl _ => None | inr clusterName => Some (clusterName, ri_Name ri) end
  end.
(** The handlers of such requests run at the same time, each with its connection;
    the pool is locked by its three operations and not between them. *)
Inductive handler :=
  | StartClean          (* [getDialer] gave none, or a closed one *)
  | Cleaned             (* after [deleteDialer] *)
  | Controlling         (* after [createDialer], until the connection ends *)
  | Offering (d : nat)  (* before the connection is taken from [incomingConn] *)
  | Taken (d : nat)
  | Ended.
Record tunnels := {
  tn : tunneler;
  closed_dialers : gset nat;
  handlers : gmap nat ((string * string) * handler);
}.
Definition NewTunnels : tunnels := {| tn := NewTunneler; closed_dialers := ∅; handlers := ∅ |}.
Definition set_handler (s : tunnels) (conn : nat) (k : string * string) (p : handler) : tunnels := {|
  tn := tn s; closed_dialers := closed_dialers s; handlers := <[ conn := (k, p) ]> (handlers s) |}.
Definition with_tn (s : tunnels) (t : tunneler) : tunnels := {|
  tn := t; closed_dialers := closed_dialers s; handlers := handlers s |}.
Definition first_phase (s : tunnels) (k : string * string) : handler :=
  match getDialer (tn s) k.1 k.2 with
  | None => StartClean
  | Some d => if decide (d ∈ closed_dialers s) then StartClean else Offering d
  end.
Inductive tunnel_step : tunnels -> tunnels -> Prop :=
  | ts_request conn k s : handlers s !! conn = None ->
      tunnel_step s (set_handler s conn k (first_phase s k))
  | ts_delete conn k s : handlers s !! conn = Some (k, StartClean) ->
      tunnel_step s (set_handler (with_tn s (deleteDialer (tn s) k.1 k.2)) conn k Cleaned)
  | ts_create conn k s : handlers s !! conn = Some (k, Cleaned) ->
      tunnel_step s (set_handler (with_tn s (createDialer (tn s) k.1 k.2 conn)) conn k Controlling)
  | ts_taken conn k d s : handlers s !! conn = Some (k, Offering d) ->
      tunnel_step s (set_handler s conn k (Taken d))
  | ts_refused conn k d s : handlers s !! conn = Some (k, Offering d) -> d ∈ closed_dialers s ->
      tunnel_step s (set_handler s conn k Ended)
  | ts_ended conn k p s : handlers s !! conn = Some (k, p) ->
      match p with Controlling | Taken _ => True | _ => False end ->
      tunnel_step s (set_handler s conn k Ended)
  | ts_closed d s :
      tunnel_step s {| tn := tn s; closed_dialers := {[ d ]} ∪ closed_dialers s; handlers := handlers s |}.

(** * Theorems *)

(** A segment of a path that needs no escape: lower-case letters, digits, dashes, and dots
    not at the start. *)
Definition plain_char (a : ascii) : bool :=
  let n := nat_of_ascii a in
  (97 <=? n) && (n <=? 122) || (48 <=? n) && (n <=? 57) || (n =? 45) || (n =? 46).
Definition segment (s : string) : bool :=
  negb (bool_decide (s = "")) && negb (HasPrefix s ".") && forallb plain_char (String.list_ascii_of_string s).

(** ** Access *)

Section access_theorems.
Context {EL : ErrorLib} {CL : ClusterLib}.
Variable NewRequestInfo : string -> result RequestInfo.

Lemma owned_namespace_true c n uid annotations :
  owned_namespace c n uid annotations = true <->
  exists locator, LocatorFromAnnotations annotations = inr (Some locator) /\
    stl_Name (nl_SyncTarget locator) = n /\ stl_UID (nl_SyncTarget locator) = uid /\
    stl_ClusterName (nl_SyncTarget locator) = c.
Proof.
  unfold owned_namespace. destruct (LocatorFromAnnotations annotations) as [|[l|]].
  - split; [done|by intros (? & ? & _)].
  - rewrite !andb_true_iff, !bool_decide_eq_true. split; [intros [[]]; by exists l|].
    intros (? & [= <-] & ? & ? & ?). done.
  - split; [done|by intros (? & ? & _)].
Qed.

(** A syncer lets nothing through but requests on subresources of pods that it has
    itself brought up: the namespace is annotated with a locator of this SyncTarget, of
    its name, UID and cluster, and the pod is labelled as upsynced by it. *)
Theorem reached_pods_are_upsynced namespaceLister podLister cluster name uid path :
  withPodAccessCheck NewRequestInfo namespaceLister podLister cluster name uid path = LetThrough ->
  exists info getNamespace getPod ns pod locator,
    NewRequestInfo path = inr info /\ ri_Resource info = "pods" /\ ri_Subresource info <> "" /\
    namespaceLister = inr getNamespace /\ getNamespace (ri_Namespace info) = inr (Some ns) /\
    LocatorFromAnnotations (Annotations ns) = inr (Some locator) /\
    stl_Name (nl_SyncTarget locator) = name /\ stl_UID (nl_SyncTarget locator) = uid /\
    stl_ClusterName (nl_SyncTarget locator) = cluster /\
    podLister = inr getPod /\ getPod (ri_Namespace info) (ri_Name info) = inr (Some pod) /\
    map_index (Labels pod) (state_label (ToSyncTargetKey cluster name)) = ResourceStateUpsync.
Proof.
  unfold withPodAccessCheck. destruct (NewRequestInfo path) as [|info]; [done|].
  destruct (decide _) as [|Hi]; [done|]. destruct namespaceLister as [|getNs]; [done|].
  destruct (getNs (ri_Namespace info)) as [|[ns|]] eqn:Ens; [done| |done].
  destruct (owned_namespace _ _ _ _) eqn:Eo; [|done]. apply owned_namespace_true in Eo as (loc & Hl & Hn & Hu & Hc).
  unfold check_pod. destruct podLister as [|getPod]; [done|].
  destruct (getPod _ _) as [|[pod|]] eqn:Ep; [done| |done].
  destruct (decide _) as [|Hlab]; [done|]. intros _.
  exists info, getNs, getPod, ns, pod, loc. split_and!; try done; apply dec_stable; tauto.
Qed.

End access_theorems.

Section proxy_theorems.
Context {EL : ErrorLib} {CL : ClusterLib} {B36 : Base36Lib} {MO : MapOrder}.
Variable JoinPath : string -> list string -> result string.
Variable ParsePath : string -> result string.
Variable getPodByName : string -> string -> string -> result ObjectMeta.
Variable ByIndexWithFallback : string -> result (list SyncTarget).
Variable NewRequestInfo : string -> result RequestInfo.

(** The key that a pod's labels name. *)
Lemma upsynced_by_label labels : upsynced_by labels <> "" ->
  map_get labels (state_label (upsynced_by labels)) = Some ResourceStateUpsync.
Proof.
  unfold upsynced_by. destruct (list_find _ _) as [[i [k v]]|] eqn:E; [|done]. intros _.
  apply list_find_Some in E as (Hi & [Hk%HasPrefix_state_label Hv%bool_decide_eq_true]%Is_true_true%andb_prop & _).
  cbn [fst snd] in *. subst v. destruct Hk as [x ->]. unfold state_label. rewrite TrimPrefix_app.
  apply list_elem_of_lookup_2, elem_of_map_range in Hi. exact Hi.
Qed.

(** The index holds the SyncTargets under what its function gives; the path made for a
    pod is read back as a request on that pod, when the names are segments of a path
    that are kept as they are. *)
Hypothesis indexed : forall key l st, ByIndexWithFallback key = inr l -> st ∈ l ->
  key ∈ IndexSyncTargetsBySyncTargetKey st.
Hypothesis paths : forall ns podName subresource path,
  segment ns = true -> segment podName = true -> subresource ∈ proxied_subresources ->
  podSubresourceURL JoinPath ParsePath ns podName subresource = inr path ->
  exists info, NewRequestInfo path = inr info /\ ri_Resource info = "pods" /\
    ri_Namespace info = ns /\ ri_Name info = podName /\ ri_Subresource info = subresource.

End proxy_theorems.

(** ** The pool *)

(** [createDialer] does nothing when there is a dialer. *)
Lemma create_keeps t c n conn d : getDialer t c n = Some d -> createDialer t c n conn = t.
Proof. unfold getDialer, createDialer. by intros ->. Qed.

Definition of_key (s : tunnels) (k : string * string) (d : nat) : Prop := exists p, handlers s !! d = Some (k, p).
Definition led (s : tunnels) : Prop :=
  (forall k d, pool (tn s) !! k = Some d -> of_key s k d) /\
  (forall conn k p d, handlers s !! conn = Some (k, p) -> p = Offering d \/ p = Taken d -> of_key s k d).
Lemma of_key_set s conn k p p' k' d :
  handlers s !! conn = Some (k, p) \/ handlers s !! conn = None -> of_key s k' d ->
  of_key (set_handler s conn k p') k' d.
Proof.
  intros Hc [q Hq]. unfold of_key. cbn. destruct (decide (d = conn)) as [->|Hd].
  - rewrite Hq in Hc. destruct Hc as [[= -> ->]|]; [|done]. exists p'. by rewrite lookup_insert_eq.
  - exists q. by rewrite lookup_insert_ne.
Qed.
(** A change of one handler keeps what is shown when its new phase is justified. *)
Lemma led_set s conn k p p' :
  led s -> handlers s !! conn = Some (k, p) \/ handlers s !! conn = None ->
  (forall d, p' = Offering d \/ p' = Taken d -> of_key s k d) -> led (set_handler s conn k p').
Proof.
  intros [Hp Hh] Hc Hnew. split.
  - intros k' d Hd. eapply of_key_set; [exact Hc|by apply Hp].
  - intros conn' k' q d Hq Hd. eapply of_key_set; [exact Hc|]. cbn in Hq.
    apply lookup_insert_Some in Hq as [[<- [= <- <-]]|[_ Hq]]; [by apply Hnew|by eapply Hh].
Qed.
Lemma tunnel_step_led s s' : tunnel_step s s' -> led s -> led s'.
Proof.
  intros [conn k s0 Hc|conn k s0 Hc|conn k s0 Hc|conn k d s0 Hc|conn k d s0 Hc _|conn k p s0 Hc _|d s0] Hl.
  - apply (led_set _ _ _ Ended); [done|by right|]. intros d. unfold first_phase.
    destruct (getDialer (tn s0) k.1 k.2) as [d'|] eqn:E; [|by intros [|]].
    destruct (decide _); [by intros [|]|]. intros [[= ->]|]; [|done]. apply Hl. unfold getDialer in E.
    by destruct k.
  - eapply (led_set _ conn k StartClean); [|by left|by intros ? [|]]. destruct Hl as [Hp Hh]. split; [|exact Hh].
    intros k' d. cbn. intros [_ Hd]%lookup_delete_Some. by apply Hp.
  - assert (Hl' : led (set_handler s0 conn k Controlling)).
    { eapply led_set; [done|by left; exact Hc|by intros ? [|]]. }
    destruct Hl' as [Hp Hh]. split; [|exact Hh]. intros k' d. cbn. unfold createDialer.
    destruct (pool (tn s0) !! (k.1, k.2)) as [d'|] eqn:E; [by apply Hp|]. cbn.
    intros [[<- <-]|[_ Hd]]%lookup_insert_Some; [|by apply Hp].
    exists Controlling. cbn. destruct k. by rewrite lookup_insert_eq.
  - eapply led_set; [done|by left|]. intros d' [|[= <-]]; [done|]. eapply (proj2 Hl); [exact Hc|by left].
  - eapply led_set; [done|by left|]. by intros ? [|].
  - eapply led_set; [done|by left|]. by intros ? [|].
  - exact Hl.
Qed.

(** Tunnels lead to their syncer: in every interleaving of the requests, what the
    server proxies to a SyncTarget goes over a dialer whose control connection was
    requested under that name in that cluster, and the connections that the dialer is
    given for it were, too. *)
Theorem tunnels_lead_to_their_syncer s Parse clusterName syncerName path path' d :
  rtc tunnel_step NewTunnels s ->
  Proxy Parse (tn s) (closed_dialers s) clusterName syncerName path = OverDialer d path' ->
  path' = path /\ (exists p, handlers s !! d = Some ((clusterName, syncerName), p)) /\
  forall conn k, handlers s !! conn = Some (k, Taken d) -> k = (clusterName, syncerName).
Proof.
  intros Hr HP. assert (Hl : led s).
  { cut (led NewTunnels); [|by split; intros ? ?; cbn; intros; simplify_map_eq]. clear HP.
    induction Hr as [|x y z H1 _ IH]; [done|]. intros Hl. apply IH. by eapply tunnel_step_led. }
  unfold Proxy, getDialer in HP. destruct (pool (tn s) !! _) as [d'|] eqn:Ed; [|done].
  destruct (decide _); [done|]. destruct (Parse _); [done|]. injection HP as -> <-.
  apply Hl in Ed as [p Hp]. split; [done|]. split; [by exists p|]. intros conn k Hk.
  destruct (proj2 Hl _ _ _ d Hk ltac:(by right)) as [q Hq]. congruence.
Qed.

(** ** The URL of the tunnel *)

(** The syncer connects to the path that the server's handler is documented for. *)
Lemma tunnel_url Parse JoinPath host h text ws target :
  Parse host = inr ("https", h, text) -> h <> "" -> ws <> "" -> target <> "" ->
  (forall base l, JoinPath base l = inr (base +:+ "/" +:+ Join l "/")) ->
  exists url, SyncerTunnelURL Parse JoinPath host ws target = inr url /\
    connect_url url = text +:+ "/" +:+ Join ["clusters"; ws; "apis"; "workload.kcp.io/v1alpha1"; "synctargets"; target] "/" +:+ "/tunnel".
Proof.
  intros Hp Hh Hw Ht HJ. unfold SyncerTunnelURL. rewrite decide_False by tauto. rewrite Hp, decide_False by tauto.
  rewrite HJ. eexists. split; [done|]. unfold connect_url. by rewrite !string_app_assoc.
Qed.

(** * Examples *)

Module Examples.
#[local] Existing Instances simple_errors simple_clusters canonical_order.
#[local] Instance b36 : Base36Lib := {| EncodeBytes l := Text62 (SetBytes l) |}.
Definition join_path (base : string) (l : list string) : result string := inr (base +:+ "/" +:+ Join l "/").
(** [/api/v1/namespaces/<namespace>/pods/<name>/<subresource>]. *)
Definition read_path (path : string) : result RequestInfo :=
  match Split path "/" with
  | [_; _; _; _; ns; resource; name; sub] => inr {|
      ri_IsResourceRequest := true; ri_APIGroup := ""; ri_APIVersion := "v1"; ri_Namespace := ns;
      ri_Resource := resource; ri_Subresource := sub; ri_Name := name |}
  | _ => inl (ErrMsg "not a subresource")
  end.
Definition target : SyncTarget := {|
  st_Meta := SetUIDVersion (mk_meta "st" "" None (Some {[ "kcp.io/cluster" := "ws" ]}) []) "uid" "1";
  st_Spec := {| Unschedulable := false; EvictAfter := None; SupportedAPIExports := []; Cells := None |};
  st_Status := {| Allocatable := None; Capacity := None; st_Conditions := []; SyncedResources := [];
    LastSyncerHeartbeatTime := None; VirtualWorkspaces := []; TunnelWorkspaces := [] |} |}.
Definition key : string := ToSyncTargetKey "ws" "st".
Definition by_key (k : string) : result (list SyncTarget) := inr (if decide (k = key) then [target] else []).
Definition upsynced : gomap := Some {[ state_label key := ResourceStateUpsync ]}.
Definition pod : ObjectMeta := mk_meta "web" "team" upsynced None [].
Definition get_pod (cluster ns name : string) : result ObjectMeta :=
  if decide (ns = "team" /\ name = "web") then inr pod else inl (ErrLib "NotFound" "").
Definition request (sub : string) : http_request := {|
  req_Info := Some {| ri_IsResourceRequest := true; ri_APIGroup := ""; ri_APIVersion := "v1"; ri_Namespace := "team";
                      ri_Resource := "pods"; ri_Subresource := sub; ri_Name := "web" |};
  req_Cluster := Some (OneCluster "user"); req_Path := "" |}.
Definition downstream : string :=
  match PhysicalClusterNamespaceName (pod_locator target "user" "team") with Ok n => n | _ => "" end.
Definition pod_path : string := "/api/v1/namespaces/" +:+ downstream +:+ "/pods/web/log".
Definition nsObj : ObjectMeta :=
  mk_meta downstream "" None (Some {[ NamespaceLocatorAnnotation := SyncerShared.Marshal (pod_locator target "user" "team") ]}) [].
Definition get_ns (n : string) : result (option ObjectMeta) :=
  if decide (n = downstream) then inr (Some nsObj) else inl (ErrLib "NotFound" "").
Definition get_downstream (ns n : string) : result (option ObjectMeta) :=
  if decide (ns = downstream /\ n = "web") then inr (Some pod) else inl (ErrLib "NotFound" "").

Example log_is_proxied :
  ServeHTTP join_path inr get_pod by_key (request "log") = Ok (Proxied "ws" "st" pod_path) /\
  ServeHTTP join_path inr get_pod by_key (request "eviction") =
    Ok (BadRequest "invalid subresource or not implemented eviction").
Proof. split; by vm_compute. Qed.
Example log_is_let_through :
  withPodAccessCheck read_path (inr get_ns) (inr get_downstream) "ws" "st" "uid" pod_path = LetThrough /\
  withPodAccessCheck read_path (inr get_ns) (inr get_downstream) "ws" "st" "other" pod_path = Forbidden "web".
Proof. split; by vm_compute. Qed.
(** A resource request without a cluster is not handed on. *)
Example no_cluster_panics :
  is_panic (ServeHTTP join_path inr get_pod by_key {| req_Info := req_Info (request "log"); req_Cluster := None; req_Path := "" |}) = true.
Proof. reflexivity. Qed.

Lemma reached_pods_are_upsynced_witness :
  exists info getNamespace getPod ns pod locator,
    read_path pod_path = inr info /\ ri_Resource info = "pods" /\ ri_Subresource info <> "" /\
    inr get_ns = inr getNamespace :> result _ /\ getNamespace (ri_Namespace info) = inr (Some ns) /\
    LocatorFromAnnotations (Annotations ns) = inr (Some locator) /\
    stl_Name (nl_SyncTarget locator) = "st" /\ stl_UID (nl_SyncTarget locator) = "uid" /\
    stl_ClusterName (nl_SyncTarget locator) = "ws" /\
    inr get_downstream = inr getPod :> result _ /\ getPod (ri_Namespace info) (ri_Name info) = inr (Some pod) /\
    map_index (Labels pod) (state_label (ToSyncTargetKey "ws" "st")) = ResourceStateUpsync.
Proof.
  apply (reached_pods_are_upsynced read_path (inr get_ns) (inr get_downstream) "ws" "st" "uid" pod_path). by vm_compute.
Defined.

Lemma segment_no_slash s : segment s = true -> "/"%char ∉ String.list_ascii_of_string s.
Proof.
  unfold segment. rewrite !andb_true_iff. intros [_ H] Hin. rewrite forallb_forall in H.
  by apply list_elem_of_In, H in Hin.
Qed.
Lemma read_back ns podName subresource path :
  segment ns = true -> segment podName = true -> subresource ∈ proxied_subresources ->
  podSubresourceURL join_path inr ns podName subresource = inr path ->
  exists info, read_path path = inr info /\ ri_Resource info = "pods" /\
    ri_Namespace info = ns /\ ri_Name info = podName /\ ri_Subresource info = subresource.
Proof.
  intros Hns%segment_no_slash Hpod%segment_no_slash Hsub. unfold podSubresourceURL.
  destruct (decide _); [done|]. intros H. unfold read_path.
  assert (path = Join [""; "api"; "v1"; "namespaces"; ns; "pods"; podName; subresource] "/") as ->
    by (injection H as <-; reflexivity).
  assert (Hs : "/"%char ∉ String.list_ascii_of_string subresource).
  { assert (Ha : Forall (fun s => "/"%char ∉ String.list_ascii_of_string s) proxied_subresources).
    { apply (bool_decide_unpack _). by vm_compute. }
    rewrite Forall_forall in Ha. by apply Ha. }
  rewrite Split_Join; [by eexists|done|].
  repeat (apply Forall_cons; split; [done || (apply (bool_decide_unpack _); by vm_compute)|]). constructor.
Qed.

(** The syncer's connection comes while the server still waits for an old one of it:
    both find no dialer, and the pool keeps the first. The second is never used: while
    the first one is not closed every request goes to it. *)
Definition raced : tunnels :=
  let k := ("ws", "st") in
  let s := set_handler (set_handler NewTunnels 0 k StartClean) 1 k StartClean in
  let s := set_handler (with_tn s (deleteDialer (tn s) k.1 k.2)) 0 k Cleaned in
  let s := set_handler (with_tn s (deleteDialer (tn s) k.1 k.2)) 1 k Cleaned in
  let s := set_handler (with_tn s (createDialer (tn s) k.1 k.2 0)) 0 k Controlling in
  set_handler (with_tn s (createDialer (tn s) k.1 k.2 1)) 1 k Controlling.
Lemma raced_reachable : rtc tunnel_step NewTunnels raced.
Proof.
  eapply rtc_l; [exact (ts_request 0 ("ws", "st") NewTunnels eq_refl)|].
  eapply rtc_l; [by apply (ts_request 1 ("ws", "st"))|]. eapply rtc_l; [by apply (ts_delete 0 ("ws", "st"))|].
  eapply rtc_l; [by apply (ts_delete 1 ("ws", "st"))|]. eapply rtc_l; [by apply (ts_create 0 ("ws", "st"))|].
  apply rtc_once. by apply (ts_create 1 ("ws", "st")).
Qed.
Example second_connection_is_unused :
  rtc tunnel_step NewTunnels raced /\ handlers raced !! 1 = Some (("ws", "st"), Controlling) /\
  getDialer (tn raced) "ws" "st" = Some 0.
Proof. split; [exact raced_reachable|]. split; by vm_compute. Qed.
Lemma tunnels_lead_to_their_syncer_witness :
  "/x" = "/x" /\ (exists p, handlers raced !! 0 = Some (("ws", "st"), p)) /\
  forall conn k, handlers raced !! conn = Some (k, Taken 0) -> k = ("ws", "st").
Proof.
  apply (tunnels_lead_to_their_syncer raced (fun _ => inr tt) "ws" "st" "/x" "/x" 0 raced_reachable). by vm_compute.
Defined.
End Examples.
