(* ===== verification/TunnelConns.v ===== *)
(** * The two ends of a tunnel ([pkg/tunneler/dialer.go], [pkg/tunneler/listener.go])

    The dialer, on the server, asks over a control connection for connections, and hands
    those that arrive to the calls of [Dial]; the listener, in the syncer, makes a
    connection for each that is asked for, and [Accept] returns them. Both are
    goroutines around Go channels: a state and a step per channel operation. *)

From S2P Require Import Prelude.
Local Open Scope nat_scope.

(** The messages of the control connection ([controlMsg]). *)
Inductive controlMsg := KeepAlive | ConnReady | PickupFailed (err : string).
#[global] Instance controlMsg_eq_dec : EqDecision controlMsg.
Proof. solve_decision. Defined.

Module Dialer.

(** A call of [Dial]: before [connReady] is taken, before a connection or an error comes,
    and its result. *)
Inductive dial := Announcing | PickingUp | Got (conn : nat) | Failed.
(** [serve]: before a keep-alive, in its select, before a conn-ready, or returned. *)
Inductive server := SendingKeepAlive | Selecting | SendingReady | ServeReturned.
(** The goroutine that reads: in [ReadSlice], at [pickupFailed], or returned. *)
Inductive reader := Reading | Reporting (err : string) | ReaderReturned.
Record dialer := {
  donec : bool;                   (* closed *)
  serving : server;
  reading : reader;
  dials : gmap nat dial;          (* the calls of [Dial] *)
  incoming : gset nat;            (* handlers that offer their connection on [incomingConn] *)
  arrived : gset nat;             (* all connections that were ever offered *)
  sent : list controlMsg;
}.
Definition NewDialer : dialer := {|
  donec := false; serving := SendingKeepAlive; reading := Reading; dials := ∅; incoming := ∅; arrived := ∅; sent := [] |}.

Definition set_dial (d : dialer) (i : nat) (p : dial) : dialer := {|
  donec := donec d; serving := serving d; reading := reading d; dials := <[ i := p ]> (dials d);
  incoming := incoming d; arrived := arrived d; sent := sent d |}.
Definition set_server (d : dialer) (p : server) (msgs : list controlMsg) : dialer := {|
  donec := donec d; serving := p; reading := reading d; dials := dials d; incoming := incoming d;
  arrived := arrived d; sent := sent d ++ msgs |}.
Definition set_reader (d : dialer) (p : reader) : dialer := {|
  donec := donec d; serving := serving d; reading := p; dials := dials d; incoming := incoming d;
  arrived := arrived d; sent := sent d |}.
Definition set_incoming (d : dialer) (offered : gset nat) : dialer := {|
  donec := donec d; serving := serving d; reading := reading d; dials := dials d; incoming := offered;
  arrived := offered ∪ arrived d; sent := sent d |}.
(** [Close]: the second call does nothing. *)
Definition Close (d : dialer) : dialer := {|
  donec := true; serving := serving d; reading := reading d; dials := dials d; incoming := incoming d;
  arrived := arrived d; sent := sent d |}.

Inductive step : dialer -> dialer -> Prop :=
  (* [serve]; a message that cannot be sent ends it, and its deferred call closes *)
  | s_keep_alive d : serving d = SendingKeepAlive -> step d (set_server d Selecting [KeepAlive])
  | s_timer d : serving d = Selecting -> step d (set_server d SendingKeepAlive [])
  | s_ready d : serving d = SendingReady -> step d (set_server d SendingKeepAlive [ConnReady])
  | s_send_fails d : serving d = SendingKeepAlive \/ serving d = SendingReady ->
      step d (Close (set_server d ServeReturned []))
  | s_done d : serving d = Selecting -> donec d = true -> step d (set_server d ServeReturned [])
  (* the reader *)
  | s_read_failed err d : reading d = Reading -> donec d = false -> step d (set_reader d (Reporting err))
  | s_read_ends d : reading d = Reading -> step d (Close (set_reader d ReaderReturned))
  | s_report err i d : reading d = Reporting err -> dials d !! i = Some PickingUp ->
      step d (set_dial (set_reader d Reading) i Failed)
  | s_report_done err d : reading d = Reporting err -> donec d = true ->
      step d (Close (set_reader d ReaderReturned))
  (* [Dial] *)
  | s_dial i d : dials d !! i = None -> step d (set_dial d i Announcing)
  | s_announce i d : dials d !! i = Some Announcing -> serving d = Selecting ->
      step d (set_dial (set_server d SendingReady []) i PickingUp)
  | s_pick_up i c d : dials d !! i = Some PickingUp -> c ∈ incoming d ->
      step d (set_dial (set_incoming d (incoming d ∖ {[ c ]})) i (Got c))
  | s_dial_done i p d : dials d !! i = Some p -> p = Announcing \/ p = PickingUp -> donec d = true ->
      step d (set_dial d i Failed)
  | s_dial_cancelled i p d : dials d !! i = Some p -> p = Announcing \/ p = PickingUp ->
      step d (set_dial d i Failed)
  (* the handlers of the data connections *)
  | s_offer c d : c ∉ arrived d -> step d (set_incoming d ({[ c ]} ∪ incoming d))
  | s_refused c d : c ∈ incoming d -> donec d = true -> step d (set_incoming d (incoming d ∖ {[ c ]}))
  | s_close d : step d (Close d).

(** * Theorems *)

(** ** Connections and calls *)

Definition announced (p : dial) : bool := match p with Announcing => false | _ => true end.
Definition announced_count (m : gmap nat dial) : nat := size (filter (fun kv => announced kv.2 = true) m).
Definition ready_count (l : list controlMsg) : nat := length (filter (fun m => m = ConnReady) l).
#[local] Arguments announced_count : simpl never.
#[local] Arguments ready_count : simpl never.
Lemma announced_insert m i p :
  announced_count (<[ i := p ]> m) = announced_count (delete i m) + (if announced p then 1 else 0).
Proof.
  unfold announced_count. rewrite <-insert_delete_eq.
  destruct (announced p) eqn:Ep.
  - rewrite map_filter_insert_True by done. rewrite map_size_insert_None.
    + symmetry. apply Nat.add_1_r.
    + apply map_lookup_filter_None. left. apply lookup_delete_eq.
  - rewrite map_filter_insert_False by (cbn; by rewrite Ep). rewrite delete_delete_eq. symmetry. apply Nat.add_0_r.
Qed.
Lemma announced_set m i p q : m !! i = Some q ->
  announced_count (<[ i := p ]> m) + (if announced q then 1 else 0) = announced_count m + (if announced p then 1 else 0).
Proof.
  intros Hq. rewrite announced_insert. rewrite <-(insert_id m i q Hq) at 2. rewrite announced_insert. lia.
Qed.
Lemma announced_new m i p : m !! i = None ->
  announced_count (<[ i := p ]> m) = announced_count m + (if announced p then 1 else 0).
Proof. intros Hi. by rewrite announced_insert, delete_id. Qed.
Lemma ready_app l l' : ready_count (l ++ l') = ready_count l + ready_count l'.
Proof. unfold ready_count. by rewrite filter_app, length_app. Qed.

Lemma ready_keep_alive : ready_count [KeepAlive] = 0.
Proof. done. Qed.
Lemma ready_conn_ready : ready_count [ConnReady] = 1.
Proof. done. Qed.
Lemma ready_nil : ready_count [] = 0.
Proof. done. Qed.
Definition pending (d : dialer) : nat := match serving d with SendingReady => 1 | _ => 0 end.
Definition accounted (d : dialer) : Prop :=
  incoming d ⊆ arrived d /\
  (forall i c, dials d !! i = Some (Got c) -> c ∈ arrived d /\ (c ∉ incoming d)) /\
  (forall i j c, dials d !! i = Some (Got c) -> dials d !! j = Some (Got c) -> i = j) /\
  ready_count (sent d) + pending d <= announced_count (dials d).
(** A call that does not end with a connection changes nothing of this. *)
Lemma accounted_set d i p :
  accounted d -> (forall c, p <> Got c) -> (announced p = true \/ dials d !! i = None) -> accounted (set_dial d i p).
Proof.
  intros (Hi & Hg & Hu & Hc) Hp Ha. split_and!; cbn.
  - done.
  - intros j c [[_ ->]|[_ Hj]]%lookup_insert_Some; [by destruct (Hp c)|by eapply Hg].
  - intros j k c [[_ ->]|[_ Hj]]%lookup_insert_Some; [by destruct (Hp c)|].
    intros [[_ ->]|[_ Hk]]%lookup_insert_Some; [by destruct (Hp c)|by eapply Hu].
  - change (pending (set_dial d i p)) with (pending d). destruct (dials d !! i) as [q|] eqn:Eq.
    + destruct Ha as [Ha|]; [|done]. pose proof (announced_set _ _ p _ Eq) as H. rewrite Ha in H.
      destruct (announced q); lia.
    + rewrite announced_new by done. lia.
Qed.
(** Nor does what only the server and the reader do. *)
Lemma accounted_serving d d' :
  accounted d -> incoming d' = incoming d -> arrived d' = arrived d -> dials d' = dials d ->
  ready_count (sent d') + pending d' <= ready_count (sent d) + pending d -> accounted d'.
Proof. intros (Hi & Hg & Hu & Hc) E1 E2 E3 Hle. unfold accounted. rewrite E1, E2, E3. split_and!; [done..|lia]. Qed.
Lemma pending_le_1 d : pending d <= 1.
Proof. unfold pending. destruct (serving d); lia. Qed.
Lemma step_accounted d d' : step d d' -> accounted d -> accounted d'.
Proof.
  intros Hstep Ha. pose proof Ha as (Hi & Hg & Hu & Hc).
  destruct Hstep as [d H|d H|d H|d H|d H _|err d H _|d H|err i d H Hd|err d H _|i d Hd|i d Hd H|i c d Hd Hin|i p d Hd Hp _|i p d Hd Hp|c d Hn|c d Hin _|d];
    try (apply accounted_set; [done|done|by (by left) || by right]);
    try (apply (accounted_serving d); [done..|unfold pending; cbn; rewrite ?ready_app, ?ready_keep_alive, ?ready_conn_ready, ?ready_nil, ?H; lia]).
  - (* announce *)
    split_and!; cbn; [done| | |].
    + intros j c [[_ ?]|[_ Hj]]%lookup_insert_Some; [done|by eapply Hg].
    + intros j k c [[_ ?]|[_ Hj]]%lookup_insert_Some; [done|].
      intros [[_ ?]|[_ Hk]]%lookup_insert_Some; [done|by eapply Hu].
    + rewrite ready_app, ready_nil. pose proof (announced_set _ _ PickingUp _ Hd) as E. unfold pending in *. cbn in *.
      rewrite H in Hc. lia.
  - (* pick up *)
    split_and!; cbn; [set_solver| | |].
    + intros j c' [[_ [= <-]]|[_ Hj]]%lookup_insert_Some; [set_solver|]. apply Hg in Hj. set_solver.
    + intros j k c' [[<- [= <-]]|[Hne Hj]]%lookup_insert_Some [[<- E]|[Hne' Hk]]%lookup_insert_Some; [done| | |by eapply Hu].
      * apply Hg in Hk. by destruct Hk.
      * injection E as <-. apply Hg in Hj. by destruct Hj.
    + pose proof (announced_set _ _ (Got c) _ Hd) as E. unfold pending in *. cbn in *. lia.
  - split_and!; cbn; [set_solver| |done|done]. intros j c' Hj. destruct (Hg _ _ Hj). split; [set_solver|].
    intros [->%elem_of_singleton|]%elem_of_union; done.
  - split_and!; cbn; [set_solver| |done|done]. intros j c' Hj. destruct (Hg _ _ Hj). set_solver.
Qed.

(** A connection is handed out once: in every interleaving no two calls of [Dial]
    return the same connection, what a call returned is no longer on offer, and was
    offered by a handler; and the peer is never asked for more connections than there
    are calls that asked. *)
Theorem connections_are_handed_out_once d :
  rtc step NewDialer d ->
  (forall i j c, dials d !! i = Some (Got c) -> dials d !! j = Some (Got c) -> i = j) /\
  (forall i c, dials d !! i = Some (Got c) -> c ∈ arrived d /\ (c ∉ incoming d)) /\
  ready_count (sent d) <= size (dials d).
Proof.
  intros Hr. assert (Ha : accounted d).
  { assert (H0 : accounted NewDialer) by (split_and!; cbn; [done|..]; intros; simplify_map_eq; done || lia).
    revert H0. induction Hr as [|x y z H _ IH]; [done|]. intros Hx. apply IH. by eapply step_accounted. }
  destruct Ha as (_ & Hg & Hu & Hc). split_and!; [done..|].
  assert (announced_count (dials d) <= size (dials d)); [|lia].
  apply map_subseteq_size, map_filter_subseteq.
Qed.

(** ** After [Close] *)

Definition waiting (i : nat) (d : dialer) : Prop := dials d !! i = Some Announcing \/ dials d !! i = Some PickingUp.
Lemma server_leaves d : donec d = true ->
  exists d', rtc step d d' /\ donec d' = true /\ serving d' = ServeReturned /\ reading d' = reading d /\
    incoming d' = incoming d /\ dials d' = dials d.
Proof.
  intros Hd. destruct (serving d) eqn:Es.
  - eexists. split; [apply rtc_once, s_send_fails; by left|done].
  - eexists. split; [by apply rtc_once, s_done|done].
  - eexists. split; [apply rtc_once, s_send_fails; by right|done].
  - by exists d.
Qed.
Lemma reader_leaves d : donec d = true ->
  exists d', rtc step d d' /\ donec d' = true /\ reading d' = ReaderReturned /\ serving d' = serving d /\
    incoming d' = incoming d /\ dials d' = dials d.
Proof.
  intros Hd. destruct (reading d) eqn:Es.
  - eexists. split; [by apply rtc_once, s_read_ends|done].
  - eexists. split; [by eapply rtc_once, s_report_done|done].
  - by exists d.
Qed.
Lemma handlers_leave d : donec d = true ->
  exists d', rtc step d d' /\ donec d' = true /\ incoming d' = ∅ /\ reading d' = reading d /\
    serving d' = serving d /\ dials d' = dials d.
Proof.
  intros Hd. remember (incoming d) as s eqn:Es. revert d Es Hd. induction s as [|c s Hc IH] using set_ind_L; intros d Es Hd.
  - by exists d.
  - destruct (IH (set_incoming d (incoming d ∖ {[ c ]}))) as (d' & Hr & H1 & H2 & H3 & H4 & H5); [cbn; set_solver|done|].
    exists d'. split_and!; try done. eapply rtc_l; [|exact Hr]. apply s_refused; [set_solver|done].
Qed.
Lemma dials_leave (l : list nat) d : donec d = true ->
  exists d', rtc step d d' /\ donec d' = true /\ incoming d' = incoming d /\ reading d' = reading d /\
    serving d' = serving d /\ (forall i, waiting i d' -> waiting i d /\ (i ∉ l)).
Proof.
  revert d. induction l as [|i l IH]; intros d Hd.
  { exists d. split_and!; try done. intros i Hi. split; [done|]. apply not_elem_of_nil. }
  assert (Hi : exists d1, rtc step d d1 /\ donec d1 = true /\ incoming d1 = incoming d /\ reading d1 = reading d /\
    serving d1 = serving d /\ forall j, waiting j d1 -> waiting j d /\ j <> i).
  { assert (Hleave : forall p, dials d !! i = Some p -> p = Announcing \/ p = PickingUp ->
      exists d1, rtc step d d1 /\ donec d1 = true /\ incoming d1 = incoming d /\ reading d1 = reading d /\
        serving d1 = serving d /\ forall j, waiting j d1 -> waiting j d /\ j <> i).
    { intros p Ei Hp. exists (set_dial d i Failed). split; [by eapply rtc_once, s_dial_done|]. split_and!; try done.
      intros j Hj. unfold waiting in *. cbn in Hj. destruct (decide (j = i)) as [->|Hne].
      - rewrite lookup_insert_eq in Hj. by destruct Hj.
      - rewrite lookup_insert_ne in Hj by done. done. }
    destruct (dials d !! i) as [[| |c|]|] eqn:Ei; try (eapply Hleave; [done|auto]; fail);
      exists d; split_and!; try done; intros j Hj; (split; [done|]); intros ->; unfold waiting in Hj;
      rewrite Ei in Hj; by destruct Hj. }
  destruct Hi as (d1 & Hr1 & Hd1 & Hi1 & Hre1 & Hs1 & Hw1). destruct (IH d1 Hd1) as (d' & Hr & H1 & H2 & H3 & H4 & H5).
  exists d'. split_and!; try congruence; [by etransitivity|]. intros j Hj. apply H5 in Hj as [Hj Hl].
  apply Hw1 in Hj as [Hj Hne]. split; [done|]. by rewrite not_elem_of_cons.
Qed.

(** Nobody is left waiting on a closed dialer: from every state after [Close] the
    goroutines that serve and read, the calls of [Dial] and the handlers with a
    connection can all leave, without anybody else's help. *)
Theorem closed_dialers_wind_down d :
  donec d = true ->
  exists d', rtc step d d' /\ donec d' = true /\ serving d' = ServeReturned /\ reading d' = ReaderReturned /\
    incoming d' = ∅ /\ forall i, ~ waiting i d'.
Proof.
  intros Hd. destruct (server_leaves d Hd) as (d1 & Hr1 & Hd1 & Hs1 & Hre1 & Hi1 & Hdi1).
  destruct (reader_leaves d1 Hd1) as (d2 & Hr2 & Hd2 & Hre2 & Hs2 & Hi2 & Hdi2).
  destruct (handlers_leave d2 Hd2) as (d3 & Hr3 & Hd3 & Hi3 & Hre3 & Hs3 & Hdi3).
  destruct (dials_leave (map_to_list (dials d3)).*1 d3 Hd3) as (d4 & Hr4 & Hd4 & Hi4 & Hre4 & Hs4 & Hw4).
  exists d4. split_and!; try congruence; [by repeat (etransitivity; [eassumption|])|].
  intros i Hi. apply Hw4 in Hi as [Hi Hl]. apply Hl, list_elem_of_fmap.
  destruct Hi as [Hi|Hi]; eexists (i, _); (split; [done|]); by apply elem_of_map_to_list.
Qed.

(** ** Examples *)

(** One call is served: it asks, a connection arrives and is picked up. *)
Definition served : dialer := {|
  donec := false; serving := SendingKeepAlive; reading := Reading; dials := {[ 0 := Got 7 ]};
  incoming := ∅; arrived := {[ 7 ]}; sent := [KeepAlive; ConnReady] |}.
Ltac one s := eapply rtc_l; [apply s; (reflexivity || set_solver || (by left) || (by right))|].
Lemma served_reachable : rtc step NewDialer served.
Proof.
  one s_keep_alive. one (s_dial 0). one (s_announce 0). one s_ready. one (s_offer 7). one (s_pick_up 0 7).
  match goal with |- rtc _ ?x _ => replace x with served by (vm_compute; reflexivity) end. apply rtc_refl.
Qed.
Lemma connections_are_handed_out_once_witness :
  (forall i j c, dials served !! i = Some (Got c) -> dials served !! j = Some (Got c) -> i = j) /\
  (forall i c, dials served !! i = Some (Got c) -> c ∈ arrived served /\ (c ∉ incoming served)) /\
  ready_count (sent served) <= size (dials served).
Proof. apply (connections_are_handed_out_once served served_reachable). Defined.
Lemma closed_dialers_wind_down_witness :
  exists d', rtc step (Close served) d' /\ donec d' = true /\ serving d' = ServeReturned /\ reading d' = ReaderReturned /\
    incoming d' = ∅ /\ forall i, ~ waiting i d'.
Proof. apply (closed_dialers_wind_down (Close served)). reflexivity. Defined.

(** The connection that a cancelled call asked for is taken by a later one, before its own. *)
Definition late : dialer := {|
  donec := false; serving := SendingReady; reading := Reading; dials := {[ 0 := Failed; 1 := Got 7 ]};
  incoming := ∅; arrived := {[ 7 ]}; sent := [KeepAlive; ConnReady; KeepAlive] |}.
Example late_connection_is_taken : rtc step NewDialer late.
Proof.
  one s_keep_alive. one (s_dial 0). one (s_announce 0). one s_ready. one s_keep_alive.
  eapply rtc_l; [eapply (s_dial_cancelled 0); [reflexivity|by right]|].
  one (s_offer 7). one (s_dial 1). one (s_announce 1). one (s_pick_up 1 7).
  match goal with |- rtc _ ?x _ => replace x with late by (vm_compute; reflexivity) end. apply rtc_refl.
Qed.
(** A failure that is reported after its call was cancelled keeps the reader from the
    control connection: nothing is read until there is another call, which gets it. *)
Definition stuck : dialer := {|
  donec := false; serving := SendingKeepAlive; reading := Reporting "status code 500"; dials := {[ 0 := Failed ]};
  incoming := ∅; arrived := ∅; sent := [KeepAlive; ConnReady] |}.
Example late_failure_blocks_the_reader : rtc step NewDialer stuck.
Proof.
  one s_keep_alive. one (s_dial 0). one (s_announce 0). one s_ready.
  eapply rtc_l; [eapply (s_dial_cancelled 0); [reflexivity|by right]|].
  eapply rtc_l; [by apply (s_read_failed "status code 500")|].
  match goal with |- rtc _ ?x _ => replace x with stuck by (vm_compute; reflexivity) end. apply rtc_refl.
Qed.
Lemma stuck_reader_waits d :
  step stuck d -> reading d = reading stuck \/ donec d = true.
Proof.
  intros H. remember stuck as s eqn:Es.
  destruct H; try (by left); try (by right); subst; cbn in *; try done.
  match goal with H : _ = Some PickingUp |- _ => apply lookup_singleton_Some in H as [_ H] end. done.
Qed.
End Dialer.

Module Listener.

(** [grabConn]: inside [dial], with a connection before the test of [donec], in the select
    after it, parked there because [connc] is full, writing a failure, and returned. *)
Inductive grab := Dialling | Connected (c : nat) | InSelect (c : nat) | Parked (c : nat) | Refused | Returned.
Record listener := {
  closed : bool;
  connc : list nat;               (* the channel, of capacity 4 *)
  grabs : gmap nat grab;
  accepted : list nat;
  dialled : gset nat;             (* the connections that were made *)
  failures : list controlMsg;     (* in [writec], of capacity 8, which the write loop empties *)
  writing : bool;                 (* the write loop runs *)
  crashed : bool;                 (* a send on a closed channel panics *)
}.
Definition NewListener : listener := {|
  closed := false; connc := []; grabs := ∅; accepted := []; dialled := ∅; failures := []; writing := true; crashed := false |}.
Definition connc_capacity : nat := 4.
Definition writec_capacity : nat := 8.
Definition set_grab (l : listener) (i : nat) (g : grab) : listener := {|
  closed := closed l; connc := connc l; grabs := <[ i := g ]> (grabs l); accepted := accepted l; dialled := dialled l;
  failures := failures l; writing := writing l; crashed := crashed l |}.
Definition set_connc (l : listener) (cs acc : list nat) : listener := {|
  closed := closed l; connc := cs; grabs := grabs l; accepted := acc; dialled := dialled l;
  failures := failures l; writing := writing l; crashed := crashed l |}.
Definition set_failures (l : listener) (f : list controlMsg) (w : bool) : listener := {|
  closed := closed l; connc := connc l; grabs := grabs l; accepted := accepted l; dialled := dialled l;
  failures := f; writing := w; crashed := crashed l |}.
Definition set_dialled (l : listener) (cs : gset nat) : listener := {|
  closed := closed l; connc := connc l; grabs := grabs l; accepted := accepted l; dialled := cs;
  failures := failures l; writing := writing l; crashed := crashed l |}.
Definition crash (l : listener) : listener := {|
  closed := closed l; connc := connc l; grabs := grabs l; accepted := accepted l; dialled := dialled l;
  failures := failures l; writing := writing l; crashed := true |}.
Definition parked (g : grab) : bool := match g with Parked _ => true | _ => false end.
(** [Close]: both channels are closed, the second time nothing is done. A sender that
    is parked on [connc] panics when it is closed. *)
Definition Close (l : listener) : listener :=
  if closed l then l
  else {| closed := true; connc := connc l; grabs := grabs l; accepted := accepted l; dialled := dialled l; failures := failures l;
          writing := writing l;
          crashed := crashed l || bool_decide (filter (fun kv => parked kv.2 = true) (grabs l) <> ∅) |}.
(** [Accept]: what the channel holds is returned even after it has been closed; [None]
    while it has to wait. The field [readErr] is never set. *)
Inductive accept_result := Connection (c : nat) | ErrListenerClosed.
Definition Accept (l : listener) : option (accept_result * listener) :=
  match connc l with
  | c :: cs => Some (Connection c, set_connc l cs (accepted l ++ [c]))
  | [] => if closed l then Some (ErrListenerClosed, l) else None
  end.

Inductive step : listener -> listener -> Prop :=
  | l_conn_ready i l : grabs l !! i = None -> step l (set_grab l i Dialling)
  (* [dial]: a connection is new *)
  | l_connected i c l : grabs l !! i = Some Dialling -> c ∉ dialled l ->
      step l (set_dialled (set_grab l i (Connected c)) ({[ c ]} ∪ dialled l))
  | l_dial_fails i l : grabs l !! i = Some Dialling -> step l (set_grab l i Refused)
  | l_report i err l : grabs l !! i = Some Refused -> length (failures l) < writec_capacity ->
      step l (set_failures (set_grab l i Returned) (failures l ++ [PickupFailed err]) (writing l))
  (* after the connection *)
  | l_closed_before i c l : grabs l !! i = Some (Connected c) -> closed l = true ->
      step l (set_grab l i Returned)
  | l_select i c l : grabs l !! i = Some (Connected c) -> closed l = false -> step l (set_grab l i (InSelect c))
  | l_sent i c l : grabs l !! i = Some (InSelect c) -> closed l = false -> length (connc l) < connc_capacity ->
      step l (set_grab (set_connc l (connc l ++ [c]) (accepted l)) i Returned)
  | l_park i c l : grabs l !! i = Some (InSelect c) -> closed l = false -> length (connc l) = connc_capacity ->
      step l (set_grab l i (Parked c))
  | l_unpark i c l : grabs l !! i = Some (Parked c) -> closed l = false -> length (connc l) < connc_capacity ->
      step l (set_grab (set_connc l (connc l ++ [c]) (accepted l)) i Returned)
  (* both cases of the select are ready *)
  | l_closed_in_select i c l : grabs l !! i = Some (InSelect c) -> closed l = true ->
      step l (set_grab l i Returned)
  | l_send_on_closed i c l : grabs l !! i = Some (InSelect c) -> closed l = true -> step l (crash l)
  (* the write loop *)
  | l_written m f l : writing l = true -> failures l = m :: f -> step l (set_failures l f true)
  | l_write_fails l : writing l = true -> step l (Close (set_failures l (failures l) false))
  | l_write_ends l : writing l = true -> closed l = true -> step l (set_failures l (failures l) false)
  | l_accept r l l' : Accept l = Some (r, l') -> step l l'
  | l_close l : step l (Close l).

(** [NewListener]: the control connection is tried five times; the pauses, in
    nanoseconds. [rand k] is [rand.Int63n] of the [k]th failure. *)
Definition Second : Z := 1000000000.
Definition next_sleep (sleep jitter : Z) : Z := 2 * sleep + Z.quot jitter 2.
Fixpoint connect (attempts k : nat) (dial : nat -> result nat) (rand : nat -> Z -> Z) (sleep : Z) (last : error)
    : list Z * result nat :=
  match attempts with
  | O => ([], inl last)
  | S attempts =>
      match dial k with
      | inr c => ([], inr c)
      | inl err =>
          let sleep := next_sleep sleep (rand k sleep) in
          let '(slept, r) := connect attempts (S k) dial rand sleep err in (sleep :: slept, r)
      end
  end.
Definition control_connection (dial : nat -> result nat) (rand : nat -> Z -> Z) : list Z * result nat :=
  connect 5 0 dial rand Second (ErrMsg "").

(** * Theorems *)

(** ** What is accepted *)

Definition holds_conn (g : grab) (c : nat) : Prop := g = Connected c \/ g = InSelect c \/ g = Parked c.
Definition kept (l : listener) : Prop :=
  length (connc l) <= connc_capacity /\ length (failures l) <= writec_capacity /\
  NoDup (accepted l ++ connc l) /\ (forall c, c ∈ accepted l ++ connc l -> c ∈ dialled l) /\
  (forall i g c, grabs l !! i = Some g -> holds_conn g c -> c ∈ dialled l /\ (c ∉ accepted l ++ connc l)) /\
  (forall i j g g' c, grabs l !! i = Some g -> grabs l !! j = Some g' -> holds_conn g c -> holds_conn g' c -> i = j).
(** A goroutine that comes to hold nothing, or what it held. *)
Lemma kept_grab l i g g' :
  kept l -> (forall c, holds_conn g' c -> grabs l !! i = Some g /\ holds_conn g c) -> kept (set_grab l i g').
Proof.
  intros (H1 & H2 & H3 & H4 & H5 & H6) Hg. split_and!; cbn; try done.
  - intros j k c [[<- <-]|[_ Hk]]%lookup_insert_Some Hc; [|by eapply H5]. apply Hg in Hc as [Hi Hc]. by eapply H5.
  - intros j k gj gk c [[<- <-]|[Hne Hj]]%lookup_insert_Some [[<- <-]|[Hne' Hk]]%lookup_insert_Some Hcj Hck; [done|..].
    + apply Hg in Hcj as [Hi Hcj]. by eapply H6.
    + apply Hg in Hck as [Hi Hck]. by eapply H6.
    + by eapply H6.
Qed.
Lemma no_conn g c : match g with Connected _ | InSelect _ | Parked _ => false | _ => true end = true -> ~ holds_conn g c.
Proof. by destruct g; intros ? [|[|]]. Qed.
Lemma kept_same l l' :
  kept l -> connc l' = connc l -> accepted l' = accepted l -> dialled l' = dialled l -> grabs l' = grabs l ->
  length (failures l') <= writec_capacity -> kept l'.
Proof. intros (H1 & H2 & H3 & H4 & H5 & H6) E1 E2 E3 E4 Hf. unfold kept. rewrite E1, E2, E3, E4. by split_and!. Qed.
Lemma kept_Close l : kept l -> kept (Close l).
Proof. intros H. unfold Close. destruct (closed l); [done|]. apply (kept_same l); try done. by destruct H as (_ & ? & _). Qed.
(** What a goroutine sends it has no longer. *)
Lemma kept_sent l i g c :
  kept l -> grabs l !! i = Some g -> holds_conn g c -> length (connc l) < connc_capacity ->
  kept (set_grab (set_connc l (connc l ++ [c]) (accepted l)) i Returned).
Proof.
  intros (H1 & H2 & H3 & H4 & H5 & H6) Hi Hc Hlen. destruct (H5 _ _ _ Hi Hc) as [Hd Hn].
  assert (Hin : forall x, x ∈ accepted l ++ connc l ++ [c] <-> x ∈ accepted l ++ connc l \/ x = c).
  { intros x. rewrite app_assoc, elem_of_app, list_elem_of_singleton. done. }
  split_and!; cbn; [rewrite length_app; simpl; lia|done| | | |].
  - rewrite app_assoc. apply NoDup_app. split_and!; [done| |by apply NoDup_singleton].
    intros x Hx ->%list_elem_of_singleton. done.
  - intros x [Hx| ->]%Hin; [by apply H4|done].
  - intros j k x [[<- <-]|[Hne Hk]]%lookup_insert_Some Hx; [by destruct Hx as [|[|]]|].
    destruct (H5 _ _ _ Hk Hx) as [Hxd Hxn]. split; [done|]. rewrite Hin. intros [| ->]; [done|].
    apply Hne. by eapply H6.
  - intros j k gj gk x [[<- <-]|[Hne Hj]]%lookup_insert_Some [[<- <-]|[Hne' Hk]]%lookup_insert_Some Hxj Hxk; [done|..].
    + by destruct Hxj as [|[|]].
    + by destruct Hxk as [|[|]].
    + by eapply H6.
Qed.
Lemma step_kept l l' : step l l' -> kept l -> kept l'.
Proof.
  intros Hstep Hk. pose proof Hk as (H1 & H2 & H3 & H4 & H5 & H6).
  destruct Hstep as [i l Hi|i c l Hi Hc|i l Hi|i err l Hi Hf|i c l Hi _|i c l Hi _|i c l Hi _ Hlen|i c l Hi _ _
    |i c l Hi _ Hlen|i c l Hi _|i c l Hi _|m f l _ Hf|l _|l _ _|r l l' Ha|l].
  - eapply (kept_grab _ _ Returned); [done|]. by intros c ?%no_conn.
  - split_and!; cbn; [done..| | |].
    + intros x Hx. apply elem_of_union. right. by apply H4.
    + intros j k x [[<- <-]|[Hne Hj]]%lookup_insert_Some Hx.
      * destruct Hx as [[= ->]|[|]]; [|done..]. split; [set_solver|]. intros Hin. by apply Hc, H4.
      * destruct (H5 _ _ _ Hj Hx). split; [set_solver|done].
    + intros j k gj gk x [[<- <-]|[Hne Hj]]%lookup_insert_Some [[<- <-]|[Hne' Hk']]%lookup_insert_Some Hxj Hxk; [done|..].
      * destruct Hxj as [[= ->]|[|]]; [|done..]. destruct (H5 _ _ _ Hk' Hxk). done.
      * destruct Hxk as [[= ->]|[|]]; [|done..]. destruct (H5 _ _ _ Hj Hxj). done.
      * by eapply H6.
  - eapply (kept_grab _ _ Returned); [done|]. by intros c ?%no_conn.
  - apply (kept_same (set_grab l i Returned)); try done.
    + eapply (kept_grab _ _ Returned); [done|]. by intros c ?%no_conn.
    + cbn. rewrite length_app. unfold writec_capacity in *. simpl. lia.
  - eapply (kept_grab _ _ Returned); [done|]. by intros c' ?%no_conn.
  - apply (kept_grab _ _ (Connected c)); [done|]. intros c' [|[[= ->]|]]; [done| |done]. split; [done|by left].
  - apply (kept_sent _ _ (InSelect c)); [done..|by right; left|done].
  - apply (kept_grab _ _ (InSelect c)); [done|]. intros c' [|[|[= ->]]]; [done..|]. split; [done|by right; left].
  - apply (kept_sent _ _ (Parked c)); [done..|by right; right|done].
  - eapply (kept_grab _ _ Returned); [done|]. by intros c' ?%no_conn.
  - by apply (kept_same l).
  - apply (kept_same l); try done. cbn. rewrite Hf in H2. simpl in H2. lia.
  - apply kept_Close. by apply (kept_same l).
  - by apply (kept_same l).
  - unfold Accept in Ha. destruct (connc l) as [|c cs] eqn:Ec; [destruct (closed l); [by injection Ha as _ <-|done]|].
    injection Ha as _ <-. assert (E : (accepted l ++ [c]) ++ cs = accepted l ++ c :: cs) by by rewrite <-app_assoc.
    split_and!; cbn; rewrite ?E; [simpl in *; lia|done..].
  - by apply kept_Close.
Qed.


(** ** How it ends *)

(** [Accept] fails only on a closed listener whose channel has been emptied, and always
    with the same error. *)
Lemma accept_fails l l' : Accept l = Some (ErrListenerClosed, l') -> closed l = true /\ connc l = [] /\ l' = l.
Proof. unfold Accept. destruct (connc l); [|done]. destruct (closed l); [|done]. by intros [= <-]. Qed.
Lemma Close_closed l : closed (Close l) = true.
Proof. unfold Close. by destruct (closed l) eqn:E. Qed.
Lemma Close_crashed l : crashed (Close l) = true -> crashed l = false ->
  exists i c, grabs l !! i = Some (Parked c).
Proof.
  unfold Close. destruct (closed l); [congruence|]. cbn. intros [|Hp%bool_decide_eq_true]%orb_prop Hc; [congruence|].
  apply map_choose in Hp as (i & g & [Hi Hg]%map_lookup_filter_Some). exists i. by destruct g as [| |c|c| |]; [..|exists c| |].
Qed.

(** The syncer goes down with a tunnel only by a race of [Close] with [grabConn]:
    the step that crashes it finds a goroutine that is between its test of [donec] and
    the end of its send, and leaves the listener closed. *)
Theorem crashes_are_racing_closes l l' :
  step l l' -> crashed l = false -> crashed l' = true ->
  (exists i c, grabs l !! i = Some (InSelect c) \/ grabs l !! i = Some (Parked c)) /\ closed l' = true.
Proof.
  intros Hstep Hc Hc'. destruct Hstep as [i l Hi|i c l Hi Hf|i l Hi|i err l Hi Hf|i c l Hi _|i c l Hi _|i c l Hi _ Hlen|i c l Hi _ _
    |i c l Hi _ Hlen|i c l Hi _|i c l Hi Hcl|m f l _ Hf|l _|l _ _|r l l' Ha|l]; cbn in Hc'; try congruence.
  - split; [|done]. exists i, c. by left.
  - destruct (Close_crashed _ Hc' Hc) as (i & c & Hi). split; [|apply Close_closed]. exists i, c. by right.
  - unfold Accept in Ha. destruct (connc l); [destruct (closed l); [|done]|]; injection Ha as _ <-; cbn in *; congruence.
  - destruct (Close_crashed _ Hc' Hc) as (i & c & Hi). split; [|apply Close_closed]. exists i, c. by right.
Qed.

(** ** The control connection *)

Definition random (rand : nat -> Z -> Z) : Prop := forall k s, (0 < s -> 0 <= rand k s < s)%Z.

Lemma connect_result attempts k dial rand sleep last :
  let '(slept, r) := connect attempts k dial rand sleep last in
  match r with
  | inr c => exists n, n < attempts /\ length slept = n /\ dial (k + n) = inr c /\ forall j, j < n -> exists err, dial (k + j) = inl err
  | inl err => length slept = attempts /\ (forall j, j < attempts -> exists err, dial (k + j) = inl err) /\
               (attempts = 0 /\ err = last \/ attempts <> 0 /\ dial (k + pred attempts) = inl err)
  end.
Proof.
  revert k sleep last. induction attempts as [|attempts IH]; intros k sleep last; cbn [connect].
  { split_and!; [done|lia|by left]. }
  destruct (dial k) as [err|c] eqn:Ed.
  - specialize (IH (S k) (next_sleep sleep (rand k sleep)) err).
    destruct (connect attempts (S k) dial rand (next_sleep sleep (rand k sleep)) err) as [slept [e|c]].
    + destruct IH as (Hl & Hj & He). split_and!; [simpl; lia| |].
      * intros [|j] Hlt; [exists err; by rewrite Nat.add_0_r|]. rewrite Nat.add_succ_r. apply (Hj j). lia.
      * right. split; [done|]. destruct He as [[-> ->]|[Hne He]]; [by rewrite Nat.add_0_r|].
        destruct attempts; [done|]. cbn [Nat.pred] in *. by rewrite Nat.add_succ_r.
    + destruct IH as (n & Hn & Hl & Hd & Hj). exists (S n). split_and!; [lia|simpl; lia|by rewrite Nat.add_succ_r|].
      intros [|j] Hlt; [exists err; by rewrite Nat.add_0_r|]. rewrite Nat.add_succ_r. apply Hj. lia.
  - exists 0. split_and!; [lia|done|by rewrite Nat.add_0_r|lia].
Qed.
(** Each pause is two to two and a half times the one before. *)
Fixpoint growing (sleep : Z) (l : list Z) : Prop :=
  match l with [] => True | s :: l => (2 * sleep <= s /\ 2 * s <= 5 * sleep)%Z /\ growing s l end.
Lemma connect_growing attempts k dial rand sleep last :
  random rand -> (0 < sleep)%Z -> growing sleep (connect attempts k dial rand sleep last).1.
Proof.
  intros Hr. revert k sleep last. induction attempts as [|attempts IH]; intros k sleep last Hs; cbn [connect]; [done|].
  destruct (dial k) as [err|c]; [|done]. pose proof (Hr k sleep Hs) as Hj.
  assert (Hn : (2 * sleep <= next_sleep sleep (rand k sleep) /\ 2 * next_sleep sleep (rand k sleep) <= 5 * sleep)%Z).
  { unfold next_sleep. rewrite Z.quot_div_nonneg by lia.
    pose proof (Z.div_mod (rand k sleep) 2 ltac:(lia)). pose proof (Z.mod_pos_bound (rand k sleep) 2 ltac:(lia)). lia. }
  specialize (IH (S k) (next_sleep sleep (rand k sleep)) err ltac:(lia)).
  by destruct (connect attempts (S k) dial rand (next_sleep sleep (rand k sleep)) err).
Qed.
Definition total (l : list Z) : Z := foldr Z.add 0%Z l.

(** C23: the control connection is tried at most five times, with a pause after each
    failure, the last one included: it is the first that succeeds, or the error is that
    of the fifth try; in that case the pauses take between 62 and 162 seconds in all, and
    no pause exceeds what a duration holds. *)
Theorem control_connection_is_retried dial rand :
  random rand ->
  let '(slept, r) := control_connection dial rand in
  match r with
  | inr c => exists n, n < 5 /\ length slept = n /\ dial n = inr c /\ forall j, j < n -> exists err, dial j = inl err
  | inl err => length slept = 5 /\ (forall j, j < 5 -> exists err, dial j = inl err) /\ dial 4 = inl err /\
               (62 * Second <= total slept <= 162 * Second)%Z
  end /\ forall s, s ∈ slept -> (2 * Second <= s < 2 ^ 63)%Z.
Proof.
  intros Hr. unfold control_connection. pose proof (connect_result 5 0 dial rand Second (ErrMsg "")) as H.
  pose proof (connect_growing 5 0 dial rand Second (ErrMsg "") Hr eq_refl) as Hg.
  destruct (connect 5 0 dial rand Second (ErrMsg "")) as [slept r]. cbn [fst] in Hg.
  assert (Hlen : length slept <= 5) by (destruct r as [err|c]; [lia|destruct H as (n & ? & ? & _); lia]).
  unfold Second in *. split.
  - destruct r as [err|c].
    + destruct H as (Hl & Hj & [[? _]|[_ Hd]]); [done|]. split_and!; [done..| |];
        destruct slept as [|a [|b [|c [|d [|e [|]]]]]]; simpl in Hl; try lia; cbn in *; lia.
    + exact H.
  - intros s Hs. destruct slept as [|a [|b [|c [|d [|e [|]]]]]]; simpl in Hlen; try lia;
      rewrite ?elem_of_cons in Hs; cbn in *; rewrite ?elem_of_nil in Hs;
      repeat (destruct Hs as [->|Hs]; [lia|]); done.
Qed.

(** ** Examples *)

(** A connection arrives while the listener is closed: the select takes the closed
    channel, and the syncer ends. *)
Definition racing : listener := {|
  closed := true; connc := []; grabs := {[ 0 := InSelect 7 ]}; accepted := []; dialled := {[ 7 ]};
  failures := []; writing := true; crashed := true |}.
Example close_while_grabbing_crashes : rtc step NewListener racing.
Proof.
  eapply rtc_l; [by apply (l_conn_ready 0)|]. eapply rtc_l; [by apply (l_connected 0 7); [|set_solver]|].
  eapply rtc_l; [by apply (l_select 0 7)|]. eapply rtc_l; [apply l_close|].
  eapply rtc_l; [by apply (l_send_on_closed 0 7)|].
  match goal with |- rtc _ ?x _ => replace x with racing by (vm_compute; reflexivity) end. apply rtc_refl.
Qed.
Definition about_to_race : listener := {|
  closed := true; connc := []; grabs := {[ 0 := InSelect 7 ]}; accepted := []; dialled := {[ 7 ]};
  failures := []; writing := true; crashed := false |}.
Lemma crashes_are_racing_closes_witness :
  (exists i c, grabs about_to_race !! i = Some (InSelect c) \/ grabs about_to_race !! i = Some (Parked c)) /\
  closed racing = true.
Proof.
  apply (crashes_are_racing_closes about_to_race racing); [|reflexivity..].
  exact (l_send_on_closed 0 7 about_to_race eq_refl eq_refl).
Defined.
Definition holding : listener := {|
  closed := false; connc := [7]; grabs := {[ 0 := Returned ]}; accepted := []; dialled := {[ 7 ]};
  failures := []; writing := true; crashed := false |}.
Lemma holding_reachable : rtc step NewListener holding.
Proof.
  eapply rtc_l; [by apply (l_conn_ready 0)|]. eapply rtc_l; [by apply (l_connected 0 7); [|set_solver]|].
  eapply rtc_l; [by apply (l_select 0 7)|]. eapply rtc_l; [apply (l_sent 0 7); [done..|cbn; unfold connc_capacity; lia]|].
  match goal with |- rtc _ ?x _ => replace x with holding by (vm_compute; reflexivity) end. apply rtc_refl.
Qed.
Definition refuses (k : nat) : result nat := if decide (k < 3) then inl (ErrMsg "status code 503") else inr 9.
Definition half (_ : nat) (s : Z) : Z := Z.div s 2.
Lemma control_connection_is_retried_witness :
  (exists n, n < 5 /\ length [2250000000; 5062500000; 11390625000]%Z = n /\ refuses n = inr 9 /\
     forall j, j < n -> exists err, refuses j = inl err) /\
  forall s, s ∈ [2250000000; 5062500000; 11390625000]%Z -> (2 * Second <= s < 2 ^ 63)%Z.
Proof.
  refine (control_connection_is_retried refuses half _).
  intros k s Hs. unfold half. pose proof (Z.div_mod s 2 ltac:(lia)). pose proof (Z.mod_pos_bound s 2 ltac:(lia)). lia.
Defined.
End Listener.
