(* ===== verification/Syncer.v ===== *)
(** * The start of a syncer ([pkg/syncer/syncer.go], [cmd/syncer/options])

    What the syncer does before and beside its controllers: it waits for its SyncTarget,
    selects the types that it watches on each side and the imports that its importer
    sees, and reports that it is alive. *)

From S2P Require Import Prelude Platform GoTime Digest ApiTypes Json JsonValue Committer SyncTargets ApiResource Shards Negotiation ApiImporter VirtualServer ControllerManager CliSync CliWorkload.
Local Open Scope nat_scope.

(** [fmt]'s [%q], which is the quoted text where nothing has to be escaped. *)
Class QuoteLib := {
  Quote : string -> string;
  Quote_simple s : simple_text s = true -> Quote s = quoted s;
}.

(** ** Options *)

Record SyncerConfig := {
  cfg_ResourcesToSync : list string; cfg_SyncTargetPath : string; cfg_SyncTargetName : string;
  cfg_SyncTargetUID : string; cfg_DNSImage : string; cfg_DownstreamNamespaceCleanDelay : Z }.
(** [cmd/syncer/options], without the options of the logs. *)
Record Options := {
  QPS : Z; Burst : Z; FromKubeconfig : string; FromContext : string; FromClusterPath : string;
  ToKubeconfig : string; ToContext : string; SyncTargetName : string; op_SyncTargetUID : string;
  SyncedResourceTypes : list string; DNSImage : string; DownstreamNamespaceCleanDelay : Z;
  APIImportPollInterval : Z }.
Definition NewOptions : Options := {|
  QPS := 30; Burst := 20; FromKubeconfig := ""; FromContext := ""; FromClusterPath := "";
  ToKubeconfig := ""; ToContext := ""; SyncTargetName := ""; op_SyncTargetUID := "";
  SyncedResourceTypes := []; DNSImage := ""; DownstreamNamespaceCleanDelay := 30 * Second;
  APIImportPollInterval := 60 * Second |}.
Definition Validate (options : Options) : option error :=
  if decide (FromClusterPath options = "") then Some (ErrMsg "--from-cluster is required")
  else if decide (FromKubeconfig options = "") then Some (ErrMsg "--from-kubeconfig is required")
  else if decide (op_SyncTargetUID options = "") then Some (ErrMsg "--sync-target-uid is required")
  else None.
(** [Run] of [cmd/syncer]: the configuration that the syncer is started with, once the
    client library has read the two kubeconfigs. *)
Definition syncer_config (options : Options) (NAMESPACE : string) : result SyncerConfig :=
  if decide (NAMESPACE = "") then inl (ErrMsg "missing environment variable: NAMESPACE")
  else inr {|
    cfg_ResourcesToSync := set_list (list_to_set (SyncedResourceTypes options));
    cfg_SyncTargetPath := FromClusterPath options; cfg_SyncTargetName := SyncTargetName options;
    cfg_SyncTargetUID := op_SyncTargetUID options; cfg_DNSImage := DNSImage options;
    cfg_DownstreamNamespaceCleanDelay := DownstreamNamespaceCleanDelay options |}.

(** ** The types that are watched *)

Definition group_resource (gvr : GroupVersionResource) : GroupResource :=
  {| gr_Group := gvr_Group gvr; gr_Resource := gvr_Resource gvr |}.
(** The [keepGVR] of the three sources: downstream, and the two virtual workspaces. *)
Definition keep_downstream (gvr : GroupVersionResource) : bool := negb (bool_decide (gvr_Group gvr = "core.kcp.io")).
Definition keep_syncer (gvr : GroupVersionResource) : bool :=
  if bool_decide (gvr_Group gvr = "") && bool_decide (gvr_Resource gvr = "pods") then false else true.
Definition keep_upsyncer (gvr : GroupVersionResource) : bool :=
  bool_decide (gvr_Group gvr = "") &&
  (bool_decide (gvr_Resource gvr = "persistentvolumes") || bool_decide (gvr_Resource gvr = "pods")
   || bool_decide (gvr_Resource gvr = "endpoints")).
(** [filteringGVRSource.GVRs]. *)
Definition filtered_GVRs (keepGVR : GroupVersionResource -> bool) (c : syncTargetGVRSource)
    : gmap GroupVersionResource GVRPartialMetadata :=
  filter (fun kv => keepGVR kv.1 = true) (Shards.GVRs c).
(** The controllers of the manager for downstream types; the two of a shard have none. *)
Definition EndpointsController : string := "syncer-endpoint-controller".
Definition downstream_controllers : gmap string (list GroupVersionResource) :=
  {[ EndpointsController := [core_gvr "services"; core_gvr "endpoints"] ]}.

(** [delegatingCleaner]: the calls before the delegate is set are dropped. *)
Inductive cleaning := Plan (key : string) | Cancel (key : string).
Definition delegated (delegate : bool) (call : cleaning) : list cleaning := if delegate then [call] else [].

(** ** Waiting for the SyncTarget, and heartbeats *)

Inductive start_call :=
  | GetSyncTarget (name : string)
  | PatchSyncTarget (name patch : string).
#[local] Abbreviation CM := (M start_call) (only parsing).
Definition AdvancedSchedulingFeatureAnnotation : string := "featuregates.experimental.workload.kcp.io/advancedscheduling".
Definition heartbeatInterval : Z := 20 * Second.
Section start.
Context {QL : QuoteLib} {PL : PollLib}.
Variable GetAnswer : list start_call -> result SyncTarget.
Variable PatchAnswer : list start_call -> result SyncTarget.
(** The clock, and the zone that it is shown in. *)
Variable Now : list start_call -> Time.
Variable zone : Z.

Definition get_own_target (cfg : SyncerConfig) : CM (option SyncTarget) :=
  syncTarget ← call (GetSyncTarget (cfg_SyncTargetName cfg)) GetAnswer;
  if decide (cfg_SyncTargetUID cfg <> "" /\ cfg_SyncTargetUID cfg <> UID (st_Meta syncTarget)) then
    fail (ErrMsg ("unexpected SyncTarget UID " +:+ UID (st_Meta syncTarget) +:+ ", expected "
                  +:+ cfg_SyncTargetUID cfg +:+ ", refusing to sync"))
  else mret (Some syncTarget).
Definition own_target (fuel : nat) (cfg : SyncerConfig) : CM SyncTarget :=
  poll_infinite fuel (get_own_target cfg).
Definition advanced_scheduling (syncTarget : SyncTarget) : bool :=
  bool_decide (map_index (Annotations (st_Meta syncTarget)) AdvancedSchedulingFeatureAnnotation = "true").

Definition heartbeat_patch (syncTargetUID : string) (now : Time) : string :=
  raw "[{'op':'test','path':'/metadata/uid','value':" +:+ Quote syncTargetUID +:+
  raw "},{'op':'replace','path':'/status/lastSyncerHeartbeatTime','value':" +:+ Quote (Format_RFC3339 zone now) +:+
  raw "}]".
(** An attempt; the time of the answer is dereferenced. *)
Definition heartbeat_attempt (name uid : string) : CM (option Time) :=
  now ← (fun h => (h, Ok (Now h)));
  r ← try (call (PatchSyncTarget name (heartbeat_patch uid now)) PatchAnswer);
  match r with
  | inl _ => mret None
  | inr syncTarget =>
      match LastSyncerHeartbeatTime (st_Status syncTarget) with
      | None => lift (Panic "invalid memory address or nil pointer dereference")
      | Some heartbeatTime => mret (Some heartbeatTime)
      end
  end.
(** One heartbeat, every second until it succeeds; the next is [heartbeatInterval] later. *)
Definition heartbeat (fuel : nat) (name uid : string) : CM Time :=
  poll_infinite fuel (heartbeat_attempt name uid).
End start.

(** ** What the importer is given *)

Section importer.
Context {SC : SchemaCompatLib}.
(** The factory of the SyncTarget's informers lists the objects of one name; the option
    is one of the factory, so that it holds for each of its informers. *)
Definition tweaked (cfg : SyncerConfig) (m : ObjectMeta) : bool := bool_decide (Name m = cfg_SyncTargetName cfg).
(** The SyncTargets and the imports of the workspace as the server has them, and the
    answers of the physical cluster and the server. *)
Variable SyncTargetsOf : list import_call -> list SyncTarget.
Variable ImportsOf : list import_call -> list APIResourceImport.
Variable PullAnswer : list import_call -> result (gmap GroupResource CustomResourceDefinition).
Variable WriteAnswer : list import_call -> result unit.
(** [NewAPIImporter] with the informers of that factory, of which the caches are as the
    server. *)
Definition api_importer (cfg : SyncerConfig) (syncTarget : SyncTarget) : APIImporter := {|
  resourcesToSync := cfg_ResourcesToSync cfg; syncTargetName := cfg_SyncTargetName cfg;
  syncTargetUID := UID (st_Meta syncTarget); SyncedGVRs := ∅;
  syncTargetLister h n :=
    match List.filter (fun t => tweaked cfg (st_Meta t) && bool_decide (Name (st_Meta t) = n)) (SyncTargetsOf h) with
    | t :: _ => inr t
    | [] => inl (ErrLib "NotFound" n)
    end;
  apiresourceImportIndexer h := inr (List.filter (fun i => tweaked cfg (i_Meta i)) (ImportsOf h));
  ApiImporter.PullAnswer := PullAnswer; ApiImporter.WriteAnswer := WriteAnswer |}.
End importer.

(** * Theorems *)

(** ** The imports of a running syncer *)

Section imports.
Context {SC : SchemaCompatLib} {MO : MapOrder} {KR : KeyOrder GroupResource}.
Variable SyncTargetsOf : list import_call -> list SyncTarget.
Variable ImportsOf : list import_call -> list APIResourceImport.
Variable PullAnswer : list import_call -> result (gmap GroupResource CustomResourceDefinition).
Variable WriteAnswer : list import_call -> result unit.
Variable cfg : SyncerConfig.
Variable syncTarget : SyncTarget.
#[local] Abbreviation importer := (api_importer SyncTargetsOf ImportsOf PullAnswer WriteAnswer cfg syncTarget).

(** What is found in the index has the name of the SyncTarget, which no import has that
    an importer makes. *)
Lemma found_imports index key h l o :
  by_index index key (apiresourceImportIndexer importer h) = inr l -> o ∈ l ->
  Name (i_Meta o) = cfg_SyncTargetName cfg.
Proof.
  cbn. intros [= <-] Ho. apply list_elem_of_In, filter_In in Ho as [Ho _].
  by apply filter_In in Ho as [_ Ho%bool_decide_eq_true].
Qed.
Lemma import_name_longer gvr : import_name importer gvr <> cfg_SyncTargetName cfg.
Proof.
  intros E%(f_equal String.length). unfold import_name in E. rewrite !string_app_length in E. cbn in E. lia.
Qed.
(** A call about an import that this importer, at any time, has made. *)
Definition on_own_import (e : import_call) : Prop :=
  exists gvr, match e with
    | UpdateImport o => Name (i_Meta o) = import_name importer gvr
    | DeleteImport n => n = import_name importer gvr
    | _ => False
    end.

(** An importer that gets its imports from the factory of the SyncTarget never sees those
    that it makes: it never updates their schemas when those of the physical cluster
    change, and does not delete them when the syncer stops. *)
Theorem own_imports_are_never_seen h :
  guarded (fun _ e => ~ on_own_import e) (ImportAPIs importer) h /\
  guarded (fun _ e => ~ on_own_import e) (Stop importer) h.
Proof.
  split.
  - eapply guarded_mono; [apply imports_of_the_location|]. intros h' e Hc (gvr & He). destruct e; try done.
    + destruct Hc as (gvr' & o & text & -> & Hf). cbn in He. apply (import_name_longer gvr). rewrite <-He.
      eapply found_imports; [exact Hf|apply list_elem_of_here].
    + by destruct Hc as (k & gvr' & o & Hk & _).
  - unfold Stop. apply guarded_bind.
    { by apply guarded_quiet. }
    intros h' objs [-> Ho]%try_ByIndex. apply guarded_for_each. intros o h2 Hin.
    apply guarded_bind; [|intros; apply guarded_ret]. apply guarded_try, guarded_call. intros (gvr & He).
    apply (import_name_longer gvr). rewrite <-He. destruct objs as [e|objs]; [by apply not_elem_of_nil in Hin|].
    by eapply found_imports.
Qed.
End imports.

(** ** What is watched *)

(** A syncer watches in a virtual workspace what this serves: of the types of its
    source those that pass the filter of the virtual workspace's API, for the syncing
    and the upsyncing one alike. *)
Theorem watched_types_are_served c gvr m :
  (filtered_GVRs keep_syncer c !! gvr = Some m <->
     Shards.GVRs c !! gvr = Some m /\ allowedAPIFilter syncer_parameters (group_resource gvr) = true) /\
  (filtered_GVRs keep_upsyncer c !! gvr = Some m <->
     Shards.GVRs c !! gvr = Some m /\ allowedAPIFilter upsyncer_parameters (group_resource gvr) = true).
Proof.
  unfold filtered_GVRs. rewrite !map_lookup_filter_Some. cbn [fst allowedAPIFilter syncer_parameters upsyncer_parameters].
  unfold keep_syncer, keep_upsyncer, syncer_filter, upsyncer_filter. cbn [group_resource gr_Group gr_Resource].
  split; [|done]. destruct (bool_decide (gvr_Group gvr = "") && _); done.
Qed.

(** ** Waiting *)

Section theorems.
Context {PL : PollLib}.
Variable GetAnswer : list start_call -> result SyncTarget.

(** The wait is one request: it does not go on after an error, and has nothing else to
    wait for. *)
Theorem waiting_is_one_request fuel cfg h :
  own_target GetAnswer (S fuel) cfg h =
    (h ++ [GetSyncTarget (cfg_SyncTargetName cfg)],
     match GetAnswer (h ++ [GetSyncTarget (cfg_SyncTargetName cfg)]) with
     | inl err => Err err
     | inr t =>
         if decide (cfg_SyncTargetUID cfg <> "" /\ cfg_SyncTargetUID cfg <> UID (st_Meta t))
         then Err (ErrMsg ("unexpected SyncTarget UID " +:+ UID (st_Meta t) +:+ ", expected "
                           +:+ cfg_SyncTargetUID cfg +:+ ", refusing to sync"))
         else Ok t
     end).
Proof.
  unfold own_target. rewrite poll_infinite_round. unfold get_own_target, call, mbind, M_bind.
  destruct (GetAnswer _) as [err|t]; [done|]. cbn [of_result]. by destruct (decide _).
Qed.
End theorems.

(** ** Heartbeats *)

(** The reading of a heartbeat's patch, by RFC 6902: a test that fails refuses it. *)
Definition set_heartbeat (t : SyncTarget) (time : option Time) : SyncTarget :=
  let s := st_Status t in {|
  st_Meta := st_Meta t; st_Spec := st_Spec t; st_Status := {|
    Allocatable := Allocatable s; Capacity := Capacity s; st_Conditions := st_Conditions s;
    SyncedResources := SyncedResources s; LastSyncerHeartbeatTime := time;
    VirtualWorkspaces := VirtualWorkspaces s; TunnelWorkspaces := TunnelWorkspaces s |} |}.
Definition heartbeat_op (o : option SyncTarget) (op : json) : option SyncTarget :=
  t ← o;
  match op with
  | JObject l =>
      match member "op" l, member "path" l, member "value" l with
      | Some (JString "test"), Some (JString "/metadata/uid"), Some (JString v) =>
          if decide (v = UID (st_Meta t)) then Some t else None
      | Some (JString "replace"), Some (JString "/status/lastSyncerHeartbeatTime"), Some (JString s) =>
          Some (set_heartbeat t (Parse_RFC3339 s))
      | _, _, _ => None
      end
  | _ => None
  end.
Definition heartbeaten (patch : string) (t : SyncTarget) : option SyncTarget :=
  match parse patch with inr (JArray ops) => foldl heartbeat_op (Some t) ops | _ => None end.

Lemma zone_simple off : simple_text (format_zone off) = true.
Proof.
  unfold format_zone. destruct (off =? 0)%Z; [by vm_compute|].
  destruct (Z.quot off 60 <? 0)%Z; (apply simple_cons; [by vm_compute|]);
    apply digits_simple; (apply simple_cons; [by vm_compute|]); apply digits_simple; by vm_compute.
Qed.
Lemma local_time_simple off t : simple_text (Format_RFC3339 off t) = true.
Proof.
  unfold Format_RFC3339. destruct (civil_of_days _) as [[y m] d].
  repeat first [apply digits_simple | apply simple_cons; [by vm_compute|]]. apply zone_simple.
Qed.
Section heartbeats.
Context {QL : QuoteLib}.
Variable zone : Z.
Definition test_op (path v : string) : json :=
  JObject [("op", JString "test"); ("path", JString path); ("value", JString v)].
Lemma parse_heartbeat uid now : simple_text uid = true ->
  parse (heartbeat_patch zone uid now) = inr (JArray [test_op "/metadata/uid" uid;
    replace_op "/status/lastSyncerHeartbeatTime" (JString (Format_RFC3339 zone now))]).
Proof.
  intros Hu. unfold heartbeat_patch. pose proof (local_time_simple zone now) as Hs. revert Hs.
  generalize (Format_RFC3339 zone now). intros s Hs. rewrite !Quote_simple by done.
  rewrite <-(parse_print (JArray _)).
  - f_equal. cbn [print List.map Join test_op replace_op].
    rewrite !string_app_assoc, <-(quoted_simple s Hs), <-(quoted_simple uid Hu), !quoted_app. reflexivity.
  - cbn [ascii_json test_op replace_op forallb snd fst]. rewrite (simple_ascii s Hs), (simple_ascii uid Hu). by vm_compute.
  - by vm_compute.
Qed.
Lemma heartbeat_applied uid now t :
  simple_text uid = true -> zone_ok zone -> (0 <= local_year zone now < 10000)%Z ->
  heartbeaten (heartbeat_patch zone uid now) t =
    if decide (uid = UID (st_Meta t)) then Some (set_heartbeat t (Some (now / Second * Second)%Z)) else None.
Proof.
  intros Hu Hz Hy. unfold heartbeaten. rewrite parse_heartbeat by done. cbn [foldl].
  rewrite <-(Parse_Format zone now) by done.
  transitivity (heartbeat_op (if decide (uid = UID (st_Meta t)) then Some t else None)
    (replace_op "/status/lastSyncerHeartbeatTime" (JString (Format_RFC3339 zone now)))); [done|].
  by destruct (decide _).
Qed.
End heartbeats.

Section alive.
Context {QL : QuoteLib} {EL : ErrorLib} {CL : ClusterLib} {CO : ConditionLib}.
Context {EqSp : DeepEq SyncTargetSpec} {EqSt : DeepEq SyncTargetStatus}.

End alive.

(** * Examples *)

Module Examples.
#[local] Existing Instances simple_errors simple_clusters simple_conditions simple_polls.
#[local] Instance quotes : QuoteLib := {| Quote := quoted; Quote_simple s _ := eq_refl |}.
Definition target (beat : option Time) : SyncTarget := {|
  st_Meta := SetUIDVersion (mk_meta "st" "" None None []) "6f1e" "1";
  st_Spec := {| Unschedulable := false; EvictAfter := None; SupportedAPIExports := []; Cells := None |};
  st_Status := {| Allocatable := None; Capacity := None; st_Conditions := []; SyncedResources := [];
    LastSyncerHeartbeatTime := beat; VirtualWorkspaces := []; TunnelWorkspaces := [] |} |}.
Definition instant : Time := (1700000000 * Second + 5)%Z.
Definition controller : Heartbeat.Controller := {|
  Heartbeat.heartbeatThreshold := (60 * Second)%Z; Heartbeat.getSyncTarget _ _ := inr (target None);
  Heartbeat.now_since := (instant + 50 * Second)%Z; Heartbeat.now_until := (instant + 50 * Second)%Z;
  Heartbeat.Time_String _ := ""; Heartbeat.Marshal _ := inr ""; Heartbeat.CreateMergePatch _ _ := inr "";
  Heartbeat.DoPatch _ := inr tt |}.
(** A syncer is started without the name of its SyncTarget. *)
Example a_nameless_target_is_valid : let options := {|
    QPS := 30; Burst := 20; FromKubeconfig := "kubeconfig"; FromContext := ""; FromClusterPath := "root:ws";
    ToKubeconfig := ""; ToContext := ""; SyncTargetName := ""; op_SyncTargetUID := "6f1e";
    SyncedResourceTypes := ["services"; "ingresses"; "services"]; DNSImage := "";
    DownstreamNamespaceCleanDelay := 30 * Second; APIImportPollInterval := 60 * Second |} in
  Validate options = None /\ Validate NewOptions = Some (ErrMsg "--from-cluster is required") /\
  match syncer_config options "kcp-syncer" with
  | inr cfg => cfg_ResourcesToSync cfg = ["ingresses"; "services"] /\ cfg_SyncTargetName cfg = ""
  | inl _ => False
  end.
Proof. by vm_compute. Qed.
Example patch_of_a_heartbeat :
  heartbeat_patch 3600 "6f1e" instant =
    raw "[{'op':'test','path':'/metadata/uid','value':'6f1e'},{'op':'replace','path':'/status/lastSyncerHeartbeatTime','value':'2023-11-14T23:13:20+01:00'}]".
Proof. by vm_compute. Qed.
(** Where the server ignores the status in a patch of the object, as it does with a status
    subresource, the answer to the first heartbeat has no time, and the syncer ends. *)
Example ignored_status_panics :
  is_panic (heartbeat (fun _ => inr (target None)) (fun _ => instant) 0 1 "st" "6f1e" []).2 = true /\
  (heartbeat (fun _ => inr (target (Some instant))) (fun _ => instant) 0 1 "st" "6f1e" []).2 = Ok instant.
Proof. split; by vm_compute. Qed.

(** An importer at work: its import is there from the first pass; the schema changes on
    the physical cluster; the second pass asks for a new import, which the server
    refuses, and the end of the syncer leaves the import where it is. *)
#[local] Existing Instances canonical_order ApiImporter.Examples.schemas_as_text ApiImporter.Examples.resources_in_order.
Definition syncer_cfg : SyncerConfig := {|
  cfg_ResourcesToSync := ["widgets.example.com"]; cfg_SyncTargetPath := "root"; cfg_SyncTargetName := "st";
  cfg_SyncTargetUID := "uid"; cfg_DNSImage := ""; cfg_DownstreamNamespaceCleanDelay := 0 |}.
Definition running_importer (store : list APIResourceImport) : APIImporter :=
  api_importer (fun _ => [ApiImporter.Examples.target]) (fun _ => store)
    (fun _ => inr {[ ApiImporter.Examples.widgets := ApiImporter.Examples.widget_crd "v1" ]})
    (fun h => match last h with
              | Some (CreateImport o) =>
                  if existsb (fun x => bool_decide (Name (i_Meta x) = Name (i_Meta o))) store
                  then inl (ErrLib "AlreadyExists" (Name (i_Meta o))) else inr tt
              | _ => inr tt
              end) syncer_cfg ApiImporter.Examples.target.
Definition import_calls (m : M import_call unit) : list (string * string) :=
  ApiImporter.Examples.calls (m []).1.
Example the_import_is_created_again :
  import_calls (ImportAPIs (running_importer [])) =
    [("pull", "widgets.example.com"); ("create widgets.st.v1.example.com", "schema of v1")] /\
  import_calls (ImportAPIs (running_importer [ApiImporter.Examples.made])) =
    [("pull", "widgets.example.com"); ("create widgets.st.v1.example.com", "schema of v1")] /\
  import_calls (Stop (running_importer [ApiImporter.Examples.made])) = [].
Proof. by vm_compute. Qed.
End Examples.
