(* ===== verification/Lifecycle.v ===== *)
(** * The life of an object on a SyncTarget

    The resource scheduler, the virtual workspace, the spec syncer and the status
    syncer put together: one upstream object, its downstream copies on the
    SyncTarget [k] of a syncer, and the steps by which the parts, and others, change
    them. The parts only meet in the labels, annotations and finalizers of the object. *)

From S2P Require Import Prelude Platform GoTime Digest ApiTypes SyncIntent Json JsonValue SyncerShared Dns SpecSync StatusSync Transformer ResourceScheduler.
Local Open Scope nat_scope.

Section system.
Context {MO : MapOrder} {EL : ErrorLib} {CL : ClusterLib} {SL : SchemaLib} {KL : KeyLib}.
Context {B36 : Base36Lib} {NK : NamespaceKeyLib} {JP : JsonPatchLib}.
Context {UL : UnstructuredLib} {SE : StatusErrorLib} {URL : UrlLib}.
(** The syncer, the virtual workspaces, and the object: its resource, its place
    upstream and the namespace of its copy. *)
Variable c : SpecSync.Controller.
Variable srt : SyncerResourceTransformer.
Variable gvr : GroupVersionResource.
Variables cluster ns name dns : string.
#[local] Abbreviation k := (c_syncTargetKey c).

(** The object in the kcp API server, and where (namespace and name) the physical
    cluster has copies of it. *)
Record system := { upstream : option Unstructured; downstream : gset (string * string) }.

(** What the virtual workspace shows to the syncer: its storage has the objects whose state
    for the SyncTarget is Sync. *)
Definition is_view (o view : Unstructured) : Prop :=
  map_get (GetLabels o) (state_label k) = Some ResourceStateSync /\
  exists ctx, ctx_SyncTargetKey ctx = Some k /\ AfterRead srt ctx gvr o = inr view.

(** ** What an API server does with a write *)

(** The new version [o'] has the marks that were sent; its resource version, its managed
    fields and what admission does to the rest are the server's. *)
Definition same_marks (u o' : Unstructured) : Prop :=
  GetName o' = GetName u /\ GetLabels o' = GetLabels u /\ GetFinalizers o' = GetFinalizers u /\
  GetAnnotations o' = GetAnnotations u.
(** An object that is being deleted goes with its last finalizer. *)
Definition stored (o u : Unstructured) (r : option Unstructured) : Prop :=
  (is_Some (DeletionTimestamp (u_meta o)) /\ GetFinalizers u = [] /\ r = None) \/
  (exists o', r = Some o' /\ same_marks u o').
(** A write of a syncer's view: the virtual workspace replaces it by what
    [BeforeWrite] makes of the object [o]. The answer to the update of the status there
    keeps the marks of the object, the annotations apart, which may be the new ones. *)
Definition written (key : string) (view : Unstructured) (subresources : list string)
    (o : Unstructured) (r : option Unstructured) : Prop :=
  exists (RI : ResourceInterface) ctx h h' u',
    ctx_SyncTargetKey ctx = Some key /\ client_Get (h ++ [get_event view]) = inr o /\
    (forall h u b, client_UpdateStatus (h ++ [EvUpdateStatus u]) = inr b ->
       GetName b = GetName u /\ GetLabels b = GetLabels u /\ GetFinalizers b = GetFinalizers u /\
       (GetAnnotations b = GetAnnotations u \/ GetAnnotations b = GetAnnotations o)) /\
    BeforeWrite srt ctx gvr view subresources h = (h', Ok u') /\ stored o u' r.

(** The effect of a call that is answered [answer]. An error does not say that nothing
    was done; but a deletion that is answered "not found" tells that nothing is there. *)
Definition write_through (view : Unstructured) (subresources : list string) (s s' : system) : Prop :=
  downstream s' = downstream s /\
  (upstream s' = upstream s \/
   exists o, upstream s = Some o /\ written k view subresources o (upstream s')).
Definition effect (answer : result unit) (e : ev) (s s' : system) : Prop :=
  match e with
  | EvRequest Downstream VApply _ n m (Body _) =>
      upstream s' = upstream s /\
      (downstream s' = downstream s \/ downstream s' = {[ (n, m) ]} ∪ downstream s)
  | EvRequest Downstream VDelete _ n m NoBody =>
      upstream s' = upstream s /\
      (downstream s' = downstream s \/ downstream s' = downstream s ∖ {[ (n, m) ]}) /\
      (forall err, answer = inl err -> IsNotFound err = true -> (n, m) ∉ downstream s')
  | EvRequest (Upstream cl) VUpdate _ n m (Body view) =>
      if decide ((cl, n, m) = (cluster, ns, name)) then write_through view [] s s' else s' = s
  | EvRequest (Upstream cl) VUpdateStatus _ n m (Body view) =>
      if decide ((cl, n, m) = (cluster, ns, name)) then write_through view ["status"] s s' else s' = s
  | _ => s' = s
  end.

(** ** The passes of the syncer *)

(** The caches agree with the state: an upstream object of the current version is the
    view of the object, and a copy that is not found is not there. *)
Definition coherent (W : World) (h : list ev) (s : system) : Prop :=
  (forall cl g n m view o, upstream_Get h cl g n m = inr view -> upstream s = Some o ->
     ResourceVersion (u_meta view) = ResourceVersion (u_meta o) -> is_view o view) /\
  (forall g n m err, downstream_Get h g n m = inl err -> IsNotFound err = true ->
     (n, m) ∉ downstream s).
(** The pass still has to do [todo]; it may stop at any point. *)
Inductive runs (W : World) : list ev -> system -> list ev -> system -> Prop :=
  | runs_stop h s todo : runs W h s todo s
  | runs_event h s e todo s1 s' :
      coherent W h s -> effect (api_write (h ++ [e])) e s s1 ->
      runs W (h ++ [e]) s1 todo s' -> runs W h s (e :: todo) s'.

Definition locator : NamespaceLocator :=
  NewNamespaceLocator cluster (c_syncTargetClusterName c) (c_syncTargetUID c) (c_syncTargetName c) ns.

(** ** The other writers *)

Definition patched (p : ResourcePatch) (u : Unstructured) : Unstructured :=
  let u := match patch_labels p with
           | Some l => SetLabels u (merge_patch (GetLabels u) (Some l))
           | None => u
           end in
  let u := match patch_annotations p with
           | Some a => SetAnnotations u (merge_patch (GetAnnotations u) (Some a))
           | None => u
           end in
  match patch_finalizers p with Some f => SetFinalizers u f | None => u end.
(** The object is on the SyncTarget, and its syncer holds it. *)
Definition claimed (o : Unstructured) : Prop :=
  syncer_finalizer k ∈ GetFinalizers o /\ is_Some (map_get (GetLabels o) (state_label k)).

(** One step: a pass of the spec syncer or the status syncer on the object, a pass of
    the scheduler, a write of the syncer of another SyncTarget, a deletion request, an
    update by any other client, which leaves the marks of SyncTargets alone; and
    downstream, the loss of a copy. A pass reads the object as it is when it starts. *)
Inductive step : system -> system -> Prop :=
  | step_spec (W : World) (DW : DnsWorld) g key s s' :
      SplitMetaClusterNamespaceKey key = inr (cluster, ns, name) ->
      (forall d, downstream_namespace locator [] = ([], Ok d) -> d = dns) ->
      (forall view, upstream_Get [] cluster g ns name = inr view ->
         exists o, upstream s = Some o /\ is_view o view) ->
      runs W [] s (SpecSync.process c g key []).1 s' -> step s s'
  | step_status (W : World) g key s s' :
      SplitMetaNamespaceKey key = inr (dns, name) ->
      runs W [] s (StatusSync.process c g key []).1 s' -> step s s'
  | step_schedule secretNS sc cl g o p r d :
      EvPatch g cl (GetNamespace o) (GetName o) p
        ∈ trace (reconcileResource secretNS sc cl (u_meta o) g) ->
      (exists st, getSyncTargetFromKey sc k = inr (Some st)) ->
      stored o (patched p o) r ->
      step {| upstream := Some o; downstream := d |} {| upstream := r; downstream := d |}
  | step_other_syncer key view subresources o r d :
      key <> k -> written key view subresources o r ->
      step {| upstream := Some o; downstream := d |} {| upstream := r; downstream := d |}
  | step_delete o r d :
      (GetFinalizers o = [] /\ r = None) \/
      (exists o', r = Some o' /\ same_marks o o' /\ is_Some (DeletionTimestamp (u_meta o'))) ->
      step {| upstream := Some o; downstream := d |} {| upstream := r; downstream := d |}
  | step_client o u r d :
      GetName u = name -> default_rules u ->
      (syncer_finalizer k ∈ GetFinalizers o -> syncer_finalizer k ∈ GetFinalizers u) ->
      map_get (GetLabels u) (state_label k) = map_get (GetLabels o) (state_label k) ->
      stored o u r ->
      step {| upstream := Some o; downstream := d |} {| upstream := r; downstream := d |}
  | step_create o d :
      GetName o = name -> default_rules o ->
      step {| upstream := None; downstream := d |} {| upstream := Some o; downstream := d |}
  | step_lost o d d' :
      d' ⊆ d -> step {| upstream := o; downstream := d |} {| upstream := o; downstream := d' |}.
End system.

(** * Theorems *)

Section marks.
Context {MO : MapOrder} {EL : ErrorLib} {CL : ClusterLib} {SL : SchemaLib} {KL : KeyLib}.
Context {JP : JsonPatchLib} {UL : UnstructuredLib} {SE : StatusErrorLib} {URL : UrlLib}.
Variable c : SpecSync.Controller.
#[local] Abbreviation k := (c_syncTargetKey c).

(** ** What a write leaves of an object *)

Definition well_named (name : string) (o : Unstructured) : Prop := GetName o = name /\ default_rules o.

Lemma same_marks_named n u o : same_marks u o -> well_named n u -> well_named n o.
Proof. unfold well_named, default_rules. intros (-> & _ & _ & ->). done. Qed.
Lemma same_marks_claimed u o : same_marks u o -> claimed c u -> claimed c o.
Proof. unfold claimed. intros (_ & -> & -> & _). done. Qed.

Lemma stored_claimed o u r : stored o u r -> claimed c u -> exists o', r = Some o' /\ claimed c o'.
Proof.
  intros [(_ & Hf & _)|(o' & -> & Hm)] Hc.
  - destruct Hc as [Hc _]. rewrite Hf in Hc. by apply not_elem_of_nil in Hc.
  - exists o'. split; [done|]. by eapply same_marks_claimed.
Qed.
Lemma stored_named n o u r : stored o u r -> well_named n u -> forall o', r = Some o' -> well_named n o'.
Proof.
  intros [(_ & _ & ->)|(o1 & -> & Hm)] Hu o' [= <-]. by eapply same_marks_named.
Qed.

Lemma only_annotated_named n u u' : only_annotated u u' -> well_named n u -> well_named n u'.
Proof. unfold well_named, default_rules. intros (-> & _ & _ & ->). done. Qed.
Lemma rules_not_marked key :
  ExperimentalSummarizingRulesAnnotation <> view_annotation key /\
  ExperimentalSummarizingRulesAnnotation <> deletion_annotation key /\
  ExperimentalSummarizingRulesAnnotation <> ClusterSpecDiffAnnotationPrefix.
Proof.
  assert (H : forall p, HasPrefix ExperimentalSummarizingRulesAnnotation p = false ->
    ExperimentalSummarizingRulesAnnotation <> p +:+ key).
  { intros p Hp E. rewrite E, HasPrefix_app in Hp. done. }
  split_and!; [by apply H; vm_compute|by apply H; vm_compute|].
  intros E. by vm_compute in E.
Qed.
Lemma removed_named n key u : well_named n u -> well_named n (remove_sync_target key u).
Proof.
  intros [<- Hd]. split.
  - unfold remove_sync_target. destruct u as [[] ? ?]. cbn [GetLabels u_meta Platform.Labels].
    by destruct Annotations, Labels; simpl; case_bool_decide.
  - unfold default_rules, map_index in *. rewrite remove_annotations, decide_False; [done|].
    pose proof (rules_not_marked key). tauto.
Qed.
Lemma removed_claimed key u : key <> k -> claimed c u -> claimed c (remove_sync_target key u).
Proof.
  intros Hne [Hf Hl]. split.
  - apply remove_finalizers. split; [done|]. intros E. apply Hne. symmetry. by apply (inj (String.append _)) in E.
  - rewrite remove_labels, decide_False; [done|]. intros E. by apply (inj state_label) in E.
Qed.
(** What is left when nothing was promoted, or what the server answered then. *)
Lemma removed_base `{!ResourceInterface} key o h h' u' :
  (forall h u b, client_UpdateStatus (h ++ [EvUpdateStatus u]) = inr b ->
     GetName b = GetName u /\ GetLabels b = GetLabels u /\ GetFinalizers b = GetFinalizers u /\
     (GetAnnotations b = GetAnnotations u \/ GetAnnotations b = GetAnnotations o)) ->
  removed_from_syncer [status_field] key o h = (h', Ok u') ->
  exists base, u' = remove_sync_target key base /\ only_annotated o base.
Proof.
  intros Ha (base & -> & [[-> _]|(single & status & u1 & Hp & _ & Hb)])%removed_inv.
  { exists o. split; [done|]. by split_and!. }
  exists base. split; [done|]. apply promote_marks in Hp as Hm. destruct status; [|by destruct Hb as [-> _]].
  destruct Hb as [-> Hb]. destruct (Ha _ _ _ Hb) as (E1 & E2 & E3 & E4). destruct Hm as (H1 & H2 & H3 & H4).
  split_and!; [congruence..|]. destruct E4 as [->| ->]; done.
Qed.

Lemma added_named n owners key u : well_named n u -> well_named n (add_finalizer owners key u).
Proof.
  unfold well_named, default_rules, map_index. rewrite add_finalizer_annotations.
  unfold add_finalizer. by case_bool_decide.
Qed.
Lemma added_labels owners key u : GetLabels (add_finalizer owners key u) = GetLabels u.
Proof. unfold add_finalizer. by case_bool_decide. Qed.

(** ** Names and finalizers of a view *)

Lemma my_finalizer_view view : has_my_finalizer c view = true <-> syncer_finalizer k ∈ GetFinalizers view.
Proof.
  unfold has_my_finalizer. rewrite existsb_exists. setoid_rewrite bool_decide_eq_true.
  setoid_rewrite <-list_elem_of_In. unfold my_finalizer, syncer_finalizer. naive_solver.
Qed.
(** A name that the syncer does not change. *)
Definition plain_name (name : string) : bool :=
  negb (bool_decide (name = "kube-root-ca.crt")) && negb (HasPrefix name "default-token-").
Lemma transformed_plain u name : plain_name name = true -> GetName u = name -> getTransformedName u = name.
Proof.
  intros [H1 H2]%andb_prop <-. apply negb_true_iff in H1, H2. unfold getTransformedName.
  by rewrite H1, H2, andb_false_r, andb_false_r.
Qed.

(** ** What the scheduler leaves *)

Lemma scheduled_patch secretNS sc cl g obj n1 n2 p :
  EvPatch g cl n1 n2 p ∈ trace (reconcileResource secretNS sc cl obj g) ->
  (forall fs, patch_finalizers p = Some fs -> fs = filter_finalizers sc (Finalizers obj)) /\
  (forall n, (forall x, n <> deletion_annotation x) -> default ∅ (patch_annotations p) !! n = None).
Proof.
  intros Hin. destruct (reconcileResource_cases secretNS sc cl obj g) as [(k' & _ & E)|[_ E]];
    rewrite E in Hin; clear E.
  { destruct (getSyncTargetFromKey sc k') as [|[]]; set_solver. }
  destruct (expected_keys _ _ _ _ _) as [|[ed|]]; try by apply not_elem_of_nil in Hin.
  destruct (resource_patch _ _ _ _) as [p'|] eqn:E; [|by apply not_elem_of_nil in Hin].
  apply list_elem_of_singleton in Hin as [= _ _ ->].
  split.
  - unfold resource_patch in E. destruct (_ && _); [done|]. injection E as <-. simpl. intros fs Hfs.
    by case_bool_decide; simplify_eq.
  - apply resource_patch_fields in E as (-> & _). intros n Hn. unfold pass_patches.
    destruct (DeletionTimestamp obj) as [t|]; simpl.
    + by apply propagateDeletionTimestamp_spec.
    + by apply computePlacement_other.
Qed.
Lemma patched_fields p u :
  GetName (patched p u) = GetName u /\
  GetFinalizers (patched p u) = default (GetFinalizers u) (patch_finalizers p) /\
  (forall n, map_get (GetLabels (patched p u)) n =
     match default ∅ (patch_labels p) !! n with Some v => v | None => map_get (GetLabels u) n end) /\
  (forall n, map_get (GetAnnotations (patched p u)) n =
     match default ∅ (patch_annotations p) !! n with Some v => v | None => map_get (GetAnnotations u) n end).
Proof.
  unfold patched. destruct p as [? ? l a f]. cbn [patch_labels patch_annotations patch_finalizers].
  destruct u as [m ? ?]. unfold GetName, GetFinalizers, GetLabels, GetAnnotations.
  split_and!; [by destruct l, a, f|by destruct l, a, f| |];
    intros n; destruct l, a, f; cbn; rewrite ?map_get_merge_patch, ?lookup_empty; done.
Qed.
Lemma scheduled_marks secretNS sc cl g o n1 n2 p n :
  EvPatch g cl n1 n2 p ∈ trace (reconcileResource secretNS sc cl (u_meta o) g) ->
  n1 = GetNamespace o -> n2 = GetName o ->
  (exists st, getSyncTargetFromKey sc k = inr (Some st)) ->
  (well_named n o -> well_named n (patched p o)) /\ (claimed c o -> claimed c (patched p o)).
Proof.
  intros Hin -> -> [st Hst]. pose proof (scheduled_patch _ _ _ _ _ _ _ _ Hin) as [Hf Ha].
  destruct (patched_fields p o) as (En & Ef & El & Ea). split.
  - intros [Hn Hd]. split; [by rewrite En|]. unfold default_rules, map_index in *.
    rewrite Ea, Ha; [done|]. intros x. apply rules_not_marked.
  - intros [Hin' Hl]. split.
    + rewrite Ef. destruct (patch_finalizers p) as [fs|]; [|done]. simpl. rewrite (Hf fs eq_refl).
      unfold filter_finalizers. apply list_elem_of_filter. split; [|done].
      unfold keep_finalizer, syncer_finalizer. rewrite HasPrefix_app, TrimPrefix_app. by rewrite Hst.
    + rewrite El. destruct (default ∅ (patch_labels p) !! state_label k) as [[v|]|] eqn:E; [by eauto| |done].
      apply (reconcileResource_unschedules secretNS sc cl (u_meta o) g p k) in E as (_ & E & _); [done|exact Hin].
Qed.
End marks.

(** ** Through the virtual workspace *)

Section views.
Context {MO : MapOrder} {EL : ErrorLib} {CL : ClusterLib} {SL : SchemaLib} {KL : KeyLib}.
Context {JP : JsonPatchLib} {UL : UnstructuredLib} {SE : StatusErrorLib} {URL : UrlLib}.
Variable c : SpecSync.Controller.
Variable srt : SyncerResourceTransformer.
Variable gvr : GroupVersionResource.
Hypothesis Hrules : default_provider srt.
Hypothesis Hdiff : spec_diff_provider srt.
#[local] Abbreviation k := (c_syncTargetKey c).

(** The write of a syncer, by its two branches. *)
Lemma written_inv key view subs o r n :
  written srt gvr key view subs o r -> well_named n o ->
  exists u', stored o u' r /\ ResourceVersion (u_meta o) = ResourceVersion (u_meta view) /\
    if done_with key view subs
    then exists base, u' = remove_sync_target key base /\ only_annotated o base
    else exists u2, only_annotated o u2 /\ u' = add_finalizer (syncer_finalizers o) key u2 /\
      (forall f, f ∈ GetFinalizers o -> f ∈ GetFinalizers u') /\ syncer_finalizer key ∈ GetFinalizers u'.
Proof.
  intros (RI & ctx & h & h' & u' & Hk & Hg & Ha & Hw & Hs) [_ Hd]. exists u'. split; [done|].
  apply BeforeWrite_inv in Hw as (k2 & e & fs & Hk2 & Hg2 & Hrv & Hfs & H).
  rewrite Hk in Hk2. injection Hk2 as <-. rewrite Hg in Hg2. injection Hg2 as <-.
  rewrite fields_default in Hfs by done. injection Hfs as <-. split; [done|].
  destruct (done_with key view subs); [by eapply removed_base|].
  destruct H as [(u2 & Hm & -> & Hown & Hall)%keep_marks _]. by exists u2.
Qed.
Lemma written_named key view subs o r n :
  written srt gvr key view subs o r -> well_named n o -> forall o', r = Some o' -> well_named n o'.
Proof.
  intros Hw Hn. destruct (written_inv _ _ _ _ _ _ Hw Hn) as (u' & Hs & _ & H). eapply stored_named; [done|].
  destruct (done_with key view subs).
  - destruct H as (base & -> & Hm). apply removed_named. by eapply only_annotated_named.
  - destruct H as (u2 & Hm & -> & _). apply added_named. by eapply only_annotated_named.
Qed.
(** A claimed object stays claimed, but for a release by its own syncer. *)
Lemma written_claimed key view subs o r n :
  written srt gvr key view subs o r -> well_named n o -> claimed c o ->
  key <> k \/ done_with key view subs = false -> exists o', r = Some o' /\ claimed c o'.
Proof.
  intros Hw Hn Hc Hor. destruct (written_inv _ _ _ _ _ _ Hw Hn) as (u' & Hs & _ & H).
  eapply stored_claimed; [done|]. destruct (done_with key view subs).
  - destruct Hor as [Hne|]; [|done]. destruct H as (base & -> & (_ & El & Ef & _)).
    apply removed_claimed; [done|]. unfold claimed. by rewrite El, Ef.
  - destruct H as (u2 & (_ & El & _) & -> & Hall & _). destruct Hc as [Hf Hl]. split; [by apply Hall|].
    by rewrite added_labels, El.
Qed.

(** What a view shows. *)
Lemma view_marks n o view :
  is_view c srt gvr o view -> well_named n o ->
  GetName view = n /\ (syncer_finalizer k ∈ GetFinalizers view <-> syncer_finalizer k ∈ GetFinalizers o) /\
  is_Some (map_get (GetLabels o) (state_label k)).
Proof.
  intros [Hl (ctx & Hk & Hr)] [Hn Hd].
  destruct (AfterRead_inv srt ctx gvr o view Hrules Hd Hdiff Hr)
    as (k2 & syncing & url & Hk2 & _ & _ & En & _ & _ & _ & Hf & _).
  rewrite Hk in Hk2. injection Hk2 as <-. split; [congruence|]. split; [|by rewrite Hl].
  rewrite Hf. destruct (decide _) as [Hin|Hin]; [by rewrite list_elem_of_singleton|].
  split; [|done]. by intros ?%not_elem_of_nil.
Qed.
End views.

(** ** Passes *)

(** A relation between the history and the state that every guarded event keeps holds
    where a pass ends, or stops. *)
Lemma runs_keep {A} `{!MapOrder, !ErrorLib, !UnstructuredLib, !StatusErrorLib, !UrlLib, !ClusterLib, !JsonPatchLib}
    c srt gvr cluster ns name (W : World) (P : list ev -> ev -> Prop)
    (R : list ev -> system -> Prop) (m : M ev A) s s' :
  guarded P m [] ->
  (forall h e s s1, P h e -> coherent c srt gvr W h s ->
     effect c srt gvr cluster ns name (api_write (h ++ [e])) e s s1 -> R h s -> R (h ++ [e]) s1) ->
  R [] s -> runs c srt gvr cluster ns name W [] s (m []).1 s' -> exists h, R h s'.
Proof.
  intros (t & Ht & Hg) Hstep HR. rewrite Ht. cbn [app].
  assert (Hg' : forall t1 e t2, [] ++ t = t1 ++ e :: t2 -> P t1 e) by (intros; by eapply (Hg t1)).
  clear Ht Hg. revert Hg' HR. generalize (@nil ev) as h. revert s. induction t as [|e t IH]; intros s h Hg HR Hr.
  { inversion Hr; subst. by exists h. }
  inversion Hr as [|? ? ? ? s1 ? Hc He Hr']; subst; [by exists h|].
  apply (IH s1 (h ++ [e])); [|by eapply Hstep; [eapply Hg| | |]|done].
  intros t1 e1 t2 E. eapply (Hg t1 e1 t2). by rewrite <-app_assoc in E.
Qed.

Section covered.
Variable c : SpecSync.Controller.
Variables name dns : string.

(** Copies are only in one place, and only of an object that is claimed. *)
Definition covered (s : system) : Prop :=
  (forall o, upstream s = Some o -> well_named name o) /\
  forall p, p ∈ downstream s -> p = (dns, name) /\ exists o, upstream s = Some o /\ claimed c o.

Lemma covered_fewer o d d' :
  d' ⊆ d -> covered {| upstream := o; downstream := d |} -> covered {| upstream := o; downstream := d' |}.
Proof. intros Hd [Hn Hc]. split; [done|]. intros p Hp. apply Hc. by apply Hd. Qed.
Lemma covered_empty s : covered s -> (dns, name) ∉ downstream s -> downstream s = ∅.
Proof.
  intros [_ Hc] Hd. apply set_eq. intros p. split; [|set_solver]. intros Hp.
  by destruct (Hc p Hp) as [-> _].
Qed.
(** An upstream write that keeps the object claimed, if it is, or that is made when
    there is no copy. *)
Lemma covered_write s s' :
  covered s -> downstream s' = downstream s ->
  (forall o', upstream s' = Some o' -> well_named name o') ->
  (forall o, upstream s = Some o -> claimed c o -> downstream s <> ∅ ->
     exists o', upstream s' = Some o' /\ claimed c o') ->
  covered s'.
Proof.
  intros [_ Hc] Hd Hn Hk. split; [done|]. intros p Hp. rewrite Hd in Hp.
  destruct (Hc p Hp) as (-> & o & Ho & Hcl). split; [done|]. apply (Hk o); [done..|]. intros E. set_solver.
Qed.
End covered.

Section claims.
Context {MO : MapOrder} {EL : ErrorLib} {CL : ClusterLib} {SL : SchemaLib} {KL : KeyLib}.
Context {B36 : Base36Lib} {NK : NamespaceKeyLib} {JP : JsonPatchLib}.
Context {UL : UnstructuredLib} {SE : StatusErrorLib} {URL : UrlLib}.
Variable c : SpecSync.Controller.
Variable srt : SyncerResourceTransformer.
Variable gvr : GroupVersionResource.
Variables cluster ns name dns : string.
Hypothesis Hrules : default_provider srt.
Hypothesis Hdiff : spec_diff_provider srt.
Hypothesis Hname : plain_name name = true.
#[local] Abbreviation k := (c_syncTargetKey c).

#[local] Abbreviation covered := (covered c name dns).

Lemma covered_through view subs s s' :
  covered s -> write_through c srt gvr view subs s s' ->
  (forall o, upstream s = Some o -> claimed c o -> downstream s <> ∅ ->
     ResourceVersion (u_meta o) = ResourceVersion (u_meta view) -> done_with k view subs = false) ->
  covered s'.
Proof.
  intros Hs [Hd [Hu|(o & Ho & Hw)]] Hdone.
  { destruct s, s'. simpl in *. by subst. }
  destruct (proj1 Hs o Ho) as [Hon Hor]. apply (covered_write _ _ _ s); [done|done| |].
  - by eapply written_named.
  - intros o2 Ho2 Hc Hne. rewrite Ho in Ho2. injection Ho2 as <-. eapply written_claimed; [done..|].
    right. destruct (written_inv srt gvr Hrules _ _ _ _ _ name Hw (conj Hon Hor)) as (_ & _ & Hrv & _).
    by apply (Hdone o).
Qed.

(** *** The spec syncer *)

(** While the pass works on the view [obj]: it applies only what is claimed, and after a
    deletion that found nothing there is no copy. *)
Definition spec_relation `{!World} (obj : Unstructured) (h : list ev) (s : system) : Prop :=
  covered s /\
  (has_my_finalizer c obj = true -> ~ leaving c obj -> exists o, upstream s = Some o /\ claimed c o) /\
  (forall h0 g n, h = h0 ++ [EvRequest Downstream VDelete g dns n NoBody] -> leaving c obj /\
     (n = name -> forall err, api_write h = inl err -> IsNotFound err = true -> downstream s = ∅)).

Lemma claims_not_done obj u : claims c obj u -> done_with k u [] = false.
Proof.
  intros [_ ->]. unfold done_with. rewrite (bool_decide_true (syncer_finalizer k ∈ _)); [by rewrite andb_false_r|].
  unfold GetFinalizers, SetFinalizers. cbn. apply elem_of_app. right. by apply list_elem_of_singleton.
Qed.
Lemma spec_keeps `{!World} obj h e s s1 :
  GetName obj = name -> ownership c dns obj h e ->
  effect c srt gvr cluster ns name (api_write (h ++ [e])) e s s1 ->
  spec_relation obj h s -> spec_relation obj (h ++ [e]) s1.
Proof.
  intros Hn Ho He (Hc & Ha & Hd). pose proof (transformed_plain obj name Hname Hn) as Ht.
  assert (Hlast : forall g n, (forall g' n', e <> EvRequest Downstream VDelete g' dns n' NoBody) ->
    forall h0, h ++ [e] = h0 ++ [EvRequest Downstream VDelete g dns n NoBody] -> False).
  { intros g n Hne h0 E. apply app_inj_tail in E as [_ E]. by apply Hne in E. }
  assert (Hsame : (forall g' n', e <> EvRequest Downstream VDelete g' dns n' NoBody) -> s1 = s ->
    spec_relation obj (h ++ [e]) s1).
  { intros Hne ->. split; [done|]. split; [done|]. intros h0 g n E. by destruct (Hlast g n Hne h0). }
  assert (Hwrite : forall cl v g n m view subs, e = EvRequest (Upstream cl) v g n m (Body view) ->
    claims c obj view \/ releases c dns obj view h -> subs = [] ->
    write_through c srt gvr view subs s s1 -> spec_relation obj (h ++ [e]) s1).
  { intros cl v g n m view subs -> Hor -> Hw. split; [|split].
    - apply (covered_through view [] s); [done|done|]. intros o Hup Hcl Hne Hrv.
      destruct Hor as [Hcm|(h0 & g' & err & cur & -> & Hans & Hnf & _)]; [by eapply claims_not_done|].
      destruct Hne. rewrite Ht in *. by eapply (Hd h0 g' name eq_refl).
    - intros Hmine Hnl. exfalso. destruct Hor as [[Hno _]|(h0 & g' & err & cur & -> & _)]; [congruence|].
      by apply Hnl, (Hd h0 g' _ eq_refl).
    - intros h0 g' n' E. exfalso. eapply (Hlast g' n'); [|exact E]. done. }
  destruct e as [[] [] g n m [|u| | |]| | | | | | | | | | | |]; simpl in Ho, He;
    try (by destruct Ho); try (apply Hsame; [by intros|done]).
  - (* The object is updated. *)
    destruct Ho as [_ Ho]. destruct (decide _) in He; [|by apply Hsame].
    by eapply Hwrite.
  - (* A copy is deleted. *)
    destruct Ho as (-> & -> & Hl). rewrite Ht in *. destruct He as (Hu & Hdown & Hans).
    assert (Hsub : downstream s1 ⊆ downstream s) by (destruct Hdown as [->| ->]; set_solver).
    assert (Hc1 : covered s1).
    { destruct s, s1. simpl in *. subst. by eapply covered_fewer. }
    split; [done|]. split; [by rewrite Hu|]. intros h0 g' n' E. split; [done|]. intros -> err He Hnf.
    apply (covered_empty c name dns); [done|]. by eapply Hans.
  - (* A copy is applied. *)
    destruct Ho as (-> & -> & Hmine & Hnl). rewrite Ht in *. destruct He as [Hu Hdown].
    destruct (Ha Hmine Hnl) as (o & Hup & Hcl). split; [|split].
    + destruct Hc as [Hg Hp]. split; [by rewrite Hu|]. intros p Hin. rewrite Hu. split; [|by exists o].
      destruct Hdown as [E|E]; rewrite E in Hin; [by apply Hp|].
      apply elem_of_union in Hin as [->%elem_of_singleton|Hin]; [done|by apply Hp].
    + rewrite Hu. by exists o.
    + intros h0 g' n' E. exfalso. by eapply (Hlast g' n').
Qed.

Lemma spec_pass_covers (W : World) (DW : DnsWorld) g key s s' :
  SplitMetaClusterNamespaceKey key = inr (cluster, ns, name) ->
  (forall d, downstream_namespace (locator c cluster ns) [] = ([], Ok d) -> d = dns) ->
  (forall view, upstream_Get [] cluster g ns name = inr view ->
     exists o, upstream s = Some o /\ is_view c srt gvr o view) ->
  runs c srt gvr cluster ns name W [] s (SpecSync.process c g key []).1 s' -> covered s -> covered s'.
Proof.
  intros Hkey Hdns Hview Hruns Hs. destruct (upstream_Get [] cluster g ns name) as [err|obj] eqn:Hget.
  - pose proof (process_gone_guarded c g key cluster ns name err [] Hkey Hget) as Hg.
    edestruct (runs_keep c srt gvr cluster ns name W _ (fun _ s => covered s) _ s s' Hg) as [h H]; [|done..].
    intros h e s1 s2 He _ Heff Hc.
    destruct e as [[] [] ? n m [|u| | |]| | | | | | | | | | | |]; simpl in He, Heff; try done; [|by subst].
    destruct Heff as (Hu & Hdown & _). destruct s1, s2. simpl in *. subst. eapply covered_fewer; [|done].
    destruct Hdown as [->| ->]; set_solver.
  - destruct (Hview obj eq_refl) as (o & Hup & Hv). destruct (proj1 Hs o Hup) as [Hon Hor].
    destruct (view_marks c srt gvr Hrules Hdiff name o obj Hv (conj Hon Hor)) as (Hn & Hfin & Hl).
    pose proof (process_guarded c g key cluster ns name dns obj [] Hkey Hdns Hget) as Hg.
    edestruct (runs_keep c srt gvr cluster ns name W _ (spec_relation obj) _ s s' Hg) as [h [H _]]; [| |done|done].
    + intros h e s1 s2 He _ Heff. by apply spec_keeps.
    + split; [done|]. split; [|intros h0 ? ? E; by destruct h0]. intros Hmine _. exists o. split; [done|].
      split; [|done]. by apply Hfin, my_finalizer_view.
Qed.

(** *** The status syncer *)

Lemma status_pass_covers (W : World) g key s s' :
  SplitMetaNamespaceKey key = inr (dns, name) ->
  runs c srt gvr cluster ns name W [] s (StatusSync.process c g key []).1 s' -> covered s -> covered s'.
Proof.
  intros Hkey Hruns Hs. pose proof (status_process_guarded c g key dns name [] Hkey) as Hg.
  edestruct (runs_keep c srt gvr cluster ns name W _ (fun _ s => covered s) _ s s' Hg) as [h H]; [|done..].
  intros h e s1 s2 (l & v & uns & u & cur & -> & _ & Hcur & Hv) [Hup Hdown] Heff Hc.
  destruct v; try done; simpl in Heff; (destruct (decide _) in Heff; [|by subst]);
    (eapply covered_through; [done..|]); intros o Ho Hcl Hne Hrv.
  - destruct Hv as [(_ & _ & Hm & _)|(-> & err & Hnf & He)].
    + rewrite Hm in Hrv. cbn in Hrv. destruct (proj1 Hc o Ho) as [Hon Hor].
      pose proof (Hup _ _ _ _ _ _ Hcur Ho (eq_sym Hrv)) as Hview.
      destruct (view_marks c srt gvr Hrules Hdiff name o cur Hview (conj Hon Hor)) as (_ & Hfin & _).
      unfold done_with, GetFinalizers. rewrite Hm. cbn.
      rewrite (bool_decide_true (syncer_finalizer k ∈ _)); [by rewrite andb_false_r|]. by apply Hfin, Hcl.
    + destruct Hne. apply (covered_empty c name dns); [done|]. by eapply Hdown.
  - unfold done_with. by rewrite andb_false_r.
Qed.
End claims.

(** ** All the steps *)

Section life.
Context {MO : MapOrder} {EL : ErrorLib} {CL : ClusterLib} {SL : SchemaLib} {KL : KeyLib}.
Context {B36 : Base36Lib} {NK : NamespaceKeyLib} {JP : JsonPatchLib}.
Context {UL : UnstructuredLib} {SE : StatusErrorLib} {URL : UrlLib}.
Variable c : SpecSync.Controller.
Variable srt : SyncerResourceTransformer.
Variable gvr : GroupVersionResource.
Variables cluster ns name dns : string.
Hypothesis Hrules : default_provider srt.
Hypothesis Hdiff : spec_diff_provider srt.
Hypothesis Hname : plain_name name = true.
#[local] Abbreviation step := (step c srt gvr cluster ns name dns).
#[local] Abbreviation covered := (covered c name dns).

Definition initial : system := {| upstream := None; downstream := ∅ |}.

Lemma initial_covered : covered initial.
Proof. split; [done|]. intros p Hp. by apply not_elem_of_empty in Hp. Qed.

(** Another writer of the object [o], which stays named and claimed. *)
Lemma covered_other o r d :
  covered {| upstream := Some o; downstream := d |} ->
  (well_named name o -> forall o', r = Some o' -> well_named name o') ->
  (well_named name o -> claimed c o -> exists o', r = Some o' /\ claimed c o') ->
  covered {| upstream := r; downstream := d |}.
Proof.
  intros Hs Hn Hk. pose proof (proj1 Hs o eq_refl) as Ho.
  apply (covered_write _ _ _ {| upstream := Some o; downstream := d |}); [done|done|by apply Hn|].
  intros o2 [= <-] Hc _. by apply Hk.
Qed.

Lemma covered_preserved s s' : step s s' -> covered s -> covered s'.
Proof.
  intros [W DW g key s1 s2 Hkey Hdns Hv Hr|W g key s1 s2 Hkey Hr|secretNS sc cl g o p r d Hin Hst Hp
    |key view subs o r d Hne Hw|o r d Hdel|o u r d Hn Hd Hf Hl Hst|o d Hn Hd|o d d' Hsub] Hs.
  - by eapply spec_pass_covers.
  - by eapply status_pass_covers.
  - destruct (scheduled_marks c secretNS sc cl g o _ _ p name Hin eq_refl eq_refl Hst) as [H1 H2].
    apply (covered_other o); [done| |].
    + intros Hn. eapply stored_named; [done|by apply H1].
    + intros _ Hc. eapply stored_claimed; [done|by apply H2].
  - apply (covered_other o); [done| |]; intros Hn; [by eapply written_named|].
    intros Hc. eapply written_claimed; [done..|]. by left.
  - apply (covered_other o); [done| |].
    + intros Hn o' ->. destruct Hdel as [[_ ?]|(o1 & [= <-] & Hm & _)]; [done|]. by eapply same_marks_named.
    + intros _ Hc. destruct Hdel as [[Hf _]|(o1 & -> & Hm & _)].
      * destruct Hc as [Hc _]. rewrite Hf in Hc. by apply not_elem_of_nil in Hc.
      * exists o1. split; [done|]. by eapply same_marks_claimed.
  - apply (covered_other o); [done| |].
    + intros _. by eapply stored_named.
    + intros _ [Hc1 Hc2]. eapply stored_claimed; [done|]. split; [by apply Hf|]. by rewrite Hl.
  - destruct Hs as [_ Hc]. split; [by intros o' [= <-]|]. intros p Hp. by destruct (Hc p Hp) as (_ & ? & ? & _).
  - by eapply covered_fewer.
Qed.

Lemma covered_invariant s : rtc step initial s -> covered s.
Proof.
  intros Hr. pose proof initial_covered as H. revert H. induction Hr as [|s1 s2 s3 Hs _ IH]; [done|].
  intros H. by apply IH, (covered_preserved s1).
Qed.

End life.

(** * Examples *)

Module Examples.
#[local] Existing Instances canonical_order simple_errors simple_clusters simple_schema
  SpecSync.Examples.keys SpecSync.Examples.b36 SpecSync.Examples.nskeys SpecSync.Examples.patches
  SpecSync.Examples.dns_world Transformer.Examples.simple_unstructured
  Transformer.Examples.simple_status_errors Transformer.Examples.simple_urls.

(** A config map in a namespace of the workspace ws. *)
Definition cfg : SpecSync.Controller := SpecSync.Examples.cfg.
Definition srt : SyncerResourceTransformer := Transformer.Examples.default_srt.
Definition dns : string := SpecSync.Examples.target_namespace.
#[local] Abbreviation step := (step cfg srt configMapGVR "ws" "ns" "cm" dns).
Definition created : Unstructured :=
  SpecSync.Examples.object "v1" "ConfigMap" "cm" None (Some {[ "kcp.io/cluster" := "ws" ]}) [].

(** The scheduler's controller, with the labels and annotations of the namespace. *)
Definition scheduler (l a : gomap) : ResourceScheduler.Controller :=
  let w := ResourceScheduler.Examples.world (mk_meta "cm" "ns" None None []) in {|
  NamespaceLister_Get _ _ := inr (mk_meta "ns" "" l a []);
  PlacementLister_List := PlacementLister_List w;
  SyncTarget_ByIndex _ := inr [ResourceScheduler.Examples.target];
  Informers := Informers w; ForResource := ForResource w; HasSynced := HasSynced w;
  ListAll := ListAll w; ListNamespace := ListNamespace w; ByIndex := ByIndex w;
  GetObject := GetObject w; clock := clock w; DoDelete := DoDelete w; DoPatch := DoPatch w |}.
Definition only_patch (sc : ResourceScheduler.Controller) (o : Unstructured) : ResourcePatch :=
  match trace (reconcileResource "secrets" sc "ws" (u_meta o) configMapGVR) with
  | [EvPatch _ _ _ _ p] => p
  | _ => {| patch_UID := ""; patch_ResourceVersion := ""; patch_labels := None;
            patch_annotations := None; patch_finalizers := None |}
  end.
Definition scheduled : Unstructured :=
  patched (only_patch (scheduler (Some {[ state_label "key" := "Sync" ]}) None) created) created.

(** The caches of the syncer, and its views. *)
Definition caches (view : Unstructured) (found : bool) : World := {|
  api_write _ := inr tt; api_get _ := inl SpecSync.Examples.not_found; getShardAccess _ _ := inr true;
  downstream_Informers _ := ({[ namespaceGVR; configMapGVR ]}, []);
  upstream_Informers _ _ := ({[ configMapGVR ]}, []);
  upstream_Get _ _ _ _ _ := inr view;
  downstream_Get _ _ _ m :=
    if decide (m = dns) then inr (new_namespace cfg dns (locator cfg "ws" "ns"))
    else if found then inr view else inl SpecSync.Examples.not_found;
  downstream_Namespaces _ := inr [] |}.
Definition view_of (o : Unstructured) : Unstructured := Transformer.Examples.read_as "key" o.
Definition written_object (o view : Unstructured) : Unstructured :=
  Transformer.Examples.res_or o
    (BeforeWrite (RI := Transformer.Examples.holds o) srt (Transformer.Examples.ctx_of "key") configMapGVR view [] []).2.
Definition claim (o : Unstructured) : Unstructured :=
  SetFinalizers (view_of o) (GetFinalizers (view_of o) ++ [my_finalizer cfg]).
Definition claimed_object : Unstructured := written_object scheduled (claim scheduled).
Definition unscheduled : Unstructured :=
  patched (only_patch (scheduler None None) claimed_object) claimed_object.
Definition released_object : Unstructured := written_object unscheduled (released "key" (view_of unscheduled)).

Lemma same_marks_refl u : same_marks u u.
Proof. by split_and!. Qed.
Lemma stored_itself o u : stored o u (Some u).
Proof. right. exists u. split; [done|apply same_marks_refl]. Qed.
Lemma viewed o :
  bool_decide (map_get (GetLabels o) (state_label "key") = Some "Sync") = true ->
  AfterRead srt (Transformer.Examples.ctx_of "key") configMapGVR o = inr (view_of o) ->
  is_view cfg srt configMapGVR o (view_of o).
Proof. intros Hl Hr. split; [by apply bool_decide_eq_true in Hl|]. by exists (Transformer.Examples.ctx_of "key"). Qed.
Lemma caches_coherent o found d h :
  is_view cfg srt configMapGVR o (view_of o) -> (found = false -> d = ∅) ->
  coherent cfg srt configMapGVR (caches (view_of o) found) h {| upstream := Some o; downstream := d |}.
Proof.
  intros Hv Hd. split.
  - by intros cl g n m view o' [= <-] [= <-] _.
  - intros g n m err. cbv beta iota delta [caches downstream_Get]. destruct (decide (m = dns)); [discriminate|].
    destruct found; [discriminate|]. intros _ _. rewrite (Hd eq_refl). apply not_elem_of_empty.
Qed.
Lemma scheduling sc o d :
  (exists st, getSyncTargetFromKey sc "key" = inr (Some st)) ->
  trace (reconcileResource "secrets" sc "ws" (u_meta o) configMapGVR)
    = [EvPatch configMapGVR "ws" (GetNamespace o) (GetName o) (only_patch sc o)] ->
  step {| upstream := Some o; downstream := d |}
    {| upstream := Some (patched (only_patch sc o) o); downstream := d |}.
Proof.
  intros Hst Ht. eapply (step_schedule _ _ _ _ _ _ _ "secrets" sc "ws" configMapGVR); [|done|apply stored_itself].
  rewrite Ht. apply list_elem_of_here.
Qed.
Lemma writing o view d :
  BeforeWrite (RI := Transformer.Examples.holds o) srt (Transformer.Examples.ctx_of "key") configMapGVR view [] []
    = ([get_event view], Ok (written_object o view)) ->
  write_through cfg srt configMapGVR view []
    {| upstream := Some o; downstream := d |} {| upstream := Some (written_object o view); downstream := d |}.
Proof.
  intros Hw. split; [done|]. right. exists o. split; [done|].
  exists (Transformer.Examples.holds o), (Transformer.Examples.ctx_of "key"), [], [get_event view], (written_object o view).
  split_and!; [done|done| |done|apply stored_itself]. intros h u b. cbn. rewrite last_snoc. intros [= <-]. auto.
Qed.

(** A pass of the spec syncer whose caches show [o]. *)
Lemma spec_passing o found d s' :
  is_view cfg srt configMapGVR o (view_of o) ->
  runs cfg srt configMapGVR "ws" "ns" "cm" (caches (view_of o) found) [] {| upstream := Some o; downstream := d |}
    (let W := caches (view_of o) found in SpecSync.process cfg configMapGVR "ws|ns/cm" []).1 s' ->
  step {| upstream := Some o; downstream := d |} s'.
Proof.
  intros Hv Hr. eapply (step_spec _ _ _ _ _ _ _ (caches (view_of o) found) SpecSync.Examples.dns_world configMapGVR "ws|ns/cm");
    [by vm_compute| | |exact Hr].
  - intros d' Hd. vm_compute in Hd. injection Hd as <-. by vm_compute.
  - intros view [= <-]. exists o. by split.
Qed.
Lemma status_passing o found d s' :
  runs cfg srt configMapGVR "ws" "ns" "cm" (caches (view_of o) found) [] {| upstream := Some o; downstream := d |}
    (let W := caches (view_of o) found in StatusSync.process cfg configMapGVR (dns +:+ "/cm") []).1 s' ->
  step {| upstream := Some o; downstream := d |} s'.
Proof.
  intros Hr. eapply (step_status _ _ _ _ _ _ _ (caches (view_of o) found) configMapGVR (dns +:+ "/cm"));
    [by vm_compute|exact Hr].
Qed.
(** The events of a pass, each made in a coherent state. *)
Ltac event Hv := eapply runs_event; [by apply caches_coherent| |cbn [app]].

Lemma claiming :
  step {| upstream := Some scheduled; downstream := ∅ |} {| upstream := Some claimed_object; downstream := ∅ |}.
Proof.
  assert (Hv : is_view cfg srt configMapGVR scheduled (view_of scheduled)) by (apply viewed; vm_compute; reflexivity).
  apply (spec_passing _ false); [done|].
  assert ((let W := caches (view_of scheduled) false in SpecSync.process cfg configMapGVR "ws|ns/cm" []).1
    = [EvCancelCleaning dns; EvRequest (Upstream "ws") VUpdate configMapGVR "ns" "cm" (Body (claim scheduled))])
    as -> by (vm_compute; reflexivity).
  event Hv; [done|]. event Hv; [|apply runs_stop]. apply writing. vm_compute. reflexivity.
Qed.
Lemma applying :
  step {| upstream := Some claimed_object; downstream := ∅ |}
    {| upstream := Some claimed_object; downstream := {[ (dns, "cm") ]} |}.
Proof.
  assert (Hv : is_view cfg srt configMapGVR claimed_object (view_of claimed_object)) by (apply viewed; vm_compute; reflexivity).
  apply (spec_passing _ false); [done|].
  assert (exists u, (let W := caches (view_of claimed_object) false in SpecSync.process cfg configMapGVR "ws|ns/cm" []).1
    = [EvCancelCleaning dns; EvRequest Downstream VApply configMapGVR dns "cm" (Body u)])
    as [u ->] by (eexists; vm_compute; reflexivity).
  event Hv; [done|]. event Hv; [|apply runs_stop]. split; [done|]. right. cbn [downstream]. by rewrite union_empty_r_L.
Qed.
Definition with_copy : system := {| upstream := Some claimed_object; downstream := {[ (dns, "cm") ]} |}.
(** The object is created, scheduled, claimed and applied. *)
Lemma arrives : rtc step initial with_copy.
Proof.
  eapply rtc_l; [by apply (step_create _ _ _ _ _ _ _ created)|].
  eapply rtc_l; [apply (scheduling (scheduler (Some {[ state_label "key" := "Sync" ]}) None)); [by eexists|vm_compute; reflexivity]|].
  eapply rtc_l; [exact claiming|]. eapply rtc_l; [exact applying|]. apply rtc_refl.
Qed.


(** The namespace leaves the SyncTarget: the object is marked, its copy is deleted, and
    the status syncer releases it. *)
Lemma unscheduled_viewed : is_view cfg srt configMapGVR unscheduled (view_of unscheduled).
Proof. apply viewed; vm_compute; reflexivity. Qed.
Lemma deleting :
  step {| upstream := Some unscheduled; downstream := {[ (dns, "cm") ]} |}
    {| upstream := Some unscheduled; downstream := ∅ |}.
Proof.
  pose proof unscheduled_viewed as Hv.
  apply (spec_passing _ true); [done|].
  assert ((let W := caches (view_of unscheduled) true in SpecSync.process cfg configMapGVR "ws|ns/cm" []).1
    = [EvCancelCleaning dns; EvRequest Downstream VDelete configMapGVR dns "cm" NoBody; EvPlanCleaning dns])
    as -> by (vm_compute; reflexivity).
  event Hv; [done|]. event Hv; [|apply runs_stop]. split; [done|]. split; [|intros err [=]].
  right. cbn [downstream]. by rewrite difference_diag_L.
Qed.
Lemma releasing :
  step {| upstream := Some unscheduled; downstream := ∅ |} {| upstream := Some released_object; downstream := ∅ |}.
Proof.
  pose proof unscheduled_viewed as Hv.
  apply (status_passing _ false).
  assert ((let W := caches (view_of unscheduled) false in StatusSync.process cfg configMapGVR (dns +:+ "/cm") []).1
    = [EvRequest (Upstream "ws") VUpdate configMapGVR "ns" "cm" (Body (released "key" (view_of unscheduled)))])
    as -> by (vm_compute; reflexivity).
  event Hv; [|apply runs_stop]. apply writing. vm_compute. reflexivity.
Qed.
Example leaves :
  rtc step with_copy {| upstream := Some released_object; downstream := ∅ |} /\
  GetFinalizers released_object = [] /\ map_get (GetLabels released_object) (state_label "key") = None.
Proof.
  split; [|by vm_compute].
  eapply rtc_l; [apply (scheduling (scheduler None None)); [by eexists|vm_compute; reflexivity]|].
  eapply rtc_l; [exact deleting|]. eapply rtc_l; [exact releasing|]. apply rtc_refl.
Qed.
End Examples.
