(* ===== verification/Server.v ===== *)
(** * The start of the server ([tmc/server], [config/crds])

    Module [Crds]: how the definitions of the server's own types are created, and waited
    for. Module [Hooks]: the hooks that the server registers, which the API server runs in
    goroutines of their own once it listens, and the two channels by which they wait for
    each other. *)

From S2P Require Import Prelude Platform ApiTypes ApiResource.
Local Open Scope nat_scope.

Module Crds.
Inductive crd_call `{!SchemaCompatLib} :=
  | GetCRD (name : string)
  | CreateCRD (crd : CustomResourceDefinition)
  | UpdateCRD (crd : CustomResourceDefinition).

Section crds.
Context {EL : ErrorLib} {SC : SchemaCompatLib} {PL : PollLib}.
#[local] Abbreviation CM := (M crd_call) (only parsing).
Variable GetAnswer : list crd_call -> result CustomResourceDefinition.
Variable CreateAnswer : list crd_call -> result CustomResourceDefinition.
Variable UpdateAnswer : list crd_call -> result CustomResourceDefinition.
(** The embedded files, read as YAML; and the schema of any object. *)
Variable Unmarshal : string -> result CustomResourceDefinition.
Variable any_object : JSONSchemaProps.
(** The rounds of the two polls. *)
Variables waits retries : nat.

Definition crd_name (crd : CustomResourceDefinition) : string := Name (crd_Meta crd).
Definition with_version (crd : CustomResourceDefinition) (version : string) : CustomResourceDefinition :=
  let m := crd_Meta crd in {|
  crd_Meta := {| Name := Name m; Namespace := Namespace m; UID := UID m; ResourceVersion := version;
    Labels := Labels m; Annotations := Annotations m; Finalizers := Finalizers m;
    DeletionTimestamp := DeletionTimestamp m; CreationTimestamp := CreationTimestamp m;
    OwnerReferences := OwnerReferences m |};
  crd_Generation := crd_Generation crd; crd_Group := crd_Group crd; crd_Names := crd_Names crd;
  crd_Scope := crd_Scope crd; crd_Versions := crd_Versions crd; crd_Conditions := crd_Conditions crd |}.

(** The condition of the wait in [CreateSingle]. *)
Definition Established : string := "Established".
Definition established (name : string) : CM (option unit) :=
  r ← try (call (GetCRD name) GetAnswer);
  match r with
  | inl err =>
      if IsNotFound err then fail (ErrMsg ("CRD " +:+ name +:+ " was deleted before being established"))
      else fail (ErrWrap ("error fetching CRD " +:+ name) err)
  | inr crd => mret (if IsCRDConditionTrue (crd_Conditions crd) Established then Some tt else None)
  end.
(** The existing definition or the created one, and whether it is to be updated. *)
Definition get_or_create (rawCRD : CustomResourceDefinition) : CM (CustomResourceDefinition * bool) :=
  r ← try (call (GetCRD (crd_name rawCRD)) GetAnswer);
  match r with
  | inr crd => mret (crd, true)
  | inl err =>
      if IsNotFound err then
        c ← try (call (CreateCRD rawCRD) CreateAnswer);
        match c with
        | inr crd => mret (crd, false)
        | inl err =>
            if IsAlreadyExists err then
              g ← try (call (GetCRD (crd_name rawCRD)) GetAnswer);
              match g with
              | inl err => fail (ErrWrap ("error getting CRD " +:+ crd_name rawCRD) err)
              | inr crd => mret (crd, true)
              end
            else fail (ErrWrap ("error creating CRD " +:+ crd_name rawCRD) err)
        end
      else fail (ErrWrap ("error fetching CRD " +:+ crd_name rawCRD) err)
  end.
(** [CreateSingle]: it writes the resource version into the definition that it is given,
    which the caller keeps, also when it returns an error. *)
Definition CreateSingle (rawCRD : CustomResourceDefinition)
    : CM (CustomResourceDefinition * result unit) :=
  found ← try (get_or_create rawCRD);
  match found with
  | inl err => mret (rawCRD, inl err)
  | inr (crd, updateNeeded) =>
      let rawCRD := if (updateNeeded : bool) then with_version rawCRD (ResourceVersion (crd_Meta crd)) else rawCRD in
      updated ← (if updateNeeded then try (call (UpdateCRD rawCRD) UpdateAnswer;; mret tt) else mret (inr tt));
      match updated with
      | inl err => mret (rawCRD, inl err)
      | inr _ => e ← try (poll_infinite waits (established (crd_name rawCRD))); mret (rawCRD, e)
      end
  end.

(** ** [tmc/server/bootstrap] *)

(** The types of the server; the definitions in the cache server have no schema and no
    subresources. *)
Definition bootstrapped_types : list (string * string) :=
  [("workload.kcp.io", "synctargets"); ("scheduling.kcp.io", "locations");
   ("scheduling.kcp.io", "placements"); ("apiresource.kcp.io", "apiresourceimports");
   ("apiresource.kcp.io", "negotiatedapiresources")].
Definition wipe (v : CRDVersion) : CRDVersion := {|
  v_Name := v_Name v; v_Served := v_Served v; v_Storage := v_Storage v;
  v_Schema := Some (Some any_object); v_Subresources := None;
  v_AdditionalPrinterColumns := v_AdditionalPrinterColumns v; v_Deprecated := v_Deprecated v |}.
Definition wiped (crd : CustomResourceDefinition) : CustomResourceDefinition := {|
  crd_Meta := crd_Meta crd; crd_Generation := crd_Generation crd; crd_Group := crd_Group crd;
  crd_Names := crd_Names crd; crd_Scope := crd_Scope crd; crd_Versions := wipe <$> crd_Versions crd;
  crd_Conditions := crd_Conditions crd |}.
Fixpoint read_crds (types : list (string * string)) : res (list CustomResourceDefinition) :=
  match types with
  | [] => Ok []
  | (group, resource) :: types =>
      match Unmarshal (group +:+ "_" +:+ resource +:+ ".yaml") with
      | inl err => Panic "failed to unmarshal resource"
      | inr crd => crds ← read_crds types; mret (wiped crd :: crds)
      end
  end.
(** One round: the definitions in order, up to the first error. *)
Fixpoint create_all (crds : list CustomResourceDefinition)
    : CM (list CustomResourceDefinition * option unit) :=
  match crds with
  | [] => mret ([], Some tt)
  | crd :: rest =>
      '(crd, r) ← CreateSingle crd;
      match r with
      | inl _ => mret (crd :: rest, None)
      | inr _ => '(rest, done) ← create_all rest; mret (crd :: rest, done)
      end
  end.
Definition Bootstrap : CM unit :=
  crds ← lift (read_crds bootstrapped_types);
  '(_, _) ← PollImmediateInfinite retries create_all crds;
  mret tt.
End crds.
End Crds.

Module Hooks.
(** What a hook of the server does, once what it waits for is there. *)
Inductive work :=
  | CreateDefinitions | StartInformers | BootstrapRoot | BootstrapCompute
  | StartController (controller : string).
#[global] Instance work_eq_dec : EqDecision work.
Proof. solve_decision. Defined.
Record hook := { hook_name : string; hook_work : work }.
#[global] Instance hook_eq_dec : EqDecision hook.
Proof. solve_decision. Defined.
Definition postStartHookName (controllerName : string) : string := "tmc-start-" +:+ controllerName.
Definition controller_hook (controllerName : string) : hook :=
  {| hook_name := postStartHookName controllerName; hook_work := StartController controllerName |}.
Definition exports_controller : string := "tmc-synctarget-export-controller".
Definition cache_hook : hook := {| hook_name := "tmc-populate-cache-server"; hook_work := CreateDefinitions |}.
Definition informers_hook : hook := {| hook_name := "tmc-start-informers"; hook_work := StartInformers |}.
Definition bootstrap_hook : hook := {| hook_name := "tmcBootstrap"; hook_work := BootstrapRoot |}.
Definition compute_hook : hook := {| hook_name := "rootComputeBootstrap"; hook_work := BootstrapCompute |}.
(** [Run], in its order; the hook of the exports controller has the bare name. *)
Definition hooks : list hook :=
  [ cache_hook; informers_hook; bootstrap_hook; controller_hook "tmc-apiresource"; controller_hook "tmc-synctarget-heartbeat";
    controller_hook "tmc-synctarget-controller"; controller_hook "tmc-scheduling-location-status-controller";
    controller_hook "tmc-workload-resource-scheduler";
    {| hook_name := exports_controller; hook_work := StartController exports_controller |};
    controller_hook "tmc-workloads-replicate-clusterrole";
    controller_hook "tmc-workloads-replicate-clusterrolebinding";
    controller_hook "tmc-workload-replicate-logicalcluster";
    controller_hook "tmc-namespace-scheduling-placement"; controller_hook "tmc-workload-placement";
    controller_hook "tmc-scheduling-placement"; controller_hook "tmc-workload-apiexport";
    controller_hook "tmc-workload-default-location";
    compute_hook ].

Section registration.
(** The constructors of a controller and of its clients, and the registry of the API
    server, which takes a new name. *)
Variable NewController : string -> option error.
Class HookLib := {
  AddPostStartHook : list string -> string -> option error;
  AddPostStartHook_new names n : n <> "" -> n ∉ names -> AddPostStartHook names n = None;
  AddPostStartHook_taken names n : n ∈ names -> is_Some (AddPostStartHook names n);
}.
Context {HL : HookLib}.
Definition install (names : list string) (h : hook) : result (list string) :=
  match (match hook_work h with StartController c => NewController c | _ => None end) with
  | Some err => inl err
  | None =>
      match AddPostStartHook names (hook_name h) with
      | Some err => inl err
      | None => inr (names ++ [hook_name h])
      end
  end.
(** [Run]: it returns at the first error, before the server listens. *)
Fixpoint register (names : list string) (hooks : list hook) : result (list string) :=
  match hooks with
  | [] => inr names
  | h :: hooks => match install names h with inl err => inl err | inr names => register names hooks end
  end.
End registration.

(** ** The hooks at work *)

(** [syncedPhase1Ch] and [syncedPhase2Ch] are closed or open; [waiting] are the hooks that
    have not returned. The API server ends the process when a hook returns an error. *)
Record server := {
  core_synced : bool; stopped : bool; definitions : bool; phase1 : bool; informers : bool; phase2 : bool;
  waiting : gset string; running : gset string; root_assets : bool; compute_assets : bool; exited : bool }.
Definition initial : server := {|
  core_synced := false; stopped := false; definitions := false; phase1 := false; informers := false;
  phase2 := false; waiting := list_to_set (hook_name <$> hooks); running := ∅;
  root_assets := false; compute_assets := false; exited := false |}.

(** What a hook waits for: the sync of kcp's own server, or a channel. *)
Definition ready (w : work) (s : server) : bool :=
  match w with
  | CreateDefinitions | BootstrapCompute => core_synced s
  | StartInformers | BootstrapRoot => phase1 s
  | StartController _ => phase2 s
  end.
(** A hook that goes through. [root_shard]: the assets are only made on the root shard. *)
Definition perform (root_shard : bool) (h : hook) (s : server) : server :=
  let w := hook_work h in {|
  core_synced := core_synced s; stopped := stopped s;
  definitions := (if w is CreateDefinitions then true else definitions s);
  phase1 := (if w is CreateDefinitions then true else phase1 s);
  informers := (if w is StartInformers then true else informers s);
  phase2 := (if w is StartInformers then true else phase2 s);
  waiting := waiting s ∖ {[ hook_name h ]};
  running := (if w is StartController c then {[ c ]} ∪ running s else running s);
  root_assets := (if w is BootstrapRoot then root_shard || root_assets s else root_assets s);
  compute_assets := (if w is BootstrapCompute then root_shard || compute_assets s else compute_assets s);
  exited := exited s |}.
(** A hook that stops waiting, or whose work is cut off, because the server stops: only
    the one that starts the informers returns an error. *)
Definition leave (h : hook) (s : server) : server := {|
  core_synced := core_synced s; stopped := stopped s; definitions := definitions s; phase1 := phase1 s;
  informers := informers s; phase2 := phase2 s; waiting := waiting s ∖ {[ hook_name h ]};
  running := running s; root_assets := root_assets s; compute_assets := compute_assets s;
  exited := (if hook_work h is StartInformers then true else exited s) |}.
Definition set_core (s : server) : server := {|
  core_synced := true; stopped := stopped s; definitions := definitions s; phase1 := phase1 s;
  informers := informers s; phase2 := phase2 s; waiting := waiting s; running := running s;
  root_assets := root_assets s; compute_assets := compute_assets s; exited := exited s |}.
Definition stop (s : server) : server := {|
  core_synced := core_synced s; stopped := true; definitions := definitions s; phase1 := phase1 s;
  informers := informers s; phase2 := phase2 s; waiting := waiting s; running := running s;
  root_assets := root_assets s; compute_assets := compute_assets s; exited := exited s |}.

Section steps.
Variable root_shard : bool.
(** A select takes either case when both are there. *)
Inductive hook_step : server -> server -> Prop :=
  | step_perform h s :
      h ∈ hooks -> hook_name h ∈ waiting s -> ready (hook_work h) s = true -> hook_step s (perform root_shard h s)
  | step_leave h s :
      h ∈ hooks -> hook_name h ∈ waiting s -> stopped s = true -> hook_step s (leave h s).
Inductive step : server -> server -> Prop :=
  | step_hook s s' : hook_step s s' -> step s s'
  | step_core s : step s (set_core s)
  | step_stop s : step s (stop s).
End steps.
Definition controllers : gset string :=
  list_to_set (omap (fun h => if hook_work h is StartController c then Some c else None) hooks).
End Hooks.

(** * Theorems *)

(** ** The definitions *)

Section crds.
Context {EL : ErrorLib} {SC : SchemaCompatLib} {PL : PollLib}.
Variable GetAnswer : list Crds.crd_call -> result CustomResourceDefinition.
Variable CreateAnswer : list Crds.crd_call -> result CustomResourceDefinition.
Variable UpdateAnswer : list Crds.crd_call -> result CustomResourceDefinition.
Variable Unmarshal : string -> result CustomResourceDefinition.
Variable any_object : JSONSchemaProps.
Variables waits retries : nat.
#[local] Abbreviation CreateSingle := (Crds.CreateSingle GetAnswer CreateAnswer UpdateAnswer waits).
#[local] Abbreviation Bootstrap :=
  (Crds.Bootstrap GetAnswer CreateAnswer UpdateAnswer Unmarshal any_object waits retries).
#[local] Abbreviation create_all := (Crds.create_all GetAnswer CreateAnswer UpdateAnswer waits).

(** The last look at a definition found it established. *)
Definition seen_established (h : list Crds.crd_call) (name : string) : Prop :=
  last h = Some (Crds.GetCRD name) /\
  exists crd, GetAnswer h = inr crd /\ IsCRDConditionTrue (crd_Conditions crd) Crds.Established = true.
(** Such a look is part of the history. *)
Definition was_established (h : list Crds.crd_call) (name : string) : Prop :=
  exists h1, h1 `prefix_of` h /\ seen_established h1 name.

(** What the calls of the server's start are about: a definition is created as it is
    given, and an update has the version of the object that was found. *)
Definition of_crds (names : list string) (h : list Crds.crd_call) (e : Crds.crd_call) : Prop :=
  match e with
  | Crds.GetCRD n => n ∈ names
  | Crds.CreateCRD crd => Crds.crd_name crd ∈ names /\ last h = Some (Crds.GetCRD (Crds.crd_name crd))
  | Crds.UpdateCRD crd => Crds.crd_name crd ∈ names /\ last h = Some (Crds.GetCRD (Crds.crd_name crd)) /\
      exists found, GetAnswer h = inr found /\ ResourceVersion (crd_Meta crd) = ResourceVersion (crd_Meta found)
  end.
Ltac walk := repeat (guarded_step; try (by cbn; auto using last_snoc)).
Lemma get_or_create_found crd h h' found :
  Crds.get_or_create GetAnswer CreateAnswer crd h = (h', Ok (found, true)) ->
  last h' = Some (Crds.GetCRD (Crds.crd_name crd)) /\ GetAnswer h' = inr found.
Proof.
  unfold Crds.get_or_create. intros (h1 & r & Hr & H)%bind_inv. apply try_inv in Hr.
  unfold call in Hr. injection Hr as <- Hr. destruct r as [e|c].
  - destruct (IsNotFound e); [|done]. apply bind_inv in H as (h2 & r2 & Hr2 & H).
    apply try_inv in Hr2. unfold call in Hr2. injection Hr2 as <- Hr2. destruct r2 as [e2|c2]; [|done].
    destruct (IsAlreadyExists e2); [|done]. apply bind_inv in H as (h3 & r3 & Hr3 & H).
    apply try_inv in Hr3. unfold call in Hr3. injection Hr3 as <- Hr3. destruct r3 as [e3|c3]; [discriminate H|].
    injection H as <- <-. split; [by rewrite last_snoc|]. by apply of_result_inj.
  - injection H as <- <-. split; [by rewrite last_snoc|]. by apply of_result_inj.
Qed.
Lemma CreateSingle_guarded names crd h :
  Crds.crd_name crd ∈ names -> guarded (of_crds names) (CreateSingle crd) h.
Proof.
  intros Hin. unfold Crds.CreateSingle. apply guarded_bind; [|intros h1 [e|[c updated]] H1]; [|apply guarded_ret|].
  { unfold Crds.get_or_create. walk; try (cbn; split; [done|]).
    match goal with H : try _ _ = _ |- _ => apply try_inv in H; unfold call in H; injection H as <- _ end.
    by rewrite last_snoc. }
  apply guarded_bind; [|intros h2 [e|u] _]; [|apply guarded_ret|].
  - destruct updated; [|apply guarded_ret]. apply try_inv, get_or_create_found in H1 as [Hl Hf].
    apply guarded_try, guarded_bind; [apply guarded_call|intros; apply guarded_ret].
    split; [exact Hin|]. split; [exact Hl|]. by exists c.
  - apply guarded_bind; [|intros; apply guarded_ret]. apply guarded_try. unfold poll_infinite.
    apply guarded_bind; [|intros ? []; intros; apply guarded_ret]. apply (guarded_poll _ (fun _ => True)); [|done..]. intros v h3 _.
    unfold Crds.established. walk. by destruct updated.
Qed.
Lemma create_all_guarded names crds h :
  (forall n, n ∈ (Crds.crd_name <$> crds) -> n ∈ names) -> guarded (of_crds names) (create_all crds) h.
Proof.
  revert h. induction crds as [|crd crds IH]; intros h Hin; cbn [Crds.create_all]; [apply guarded_ret|].
  apply guarded_bind; [apply CreateSingle_guarded, Hin, list_elem_of_here|].
  intros h1 [c [e|]] _; [apply guarded_ret|].
  apply guarded_bind; [apply IH; intros; by apply Hin, list_elem_of_further|].
  intros h2 [l d] _. apply guarded_ret.
Qed.

Lemma was_established_extend h h' name : h `prefix_of` h' -> was_established h name -> was_established h' name.
Proof. intros Hh (h1 & Hp & Hs). exists h1. split; [by trans h|done]. Qed.

Lemma established_true name h h' : Crds.established GetAnswer name h = (h', Ok (Some tt)) -> seen_established h' name.
Proof.
  unfold Crds.established. intros (h1 & r & Hr & H)%bind_inv. apply try_inv in Hr.
  unfold call in Hr. injection Hr as <- Hr. destruct r as [err|crd]; [by destruct (IsNotFound err)|].
  destruct (IsCRDConditionTrue _ _) eqn:E; [|done]. injection H as <-. split; [by rewrite last_snoc|].
  exists crd. split; [|done]. by apply of_result_inj.
Qed.
(** Success means established; and the definition that the caller keeps has the name. *)
Lemma CreateSingle_name crd h h' crd' r :
  CreateSingle crd h = (h', Ok (crd', r)) -> Crds.crd_name crd' = Crds.crd_name crd.
Proof.
  unfold Crds.CreateSingle. intros (h1 & [e|[c updated]] & _ & H)%bind_inv; [by injection H as _ <- _|].
  apply bind_inv in H as (h2 & [e|u] & _ & H).
  - injection H as _ <- _. by destruct updated.
  - apply bind_inv in H as (h3 & e & _ & H). injection H as _ <- _. by destruct updated.
Qed.
Lemma CreateSingle_ok crd h h' crd' :
  CreateSingle crd h = (h', Ok (crd', inr tt)) -> seen_established h' (Crds.crd_name crd).
Proof.
  intros Hc. pose proof (CreateSingle_name _ _ _ _ _ Hc) as En. revert Hc.
  unfold Crds.CreateSingle. intros (h1 & [e|[c updated]] & _ & H)%bind_inv; [done|].
  apply bind_inv in H as (h2 & [e|u] & _ & H); [done|].
  apply bind_inv in H as (h3 & e & He & H). injection H as -> <- ->. apply try_inv in He.
  apply (poll_infinite_inv (fun _ => True)) in He as (h4 & _ & He); [|done..].
  apply established_true in He. by rewrite En in He.
Qed.
Lemma create_all_ok crds h h' crds' :
  create_all crds h = (h', Ok (crds', Some tt)) ->
  (Crds.crd_name <$> crds') = (Crds.crd_name <$> crds) /\
  forall n, n ∈ (Crds.crd_name <$> crds) -> was_established h' n.
Proof.
  revert h h' crds'. induction crds as [|crd crds IH]; intros h h' crds' H; cbn [Crds.create_all] in H.
  { injection H as <- <-. split; [done|]. by intros n ?%not_elem_of_nil. }
  apply bind_inv in H as (h1 & [crd1 [e|[]]] & Hc & H); [done|].
  apply bind_inv in H as (h2 & [rest done] & Hr & H). injection H as -> <- ->.
  pose proof (CreateSingle_name _ _ _ _ _ Hc) as En. apply CreateSingle_ok in Hc.
  assert (Hp : h1 `prefix_of` h').
  { pose proof (create_all_guarded (Crds.crd_name <$> crds) crds h1 ltac:(done)) as (t & Ht & _).
    rewrite Hr in Ht. by exists t. }
  destruct (IH _ _ _ Hr) as [E Hall]. rewrite !fmap_cons, En, E. split; [done|].
  intros n [->|Hn]%elem_of_cons; [|by apply Hall]. exists h1. by split.
Qed.
Lemma create_all_names crds h h' crds' r :
  create_all crds h = (h', Ok (crds', r)) -> (Crds.crd_name <$> crds') = (Crds.crd_name <$> crds).
Proof.
  revert h h' crds' r. induction crds as [|crd crds IH]; intros h h' crds' r H; cbn [Crds.create_all] in H.
  { by injection H as _ <- _. }
  apply bind_inv in H as (h1 & [crd1 e] & Hc & H). apply CreateSingle_name in Hc. destruct e as [e|u].
  { injection H as _ <- _. by rewrite !fmap_cons, Hc. }
  apply bind_inv in H as (h2 & [rest done] & Hr & H). injection H as _ <- _.
  by rewrite !fmap_cons, Hc, (IH _ _ _ _ Hr).
Qed.

(** C29: the server's types are there before anything is built on them. When [Bootstrap]
    returns, each of its definitions has been seen to be established, whatever errors,
    races with other servers and repetitions came before; and however it ends, it only
    creates those that it has just asked for, and only updates those that it has just
    found, at the version found. *)
Theorem definitions_are_established h crds :
  Crds.read_crds Unmarshal any_object Crds.bootstrapped_types = Ok crds ->
  guarded (of_crds (Crds.crd_name <$> crds)) Bootstrap h /\
  forall h', Bootstrap h = (h', Ok tt) -> forall crd, crd ∈ crds -> was_established h' (Crds.crd_name crd).
Proof.
  intros Hcrds. assert (Hkeep : forall l h h' l', (Crds.crd_name <$> l) = (Crds.crd_name <$> crds) ->
    create_all l h = (h', Ok (l', None)) -> (Crds.crd_name <$> l') = (Crds.crd_name <$> crds)).
  { intros l h1 h2 l' El Hc. apply create_all_names in Hc. congruence. }
  unfold Crds.Bootstrap. split.
  - apply guarded_bind; [apply guarded_lift|]. intros h1 crds1 H1. rewrite Hcrds in H1. injection H1 as <- <-.
    apply guarded_bind; [|intros h2 [l d] _; apply guarded_ret].
    apply (guarded_poll _ (fun l => (Crds.crd_name <$> l) = (Crds.crd_name <$> crds))); [|exact Hkeep|done].
    intros l h1 El. apply create_all_guarded. by rewrite El.
  - intros h' (h1 & crds1 & Hr & H)%bind_inv crd Hin.
    rewrite Hcrds in Hr. injection Hr as <- <-. apply bind_inv in H as (h2 & [crds2 []] & H & E).
    injection E as ->. apply (poll_inv (fun _ l => (Crds.crd_name <$> l) = (Crds.crd_name <$> crds))) in H
      as (l & h2 & El & H); [|by intros; eapply Hkeep|done].
    apply create_all_ok in H as [_ H]. apply H. rewrite El. by apply list_elem_of_fmap_2.
Qed.

(** The definition that is given to [CreateSingle] keeps the version of an object that was
    found; should that object then be deleted, no round creates another one, as a new
    object may not have a version. *)
Lemma kept_version_is_refused crd h :
  ResourceVersion (crd_Meta crd) <> "" ->
  (forall h, exists e, GetAnswer h = inl e /\ IsNotFound e = true) ->
  (forall h new, ResourceVersion (crd_Meta new) <> "" -> last h = Some (Crds.CreateCRD new) ->
     exists e, CreateAnswer h = inl e /\ IsAlreadyExists e = false) ->
  exists h', PollImmediateInfinite retries create_all [crd] h = (h', Err still_waiting).
Proof.
  intros Hv Hget Hcreate. revert h. induction retries as [|n IH]; intros h.
  { rewrite PollImmediateInfinite_none. by eexists. }
  destruct (Hget (h ++ [Crds.GetCRD (Crds.crd_name crd)])) as (e1 & E1 & N1).
  destruct (Hcreate ((h ++ [Crds.GetCRD (Crds.crd_name crd)]) ++ [Crds.CreateCRD crd]) crd Hv) as (e2 & E2 & N2);
    [by rewrite last_snoc|].
  destruct (IH ((h ++ [Crds.GetCRD (Crds.crd_name crd)]) ++ [Crds.CreateCRD crd])) as [h' H'].
  exists h'. rewrite PollImmediateInfinite_round, <-H'.
  cbn [Crds.create_all]. unfold Crds.CreateSingle, Crds.get_or_create, mbind, M_bind, try, call.
  rewrite E1. cbn. rewrite N1, E2. cbn. by rewrite N2.
Qed.
End crds.

(** ** The hooks *)

Section hooks.
Import Hooks.
Variable root_shard : bool.
#[local] Abbreviation hook_step := (hook_step root_shard).
#[local] Abbreviation step := (step root_shard).

Lemma hooks_distinct : NoDup (hook_name <$> hooks).
Proof. apply (bool_decide_unpack _). by vm_compute. Qed.
Lemma hook_by_name g h : g ∈ hooks -> h ∈ hooks -> hook_name g = hook_name h -> g = h.
Proof. apply fmap_NoDup_inj, hooks_distinct. Qed.
Lemma hook_by_work g h : g ∈ hooks -> h ∈ hooks -> hook_work g = hook_work h -> g = h.
Proof. apply fmap_NoDup_inj, (bool_decide_unpack _). by vm_compute. Qed.

(** The server registers all its hooks: their names differ, so that the registry
    takes them whenever the core server has not taken one of the names, and [Run] then
    goes on to listen; a controller that cannot be made ends it instead. *)
Theorem hooks_are_registered `{!HookLib} NewController names :
  (forall n, n ∈ names -> n ∉ (hook_name <$> hooks)) ->
  ((forall c, NewController c = None) -> register NewController names hooks = inr (names ++ (hook_name <$> hooks))) /\
  (forall c err, c ∈ controllers -> NewController c = Some err -> exists err', register NewController names hooks = inl err').
Proof.
  intros Hnames. split.
  - intros Hc. assert (Hne : Forall (fun h => hook_name h <> "") hooks) by (repeat constructor; done).
    pose proof hooks_distinct as Hd. revert names Hnames Hne Hd. induction hooks as [|h l IH]; intros names Hn Hne Hd.
    { by rewrite app_nil_r. }
    cbn [register]. unfold install. apply Forall_cons in Hne as [Hne1 Hne].
    rewrite fmap_cons in Hd |- *. apply NoDup_cons in Hd as [Hd1 Hd].
    assert ((match hook_work h with StartController c => NewController c | _ => None end) = None) as ->
      by (by destruct (hook_work h)).
    rewrite AddPostStartHook_new; [|done|intros Hin; by apply (Hn _ Hin), list_elem_of_here].
    rewrite IH; [by rewrite <-app_assoc| |done..].
    intros n [Hin|Hin%list_elem_of_singleton]%elem_of_app; [|by subst].
    intros Hl. by apply (Hn n Hin), list_elem_of_further.
  - intros c err Hc Herr. clear Hnames. unfold controllers in Hc. apply elem_of_list_to_set in Hc. revert names Hc.
    induction hooks as [|h l IH]; intros names Hc; [by apply not_elem_of_nil in Hc|].
    cbn [register]. unfold install. cbn [omap list_omap] in Hc.
    destruct (hook_work h) as [| | | |c'] eqn:Ew;
      try (destruct (AddPostStartHook names (hook_name h)); [by eexists|by apply IH]).
    destruct (NewController c') as [e|] eqn:Ec; [by eexists|].
    destruct (AddPostStartHook names (hook_name h)); [by eexists|]. apply IH.
    apply elem_of_cons in Hc as [->|Hc]; [congruence|done].
Qed.

(** What a hook that went through has done. *)
Definition done_by (h : hook) (s : server) : Prop :=
  match hook_work h with
  | CreateDefinitions => phase1 s = true
  | StartInformers => phase2 s = true
  | BootstrapRoot => root_shard = true -> root_assets s = true
  | BootstrapCompute => root_shard = true -> compute_assets s = true
  | StartController c => c ∈ running s
  end.
Lemma done_by_perform g h s : done_by g s -> done_by g (perform root_shard h s).
Proof.
  unfold done_by. destruct g as [n []]; cbn; intros H.
  - by destruct (hook_work h).
  - by destruct (hook_work h).
  - intros Hr. specialize (H Hr). by destruct (hook_work h); rewrite ?H, ?Hr.
  - intros Hr. specialize (H Hr). by destruct (hook_work h); rewrite ?H, ?Hr.
  - destruct (hook_work h); set_solver.
Qed.
Lemma done_by_itself h s : done_by h (perform root_shard h s).
Proof. unfold done_by. destruct h as [n []]; cbn; [done|done|by intros ->|by intros ->|set_solver]. Qed.
Lemma controller_listed h c : h ∈ hooks -> hook_work h = StartController c -> c ∈ controllers.
Proof.
  intros Hh Hw. apply elem_of_list_to_set, list_elem_of_omap. exists h. split; [done|]. by rewrite Hw.
Qed.
Lemma controller_hooked c : c ∈ controllers -> exists h, h ∈ hooks /\ hook_work h = StartController c.
Proof.
  intros (h & Hh & Hc)%elem_of_list_to_set%list_elem_of_omap. exists h. split; [done|].
  destruct (hook_work h); naive_solver.
Qed.

Ltac in_hooks := apply (bool_decide_unpack _); vm_compute; reflexivity.

(** The order of the start. *)
Record ordered (s : server) : Prop := {
  after_phase2 c : c ∈ running s -> phase2 s = true /\ c ∈ controllers;
  after_informers : phase2 s = true -> informers s = true;
  after_phase1 : informers s = true -> phase1 s = true;
  after_core : phase1 s = true -> definitions s = true /\ core_synced s = true;
  (** A channel is open as long as the hook that closes it has not returned. *)
  open_channels h : h ∈ hooks -> hook_name h ∈ waiting s ->
    (hook_work h = CreateDefinitions -> phase1 s = false) /\ (hook_work h = StartInformers -> phase2 s = false);
  exits : exited s = true -> stopped s = true;
}.
(** A hook has returned because it has done its work, unless the server stops; and it
    returns once. *)
Record accounted (s : server) : Prop := {
  returned h : stopped s = false -> h ∈ hooks -> hook_name h ∉ waiting s -> done_by h s;
  listed : waiting s ⊆ list_to_set (hook_name <$> hooks);
}.
Lemma ordered_hook s s' : hook_step s s' -> ordered s -> ordered s'.
Proof.
  intros [h s0 Hh Hw Hr|h s0 Hh Hw Hs] [O1 O2 O2' O3 O4 O5].
  - destruct (O4 h Hh Hw) as [Hc1 Hc2]. split; cbn.
    + intros c Hc. destruct (hook_work h) as [| | | |c'] eqn:E;
        [by apply O1|by split; [|apply O1]|by apply O1|by apply O1|]. split; [done|].
      apply elem_of_union in Hc as [->%elem_of_singleton|Hc]; [by eapply controller_listed|by apply O1].
    + destruct (hook_work h); cbn in Hr |- *; auto.
    + destruct (hook_work h); cbn in Hr |- *; auto.
    + destruct (hook_work h); cbn in Hr |- *; done.
    + intros g Hg [Hgw Hgh%not_elem_of_singleton]%elem_of_difference. destruct (O4 g Hg Hgw) as [Hg1 Hg2].
      split; intros E; destruct (hook_work h) eqn:Eh; try (by auto);
        contradict Hgh; f_equal; apply hook_by_work; congruence.
    + done.
  - split; cbn; try done. intros g Hg [Hgw _]%elem_of_difference. by apply O4.
Qed.
Lemma accounted_hook s s' : hook_step s s' -> accounted s -> accounted s'.
Proof.
  intros [h s0 Hh Hw Hr|h s0 Hh Hw Hs] [A1 A2]; (split; cbn; [|set_solver]); [|congruence].
  intros g Hs Hg Hgw. destruct (decide (g = h)) as [->|Hne]; [apply done_by_itself|].
  apply done_by_perform, A1; [done..|]. intros Hin. apply Hgw, elem_of_difference. split; [done|].
  intros E%elem_of_singleton. by apply Hne, hook_by_name.
Qed.
Lemma reachable_ordered s : rtc step initial s -> ordered s /\ accounted s.
Proof.
  apply (rtc_ind_r (fun s => ordered s /\ accounted s) initial).
  - split; split; try (intros H; discriminate H).
    + intros c Hc. by apply (not_elem_of_empty (C := gset string)) in Hc.
    + by intros h _ _.
    + intros h _ Hh []. by apply elem_of_list_to_set, list_elem_of_fmap_2.
    + reflexivity.
  - intros s1 s2 _ Hstep [O A]. destruct Hstep as [s1 s2 H|s1|s1].
    + split; [by eapply ordered_hook|by eapply accounted_hook].
    + destruct O, A. by repeat split; naive_solver.
    + destruct O, A. split; [by split; cbn; naive_solver|]. by split.
Qed.

(** Nothing runs too early: in every interleaving of the hooks, with the server
    stopping or not, a controller runs only after the informers are in sync, which happens
    only after the definitions are there, and those are created only on a core server
    that is up; a channel is closed by one hook, which runs once; and the process ends
    only when it is told to. *)
Theorem controllers_run_last s :
  rtc step initial s ->
  (forall c, c ∈ running s -> c ∈ controllers /\ phase2 s = true) /\
  (phase2 s = true -> informers s = true) /\
  (informers s = true -> definitions s = true) /\
  (phase1 s = true -> definitions s = true /\ core_synced s = true) /\
  (forall h, h ∈ hooks -> hook_name h ∈ waiting s ->
     (hook_work h = CreateDefinitions -> phase1 s = false) /\ (hook_work h = StartInformers -> phase2 s = false)) /\
  (exited s = true -> stopped s = true).
Proof.
  intros [[O1 O2 O2' O3 O4 O5] _]%reachable_ordered. repeat split; naive_solver.
Qed.

Lemma hook_step_size s s' : hook_step s s' -> size (waiting s') < size (waiting s).
Proof. intros [h s0 _ Hw _|h s0 _ Hw _]; cbn; apply subset_size; set_solver. Qed.
Lemma hook_step_keeps s s' : hook_step s s' -> core_synced s' = core_synced s /\ stopped s' = stopped s.
Proof. by intros []. Qed.
Lemma rtc_hook_step_keeps s s' : rtc hook_step s s' -> core_synced s' = core_synced s /\ stopped s' = stopped s.
Proof. induction 1 as [|s1 s2 s3 H%hook_step_keeps _ IH]; [done|]. destruct H, IH; split; congruence. Qed.
Lemma nsteps_bound n s s' : nsteps hook_step n s s' -> n + size (waiting s') <= size (waiting s).
Proof. induction 1 as [|n s1 s2 s3 H%hook_step_size _ IH]; lia. Qed.

End hooks.

Module Examples.
#[local] Existing Instances simple_errors simple_polls.
#[local] Instance schemas_as_text : SchemaCompatLib := {|
  JSONSchemaProps := string; MarshalSchema s := inr (default "" s); UnmarshalSchema := inr;
  EnsureStructuralSchemaCompatibility _ existing _ _ := inr existing;
  CompareKubeAwareVersionStrings _ _ := 0%Z; IsProtectedCommunityGroup _ := false;
  IsCRDConditionTrue l t := bool_decide ((t, ConditionTrue) ∈ l); IsCRDConditionFalse _ _ := false;
  GroupVersionString g v := g +:+ "/" +:+ v; MetaGVRString g := gvr_Resource g |}.
Definition definition (name : string) : CustomResourceDefinition := {|
  crd_Meta := mk_meta name "" None None []; crd_Generation := 1%Z; crd_Group := "workload.kcp.io";
  crd_Names := {| Plural := name; Singular := name; ShortNames := []; Kind := name; ListKind := name; Categories := [] |};
  crd_Scope := "Cluster"; crd_Versions := []; crd_Conditions := [] |}.
Definition found (version : string) (crd : CustomResourceDefinition) : CustomResourceDefinition := {|
  crd_Meta := crd_Meta (Crds.with_version crd version); crd_Generation := crd_Generation crd;
  crd_Group := crd_Group crd; crd_Names := crd_Names crd; crd_Scope := crd_Scope crd;
  crd_Versions := crd_Versions crd; crd_Conditions := [(Crds.Established, ConditionTrue)] |}.
(** An API server without definitions, where the first of them takes a while to be
    created, and another one is created by someone else meanwhile. *)
Definition not_found : error := ErrLib "NotFound" "no such definition".
Definition asks (n : string) (e : Crds.crd_call) : bool :=
  match e with Crds.GetCRD m => bool_decide (m = n) | _ => false end.
Definition get (h : list Crds.crd_call) : result CustomResourceDefinition :=
  match last h with
  | Some (Crds.GetCRD n) =>
      let looks := length (List.filter (asks n) h) in
      if looks =? 1 then inl not_found else inr (found "5" (definition n))
  | _ => inl not_found
  end.
Definition create (h : list Crds.crd_call) : result CustomResourceDefinition :=
  match last h with
  | Some (Crds.CreateCRD crd) =>
      if bool_decide (crd_Group crd = "scheduling.kcp.io") then inl (ErrLib "AlreadyExists" "already exists")
      else inr crd
  | _ => inl not_found
  end.
Definition read_file (s : string) : result CustomResourceDefinition :=
  inr (match Cut s "_" with
       | Some (g, r) => let crd := definition (r +:+ "." +:+ g) in
           {| crd_Meta := crd_Meta crd; crd_Generation := 1%Z; crd_Group := g; crd_Names := crd_Names crd;
              crd_Scope := "Cluster"; crd_Versions := crd_Versions crd; crd_Conditions := [] |}
       | None => definition s
       end).
Definition server_crds : list CustomResourceDefinition :=
  match Crds.read_crds read_file "any" Crds.bootstrapped_types with Ok l => l | _ => [] end.
Definition update (h : list Crds.crd_call) : result CustomResourceDefinition := inr (definition "").
Definition bootstrap : M Crds.crd_call unit := Crds.Bootstrap get create update read_file "any" 3 3.

Lemma definitions_are_established_witness :
  length server_crds = 5 /\ guarded (of_crds get (Crds.crd_name <$> server_crds)) bootstrap [] /\
  forall crd, crd ∈ server_crds -> was_established get (bootstrap []).1 (Crds.crd_name crd).
Proof.
  split; [reflexivity|].
  destruct (definitions_are_established get create update read_file "any" 3 3 [] server_crds) as [G E];
    [reflexivity|]. split; [exact G|]. apply E. vm_compute. reflexivity.
Defined.
(** The last of them is updated, as someone else has created it. *)
Example updates_those_of_others :
  List.filter (fun e => match e with Crds.UpdateCRD _ => true | _ => false end) (bootstrap []).1 =
  [Crds.UpdateCRD (Crds.with_version (default (definition "") (server_crds !! 1)) "5");
   Crds.UpdateCRD (Crds.with_version (default (definition "") (server_crds !! 2)) "5")].
Proof. vm_compute. reflexivity. Qed.

(** The definition was there, at version 5, but its update is refused; then someone deletes
    it. From then on every round asks for a new object at version 5. *)
Definition get_deleted (h : list Crds.crd_call) : result CustomResourceDefinition :=
  if length h =? 1 then inr (found "5" (definition "synctargets")) else inl not_found.
Definition create_new (h : list Crds.crd_call) : result CustomResourceDefinition :=
  match last h with
  | Some (Crds.CreateCRD crd) =>
      if bool_decide (ResourceVersion (crd_Meta crd) = "") then inr crd
      else inl (ErrLib "Invalid" "resourceVersion should not be set on objects to be created")
  | _ => inl not_found
  end.
Definition refuse (h : list Crds.crd_call) : result CustomResourceDefinition := inl (ErrLib "Conflict" "modified").
Example deleted_definition_is_not_created :
  let new := Crds.with_version (definition "synctargets") "5" in
  PollImmediateInfinite 3 (Crds.create_all get_deleted create_new refuse 3) [definition "synctargets"] [] =
  ([Crds.GetCRD "synctargets"; Crds.UpdateCRD new; Crds.GetCRD "synctargets"; Crds.CreateCRD new;
    Crds.GetCRD "synctargets"; Crds.CreateCRD new], Err still_waiting).
Proof. vm_compute. reflexivity. Qed.

(** The hooks. *)
#[local] Program Instance registry : Hooks.HookLib := {|
  Hooks.AddPostStartHook names n :=
    if bool_decide (n = "" \/ n ∈ names) then Some (ErrMsg "not registered") else None |}.
Next Obligation. intros names n Hn Hin. cbn. case_bool_decide; naive_solver. Qed.
Next Obligation. intros names n Hin. cbn. case_bool_decide; naive_solver. Qed.
Definition core_hooks : list string := ["start-kube-apiserver-admission-initializer"].
Lemma hooks_are_registered_witness :
  Hooks.register (fun _ => None) core_hooks Hooks.hooks = inr (core_hooks ++ (Hooks.hook_name <$> Hooks.hooks)).
Proof.
  apply hooks_are_registered; [|done]. intros n ->%list_elem_of_singleton.
  apply (bool_decide_unpack _). vm_compute. reflexivity.
Defined.

(** Hooks that go through one after the other, on the root shard. *)
Definition core_up : Hooks.server := Hooks.set_core Hooks.initial.
Definition go (l : list Hooks.hook) : Hooks.server := foldl (fun s h => Hooks.perform true h s) core_up l.
Fixpoint runnable (s : Hooks.server) (l : list Hooks.hook) : bool :=
  match l with
  | [] => true
  | h :: l => bool_decide (h ∈ Hooks.hooks /\ Hooks.hook_name h ∈ Hooks.waiting s) &&
      Hooks.ready (Hooks.hook_work h) s && runnable (Hooks.perform true h s) l
  end.
Lemma go_steps l : runnable core_up l = true -> nsteps (Hooks.hook_step true) (length l) core_up (go l).
Proof.
  unfold go. generalize core_up. induction l as [|h l IH]; intros s H; [constructor|].
  cbn in H. apply andb_true_iff in H as [[[Hh Hw]%bool_decide_eq_true Hr]%andb_true_iff H].
  cbn [length foldl]. eapply nsteps_l; [by apply Hooks.step_perform|by apply IH].
Qed.
Definition started : Hooks.server :=
  go [Hooks.cache_hook; Hooks.informers_hook; Hooks.controller_hook "tmc-workload-placement"].
Lemma go_reachable l : runnable core_up l = true -> rtc (Hooks.step true) Hooks.initial (go l).
Proof.
  intros H. apply (rtc_l _ _ core_up); [apply Hooks.step_core|].
  apply (rtc_congruence (R := Hooks.hook_step true) id); [intros ??; apply Hooks.step_hook|].
  eapply rtc_nsteps_2, go_steps, H.
Qed.
Lemma controllers_run_last_witness :
  "tmc-workload-placement" ∈ Hooks.running started /\ Hooks.definitions started = true.
Proof.
  split; [apply (bool_decide_unpack _); by vm_compute|].
  destruct (controllers_run_last true started) as (_ & _ & H & _);
    [apply go_reachable; vm_compute; reflexivity|].
  by apply H.
Defined.
End Examples.
